(* ===== verification/_CoqProject ===== *)
-Q . S2P
Prelude.v
Frame.v
Heap.v
Bytes.v
Signal.v
Path.v
Vfs.v
Pipe.v
RamFs.v
File.v
Fs.v
DevFs.v
Devices.v
Drivers.v
Lwext4.v
Ext4.v
Fat.v
Ext4Rs.v
Time.v
Futex.v
Ipc.v
Executor.v
PageTable.v
MemSet.v
Process.v
Mm.v
Shm.v
Fork.v
UserMem.v
Fd.v
SigFrame.v
Entry.v
Boot.v
Exec.v
SysInfo.v
Socket.v
Epoll.v
Tasks.v
Isolation.v
Dispatch.v
InitProc.v
Launch.v
Script.v
