(* ===== verification/Prelude.v ===== *)
(** * The MonkeyOS kernel

    A model of the kernel in [src/] (Rust, RISC-V target) and proofs about it.

    ** The program and its parts

    The kernel runs user programs as asynchronous tasks.  At the bottom are the
    physical frame allocator and the kernel heap ([crates/runtime]) and the
    page tables ([vendor/polyhal]).  A process ([kernel/src/tasks]) owns a list
    of memory areas over reference-counted frames, a descriptor table, signal
    state, futex queues and its threads; the page-fault handler
    ([kernel/src/user/mod.rs]) fills its pages on demand and copies them on
    write after a fork.  Files are inodes behind the trait of
    [filesystem/vfscore], found through the mount table and wrapped in [File]
    objects ([filesystem/fs]); the RAM file system, the adapter of the ext4
    library, pipes, sockets, terminals and the files of [/proc] implement the
    trait.  Below them are block devices and a third-party network stack.
    System calls ([kernel/src/syscall]) work on the calling process and on
    global tables (shared memory, semaphores, message queues); calls that wait
    are futures the executor ([crates/executor]) polls in turn.

    ** Files

    - [Prelude]: outcomes (a value or a panic), state passing, errors, 64-bit
      arithmetic, tactics and shared lemmas.
    - [Frame]: [crates/runtime/src/frame.rs], the bitmap allocator.
    - [Heap]: [crates/runtime/src/heap.rs], the large-block allocator and the
      routing between it and the buddy allocator (a parameter).
    - [Bytes]: ranges of bytes in pages, shared by files and memory.
    - [Signal]: [crates/signal], [tasks/signal.rs], [check_signal] of
      [user/entry.rs], the trap frame and [syscall/signal.rs].
    - [Path]: [fs/src/pathbuf.rs] and [dentry.rs].
    - [Vfs]: the inode trait as the record [INodeOps] over a store and handles,
      its default methods, [Stat] and the poll functions of blocking I/O.
    - [Pipe]: [fs/src/pipe.rs]; [RamFs]: [filesystem/ramfs]; both give
      instances of the inode interface.
    - [File]: [fs/src/file.rs], proved against the inode interface; [Fs]
      discharges the interface for the RAM file system.
    - [Time]: time values, [setitimer], clocks and sleeping.
    - [Futex]: [tasks/async_ops.rs] and [sys_futex].
    - [Ipc]: semaphores and message queues of [syscall/shm.rs].
    - [Executor]: the task queue of [crates/executor].
    - [PageTable]: Sv39 tables in RAM, with the walk of the MMU as the abstract
      view.
    - [MemSet]: [tasks/memset.rs], areas and reference counts.
    - [Process]: control blocks, descriptor table and exit paths of
      [tasks/task.rs] and [tasks/filetable.rs].
    - [Mm]: mapping, the page-fault handler and [syscall/mm.rs].
    - [Shm]: shared memory segments; [Fork]: [UserTask::new] and [cow_fork].
    - [Fd]: the system calls of [syscall/fd.rs].
    - [UserMem]: loads and stores of user memory through the page tables and
      the fault handler; [SigFrame]: [user/signal.rs], the frame of a signal
      handler and the trap; [Entry]: [user/entry.rs], the loop of a task as
      the executor polls it, over the timer, the signals and the traps; [Exec]:
      [tasks/exec.rs] and [tasks/elf.rs], loading a program and building its
      first stack.
    - [SysInfo]: [syscall/sys.rs] and the calls that report counters.
    - [DevFs]: [filesystem/devfs] and [filesystem/procfs]; [Devices]: the
      device table, block devices, the disks under the ext4 adapters and
      registers; [Lwext4]: [vendor/lwext4_rust/src/file.rs], the files of the
      ext4 library over its C functions; [Ext4]: [fs/src/ext4_shim.rs] over
      them;
      [Ext4Rs]: [fs/src/ext4_rs_shim.rs], the adapter of the other ext4
      library; [Fat]: [fs/src/fatfs_shim.rs], the FAT adapter and its cursor
      over a block device.
    - [Drivers]: finding devices: [driver/kvirtio], [driver/ns16550a] and the
      table of [crates/devices], from the device tree and the PCI bus; memory
      for DMA; packets.
    - [Socket]: sockets and socket pairs over the network stack; [Epoll]: the
      epoll files of [syscall/fd.rs].  Both downcast an inode, which [Fd]
      states as the class [Host].
    - [Tasks]: several tasks at once: [syscall/task.rs] (clone, wait4, exit,
      kill, setsid, ...) over the executor's tables; [Isolation]: any number of
      processes on one memory, and the machine with a memory for each that
      they refine.
    - [Dispatch]: [syscall/mod.rs], from numbers and registers to handlers;
      [InitProc]: the command lines of [tasks/initproc.rs]; [Launch]: starting
      a program and waiting for it, killing all tasks; [Script]: the command
      lines the first process runs, on both architectures, and the process as
      a state machine among the other tasks.
    - [Boot]: [kernel/src/main.rs] and [fs/src/lib.rs]: the memory areas, the
      mounts, and traps taken in the kernel.

    ** How state and operations correspond

    A struct is a [Record] with the struct's fields, an enum an [Inductive], a
    bit set a [Z].  A [usize] is a [Z] in [0, 2^64) and the arithmetic the code
    does on it wraps ([+w], [*w], ...): the release profile does not check
    overflow.  A method that may panic returns an [outcome]; a state-changing
    one is a function of the state it can reach ([ST], or [vfs]/[K] when it
    also returns an errno).  Objects shared by [Arc] live in a store and are
    named by a number; where the strong count matters it is kept.  A static is
    a field of the state.  A lock is held for the duration of the operation it
    protects, so operations on one object are sequences of steps; a call that
    waits is modelled by its [poll] function.  A pointer argument of a syscall
    is what it points to: [None] for null, a string or bytes otherwise.
    Logging is dropped.

    Loops that are not structural take fuel; running out of it is a [Panic], so
    a theorem that gives a [Val] result also shows that the loop ends.  The
    fuel is an upper bound of the number of rounds: the length of the list the
    loop consumes, the number of pages of a range, the number of queued
    signals.

    ** What the theorems show

    - Memory: no frame is handed out twice over any history of the allocator;
      single and contiguous allocation refine a finite set of free pages; page
      tables refine a partial map from pages to frames, by the MMU's own walk;
      [munmap] uncovers exactly its range; a private fault ends in a frame of
      the page's own; anonymous memory starts zeroed; processes that store,
      fork and end in any order and number refine a machine with a separate
      memory for each, as long as the word a leaving thread clears
      ([clear_child_tid]) lies in memory it does not share with a forked child;
      shared memory segments, once made, never give their frames back; heap blocks never overlap below the reset threshold.
    - Files: a byte written is the byte read (RAM file system, and [File] over
      any inode with that contract); directory listings report every entry
      once; paths are normalised and print and parse back; a pipe delivers a
      prefix of what was written, in order; descriptors refine a finite map.
    - Processes: exit of the last thread, when it is the main one, releases what the
      process owns, clears the word it was asked to clear, wakes its waiters
      and signals the parent;
      signals are delivered in order, once per queued instance; a futex wake
      releases exactly the first waiters; the executor is fair; message queues
      are first-in first-out per type.
    - Programs: the loaded segments hold the bytes of the file and zeros, the
      first stack reads back as the arguments, environment and auxiliary
      vector, and a signal handler that returns resumes the thread with its
      registers and mask; a fatal signal ends a task at its next poll, without
      running user code again, even while it waits in a call.
    - Devices and network: a terminal delivers what was typed, in order; of what
      arrives at a socket, reads deliver every byte in order and [recvfrom]
      drops exactly the part of a message that does not fit its buffer;
      [epoll_wait] reports exactly what is ready when its turn begins; blocks
      written to a disk are read back; a file of the root file system reads
      back what was written, its directories list every entry, and its names
      resolve to their components.
    - System: every child is reported by [wait4] at most once, and the status
      it stores decodes to how the child ended; a call number selects one
      handler.
    - Start-up and the first process: the frame allocator holds, free and once,
      exactly the pages that lie inside the memory areas the platform reports; address windows
      given to PCI devices are disjoint; the FAT cursor reads and writes the
      disk as one string of bytes; a command line starts one task, a failed one
      none, and in every interleaving with other tasks the script's lines are
      started in order, each after the one before it ended.
    - Where the code does not do what it means to, a theorem shows it: the
      emergency reset of the heap, lost wakeups after a timeout, the word a leaving thread
      clears in memory it still shares with a forked child, the page left
      mapped by a splitting [munmap], segments that are never freed, messages
      lost by blocking calls, a process whose main thread leaves first, the
      image lost by a failed [exec], limits and short buffers that panic the
      kernel, descriptors two [accept] calls share, the last block of the RAM
      disk, writes beyond the end of a file of the root file system, names of 255
      bytes that stop the kernel when a directory is read.

    ** Not modelled, and why

    - [run_glibc_tests] of [tasks/initproc.rs] (never called), and the code that
      only prints ([logging.rs], [panic.rs], the register dumps of
      [driver/kvirtio/src/lib.rs], [alloc_error_handler]).
    - The rest of [vendor/polyhal] (start-up assembly, other architectures'
      page tables and trap frames) and the methods of [virtio_input.rs], which
      are [todo!()].
    - The network stack ([vendor/lose-net-stack]), the C part of the ext4
      library, the FAT, virtio, PCI, ELF and buddy-allocator crates: third
      party, parameters with the laws the kernel relies on.
    - [sstatus] and [fsx] of a trap frame: the trap code saves and restores
      them, and the modelled operations copy them with the frame or leave them
      alone.
    - Characters the UART drops before the kernel fetches them.
    - Calls that exist only on x86_64.
    - The moment the last reference to an open file goes away: what happens
      then is modelled (a pipe end's count, [socket_drop]), but no call counts
      the references to open files.  Likewise the page table of an ended task
      stays allocated in the histories of [Isolation], and so does the memory of
      a program that could not be started ([let_go] of [Launch]): the frames go
      back when the last reference to the task does. *)

From Stdlib Require Export ZArith Lia.
From stdpp Require Export gmap strings list numbers.
Export list_basics.list list_relations.list list_monad.list list_misc.list list_numbers.list.

(** ** Outcomes

    A kernel function either returns a value or panics ([unwrap] on [None],
    an index out of range, a failed [assert!]).  Functions that can panic
    return an [outcome]. *)
Inductive outcome (A : Type) : Type :=
  | Val (a : A)
  | Panic.
Arguments Val {A} a.
Arguments Panic {A}.

#[export] Instance outcome_ret : MRet outcome := λ A a, Val a.
#[export] Instance outcome_bind : MBind outcome :=
  λ A B f m, match m with Val a => f a | Panic => Panic end.
#[export] Instance outcome_fmap : FMap outcome :=
  λ A B f m, match m with Val a => Val (f a) | Panic => Panic end.

(** [Option::unwrap] and slice indexing. *)
Definition unwrap {A} (o : option A) : outcome A :=
  match o with Some a => Val a | None => Panic end.

(** [assert!] *)
Definition assert_ (b : bool) : outcome unit := if b then Val tt else Panic.

(** ** Error numbers

    The constructors of [syscalls::Errno] the kernel returns. *)
Inductive Errno : Type :=
  | EPERM | ENOENT | ESRCH | EINTR | EBADF | ECHILD | EAGAIN | EWOULDBLOCK
  | ENOMEM | EFAULT | EEXIST | ENODEV | ENOTDIR | EISDIR | EINVAL | EMFILE
  | ENOTTY | ESPIPE | ENOMSG | E2BIG | ETIMEDOUT | ENOSYS | ENOTEMPTY | ENFILE | EAFNOSUPPORT | EALREADY
  | ERRNO (code : Z).   (* any other number *)

#[export] Instance Errno_eq_dec : EqDecision Errno.
Proof. solve_decision. Defined.

(** [core::result::Result<T, Errno>] *)
Inductive result (A : Type) : Type :=
  | Ok (a : A)
  | Err (e : Errno).
Arguments Ok {A} a.
Arguments Err {A} e.

#[export] Instance result_ret : MRet result := λ A a, Ok a.
#[export] Instance result_bind : MBind result :=
  λ A B f m, match m with Ok a => f a | Err e => Err e end.
#[export] Instance result_fmap : FMap result :=
  λ A B f m, match m with Ok a => Ok (f a) | Err e => Err e end.

(** [Option::ok_or] *)
Definition ok_or {A} (o : option A) (e : Errno) : result A :=
  match o with Some a => Ok a | None => Err e end.

(** ** Machine words

    [usize], [u64] and addresses are 64 bits wide on both targets and the
    kernel is built with the release profile, so [+], [-] and [*] wrap. *)
Declare Scope word_scope.
Local Open Scope Z_scope.
Delimit Scope word_scope with word.

Definition MAX64 : Z := 2 ^ 64.
Definition usize_max : Z := MAX64 - 1.
Definition wrap (z : Z) : Z := z mod MAX64.
Definition wadd (a b : Z) : Z := wrap (a + b).
Definition wsub (a b : Z) : Z := wrap (a - b).
Definition wmul (a b : Z) : Z := wrap (a * b).
(** bitwise complement [!x] *)
Definition wnot (a : Z) : Z := Z.lxor a (Z.ones 64).
(** [usize::saturating_sub] *)
Definition saturating_sub (a b : Z) : Z := Z.max 0 (a - b).
(** [usize::div_ceil] *)
Definition div_ceil (a b : Z) : Z :=
  let d := a / b in if 0 <? a mod b then d + 1 else d.

Infix "+w" := wadd (at level 50, left associativity) : word_scope.
Infix "-w" := wsub (at level 50, left associativity) : word_scope.
Infix "*w" := wmul (at level 40, left associativity) : word_scope.
Open Scope word_scope.

(** A value that fits a 64-bit word. *)
Definition word64 (z : Z) : Prop := (0 ≤ z < MAX64)%Z.

(** The page size of both targets (polyhal [PAGE_SIZE]). *)
Definition PAGE_SIZE : Z := 4096.

(** ** Automation *)
Create HintDb monkey discriminated.
Create HintDb words.

(** Case analysis on every [match], [if] and boolean comparison in sight. *)
Ltac zbool :=
  repeat match goal with
  | H : (_ <? _)%Z = true |- _ => apply Z.ltb_lt in H
  | H : (_ <? _)%Z = false |- _ => apply Z.ltb_ge in H
  | H : (_ <=? _)%Z = true |- _ => apply Z.leb_le in H
  | H : (_ <=? _)%Z = false |- _ => apply Z.leb_gt in H
  | H : (_ =? _)%Z = true |- _ => apply Z.eqb_eq in H
  | H : (_ =? _)%Z = false |- _ => apply Z.eqb_neq in H
  | H : (_ >=? _)%Z = _ |- _ => rewrite Z.geb_leb in H
  | H : (_ >? _)%Z = _ |- _ => rewrite Z.gtb_ltb in H
  | H : andb _ _ = true |- _ => apply andb_true_iff in H; destruct H
  | H : orb _ _ = false |- _ => apply orb_false_iff in H; destruct H
  | H : negb _ = true |- _ => apply negb_true_iff in H
  | H : negb _ = false |- _ => apply negb_false_iff in H
  end.

(** Unfold the word operations; [lia] then knows what they mean. *)
Ltac unfold_words :=
  unfold wadd, wsub, wmul, wrap, word64, usize_max, saturating_sub in *.

Lemma MAX64_pos : (0 < MAX64)%Z.
Proof. reflexivity. Qed.

Lemma wrap_small z : word64 z → wrap z = z.
Proof. intros H. by apply Z.mod_small. Qed.

Lemma wrap_range z : word64 (wrap z).
Proof. apply Z.mod_pos_bound, MAX64_pos. Qed.

Lemma wadd_small a b : word64 (a + b) → a +w b = (a + b)%Z.
Proof. apply wrap_small. Qed.

Lemma wsub_small a b : word64 (a - b) → a -w b = (a - b)%Z.
Proof. apply wrap_small. Qed.

Lemma wmul_small a b : word64 (a * b) → a *w b = (a * b)%Z.
Proof. apply wrap_small. Qed.

#[export] Hint Resolve wrap_range MAX64_pos : monkey.

(** Remove every word operation whose exact result fits; the side conditions
    are linear and go to [lia]. *)
Ltac word_lia := unfold word64, usize_max, MAX64 in *; lia.

Ltac no_wrap :=
  repeat match goal with
  | |- context [?a +w ?b] => rewrite (wadd_small a b) by word_lia
  | |- context [?a -w ?b] => rewrite (wsub_small a b) by word_lia
  | |- context [?a *w ?b] => rewrite (wmul_small a b) by word_lia
  end.

Ltac no_wrap_in H :=
  repeat match type of H with
  | context [?a +w ?b] => rewrite (wadd_small a b) in H by word_lia
  | context [?a -w ?b] => rewrite (wsub_small a b) in H by word_lia
  | context [?a *w ?b] => rewrite (wmul_small a b) in H by word_lia
  end.

Lemma div_ceil_eq a b : (0 ≤ a)%Z → (0 < b)%Z → div_ceil a b = ((a + b - 1) / b)%Z.
Proof.
  intros Ha Hb. unfold div_ceil.
  pose proof (Z.div_mod a b ltac:(lia)) as Hdm.
  pose proof (Z.mod_pos_bound a b Hb) as Hm.
  destruct (Z.ltb_spec 0 (a mod b)).
  - apply (Z.div_unique_pos _ _ _ (a mod b - 1)); lia.
  - apply (Z.div_unique_pos _ _ _ (b - 1)); lia.
Qed.

Lemma div_ceil_spec a b :
  (0 ≤ a)%Z → (0 < b)%Z →
  (a ≤ div_ceil a b * b < a + b)%Z.
Proof.
  intros Ha Hb. rewrite div_ceil_eq by done.
  pose proof (Z.div_mod (a + b - 1) b ltac:(lia)).
  pose proof (Z.mod_pos_bound (a + b - 1) b Hb). lia.
Qed.

Lemma div_ceil_nonneg a b : (0 ≤ a)%Z → (0 < b)%Z → (0 ≤ div_ceil a b)%Z.
Proof. intros. pose proof (div_ceil_spec a b). nia. Qed.

Lemma div_ceil_le a b c :
  (0 ≤ a)%Z → (0 < b)%Z → (a ≤ c * b)%Z ↔ (div_ceil a b ≤ c)%Z.
Proof. intros. pose proof (div_ceil_spec a b). nia. Qed.

(** ** Bits of a word *)
(** [BitField::get_bit] for [usize]/[u64]. *)
Definition word_get_bit (w bit : Z) : bool :=
  negb (Z.land w (Z.shiftl 1 bit) =? 0)%Z.

(** [BitField::set_bit] for [usize]/[u64]. *)
Definition word_set_bit (w bit : Z) (value : bool) : Z :=
  if value then Z.lor w (Z.shiftl 1 bit)
  else Z.land w (wnot (Z.shiftl 1 bit)).

Lemma testbit_shiftl_1 i j : (0 ≤ i)%Z → Z.testbit (Z.shiftl 1 i) j = bool_decide (i = j).
Proof.
  intros Hi. destruct (decide (0 ≤ j)%Z).
  - rewrite Z.shiftl_1_l, Z.pow2_bits_eqb by lia.
    destruct (Z.eqb_spec i j); by case_bool_decide.
  - rewrite Z.testbit_neg_r by lia. case_bool_decide; [lia|done].
Qed.

Lemma word_get_bit_testbit w i : (0 ≤ i)%Z → word_get_bit w i = Z.testbit w i.
Proof.
  intros Hi. unfold word_get_bit.
  destruct (Z.eqb_spec (Z.land w (Z.shiftl 1 i)) 0) as [E|E]; simpl.
  - assert (Z.testbit (Z.land w (Z.shiftl 1 i)) i = false) as H
      by (rewrite E; apply Z.bits_0).
    rewrite Z.land_spec, testbit_shiftl_1, bool_decide_eq_true_2, andb_true_r in H by done.
    done.
  - destruct (Z.testbit w i) eqn:H; [done|]. destruct E.
    apply Z.bits_inj_0. intros j. rewrite Z.land_spec, testbit_shiftl_1 by done.
    case_bool_decide; subst; rewrite ?H, ?andb_false_r; done.
Qed.

Lemma word64_testbit_high w i : word64 w → (64 ≤ i)%Z → Z.testbit w i = false.
Proof.
  intros [Hw0 Hw] Hi. destruct (decide (w = 0)%Z) as [->|]; [apply Z.bits_0|].
  apply Z.bits_above_log2; [lia|].
  assert (Z.log2 w < 64)%Z by (apply Z.log2_lt_pow2; unfold MAX64 in *; lia). lia.
Qed.

Lemma wnot_testbit w i :
  (0 ≤ i < 64)%Z → Z.testbit (wnot w) i = negb (Z.testbit w i).
Proof.
  intros Hi. unfold wnot. rewrite Z.lxor_spec, Z.ones_spec_low by lia.
  by destruct (Z.testbit w i).
Qed.

Lemma wnot_testbit_high w i : word64 w → (64 ≤ i)%Z → Z.testbit (wnot w) i = false.
Proof.
  intros Hw Hi. unfold wnot. rewrite Z.lxor_spec, Z.ones_spec_high by lia.
  by rewrite word64_testbit_high by done.
Qed.

Lemma word64_of_bits w :
  (0 ≤ w)%Z → (∀ i, (64 ≤ i)%Z → Z.testbit w i = false) → word64 w.
Proof.
  intros H0 Hb. split; [done|]. unfold MAX64.
  destruct (decide (w < 2 ^ 64)%Z) as [|Hge]; [done|].
  assert (w ≠ 0)%Z by lia.
  assert (64 ≤ Z.log2 w)%Z by (apply Z.log2_le_pow2; lia).
  specialize (Hb (Z.log2 w) ltac:(done)).
  rewrite Z.bit_log2 in Hb by lia. done.
Qed.

Lemma word_set_bit_testbit w i v j :
  (0 ≤ i < 64)%Z → word64 w →
  Z.testbit (word_set_bit w i v) j = if bool_decide (i = j) then v else Z.testbit w j.
Proof.
  intros Hi Hw. unfold word_set_bit. destruct v.
  - rewrite Z.lor_spec, testbit_shiftl_1 by lia.
    case_bool_decide; by rewrite ?orb_true_r, ?orb_false_r.
  - rewrite Z.land_spec. destruct (decide (0 ≤ j < 64)%Z) as [Hj|Hj].
    + rewrite wnot_testbit, testbit_shiftl_1 by lia.
      case_bool_decide; by rewrite ?andb_false_r, ?andb_true_r.
    + assert (Z.testbit w j = false) as ->.
      { destruct (decide (j < 0)%Z); [by apply Z.testbit_neg_r|].
        apply word64_testbit_high; [done|lia]. }
      case_bool_decide; [lia|done].
Qed.

Lemma word_set_bit_word w i v : (0 ≤ i < 64)%Z → word64 w → word64 (word_set_bit w i v).
Proof.
  intros Hi Hw. apply word64_of_bits.
  - unfold word_set_bit. destruct Hw. destruct v.
    + apply Z.lor_nonneg; split; [done|]. apply Z.shiftl_nonneg; lia.
    + apply Z.land_nonneg. by left.
  - intros j Hj. rewrite word_set_bit_testbit by done.
    case_bool_decide; [lia|]. by apply word64_testbit_high.
Qed.

#[export] Hint Resolve word_set_bit_word : monkey.

(** ** Rounding to a power of two with a mask *)
Lemma align_mask k x : (0 ≤ k < 64)%Z → word64 x → Z.land x (wnot (2 ^ k - 1)) = (x / 2 ^ k * 2 ^ k)%Z.
Proof.
  intros Hk Hx. replace (2 ^ k - 1)%Z with (Z.ones k) by (rewrite Z.ones_equiv; lia).
  assert (Z.land x (wnot (Z.ones k)) = Z.ldiff x (Z.ones k)) as ->.
  { apply Z.bits_inj'. intros n Hn. rewrite Z.land_spec, Z.ldiff_spec.
    destruct (decide (n < 64)%Z).
    - by rewrite wnot_testbit by lia.
    - by rewrite word64_testbit_high by (done || lia). }
  rewrite Z.ldiff_ones_r by lia.
  by rewrite Z.shiftr_div_pow2, Z.shiftl_mul_pow2 by lia.
Qed.

Lemma round_up_spec k pos (r := Z.land (pos +w 2 ^ k -w 1) (wnot (2 ^ k -w 1))) :
  (0 ≤ k < 64)%Z → (0 ≤ pos)%Z → (pos + 2 ^ k < MAX64)%Z →
  (r mod 2 ^ k = 0)%Z ∧ (pos ≤ r < pos + 2 ^ k)%Z ∧ ∀ q, (q mod 2 ^ k = 0)%Z → (pos ≤ q)%Z → (r ≤ q)%Z.
Proof.
  intros Hk Hp Hm. assert (0 < 2 ^ k)%Z by (apply Z.pow_pos_nonneg; lia).
  subst r. rewrite (wadd_small pos), !wsub_small, align_mask by (done || word_lia).
  set (a := (2 ^ k)%Z) in *. pose proof (Z.div_mod (pos + a - 1) a ltac:(lia)).
  pose proof (Z.mod_pos_bound (pos + a - 1) a ltac:(lia)).
  split_and!; [apply Z.mod_mul; lia|lia|lia|].
  intros q Hq Hpq. apply Z.div_exact in Hq; [|lia].
  assert ((pos + a - 1) / a ≤ q / a)%Z; [|nia].
  assert ((pos + a - 1) / a < q / a + 1)%Z; [|lia].
  apply Z.div_lt_upper_bound; [lia|]. nia.
Qed.

(** ** Lists *)
Lemma filter_all {A} (P : A → Prop) `{∀ x, Decision (P x)} (l : list A) :
  (∀ x, x ∈ l → P x) → filter P l = l.
Proof.
  induction l as [|x l IH]; intros HP; [done|].
  rewrite filter_cons_True by (apply HP; set_solver). f_equal. apply IH. set_solver.
Qed.

Lemma filter_none {A} (P : A → Prop) `{∀ x, Decision (P x)} (l : list A) :
  (∀ x, x ∈ l → ¬ P x) → filter P l = [].
Proof.
  induction l as [|x l IH]; intros HP; [done|].
  rewrite filter_cons_False by (apply HP; set_solver). apply IH. set_solver.
Qed.

Lemma filter_ext_elem {A} (P Q : A → Prop) `{∀ x, Decision (P x)} `{∀ x, Decision (Q x)}
    (l : list A) :
  (∀ x, x ∈ l → P x ↔ Q x) → filter P l = filter Q l.
Proof.
  induction l as [|x l IH]; intros HP; [done|]. rewrite !filter_cons.
  rewrite IH by set_solver. specialize (HP x ltac:(set_solver)).
  repeat case_decide; naive_solver.
Qed.

Lemma filter_fmap_length {A B} (f : A → B) (P : B → Prop) `{∀ x, Decision (P x)} (l : list A) :
  length (filter P (f <$> l)) = length (filter (λ x, P (f x)) l).
Proof.
  induction l as [|x l IH]; [done|]. rewrite fmap_cons, !filter_cons.
  case_decide; simpl; rewrite IH; done.
Qed.

Lemma if_decide_ext {A} (P Q : Prop) `{Decision P} `{Decision Q} (x y : A) :
  (P ↔ Q) → (if bool_decide P then x else y) = (if bool_decide Q then x else y).
Proof. intros. repeat case_bool_decide; naive_solver. Qed.

(** Every two elements of a list (in order) are related. *)
Inductive pairwise {A} (R : A → A → Prop) : list A → Prop :=
  | pairwise_nil : pairwise R []
  | pairwise_cons x l : Forall (R x) l → pairwise R l → pairwise R (x :: l).

#[export] Hint Constructors pairwise : monkey.

Lemma pairwise_snoc {A} (R : A → A → Prop) l x :
  pairwise R l → Forall (λ y, R y x) l → pairwise R (l ++ [x]).
Proof.
  intros Hl Hx. induction Hl as [|y l Hy Hl IH]; simpl; [eauto with monkey|].
  inversion_clear Hx as [|? ? H1 H2]. constructor; [|by apply IH].
  apply Forall_app. split; [done|]. by constructor.
Qed.

Lemma pairwise_sublist {A} (R : A → A → Prop) l k :
  l `sublist_of` k → pairwise R k → pairwise R l.
Proof.
  induction 1 as [|x l k Hs IH|x l k Hs IH]; [done|..]; inversion_clear 1 as [|? ? H1 H2].
  - constructor; [|by apply IH]. rewrite !Forall_forall in *.
    intros y Hy. apply H1. by eapply elem_of_sublist.
  - by apply IH.
Qed.

Lemma filter_remove_nodup {A B} `{EqDecision B} (f : A → B) (l1 l2 : list A) (x : A) :
  NoDup (f <$> l1 ++ x :: l2) →
  filter (λ y, f y ≠ f x) (l1 ++ x :: l2) = l1 ++ l2.
Proof.
  rewrite fmap_app, fmap_cons. intros (_ & Hd & Hnd)%NoDup_app.
  rewrite NoDup_cons in Hnd. destruct Hnd as [Hx _].
  rewrite filter_app, filter_cons_False by naive_solver.
  rewrite !filter_all; [done|..]; intros y Hy E.
  - apply Hx. rewrite <- E. by apply list_elem_of_fmap_2.
  - apply (Hd (f y)); [by apply list_elem_of_fmap_2|]. rewrite E. set_solver.
Qed.

(** [flags.contains(other)] of the [bitflags] types *)
Definition contains (flags other : Z) : bool := Z.land flags other =? other.

(** ** State-passing computations that can panic *)
Definition ST (S A : Type) : Type := S → outcome (A * S).
#[export] Instance st_ret {S} : MRet (ST S) := λ A a s, Val (a, s).
#[export] Instance st_bind {S} : MBind (ST S) := λ A B f m s,
  match m s with Val (a, s') => f a s' | Panic => Panic end.
Definition st_lift {S A} (o : outcome A) : ST S A := λ s,
  match o with Val a => Val (a, s) | Panic => Panic end.
Definition st_gets {S A} (f : S → A) : ST S A := λ s, Val (f s, s).
Definition st_modify {S} (f : S → S) : ST S unit := λ s, Val (tt, f s).

(** [for x in l { f(x) }] *)
Fixpoint st_iter {S A} (f : A → ST S unit) (l : list A) : ST S unit :=
  match l with
  | [] => mret tt
  | x :: l => f x ≫= λ _, st_iter f l
  end.
