(* ===== verification/Frame.v ===== *)
(** * Physical page frames ([crates/runtime/src/frame.rs])

    The bitmap frame allocator: [FrameRegionMap] keeps one bit per page of a
    memory region (1 = in use, and 1 for the padding bits of the last word),
    [FrameAllocator] is the list of regions behind the global lock.  The file
    models every operation on both, proves that they implement an allocator of
    a finite set of free pages, and derives that no frame is handed out twice. *)

From S2P Require Import Prelude.
Local Open Scope Z_scope.

(** ** Alignment helpers *)
Definition alignup (a b : Z) : Z := div_ceil a b *w b.
Definition aligndown (a b : Z) : Z := a / b *w b.

(** ** [bit_field::BitArray] on [[usize]] *)
Definition bits_get_bit (bits : list Z) (bit : Z) : outcome bool :=
  w ← unwrap (bits !! Z.to_nat (bit / 64));
  Val (word_get_bit w (bit mod 64)).

Definition bits_set_bit (bits : list Z) (bit : Z) (value : bool) : outcome (list Z) :=
  w ← unwrap (bits !! Z.to_nat (bit / 64));
  Val (<[Z.to_nat (bit / 64) := word_set_bit w (bit mod 64) value]> bits).

(** ** [FrameRegionMap] *)
Record FrameRegionMap := mkFrm {
  frm_bits : list Z;
  frm_paddr : Z;
  frm_paddr_end : Z
}.

(** [for i in from..from+n { bits.set_bit(i, true) }] *)
Fixpoint bits_set_range (n : nat) (from : Z) (bits : list Z) : outcome (list Z) :=
  match n with
  | O => Val bits
  | S n => bits' ← bits_set_bit bits from true; bits_set_range n (from + 1) bits'
  end.

Definition frm_new (start_addr end_addr : Z) : outcome FrameRegionMap :=
  let pages := (end_addr -w start_addr) / PAGE_SIZE in
  let bits := replicate (Z.to_nat (div_ceil pages 64)) 0 in
  bits' ← bits_set_range (Z.to_nat (Z.of_nat (length bits) * 64 - pages)) pages bits;
  Val (mkFrm bits' start_addr end_addr).

Definition word_free_bits (sum x : Z) : Z :=
  if x =? 0 then sum + 64
  else foldl (λ s i, s + if word_get_bit x (Z.of_nat i) then 0 else 1) sum (seq 0 64).

Definition frm_get_free_page_count (r : FrameRegionMap) : Z :=
  foldl word_free_bits 0 (frm_bits r).

(** The [for bit_index in 0..64] loop of [alloc_in_pos], [n] iterations left. *)
Fixpoint alloc_in_pos_loop (n : nat) (bit_index : Z) (index : nat) (r : FrameRegionMap)
  : outcome (option Z * FrameRegionMap) :=
  match n with
  | O => Val (None, r)
  | S n =>
      w ← unwrap (frm_bits r !! index);
      if negb (word_get_bit w bit_index) then
        Val (Some (frm_paddr r +w (Z.of_nat index *w 64 +w bit_index) *w PAGE_SIZE),
             mkFrm (<[index := word_set_bit w bit_index true]> (frm_bits r))
                   (frm_paddr r) (frm_paddr_end r))
      else alloc_in_pos_loop n (bit_index + 1) index r
  end.

Definition frm_alloc_in_pos (r : FrameRegionMap) (index : nat) :=
  alloc_in_pos_loop 64 0 index r.

(** The [for i in 0..self.bits.len()] loop of [alloc]. *)
Fixpoint frm_alloc_loop (n : nat) (i : nat) (r : FrameRegionMap)
  : outcome (option Z * FrameRegionMap) :=
  match n with
  | O => Val (None, r)
  | S n =>
      w ← unwrap (frm_bits r !! i);
      if negb (w =? usize_max) then frm_alloc_in_pos r i
      else frm_alloc_loop n (S i) r
  end.

Definition frm_alloc (r : FrameRegionMap) : outcome (option Z * FrameRegionMap) :=
  frm_alloc_loop (length (frm_bits r)) 0 r.

(** [for x in start..start+n]: mark the pages and collect their trackers. *)
Fixpoint take_run (n : nat) (x start_ppn : Z) (bits : list Z) (ans : list Z)
  : outcome (list Z * list Z) :=
  match n with
  | O => Val (ans, bits)
  | S n =>
      bits' ← bits_set_bit bits x true;
      take_run n (x + 1) start_ppn bits' (ans ++ [(start_ppn +w x) *w PAGE_SIZE])
  end.

(** The sliding-window loop: [n] pages left, at page [i]. *)
Fixpoint alloc_much_loop (n : nat) (i consecutive_start consecutive_count pages start_ppn : Z)
    (bits : list Z) : outcome (option (list Z) * list Z) :=
  match n with
  | O => Val (None, bits)
  | S n =>
      used ← bits_get_bit bits i;
      if used : bool then alloc_much_loop n (i + 1) (i + 1) 0 pages start_ppn bits
      else
        let count := consecutive_count + 1 in
        if pages <=? count then
          '(ans, bits') ← take_run (Z.to_nat pages) consecutive_start start_ppn bits [];
          Val (Some ans, bits')
        else alloc_much_loop n (i + 1) consecutive_start count pages start_ppn bits
  end.

(** The fragmentation diagnosis printed when no run is found. *)
Fixpoint max_consecutive_loop (n : nat) (i mx current : Z) (bits : list Z) : outcome Z :=
  match n with
  | O => Val (Z.max mx current)
  | S n =>
      used ← bits_get_bit bits i;
      if used : bool then max_consecutive_loop n (i + 1) (Z.max mx current) 0 bits
      else max_consecutive_loop n (i + 1) mx (current + 1) bits
  end.

Definition frm_alloc_much (r : FrameRegionMap) (pages : Z)
  : outcome (option (list Z) * FrameRegionMap) :=
  let start_ppn := frm_paddr r / PAGE_SIZE in
  let end_ppn := frm_paddr_end r / PAGE_SIZE in
  let total_pages := end_ppn -w start_ppn in
  if total_pages <? pages then Val (None, r)
  else if frm_get_free_page_count r <? pages then Val (None, r)
  else
    '(res, bits') ← alloc_much_loop (Z.to_nat total_pages) 0 0 0 pages start_ppn (frm_bits r);
    match res with
    | Some ans => Val (Some ans, mkFrm bits' (frm_paddr r) (frm_paddr_end r))
    | None =>
        _ ← max_consecutive_loop (Z.to_nat total_pages) 0 0 0 bits';
        Val (None, r)
    end.

Definition frm_dealloc (r : FrameRegionMap) (paddr : Z) : outcome FrameRegionMap :=
  let ppn := paddr / PAGE_SIZE in
  let start_ppn := frm_paddr r / PAGE_SIZE in
  bits' ← bits_set_bit (frm_bits r) (ppn -w start_ppn) false;
  Val (mkFrm bits' (frm_paddr r) (frm_paddr_end r)).

(** ** [FrameAllocator] *)
Definition FrameAllocator := list FrameRegionMap.

Definition fa_new : FrameAllocator := [].

Definition fa_add_memory_region (fa : FrameAllocator) (start end_ : Z) : outcome FrameAllocator :=
  r ← frm_new start end_; Val (fa ++ [r]).

Definition fa_get_free_page_count (fa : FrameAllocator) : Z :=
  foldl (λ sum x, sum + frm_get_free_page_count x) 0 fa.

(** [iter_mut().find_map(..)] *)
Fixpoint fa_alloc (fa : FrameAllocator) : outcome (option Z * FrameAllocator) :=
  match fa with
  | [] => Val (None, [])
  | frm :: rest =>
      '(res, frm') ← frm_alloc frm;
      match res with
      | Some p => Val (Some p, frm' :: rest)
      | None => '(res, rest') ← fa_alloc rest; Val (res, frm' :: rest')
      end
  end.

Fixpoint fa_alloc_much (fa : FrameAllocator) (pages : Z)
  : outcome (option (list Z) * FrameAllocator) :=
  match fa with
  | [] => Val (None, [])
  | frm :: rest =>
      '(res, frm') ← frm_alloc_much frm pages;
      match res with
      | Some ps => Val (Some ps, frm' :: rest)
      | None => '(res, rest') ← fa_alloc_much rest pages; Val (res, frm' :: rest')
      end
  end.

Fixpoint fa_dealloc (fa : FrameAllocator) (paddr : Z) : outcome FrameAllocator :=
  match fa with
  | [] => Val []
  | frm :: rest =>
      if (frm_paddr frm <=? paddr) && (paddr <? frm_paddr_end frm) then
        frm' ← frm_dealloc frm paddr; Val (frm' :: rest)
      else rest' ← fa_dealloc rest paddr; Val (frm :: rest')
  end.

(** [add_frame_map]; [VIRT_ADDR_START] is the architecture's direct-map base. *)
Definition add_frame_map (VIRT_ADDR_START : Z) (fa : FrameAllocator) (mm_start mm_end : Z)
  : outcome FrameAllocator :=
  let s := alignup mm_start PAGE_SIZE in
  let e := aligndown mm_end PAGE_SIZE in
  fa_add_memory_region fa (Z.land s (wnot VIRT_ADDR_START)) (Z.land e (wnot VIRT_ADDR_START)).

(** [init]: panics when no region was added. *)
Definition frame_init (fa : FrameAllocator) : outcome unit :=
  assert_ (negb (Nat.eqb (length fa) 0)).

(** ** Physical memory and [FrameTracker]

    The allocator together with the contents of the frames.  A tracker is the
    address it owns; dropping it clears the page and returns it. *)
Record Phys := mkPhys {
  ph_alloc : FrameAllocator;
  ph_ram : gmap Z (list Z)       (* page address -> its PAGE_SIZE bytes *)
}.

Definition zero_page : list Z := replicate (Z.to_nat PAGE_SIZE) 0.

(** [FrameTracker::clear] *)
Definition tracker_clear (paddr : Z) (ph : Phys) : Phys :=
  mkPhys (ph_alloc ph) (<[paddr := zero_page]> (ph_ram ph)).

(** [Drop for FrameTracker] *)
Definition tracker_drop (paddr : Z) (ph : Phys) : outcome Phys :=
  let ph' := tracker_clear paddr ph in
  fa' ← fa_dealloc (ph_alloc ph') paddr;
  Val (mkPhys fa' (ph_ram ph')).

Definition frame_alloc (ph : Phys) : outcome (option Z * Phys) :=
  '(res, fa') ← fa_alloc (ph_alloc ph);
  Val (res, mkPhys fa' (ph_ram ph)).

Definition frame_alloc_much (ph : Phys) (pages : Z) : outcome (option (list Z) * Phys) :=
  '(res, fa') ← fa_alloc_much (ph_alloc ph) pages;
  Val (res, mkPhys fa' (ph_ram ph)).

Definition frame_alloc_persist (ph : Phys) : outcome (option Z * Phys) :=
  '(res, fa') ← fa_alloc (ph_alloc ph);
  Val (res, mkPhys fa' (ph_ram ph)).

Definition frame_unalloc (ph : Phys) (paddr : Z) : outcome Phys :=
  fa' ← fa_dealloc (ph_alloc ph) paddr;
  Val (mkPhys fa' (ph_ram ph)).

Definition get_free_pages (ph : Phys) : Z := fa_get_free_page_count (ph_alloc ph).

(** ** The bitmap as a set of pages *)
Definition used (bits : list Z) (i : Z) : bool :=
  match bits !! Z.to_nat (i / 64) with
  | Some w => Z.testbit w (i mod 64)
  | None => true
  end.

(** The number of pages of a region. *)
Definition frm_pages (r : FrameRegionMap) : Z := (frm_paddr_end r - frm_paddr r) / PAGE_SIZE.

(** The address of page [i]. *)
Definition frm_addr (r : FrameRegionMap) (i : Z) : Z := frm_paddr r + i * PAGE_SIZE.

Record bits_wf (bits : list Z) (pages : Z) : Prop := {
  bw_pages : 0 ≤ pages;
  bw_len : Z.of_nat (length bits) = div_ceil pages 64;
  bw_words : Forall word64 bits;
  bw_pad : ∀ i, pages ≤ i → used bits i = true
}.

(** The invariant of a region: page-aligned bounds that fit the address
    space, one bit per page, padding bits set. *)
Record frm_wf (r : FrameRegionMap) : Prop := {
  fw_lo : 0 ≤ frm_paddr r;
  fw_le : frm_paddr r ≤ frm_paddr_end r;
  fw_hi : frm_paddr_end r < MAX64;
  fw_al : frm_paddr r mod PAGE_SIZE = 0;
  fw_ale : frm_paddr_end r mod PAGE_SIZE = 0;
  fw_bits : bits_wf (frm_bits r) (frm_pages r)
}.

Lemma div_mod_64_inj i j : i / 64 = j / 64 → i mod 64 = j mod 64 → i = j.
Proof. intros H1 H2. rewrite (Z.div_mod i 64), (Z.div_mod j 64) by lia. lia. Qed.

Lemma bit_index_lt (bits : list Z) i :
  0 ≤ i < 64 * Z.of_nat (length bits) → (Z.to_nat (i / 64) < length bits)%nat.
Proof.
  intros Hi. assert (i / 64 < Z.of_nat (length bits)) by (apply Z.div_lt_upper_bound; lia).
  assert (0 ≤ i / 64) by (apply Z.div_pos; lia). lia.
Qed.

Lemma bits_get_bit_spec bits i :
  0 ≤ i < 64 * Z.of_nat (length bits) → bits_get_bit bits i = Val (used bits i).
Proof.
  intros Hi. unfold bits_get_bit, used.
  destruct (lookup_lt_is_Some_2 bits (Z.to_nat (i / 64))) as [w ->].
  { by apply bit_index_lt. }
  simpl. rewrite word_get_bit_testbit by (apply Z.mod_pos_bound; lia). done.
Qed.

Lemma bits_set_bit_spec bits i v :
  0 ≤ i < 64 * Z.of_nat (length bits) → Forall word64 bits →
  ∃ bits', bits_set_bit bits i v = Val bits' ∧ length bits' = length bits ∧
    Forall word64 bits' ∧
    ∀ j, 0 ≤ j → used bits' j = if bool_decide (i = j) then v else used bits j.
Proof.
  intros Hi Hw. unfold bits_set_bit.
  pose proof (Z.mod_pos_bound i 64 ltac:(lia)) as Hm.
  pose proof (bit_index_lt _ _ Hi) as Hlt.
  destruct (lookup_lt_is_Some_2 bits (Z.to_nat (i / 64)) Hlt) as [w Hl].
  rewrite Hl; simpl. eexists; split_and!; [done|by rewrite length_insert| |].
  { apply Forall_insert; [done|]. apply word_set_bit_word; [done|].
    by eapply Forall_lookup_1. }
  assert (word64 w) by by eapply Forall_lookup_1.
  intros j Hj. unfold used.
  destruct (decide (Z.to_nat (i / 64) = Z.to_nat (j / 64))) as [E|E].
  - rewrite <- E, list_lookup_insert_eq, Hl by done.
    rewrite word_set_bit_testbit by done.
    assert (i / 64 = j / 64) by (apply Z2Nat.inj; [apply Z.div_pos; lia..|done]).
    repeat case_bool_decide; subst; try done.
    exfalso; eauto using div_mod_64_inj.
  - rewrite list_lookup_insert_ne by done. case_bool_decide; [by subst|done].
Qed.

Lemma used_replicate n i :
  0 ≤ i → used (replicate n 0) i = bool_decide (64 * Z.of_nat n ≤ i).
Proof.
  intros Hi. unfold used. assert (0 ≤ i / 64) by (apply Z.div_pos; lia).
  destruct (replicate n 0 !! Z.to_nat (i / 64)) as [w|] eqn:E.
  - apply lookup_replicate in E as [-> E]. rewrite Z.bits_0.
    case_bool_decide; [|done].
    assert (Z.of_nat n ≤ i / 64) by (apply Z.div_le_lower_bound; lia). lia.
  - apply lookup_replicate_None in E.
    case_bool_decide as Hd; [done|]. exfalso; apply Hd.
    pose proof (Z.mul_div_le i 64). lia.
Qed.

Lemma bits_set_range_spec n from bits :
  0 ≤ from → from + Z.of_nat n ≤ 64 * Z.of_nat (length bits) → Forall word64 bits →
  ∃ bits', bits_set_range n from bits = Val bits' ∧ length bits' = length bits ∧
    Forall word64 bits' ∧
    ∀ j, 0 ≤ j →
      used bits' j = if bool_decide (from ≤ j < from + Z.of_nat n) then true else used bits j.
Proof.
  revert from bits; induction n as [|n IH]; intros from bits H0 H1 Hw; simpl.
  - exists bits. split_and!; [done..|]. intros j Hj. case_bool_decide; [lia|done].
  - destruct (bits_set_bit_spec bits from true) as (b1 & -> & Hl & Hw1 & Hu1); [lia|done|].
    simpl. destruct (IH (from + 1) b1) as (b2 & -> & Hl2 & Hw2 & Hu2); [lia..|done|].
    exists b2. split_and!; [done|congruence|done|].
    intros j Hj. rewrite Hu2, Hu1 by done.
    repeat case_bool_decide; try done; lia.
Qed.

Lemma take_run_spec n x start_ppn bits ans :
  0 ≤ x → x + Z.of_nat n ≤ 64 * Z.of_nat (length bits) → Forall word64 bits →
  ∃ bits', take_run n x start_ppn bits ans =
      Val (ans ++ map (λ k, (start_ppn +w (x + Z.of_nat k)) *w PAGE_SIZE) (seq 0 n), bits') ∧
    length bits' = length bits ∧ Forall word64 bits' ∧
    ∀ j, 0 ≤ j →
      used bits' j = if bool_decide (x ≤ j < x + Z.of_nat n) then true else used bits j.
Proof.
  revert x bits ans; induction n as [|n IH]; intros x bits ans H0 H1 Hw; simpl.
  - exists bits. rewrite app_nil_r. split_and!; [done..|].
    intros j Hj. case_bool_decide; [lia|done].
  - destruct (bits_set_bit_spec bits x true) as (b1 & -> & Hl & Hw1 & Hu1); [lia|done|].
    simpl. destruct (IH (x + 1) b1 (ans ++ [(start_ppn +w x) *w PAGE_SIZE]))
      as (b2 & -> & Hl2 & Hw2 & Hu2); [lia..|done|].
    exists b2. split_and!; [|congruence|done|].
    + rewrite <- app_assoc. simpl. rewrite Z.add_0_r, <- seq_shift, map_map.
      do 4 f_equal. apply map_ext. intros k. do 2 f_equal. lia.
    + intros j Hj. rewrite Hu2, Hu1 by done.
      repeat case_bool_decide; try done; lia.
Qed.

(** ** Regions are well formed and stay so *)
Lemma frm_pages_ppn r :
  frm_wf r → frm_paddr_end r / PAGE_SIZE - frm_paddr r / PAGE_SIZE = frm_pages r.
Proof.
  intros [? ? ? Ha Hae _]. unfold frm_pages, PAGE_SIZE in *.
  pose proof (Z.div_mod (frm_paddr r) 4096 ltac:(lia)).
  pose proof (Z.div_mod (frm_paddr_end r) 4096 ltac:(lia)).
  replace (frm_paddr_end r - frm_paddr r)
    with ((frm_paddr_end r / 4096 - frm_paddr r / 4096) * 4096) by lia.
  by rewrite Z.div_mul.
Qed.

Lemma frm_pages_bound r : frm_wf r → frm_paddr r + frm_pages r * PAGE_SIZE = frm_paddr_end r.
Proof.
  intros Hwf. rewrite <- (frm_pages_ppn r Hwf). destruct Hwf as [? ? ? Ha Hae _].
  unfold PAGE_SIZE in *.
  pose proof (Z.div_mod (frm_paddr r) 4096 ltac:(lia)).
  pose proof (Z.div_mod (frm_paddr_end r) 4096 ltac:(lia)). lia.
Qed.

Lemma bits_wf_len bits pages : bits_wf bits pages → pages ≤ 64 * Z.of_nat (length bits).
Proof. intros [? H _ _]. rewrite H. pose proof (div_ceil_spec pages 64). lia. Qed.

(** A free bit is a page of the region. *)
Lemma bits_wf_free bits pages i : bits_wf bits pages → used bits i = false → i < pages.
Proof.
  intros Hwf Hu. destruct (decide (i < pages)); [done|].
  rewrite (bw_pad _ _ Hwf) in Hu by lia. done.
Qed.

Lemma frm_new_spec s e :
  0 ≤ s → s ≤ e → e < MAX64 → s mod PAGE_SIZE = 0 → e mod PAGE_SIZE = 0 →
  ∃ r, frm_new s e = Val r ∧ frm_wf r ∧ frm_paddr r = s ∧ frm_paddr_end r = e ∧
    ∀ i, 0 ≤ i → used (frm_bits r) i = bool_decide ((e - s) / PAGE_SIZE ≤ i).
Proof.
  intros Hs Hse He Has Hae. unfold frm_new. no_wrap.
  set (pages := (e - s) / PAGE_SIZE).
  assert (0 ≤ pages) by (apply Z.div_pos; unfold PAGE_SIZE; lia).
  pose proof (div_ceil_spec pages 64 ltac:(lia) ltac:(lia)) as Hdc.
  rewrite length_replicate, Z2Nat.id by (apply div_ceil_nonneg; lia).
  destruct (bits_set_range_spec (Z.to_nat (div_ceil pages 64 * 64 - pages)) pages
              (replicate (Z.to_nat (div_ceil pages 64)) 0)) as (b & Hb & Hl & Hw & Hu).
  { lia. }
  { rewrite length_replicate. lia. }
  { apply Forall_replicate. unfold word64, MAX64. lia. }
  rewrite Hb. simpl.
  assert (∀ i, 0 ≤ i → used b i = bool_decide (pages ≤ i)) as Hused.
  { intros i Hi. rewrite Hu, used_replicate by done. repeat case_bool_decide; try done; lia. }
  eexists; split; [done|]. simpl. split_and!; try done.
  constructor; simpl; try done. constructor.
  - done.
  - rewrite Hl, length_replicate, Z2Nat.id by (apply div_ceil_nonneg; lia). done.
  - done.
  - unfold frm_pages; simpl. fold pages. intros i Hi. rewrite Hused by lia.
    by case_bool_decide.
Qed.

(** Reference definition of the free pages of a region. *)
Definition free_pages (r : FrameRegionMap) : list Z :=
  filter (λ i, used (frm_bits r) i = false) (seqZ 0 (frm_pages r)).

Lemma elem_of_free_pages r i :
  frm_wf r → i ∈ free_pages r ↔ 0 ≤ i ∧ used (frm_bits r) i = false.
Proof.
  intros Hwf. unfold free_pages. rewrite list_elem_of_filter, elem_of_seqZ.
  split; [naive_solver lia|]. intros [? Hu].
  pose proof (bits_wf_free _ _ _ (fw_bits _ Hwf) Hu). naive_solver lia.
Qed.

Lemma NoDup_free_pages r : NoDup (free_pages r).
Proof. apply NoDup_filter, NoDup_seqZ. Qed.

Lemma foldl_count {A} (p : A → bool) (s : Z) (l : list A) :
  foldl (λ s i, s + if p i then 0 else 1) s l =
  s + Z.of_nat (length (filter (λ i, p i = false) l)).
Proof.
  revert s; induction l as [|x l IH]; intros s; simpl; [lia|].
  rewrite IH, filter_cons.
  destruct (decide (p x = false)) as [E|E%not_false_iff_true]; rewrite E; simpl; lia.
Qed.

Lemma word_free_bits_spec s w :
  word_free_bits s w = s + Z.of_nat (length (filter (λ i, Z.testbit w i = false) (seqZ 0 64))).
Proof.
  unfold word_free_bits. destruct (Z.eqb_spec w 0) as [->|_].
  - rewrite filter_all by (intros; apply Z.bits_0). done.
  - rewrite (foldl_count (λ i, word_get_bit w (Z.of_nat i))). do 2 f_equal.
    change (seqZ 0 64) with (Z.of_nat <$> seq 0 64). rewrite filter_fmap_length.
    f_equal. apply filter_ext_elem. intros i _. simpl.
    by rewrite word_get_bit_testbit by lia.
Qed.

Lemma used_app_l bits w i :
  0 ≤ i < 64 * Z.of_nat (length bits) → used (bits ++ [w]) i = used bits i.
Proof. intros Hi. unfold used. by rewrite lookup_app_l by by apply bit_index_lt. Qed.

Lemma used_app_r bits w k :
  0 ≤ k < 64 → used (bits ++ [w]) (64 * Z.of_nat (length bits) + k) = Z.testbit w k.
Proof.
  intros Hk. unfold used.
  replace (64 * Z.of_nat (length bits) + k) with (k + Z.of_nat (length bits) * 64) by lia.
  rewrite Z.div_add, Z.mod_add, (Z.div_small k), (Z.mod_small k) by lia.
  rewrite lookup_app_r by lia. by replace (Z.to_nat _ - _)%nat with 0%nat by lia.
Qed.

Lemma word_fold_count bits :
  foldl word_free_bits 0 bits =
  Z.of_nat (length (filter (λ i, used bits i = false) (seqZ 0 (64 * Z.of_nat (length bits))))).
Proof.
  induction bits as [|w bits IH] using rev_ind; [done|].
  rewrite foldl_app. simpl. rewrite IH, word_free_bits_spec, length_app. simpl.
  replace (64 * Z.of_nat (length bits + 1)) with (64 * Z.of_nat (length bits) + 64) by lia.
  rewrite seqZ_app, filter_app, length_app by lia.
  rewrite (filter_ext_elem (λ i, used (bits ++ [w]) i = false) (λ i, used bits i = false)
             (seqZ 0 _)).
  2:{ intros i Hi%elem_of_seqZ. by rewrite used_app_l by lia. }
  rewrite Nat2Z.inj_add. do 2 f_equal.

  assert (seqZ (0 + 64 * Z.of_nat (length bits)) 64 =
          (λ k, 64 * Z.of_nat (length bits) + k) <$> seqZ 0 64) as ->.
  { unfold seqZ. rewrite <- list_fmap_compose. apply list_fmap_ext. intros; simpl; lia. }
  rewrite filter_fmap_length. f_equal. apply filter_ext_elem.
  intros k Hk%elem_of_seqZ. by rewrite used_app_r by lia.
Qed.

(** [get_free_page_count] counts the free pages of the region. *)
Lemma frm_count_free r :
  frm_wf r → frm_get_free_page_count r = Z.of_nat (length (free_pages r)).
Proof.
  intros Hwf. unfold frm_get_free_page_count, free_pages. rewrite word_fold_count.
  destruct (fw_bits _ Hwf) as [Hp Hl _ Hpad]. pose proof (bits_wf_len _ _ (fw_bits _ Hwf)).
  set (n := 64 * Z.of_nat (length (frm_bits r))) in *.
  replace n with (frm_pages r + (n - frm_pages r)) by lia.
  rewrite seqZ_app, filter_app by lia.
  rewrite (filter_none _ (seqZ (0 + frm_pages r) _)), app_nil_r; [done|].
  intros i Hi%elem_of_seqZ. rewrite Hpad by lia. done.
Qed.

(** ** Single-page allocation *)

(** What one successful or failed allocation does to the bitmap. *)
Definition frm_alloc_post (r : FrameRegionMap) (res : option Z) (r' : FrameRegionMap) : Prop :=
  match res with
  | Some p => ∃ i, p = frm_addr r i ∧ 0 ≤ i < frm_pages r ∧ used (frm_bits r) i = false ∧
      (∀ j, 0 ≤ j < i → used (frm_bits r) j = true) ∧
      frm_paddr r' = frm_paddr r ∧ frm_paddr_end r' = frm_paddr_end r ∧
      (∀ j, 0 ≤ j → used (frm_bits r') j = if bool_decide (i = j) then true else used (frm_bits r) j)
  | None => r' = r ∧ ∀ j, 0 ≤ j → used (frm_bits r) j = true
  end.

Lemma word_full w : word64 w → (∀ b, 0 ≤ b < 64 → Z.testbit w b = true) ↔ w = usize_max.
Proof.
  intros Hw. split; [|intros -> b Hb; by apply (Z.ones_spec_low 64)].
  intros Hb. change usize_max with (Z.ones 64). apply Z.bits_inj'. intros n Hn.
  destruct (decide (n < 64)).
  - by rewrite Hb, Z.ones_spec_low by lia.
  - by rewrite word64_testbit_high, Z.ones_spec_high by (done || lia).
Qed.

(** The first clear bit of a word. *)
Lemma alloc_in_pos_loop_spec n b index r w :
  frm_bits r !! index = Some w → Z.of_nat n + b = 64 → 0 ≤ b →
  (∀ c, 0 ≤ c < b → Z.testbit w c = true) →
  (alloc_in_pos_loop n b index r = Val (None, r) ∧ ∀ c, 0 ≤ c < 64 → Z.testbit w c = true) ∨
  ∃ c, 0 ≤ c < 64 ∧ Z.testbit w c = false ∧ (∀ d, 0 ≤ d < c → Z.testbit w d = true) ∧
    alloc_in_pos_loop n b index r =
      Val (Some (frm_paddr r +w (Z.of_nat index *w 64 +w c) *w PAGE_SIZE),
           mkFrm (<[index := word_set_bit w c true]> (frm_bits r)) (frm_paddr r) (frm_paddr_end r)).
Proof.
  intros Hw. revert b; induction n as [|n IH]; intros b Hn Hb Hc; simpl.
  { left. split; [done|]. intros c ?. apply Hc. lia. }
  rewrite Hw. simpl. rewrite word_get_bit_testbit by done.
  destruct (Z.testbit w b) eqn:E; simpl.
  - apply IH; [lia..|]. intros c ?. destruct (decide (c = b)) as [->|]; [done|apply Hc; lia].
  - right. exists b. split_and!; try done; lia.
Qed.

Lemma used_at bits index w c :
  bits !! index = Some w → 0 ≤ c < 64 → used bits (Z.of_nat index * 64 + c) = Z.testbit w c.
Proof.
  intros Hw Hc. unfold used.
  rewrite Z.add_comm, Z.div_add, Z.mod_add, (Z.div_small c), (Z.mod_small c) by lia.
  by rewrite Z.add_0_l, Nat2Z.id, Hw.
Qed.

Lemma insert_word_set_bit bits index w c v :
  bits !! index = Some w → 0 ≤ c < 64 →
  bits_set_bit bits (Z.of_nat index * 64 + c) v =
    Val (<[index := word_set_bit w c v]> bits).
Proof.
  intros Hw Hc. unfold bits_set_bit.
  rewrite Z.add_comm, Z.div_add, Z.mod_add, (Z.div_small c), (Z.mod_small c) by lia.
  by rewrite Z.add_0_l, Nat2Z.id, Hw.
Qed.

Lemma frm_wf_update r bits' :
  frm_wf r → length bits' = length (frm_bits r) → Forall word64 bits' →
  (∀ j, frm_pages r ≤ j → used bits' j = true) →
  frm_wf (mkFrm bits' (frm_paddr r) (frm_paddr_end r)).
Proof.
  intros [? ? ? ? ? [? Hl ? ?]] Hl' Hw Hp. constructor; simpl; try done.
  constructor; try done. by rewrite Hl', Hl.
Qed.

Lemma frm_alloc_loop_spec n i r :
  frm_wf r → (n + i = length (frm_bits r))%nat →
  (∀ j, 0 ≤ j < 64 * Z.of_nat i → used (frm_bits r) j = true) →
  ∃ res r', frm_alloc_loop n i r = Val (res, r') ∧ frm_wf r' ∧ frm_alloc_post r res r'.
Proof.
  intros Hwf. revert i; induction n as [|n IH]; intros i Hn Hfull; simpl.
  { exists None, r. split_and!; [done..|]. split; [done|]. intros j Hj.
    destruct (decide (j < frm_pages r)).
    - apply Hfull. pose proof (bits_wf_len _ _ (fw_bits _ Hwf)). lia.
    - apply (bw_pad _ _ (fw_bits _ Hwf)). lia. }
  destruct (lookup_lt_is_Some_2 (frm_bits r) i) as [w Hw]; [lia|]. rewrite Hw. simpl.
  assert (word64 w) as Hw64 by (eapply Forall_lookup_1; [apply (fw_bits _ Hwf)|done]).
  destruct (Z.eqb_spec w usize_max) as [->|Hne]; simpl.
  - apply IH; [lia|]. intros j Hj. destruct (decide (j < 64 * Z.of_nat i)); [apply Hfull; lia|].
    replace j with (Z.of_nat i * 64 + (j - 64 * Z.of_nat i)) by lia.
    rewrite (used_at _ _ _ _ Hw) by lia. apply word_full; [done..|lia].
  - destruct (alloc_in_pos_loop_spec 64 0 i r w) as [[_ Hall]|(c & Hc & Ht & Hlow & Heq)];
      [done|lia|lia|lia| |].
    { destruct Hne. by apply word_full. }
    unfold frm_alloc_in_pos. rewrite Heq.
    set (k := Z.of_nat i * 64 + c).
    assert (used (frm_bits r) k = false) as Huk by (unfold k; by rewrite (used_at _ _ _ _ Hw)).
    pose proof (bits_wf_free _ _ _ (fw_bits _ Hwf) Huk) as Hk.
    pose proof (frm_pages_bound r Hwf) as Hpb. pose proof (fw_hi _ Hwf). pose proof (fw_lo _ Hwf).
    destruct (bits_set_bit_spec (frm_bits r) k true) as (b' & Hb' & Hl' & Hw' & Hu').
    { pose proof (lookup_lt_Some _ _ _ Hw). unfold k. lia. }
    { apply (fw_bits _ Hwf). }
    unfold k in Hb'. rewrite (insert_word_set_bit _ _ _ _ _ Hw Hc) in Hb'.
    assert (<[i:=word_set_bit w c true]> (frm_bits r) = b') as -> by congruence.
    eexists _, _. split; [done|]. split.
    + apply frm_wf_update; try done. intros j Hj. unfold k in *. rewrite Hu' by lia.
      case_bool_decide; [done|]. apply (bw_pad _ _ (fw_bits _ Hwf)). done.
    + exists k. simpl. unfold frm_addr. split_and!; try done; try (unfold k; lia).
      * unfold k, PAGE_SIZE in *. no_wrap. lia.
      * intros j Hj. destruct (decide (j < 64 * Z.of_nat i)); [apply Hfull; lia|].
        replace j with (Z.of_nat i * 64 + (j - 64 * Z.of_nat i)) by lia.
        rewrite (used_at _ _ _ _ Hw) by lia. apply Hlow. unfold k in *. lia.
Qed.

Lemma frm_alloc_spec r :
  frm_wf r →
  ∃ res r', frm_alloc r = Val (res, r') ∧ frm_wf r' ∧ frm_alloc_post r res r'.
Proof. intros Hwf. apply frm_alloc_loop_spec; [done|lia|lia]. Qed.

(** ** Contiguous allocation *)

(** [n] consecutive free pages starting at page [a]. *)
Definition free_run (bits : list Z) (a n : Z) : Prop :=
  ∀ k, a ≤ k < a + n → used bits k = false.

Lemma free_run_tail bits a n : ¬ free_run bits a n → ∀ m, n ≤ m → ¬ free_run bits a m.
Proof. intros Hn m Hm Hr. apply Hn. intros k Hk. apply Hr. lia. Qed.

Definition frm_alloc_much_post (r : FrameRegionMap) (pages : Z)
    (res : option (list Z)) (r' : FrameRegionMap) : Prop :=
  match res with
  | Some ps => ∃ a, 0 ≤ a ∧ a + pages ≤ frm_pages r ∧ free_run (frm_bits r) a pages ∧
      ps = map (λ k, frm_addr r (a + Z.of_nat k)) (seq 0 (Z.to_nat pages)) ∧
      frm_paddr r' = frm_paddr r ∧ frm_paddr_end r' = frm_paddr_end r ∧
      (∀ j, 0 ≤ j → used (frm_bits r') j =
         if bool_decide (a ≤ j < a + pages) then true else used (frm_bits r) j)
  | None => r' = r ∧ ∀ a, 0 ≤ a → ¬ free_run (frm_bits r) a pages
  end.

(** The window invariant: the [count] pages before [i] are free and the window
    is maximal, and no run of [pages] free pages ends before [i]. *)
Lemma alloc_much_loop_spec n i start count pages start_ppn bits total :
  bits_wf bits total → 0 < pages → Z.of_nat n + i = total →
  0 ≤ start → 0 ≤ count < pages → start + count = i → free_run bits start count →
  (∀ a, 0 ≤ a < start → ¬ free_run bits a (Z.max pages (start - a))) →
  (∀ a, 0 ≤ a → a + pages ≤ i → ¬ free_run bits a pages) →
  (∃ a bits', alloc_much_loop n i start count pages start_ppn bits =
     Val (Some (map (λ k, (start_ppn +w (a + Z.of_nat k)) *w PAGE_SIZE)
                    (seq 0 (Z.to_nat pages))), bits') ∧
     0 ≤ a ∧ a + pages ≤ total ∧ free_run bits a pages ∧
     length bits' = length bits ∧ Forall word64 bits' ∧
     ∀ j, 0 ≤ j → used bits' j = if bool_decide (a ≤ j < a + pages) then true else used bits j) ∨
  (alloc_much_loop n i start count pages start_ppn bits = Val (None, bits) ∧
   ∀ a, 0 ≤ a → a + pages ≤ total → ¬ free_run bits a pages).
Proof.
  intros Hwf Hp. revert i start count.
  induction n as [|n IH]; intros i start count Hn Hs Hc Hi Hrun Hmax Hno; simpl.
  { right. split; [done|]. intros a ??. apply Hno; lia. }
  pose proof (bits_wf_len _ _ Hwf) as Hlen.
  rewrite bits_get_bit_spec by lia. simpl. destruct (used bits i) eqn:E.
  - apply IH; try lia.
    + intros k Hk. lia.
    + intros a Ha. intros Hr. destruct (decide (a ≤ i)).
      * rewrite (Hr i) in E by lia. done.
      * lia.
    + intros a Ha Hai Hr. destruct (decide (a + pages ≤ i)); [by eapply Hno|].
      rewrite (Hr i) in E by lia. done.
  - destruct (Z.leb_spec pages (count + 1)).
    + destruct (take_run_spec (Z.to_nat pages) start start_ppn bits [])
        as (b' & Heq & Hl' & Hw' & Hu'); [lia|lia|apply Hwf|].
      rewrite Heq. simpl. left. exists start, b'. rewrite Z2Nat.id in Hu' by lia.
      split_and!; try done; try lia.
      intros k Hk. destruct (decide (k = i)) as [->|]; [done|]. apply Hrun. lia.
    + apply IH; try lia; try done.
      * intros k Hk. destruct (decide (k = i)) as [->|]; [done|]. apply Hrun. lia.
      * intros a Ha Hai. destruct (decide (a + pages ≤ i)); [by apply Hno|].
        destruct (decide (a < start)).
        -- intros Hr. apply (Hmax a); [lia|]. intros k Hk. apply Hr. lia.
        -- lia.
Qed.

Lemma max_consecutive_loop_total n i mx cur bits :
  0 ≤ i → i + Z.of_nat n ≤ 64 * Z.of_nat (length bits) →
  ∃ m, max_consecutive_loop n i mx cur bits = Val m.
Proof.
  revert i mx cur; induction n as [|n IH]; intros i mx cur H0 Hn; simpl; [eauto|].
  rewrite bits_get_bit_spec by lia. simpl. case_match; apply IH; lia.
Qed.

(** A free run is counted by [get_free_page_count]. *)
Lemma free_run_count r a n :
  frm_wf r → 0 ≤ a → 0 ≤ n → free_run (frm_bits r) a n → n ≤ frm_get_free_page_count r.
Proof.
  intros Hwf Ha Hn Hr. rewrite frm_count_free by done.
  assert (seqZ a n ⊆+ free_pages r) as Hsub%submseteq_length.
  { apply NoDup_submseteq; [apply NoDup_seqZ|]. intros k Hk%elem_of_seqZ.
    apply elem_of_free_pages; [done|]. split; [lia|]. apply Hr. lia. }
  rewrite length_seqZ in Hsub. lia.
Qed.

Lemma free_run_in_region r a n :
  frm_wf r → 0 < n → free_run (frm_bits r) a n → a + n ≤ frm_pages r.
Proof.
  intros Hwf Hn Hr.
  pose proof (bits_wf_free _ _ (a + n - 1) (fw_bits _ Hwf) ltac:(apply Hr; lia)). lia.
Qed.

Lemma frm_alloc_much_spec r pages :
  frm_wf r → 0 < pages →
  ∃ res r', frm_alloc_much r pages = Val (res, r') ∧ frm_wf r' ∧
    frm_alloc_much_post r pages res r'.
Proof.
  intros Hwf Hp. unfold frm_alloc_much.
  pose proof (frm_pages_ppn r Hwf) as Hppn. pose proof (frm_pages_bound r Hwf) as Hpb.
  pose proof (bw_pages _ _ (fw_bits _ Hwf)) as Hp0.
  pose proof (fw_hi _ Hwf) as Hhi. pose proof (fw_lo _ Hwf) as Hlo.
  rewrite wsub_small by (unfold PAGE_SIZE in *; word_lia). rewrite Hppn.
  destruct (Z.ltb_spec (frm_pages r) pages).
  { exists None, r. split_and!; [done..|]. split; [done|]. intros a Ha Hr.
    pose proof (free_run_in_region r a pages Hwf Hp Hr). lia. }
  destruct (Z.ltb_spec (frm_get_free_page_count r) pages).
  { exists None, r. split_and!; [done..|]. split; [done|]. intros a Ha Hr.
    pose proof (free_run_count r a pages Hwf Ha ltac:(lia) Hr). lia. }
  destruct (alloc_much_loop_spec (Z.to_nat (frm_pages r)) 0 0 0 pages
              (frm_paddr r / PAGE_SIZE) (frm_bits r) (frm_pages r))
    as [(a & b' & Heq & Ha & Hal & Hr & Hl & Hw & Hu)|[Heq Hno]];
    [apply Hwf|lia..|intros k Hk; lia|intros; lia|intros; lia| |]; rewrite Heq; simpl.
  - eexists _, _. split; [done|]. split.
    + apply frm_wf_update; try done. intros j Hj. rewrite Hu by lia.
      case_bool_decide; [done|]. by apply (bw_pad _ _ (fw_bits _ Hwf)).
    + exists a. simpl. split_and!; try done.
      apply map_ext_in. intros k Hk%in_seq. unfold frm_addr.
      pose proof (fw_al _ Hwf) as Hal'. unfold PAGE_SIZE in *.
      pose proof (Z.div_mod (frm_paddr r) 4096 ltac:(lia)).
      no_wrap. lia.
  - destruct (max_consecutive_loop_total (Z.to_nat (frm_pages r)) 0 0 0 (frm_bits r)) as [m Hm].
    { lia. }
    { pose proof (bits_wf_len _ _ (fw_bits _ Hwf)). lia. }
    rewrite Hm. simpl. exists None, r. split_and!; [done..|]. split; [done|].
    intros a Ha Hr. eapply Hno; [done| |done]. by apply free_run_in_region.
Qed.

(** ** Release *)
Lemma frm_dealloc_spec r i :
  frm_wf r → 0 ≤ i < frm_pages r →
  ∃ r', frm_dealloc r (frm_addr r i) = Val r' ∧ frm_wf r' ∧
    frm_paddr r' = frm_paddr r ∧ frm_paddr_end r' = frm_paddr_end r ∧
    ∀ j, 0 ≤ j → used (frm_bits r') j = if bool_decide (i = j) then false else used (frm_bits r) j.
Proof.
  intros Hwf Hi. unfold frm_dealloc, frm_addr.
  assert ((frm_paddr r + i * PAGE_SIZE) / PAGE_SIZE = frm_paddr r / PAGE_SIZE + i) as ->
    by (apply Z.div_add; done).
  pose proof (frm_pages_bound r Hwf). pose proof (fw_hi _ Hwf). pose proof (fw_lo _ Hwf).
  rewrite wsub_small by (unfold PAGE_SIZE in *; word_lia).
  replace (frm_paddr r / PAGE_SIZE + i - frm_paddr r / PAGE_SIZE) with i by lia.
  destruct (bits_set_bit_spec (frm_bits r) i false) as (b' & -> & Hl & Hw & Hu).
  { pose proof (bits_wf_len _ _ (fw_bits _ Hwf)). lia. }
  { apply (fw_bits _ Hwf). }
  simpl. eexists; split_and!; try done. apply frm_wf_update; try done.
  intros j Hj. rewrite Hu by lia. case_bool_decide; [lia|]. by apply (bw_pad _ _ (fw_bits _ Hwf)).
Qed.

(** ** The allocator as a finite set of free page addresses *)
Definition frm_free (r : FrameRegionMap) : gset Z :=
  list_to_set (frm_addr r <$> free_pages r).

Fixpoint fa_free (fa : FrameAllocator) : gset Z :=
  match fa with [] => ∅ | r :: rest => frm_free r ∪ fa_free rest end.

(** All page addresses of a region, free or not. *)
Definition frm_all (r : FrameRegionMap) : gset Z :=
  list_to_set (frm_addr r <$> seqZ 0 (frm_pages r)).

Fixpoint fa_all (fa : FrameAllocator) : gset Z :=
  match fa with [] => ∅ | r :: rest => frm_all r ∪ fa_all rest end.

Definition region_disjoint (r r' : FrameRegionMap) : Prop :=
  frm_paddr_end r ≤ frm_paddr r' ∨ frm_paddr_end r' ≤ frm_paddr r.

(** The invariant of the allocator: well-formed regions that do not overlap. *)
Inductive fa_wf : FrameAllocator → Prop :=
  | fa_wf_nil : fa_wf []
  | fa_wf_cons r fa : frm_wf r → Forall (region_disjoint r) fa → fa_wf fa → fa_wf (r :: fa).

Definition same_region (r r' : FrameRegionMap) : Prop :=
  frm_paddr r = frm_paddr r' ∧ frm_paddr_end r = frm_paddr_end r'.

#[export] Instance same_region_equiv : Equivalence same_region.
Proof.
  split; [by split|intros x y []; by split|].
  intros x y z [] []. split; congruence.
Qed.

#[export] Instance region_disjoint_proper :
  Proper (same_region ==> same_region ==> iff) region_disjoint.
Proof. intros r1 r2 [H1 H2] r3 r4 [H3 H4]. unfold region_disjoint. lia. Qed.

#[export] Instance frm_all_proper : Proper (same_region ==> eq) frm_all.
Proof. intros [? ? ?] [? ? ?] [H1 H2]; simpl in *; subst. done. Qed.

#[export] Hint Constructors fa_wf : monkey.

Lemma frm_addr_inj r : Inj eq eq (frm_addr r).
Proof. intros i j. unfold frm_addr, PAGE_SIZE. lia. Qed.

Lemma elem_of_frm_free r p :
  frm_wf r → p ∈ frm_free r ↔ ∃ i, p = frm_addr r i ∧ 0 ≤ i ∧ used (frm_bits r) i = false.
Proof.
  intros Hwf. unfold frm_free. rewrite elem_of_list_to_set, list_elem_of_fmap.
  setoid_rewrite elem_of_free_pages; naive_solver.
Qed.

Lemma elem_of_frm_all r p :
  p ∈ frm_all r ↔ ∃ i, p = frm_addr r i ∧ 0 ≤ i < frm_pages r.
Proof.
  unfold frm_all. rewrite elem_of_list_to_set, list_elem_of_fmap.
  setoid_rewrite elem_of_seqZ. naive_solver lia.
Qed.

Lemma frm_all_range r p : frm_wf r → p ∈ frm_all r → frm_paddr r ≤ p < frm_paddr_end r.
Proof.
  intros Hwf (i & -> & Hi)%elem_of_frm_all. pose proof (frm_pages_bound r Hwf).
  unfold frm_addr, PAGE_SIZE in *. lia.
Qed.

Lemma frm_free_all r : frm_wf r → frm_free r ⊆ frm_all r.
Proof.
  intros Hwf p (i & -> & Hi & Hu)%elem_of_frm_free; [|done].
  apply elem_of_frm_all. exists i. pose proof (bits_wf_free _ _ _ (fw_bits _ Hwf) Hu). naive_solver.
Qed.

Lemma fa_free_all fa : fa_wf fa → fa_free fa ⊆ fa_all fa.
Proof. induction 1; simpl; [done|]. pose proof (frm_free_all r). set_solver. Qed.

Lemma region_disjoint_all r r' p :
  frm_wf r → frm_wf r' → region_disjoint r r' → p ∈ frm_all r → p ∉ frm_all r'.
Proof.
  intros H H' Hd Hp Hp'. apply frm_all_range in Hp, Hp'; [|done..].
  unfold region_disjoint in Hd. lia.
Qed.

Lemma fa_all_disjoint r fa p :
  frm_wf r → Forall (region_disjoint r) fa → fa_wf fa → p ∈ frm_all r → p ∉ fa_all fa.
Proof.
  intros Hr Hd Hwf Hp. induction Hwf as [|r' fa Hr' Hd' Hwf IH]; simpl; [set_solver|].
  inversion_clear Hd as [|? ? Hd1 Hd2]. rewrite not_elem_of_union. split; [|by apply IH].
  eapply region_disjoint_all; [exact Hr|exact Hr'|done|done].
Qed.

Lemma fa_wf_update r r' fa :
  fa_wf (r :: fa) → frm_wf r' → same_region r r' → fa_wf (r' :: fa).
Proof.
  inversion_clear 1 as [|? ? Hr Hd Hf]. intros Hr' Hs. constructor; [done| |done].
  eapply Forall_impl; [exact Hd|]. intros r2 Hd2. simpl in *.
  by rewrite <- Hs.
Qed.

Lemma fa_wf_tail r fa fa' :
  fa_wf (r :: fa) → fa_wf fa' → Forall2 same_region fa fa' → fa_wf (r :: fa').
Proof.
  inversion_clear 1 as [|? ? Hr Hd Hf]. intros Hf' Hs. constructor; [done| |done].
  clear Hf Hf'. induction Hs as [|r1 r2 fa fa' Hs1 Hs IH]; [constructor|].
  inversion_clear Hd as [|? ? Hd1 Hd2]. constructor; [|by apply IH]. by rewrite <- Hs1.
Qed.

Lemma fa_all_same fa fa' : Forall2 same_region fa fa' → fa_all fa' = fa_all fa.
Proof. induction 1 as [|? ? ? ? Hs _ IH]; simpl; [done|]. by rewrite IH, Hs. Qed.

Lemma frm_free_update r r' (s : gset Z) (v : bool) :
  frm_wf r → frm_wf r' → same_region r r' → s ⊆ frm_all r →
  (∀ j, 0 ≤ j → used (frm_bits r') j =
     if bool_decide (frm_addr r j ∈ s) then v else used (frm_bits r) j) →
  frm_free r' = if v then frm_free r ∖ s else s ∪ frm_free r.
Proof.
  intros Hwf Hwf' [Hs1 Hs2] Hall Hu. apply set_eq. intros p.
  rewrite (elem_of_frm_free r') by done.
  assert (frm_addr r' = frm_addr r) as -> by (unfold frm_addr; by rewrite Hs1).
  assert (∀ p, p ∈ s → ∃ i, p = frm_addr r i ∧ 0 ≤ i) as Hsi.
  { intros q Hq. apply Hall, elem_of_frm_all in Hq as (i & -> & ?). naive_solver. }
  destruct v.
  - rewrite elem_of_difference, elem_of_frm_free by done. split.
    + intros (i & -> & Hi & E). rewrite Hu in E by done. case_bool_decide; naive_solver.
    + intros [(i & -> & Hi & E) Hn]. exists i. rewrite Hu by done.
      case_bool_decide; naive_solver.
  - rewrite elem_of_union, elem_of_frm_free by done. split.
    + intros (i & -> & Hi & E). rewrite Hu in E by done. case_bool_decide; naive_solver.
    + intros [Hp|(i & -> & Hi & E)].
      * destruct (Hsi _ Hp) as (i & -> & Hi). exists i. rewrite Hu by done.
        by rewrite bool_decide_eq_true_2.
      * exists i. rewrite Hu by done. case_bool_decide; naive_solver.
Qed.

(** ** Allocator operations on the abstract state *)
Lemma frm_alloc_free r :
  frm_wf r →
  ∃ res r', frm_alloc r = Val (res, r') ∧ frm_wf r' ∧ same_region r r' ∧
    match res with
    | Some p => p ∈ frm_free r ∧ frm_free r' = frm_free r ∖ {[p]}
    | None => r' = r ∧ frm_free r = ∅
    end.
Proof.
  intros Hwf. destruct (frm_alloc_spec r Hwf) as (res & r' & Heq & Hwf' & Hpost).
  exists res, r'. destruct res as [p|]; simpl in Hpost.
  - destruct Hpost as (i & -> & Hi & Hu & _ & Hp & He & Hupd).
    assert (same_region r r') by by split.
    assert (frm_addr r i ∈ frm_free r) as Hin by (apply elem_of_frm_free; naive_solver lia).
    split_and!; try done.
    apply (frm_free_update r r' {[frm_addr r i]} true); try done.
    + pose proof (frm_free_all r Hwf). set_solver.
    + intros j Hj. rewrite Hupd by done. apply if_decide_ext.
      rewrite elem_of_singleton. split; [by intros ->|].
      intros E. by apply (frm_addr_inj r) in E.
  - destruct Hpost as [-> Hall]. split_and!; try done.
    apply set_eq. intros p. rewrite elem_of_frm_free by done. split; [|set_solver].
    intros (i & _ & Hi & Hu). rewrite Hall in Hu by done. done.
Qed.

Lemma fa_alloc_spec fa :
  fa_wf fa →
  ∃ res fa', fa_alloc fa = Val (res, fa') ∧ fa_wf fa' ∧ Forall2 same_region fa fa' ∧
    match res with
    | Some p => p ∈ fa_free fa ∧ fa_free fa' = fa_free fa ∖ {[p]}
    | None => fa' = fa ∧ fa_free fa = ∅
    end.
Proof.
  induction fa as [|r fa IH]; intros Hwf; simpl; [by eexists None, []|].
  inversion Hwf as [|? ? Hr Hd Hf]; subst.
  destruct (frm_alloc_free r Hr) as (res & r' & -> & Hr' & Hs & Hpost). simpl.
  destruct res as [p|].
  - destruct Hpost as [Hin Heq]. eexists (Some p), _. split; [done|].
    split; [by eapply fa_wf_update|]. split; [constructor; [done|reflexivity]|].
    simpl. rewrite Heq. assert (p ∉ fa_free fa).
    { pose proof (fa_free_all fa Hf). pose proof (frm_free_all r Hr).
      pose proof (fa_all_disjoint r fa p Hr Hd Hf). set_solver. }
    set_solver.
  - destruct Hpost as [-> He]. destruct (IH Hf) as (res & fa' & -> & Hf' & Hs' & Hpost).
    simpl. eexists res, _. split; [done|].
    split; [by eapply fa_wf_tail|]. split; [constructor; done|].
    destruct res; simpl; [set_solver|]. destruct Hpost as [-> ?]. set_solver.
Qed.

(** The addresses of [n] consecutive pages from [p]. *)
Definition page_run (p n : Z) : list Z :=
  map (λ k, p + Z.of_nat k * PAGE_SIZE) (seq 0 (Z.to_nat n)).

Lemma page_run_head p n i q : page_run p n !! i = Some q → page_run p n !! 0%nat = Some (q - Z.of_nat i * PAGE_SIZE).
Proof.
  unfold page_run. change (map ?f ?l) with (f <$> l). rewrite !list_lookup_fmap. intros Hi.
  destruct (seq 0 (Z.to_nat n) !! i) as [k|] eqn:Ek; [|done]. injection Hi as <-.
  apply lookup_seq in Ek as [-> Hlt]. rewrite lookup_seq_lt by lia. simpl. f_equal. lia.
Qed.

Lemma elem_of_page_run p n q :
  0 ≤ n → q ∈ page_run p n ↔ ∃ k, 0 ≤ k < n ∧ q = p + k * PAGE_SIZE.
Proof.
  intros Hn. unfold page_run. rewrite list_elem_of_In, in_map_iff.
  setoid_rewrite in_seq. split.
  - intros (k & <- & ?). exists (Z.of_nat k). split; [lia|done].
  - intros (k & ? & ->). exists (Z.to_nat k). rewrite Z2Nat.id by lia. split; [done|lia].
Qed.

Lemma length_page_run p n : 0 ≤ n → Z.of_nat (length (page_run p n)) = n.
Proof. intros. unfold page_run. rewrite length_map, length_seq. lia. Qed.

Lemma NoDup_page_run p n : NoDup (page_run p n).
Proof.
  unfold page_run. assert (Inj eq eq (λ k : nat, p + Z.of_nat k * PAGE_SIZE)).
  { intros i j. unfold PAGE_SIZE. lia. }
  apply (NoDup_fmap_2 (λ k : nat, p + Z.of_nat k * PAGE_SIZE)), NoDup_seq.
Qed.

Lemma frm_alloc_much_free r n :
  frm_wf r → 0 < n →
  ∃ res r', frm_alloc_much r n = Val (res, r') ∧ frm_wf r' ∧ same_region r r' ∧
    match res with
    | Some ps => ∃ p, ps = page_run p n ∧ list_to_set ps ⊆ frm_free r ∧
        frm_free r' = frm_free r ∖ list_to_set ps
    | None => r' = r ∧ ∀ p, ¬ list_to_set (page_run p n) ⊆ frm_free r
    end.
Proof.
  intros Hwf Hn. destruct (frm_alloc_much_spec r n Hwf Hn) as (res & r' & Heq & Hwf' & Hpost).
  exists res, r'. destruct res as [ps|]; simpl in Hpost.
  - destruct Hpost as (a & Ha & Hal & Hrun & -> & Hp & He & Hupd).
    assert (same_region r r') by by split.
    assert (map (λ k, frm_addr r (a + Z.of_nat k)) (seq 0 (Z.to_nat n)) =
            page_run (frm_addr r a) n) as Emap.
    { unfold page_run, frm_addr. apply map_ext. intros. lia. }
    rewrite Emap in *.
    assert (list_to_set (page_run (frm_addr r a) n) ⊆ frm_free r) as Hsub.
    { intros q. rewrite elem_of_list_to_set, elem_of_page_run by lia.
      intros (k & Hk & ->). apply elem_of_frm_free; [done|]. exists (a + k).
      split_and!; [unfold frm_addr; lia|lia|apply Hrun; lia]. }
    do 3 (split; [done|]). exists (frm_addr r a). do 2 (split; [done|]).
    apply (frm_free_update r r' _ true); try done.
    + pose proof (frm_free_all r Hwf). set_solver.
    + intros j Hj. rewrite Hupd by done. apply if_decide_ext.
      rewrite elem_of_list_to_set, elem_of_page_run by lia. unfold frm_addr. split.
      * intros. exists (j - a). lia.
      * intros (k & ? & E). unfold PAGE_SIZE in E. lia.
  - destruct Hpost as [-> Hno]. do 4 (split; [done || reflexivity|]). intros p Hsub.
    assert (p ∈ frm_free r) as Hp0.
    { apply Hsub. rewrite elem_of_list_to_set, elem_of_page_run by lia. exists 0. lia. }
    apply elem_of_frm_free in Hp0 as (a & -> & Ha & _); [|done].
    apply (Hno a Ha). intros k Hk.
    assert (frm_addr r k ∈ frm_free r) as Hpk.
    { apply Hsub. rewrite elem_of_list_to_set, elem_of_page_run by lia.
      exists (k - a). unfold frm_addr. lia. }
    apply elem_of_frm_free in Hpk as (k' & E & _ & Hu); [|done].
    by apply (frm_addr_inj r) in E as ->.
Qed.

(** A request for no page takes none. *)
Lemma alloc_much_loop_zero pages k : pages ≤ 0 → ∀ i cs cc start bits res bits',
  0 ≤ cc → alloc_much_loop k i cs cc pages start bits = Val (res, bits') → bits' = bits ∧ default [] res = [].
Proof.
  intros Hp. induction k as [|k IH]; intros i cs cc start bits res bits' Hc; cbn [alloc_much_loop]; [by intros [= <- <-]|].
  destruct (bits_get_bit bits i) as [[|]|]; cbn [mbind outcome_bind]; [apply IH; lia| |done].
  rewrite (proj2 (Z.leb_le _ _)) by lia. replace (Z.to_nat pages) with 0%nat by lia. cbn. by intros [= <- <-].
Qed.

Lemma fa_alloc_much_zero fa pages : pages ≤ 0 → ∀ res fa', fa_alloc_much fa pages = Val (res, fa') → fa' = fa ∧ default [] res = [].
Proof.
  intros Hp. induction fa as [|r fa IH]; intros res fa'; cbn [fa_alloc_much]; [by intros [= <- <-]|].
  unfold frm_alloc_much. set (tail := fa_alloc_much fa pages) in *.
  assert (∀ res fa', (('(res0, rest') ← tail; Val (res0, r :: rest')) = Val (res, fa')) → fa' = r :: fa ∧ default [] res = []) as Ht.
  { intros res0 fa0. destruct tail as [[res1 fa1]|]; [|done]. cbn [mbind outcome_bind]. intros [= <- <-].
    destruct (IH res1 fa1 eq_refl) as [-> ?]. done. }
  destruct (_ <? pages); cbn [mbind outcome_bind]; [apply Ht|].
  destruct (frm_get_free_page_count r <? pages); cbn [mbind outcome_bind]; [apply Ht|].
  destruct (alloc_much_loop _ _ _ _ _ _ _) as [[[ans|] bits]|] eqn:E; cbn [mbind outcome_bind]; [| |done].
  - apply alloc_much_loop_zero in E as [-> Ha]; [|done..]. simpl in Ha. subst ans. intros [= <- <-]. by destruct r.
  - apply alloc_much_loop_zero in E as [-> _]; [|done..]. destruct (max_consecutive_loop _ _ _ _ _); cbn [mbind outcome_bind]; [apply Ht|done].
Qed.

Lemma fa_alloc_much_spec fa n :
  fa_wf fa → 0 < n →
  ∃ res fa', fa_alloc_much fa n = Val (res, fa') ∧ fa_wf fa' ∧ Forall2 same_region fa fa' ∧
    match res with
    | Some ps => ∃ p, ps = page_run p n ∧ list_to_set ps ⊆ fa_free fa ∧
        fa_free fa' = fa_free fa ∖ list_to_set ps
    | None => fa' = fa ∧
        ∀ r p, r ∈ fa → ¬ list_to_set (page_run p n) ⊆ frm_free r
    end.
Proof.
  intros Hwf Hn. induction fa as [|r fa IH]; simpl.
  { eexists None, []. split_and!; try done. set_solver. }
  inversion Hwf as [|? ? Hr Hd Hf]; subst.
  destruct (frm_alloc_much_free r n Hr Hn) as (res & r' & -> & Hr' & Hs & Hpost). simpl.
  destruct res as [ps|].
  - destruct Hpost as (p & -> & Hsub & Heq). eexists (Some _), _. split; [done|].
    split; [by eapply fa_wf_update|]. split; [constructor; [done|reflexivity]|].
    exists p. split; [done|]. split; [set_solver|]. simpl. rewrite Heq.
    assert (fa_free fa ## list_to_set (page_run p n)); [|set_solver].
    intros q Hq1 Hq2. pose proof (fa_free_all fa Hf). pose proof (frm_free_all r Hr).
    pose proof (fa_all_disjoint r fa q Hr Hd Hf). set_solver.
  - destruct Hpost as [-> Hno]. destruct (IH Hf) as (res & fa' & -> & Hf' & Hs' & Hpost).
    simpl. eexists res, _. split; [done|].
    split; [by eapply fa_wf_tail|]. split; [constructor; done|].
    destruct res as [ps|].
    + destruct Hpost as (p & -> & Hsub & Heq). exists p. split; [done|].
      split; [simpl; set_solver|]. simpl. rewrite Heq.
      assert (frm_free r ## list_to_set (page_run p n)); [|set_solver].
      intros q Hq1 Hq2. pose proof (fa_free_all fa Hf). pose proof (frm_free_all r Hr).
      pose proof (fa_all_disjoint r fa q Hr Hd Hf). set_solver.
    + destruct Hpost as [-> Hno']. split; [done|]. intros r2 p [->|Hin]%elem_of_cons; eauto.
Qed.

Lemma fa_dealloc_spec fa p :
  fa_wf fa → p ∈ fa_all fa →
  ∃ fa', fa_dealloc fa p = Val fa' ∧ fa_wf fa' ∧ Forall2 same_region fa fa' ∧
    fa_free fa' = {[p]} ∪ fa_free fa.
Proof.
  intros Hwf Hp. induction fa as [|r fa IH]; simpl in *; [set_solver|].
  inversion Hwf as [|? ? Hr Hd Hf]; subst.
  destruct (decide (p ∈ frm_all r)) as [Hin|Hnin].
  - pose proof (frm_all_range r p Hr Hin).
    rewrite (proj2 (Z.leb_le _ _)), (proj2 (Z.ltb_lt _ _)) by lia. simpl.
    apply elem_of_frm_all in Hin as (i & -> & Hi).
    destruct (frm_dealloc_spec r i Hr Hi) as (r' & -> & Hr' & H1 & H2 & Hu). simpl.
    assert (same_region r r') by by split. eexists; split; [done|].
    split; [by eapply fa_wf_update|]. split; [constructor; [done|reflexivity]|].
    simpl. rewrite (frm_free_update r r' {[frm_addr r i]} false); try done; [set_solver|..].
    + intros q ->%elem_of_singleton. apply elem_of_frm_all. eauto.
    + intros j Hj. rewrite Hu by done. apply if_decide_ext.
      rewrite elem_of_singleton. split; [by intros ->|]. intros E.
      by apply (frm_addr_inj r) in E.
  - assert (p ∈ fa_all fa) as Hp2 by set_solver.
    destruct (IH Hf Hp2) as (fa' & E & Hf' & Hs & Hfree).
    destruct ((frm_paddr r <=? p) && (p <? frm_paddr_end r)) eqn:Eb; zbool.
    { exfalso. clear -Hp2 Hd Hf Hr H H0. induction Hf as [|r2 fa Hr2 ? Hf IHf]; [set_solver|].
      inversion_clear Hd as [|? ? Hd1 Hd2]. simpl in Hp2. apply elem_of_union in Hp2 as [Hp2|Hp2].
      - apply frm_all_range in Hp2; [|done]. unfold region_disjoint in Hd1. lia.
      - by apply IHf. }
    rewrite E. simpl. eexists; split; [done|].
    split; [by eapply fa_wf_tail|]. split; [constructor; done|]. simpl. rewrite Hfree. set_solver.
Qed.

(** ** Properties of the allocator *)

Lemma fa_count_free fa : fa_wf fa → fa_get_free_page_count fa = Z.of_nat (size (fa_free fa)).
Proof.
  intros Hwf. unfold fa_get_free_page_count.
  enough (∀ s, foldl (λ sum x, sum + frm_get_free_page_count x) s fa =
               s + Z.of_nat (size (fa_free fa))) as H by (rewrite H; lia).
  induction Hwf as [|r fa Hr Hd Hf IH]; intros s; cbn [fa_free foldl].
  { rewrite size_empty. lia. }
  rewrite IH, frm_count_free by done. rewrite size_union.
  - unfold frm_free. rewrite size_list_to_set, length_fmap; [lia|].
    apply NoDup_fmap; [apply frm_addr_inj|apply NoDup_free_pages].
  - intros p Hp Hp'. pose proof (fa_free_all fa Hf). pose proof (frm_free_all r Hr).
    pose proof (fa_all_disjoint r fa p Hr Hd Hf). set_solver.
Qed.

Lemma fa_free_same_all fa fa' :
  fa_wf fa' → Forall2 same_region fa fa' → fa_free fa' ⊆ fa_all fa.
Proof. intros. rewrite <- (fa_all_same fa fa') by done. by apply fa_free_all. Qed.

(** [FrameAllocator::alloc] never panics on a well-formed allocator; it
    returns a free page and removes exactly that page from the free set, or
    returns [None] and changes nothing, which happens exactly when no page is
    free.  The invariant is kept and the free-page count drops by one. *)
Theorem fa_alloc_correct fa :
  fa_wf fa →
  ∃ res fa', fa_alloc fa = Val (res, fa') ∧ fa_wf fa' ∧ fa_all fa' = fa_all fa ∧
    (res = None ↔ fa_get_free_page_count fa = 0) ∧
    match res with
    | Some p => p ∈ fa_free fa ∧ fa_free fa' = fa_free fa ∖ {[p]} ∧
                fa_get_free_page_count fa' = fa_get_free_page_count fa - 1
    | None => fa' = fa
    end.
Proof.
  intros Hwf. destruct (fa_alloc_spec fa Hwf) as (res & fa' & Heq & Hwf' & Hs & Hpost).
  exists res, fa'. split_and!; [done..|by apply fa_all_same| |].
  - rewrite fa_count_free by done. destruct res as [p|].
    + split; [done|]. intros H.
      assert (fa_free fa ≡ ∅) by (apply size_empty_inv; lia). set_solver.
    + destruct Hpost as [_ ->]. by rewrite size_empty.
  - destruct res as [p|]; [|naive_solver]. destruct Hpost as [Hin Hfree].
    split_and!; try done. rewrite !fa_count_free, Hfree by done.
    rewrite size_difference by set_solver. rewrite size_singleton.
    assert (size (fa_free fa) ≠ 0)%nat by (intros H; apply size_empty_inv in H; set_solver). lia.
Qed.

(** C7: [alloc_much] for [n > 0] pages is sound and complete: a successful call
    returns [n] distinct page addresses in address order, each page free before
    and exactly those removed from the free set; a failed call leaves the
    allocator unchanged and no region has [n] consecutive free pages. *)
Theorem fa_alloc_much_correct fa n :
  fa_wf fa → 0 < n →
  ∃ res fa', fa_alloc_much fa n = Val (res, fa') ∧ fa_wf fa' ∧ fa_all fa' = fa_all fa ∧
    match res with
    | Some ps => ∃ p, ps = page_run p n ∧ NoDup ps ∧ Z.of_nat (length ps) = n ∧
        list_to_set ps ⊆ fa_free fa ∧ fa_free fa' = fa_free fa ∖ list_to_set ps ∧
        fa_get_free_page_count fa' = fa_get_free_page_count fa - n
    | None => fa' = fa ∧
        ∀ r p, r ∈ fa → ¬ list_to_set (page_run p n) ⊆ frm_free r
    end.
Proof.
  intros Hwf Hn. destruct (fa_alloc_much_spec fa n Hwf Hn) as (res & fa' & Heq & Hwf' & Hs & Hpost).
  exists res, fa'. split_and!; [done..|by apply fa_all_same|].
  destruct res as [ps|]; [|done]. destruct Hpost as (p & -> & Hsub & Hfree).
  exists p. pose proof (NoDup_page_run p n).
  split_and!; try done; [apply length_page_run; lia|].
  rewrite !fa_count_free, Hfree, size_difference by done.
  pose proof (subseteq_size _ _ Hsub) as Hle.
  rewrite size_list_to_set in Hle |- * by done.
  pose proof (length_page_run p n). lia.
Qed.

(** Releasing a page that [alloc] just returned restores the free set, and
    the released page is allocatable again. *)
Theorem fa_alloc_dealloc_roundtrip fa p fa1 :
  fa_wf fa → fa_alloc fa = Val (Some p, fa1) →
  ∃ fa2, fa_dealloc fa1 p = Val fa2 ∧ fa_wf fa2 ∧ fa_free fa2 = fa_free fa ∧
    fa_get_free_page_count fa2 = fa_get_free_page_count fa.
Proof.
  intros Hwf E. destruct (fa_alloc_spec fa Hwf) as (res & fa' & Heq & Hwf' & Hs & Hpost).
  rewrite Heq in E. injection E as -> ->. destruct Hpost as [Hin Hfree].
  destruct (fa_dealloc_spec fa1 p Hwf') as (fa2 & Hd & Hwf2 & Hs2 & Hfree2).
  { rewrite (fa_all_same fa fa1) by done. by apply fa_free_all. }
  assert (fa_free fa2 = fa_free fa) as Hsame.
  { rewrite Hfree2, Hfree. rewrite <- union_difference_L; [done|set_solver]. }
  exists fa2. split_and!; try done. by rewrite !fa_count_free, Hsame.
Qed.

(** [add_memory_region] on page-aligned bounds above the existing regions
    keeps the invariant and adds exactly the pages of the region, all free. *)
Theorem fa_add_memory_region_correct fa s e :
  fa_wf fa → Forall (λ r, frm_paddr_end r ≤ s) fa →
  0 ≤ s → s ≤ e → e < MAX64 → s mod PAGE_SIZE = 0 → e mod PAGE_SIZE = 0 →
  ∃ fa', fa_add_memory_region fa s e = Val fa' ∧ fa_wf fa' ∧
    fa_free fa' = fa_free fa ∪ list_to_set (page_run s ((e - s) / PAGE_SIZE)) ∧
    fa_get_free_page_count fa' = fa_get_free_page_count fa + (e - s) / PAGE_SIZE ∧
    fa_all fa' = fa_all fa ∪ list_to_set (page_run s ((e - s) / PAGE_SIZE)) ∧ Forall (λ r, frm_paddr_end r ≤ e) fa'.
Proof.
  intros Hwf Hlo Hs Hse He Has Hae.
  destruct (frm_new_spec s e) as (r & Hnew & Hr & H1 & H2 & Hu); [done..|].
  unfold fa_add_memory_region. rewrite Hnew. simpl. eexists; split; [done|].
  assert (frm_free r = list_to_set (page_run s ((e - s) / PAGE_SIZE))) as Hfr.
  { apply set_eq. intros p. rewrite elem_of_frm_free by done.
    assert (0 ≤ (e - s) / PAGE_SIZE) by (apply Z.div_pos; [lia|done]).
    rewrite elem_of_list_to_set, elem_of_page_run by done. unfold frm_addr. rewrite H1. split.
    - intros (i & -> & Hi & Hi2). exists i. rewrite Hu in Hi2 by done.
      case_bool_decide; [done|]. lia.
    - intros (k & Hk & ->). exists k. rewrite Hu by lia. split_and!; [done|lia|].
      by rewrite bool_decide_eq_false_2 by lia. }
  assert (fa_free (fa ++ [r]) = fa_free fa ∪ frm_free r) as Hfree.
  { clear. induction fa as [|r2 fa IH]; simpl; [set_solver|]. rewrite IH. set_solver. }
  assert (fa_wf (fa ++ [r])) as Hwf2.
  { clear Hfree. induction Hwf as [|r2 fa Hr2 Hd Hf IH]; simpl; [eauto with monkey|].
    inversion_clear Hlo as [|? ? Hl1 Hl2]. constructor; [done| |by apply IH].
    apply Forall_app. split; [done|]. constructor; [left; lia|done]. }
  assert (fa_all (fa ++ [r]) = fa_all fa ∪ list_to_set (page_run s ((e - s) / PAGE_SIZE))) as Hall.
  { assert (fa_all (fa ++ [r]) = fa_all fa ∪ frm_all r) as ->.
    { clear. induction fa as [|r2 fa IH]; simpl; [set_solver|]. rewrite IH. set_solver. }
    f_equal. apply set_eq. intros p.
    assert (0 ≤ (e - s) / PAGE_SIZE) by (apply Z.div_pos; [lia|done]).
    rewrite elem_of_frm_all, elem_of_list_to_set, elem_of_page_run by done.
    unfold frm_addr, frm_pages. rewrite H1, H2. naive_solver. }
  split_and!; [done|by rewrite Hfree, Hfr| |exact Hall|].
  2: { apply Forall_app. split; [|constructor; [lia|constructor]]. eapply Forall_impl; [exact Hlo|]. simpl. lia. }
  unfold fa_get_free_page_count. rewrite foldl_app. simpl. f_equal.
  rewrite frm_count_free by done. unfold free_pages, frm_pages. rewrite H1, H2.
  rewrite filter_all.
  - rewrite length_seqZ. assert (0 ≤ (e - s) / PAGE_SIZE) by (apply Z.div_pos; [lia|done]). lia.
  - intros i Hi%elem_of_seqZ. rewrite Hu by lia. by rewrite bool_decide_eq_false_2 by lia.
Qed.

(** ** Histories: frames in use are exclusive and released frames are clean

    A history of the system's use of trackers: [live] are the addresses of the
    trackers that exist.  Code that owns a tracker may write its page. *)
Inductive frame_step : Phys * gset Z → Phys * gset Z → Prop :=
  | step_alloc ph ph' p live :
      frame_alloc ph = Val (Some p, ph') →
      frame_step (ph, live) (ph', {[p]} ∪ live)
  | step_alloc_much ph ph' n ps live :
      0 < n → frame_alloc_much ph n = Val (Some ps, ph') →
      frame_step (ph, live) (ph', list_to_set ps ∪ live)
  | step_write ph p data live :
      p ∈ live →
      frame_step (ph, live) (mkPhys (ph_alloc ph) (<[p := data]> (ph_ram ph)), live)
  | step_drop ph ph' p live :
      p ∈ live → tracker_drop p ph = Val ph' →
      frame_step (ph, live) (ph', live ∖ {[p]}).

(** Every page is free or has a live tracker, never both, and free pages read
    as zero. *)
Record frame_inv (all : gset Z) (st : Phys * gset Z) : Prop := {
  fi_wf : fa_wf (ph_alloc st.1);
  fi_all : fa_all (ph_alloc st.1) = all;
  fi_disj : st.2 ## fa_free (ph_alloc st.1);
  fi_cover : st.2 ∪ fa_free (ph_alloc st.1) = all;
  fi_zero : ∀ p, p ∈ fa_free (ph_alloc st.1) → ph_ram st.1 !! p = Some zero_page
}.

Lemma frame_alloc_inv ph res ph' :
  frame_alloc ph = Val (res, ph') →
  fa_alloc (ph_alloc ph) = Val (res, ph_alloc ph') ∧ ph_ram ph' = ph_ram ph.
Proof.
  unfold frame_alloc. destruct (fa_alloc _) as [[r fa]|]; simpl; [|done].
  intros [= -> <-]. done.
Qed.

Lemma frame_alloc_much_inv ph n res ph' :
  frame_alloc_much ph n = Val (res, ph') →
  fa_alloc_much (ph_alloc ph) n = Val (res, ph_alloc ph') ∧ ph_ram ph' = ph_ram ph.
Proof.
  unfold frame_alloc_much. destruct (fa_alloc_much _ _) as [[r fa]|]; simpl; [|done].
  intros [= -> <-]. done.
Qed.

Lemma frame_inv_step all st st' : frame_inv all st → frame_step st st' → frame_inv all st'.
Proof.
  intros [Hwf Hall Hd Hc Hz] Hstep; destruct Hstep as
    [ph ph' p live E|ph ph' n ps live Hn E|ph p data live Hp|ph ph' p live Hp E]; simpl in *.
  - apply frame_alloc_inv in E as [E Hram].
    destruct (fa_alloc_spec _ Hwf) as (res & fa' & E' & Hwf' & Hs & Hpost).
    rewrite E in E'. injection E' as <- <-. destruct Hpost as [Hin Hf].
    split; simpl; rewrite ?Hf, ?Hram; try done; [by rewrite (fa_all_same _ _ Hs)|set_solver| |].
    + rewrite <- Hc. apply set_eq. intros x. destruct (decide (x = p)); set_solver.
    + intros q Hq. apply Hz. set_solver.
  - apply frame_alloc_much_inv in E as [E Hram].
    destruct (fa_alloc_much_spec _ _ Hwf Hn) as (res & fa' & E' & Hwf' & Hs & Hpost).
    rewrite E in E'. injection E' as <- <-. destruct Hpost as (p & -> & Hsub & Hf).
    split; simpl; rewrite ?Hf, ?Hram; try done; [by rewrite (fa_all_same _ _ Hs)|set_solver| |].
    + rewrite <- Hc. apply set_eq. intros x. destruct (decide (x ∈ page_run p n)); set_solver.
    + intros q Hq. apply Hz. set_solver.
  - split; simpl; try done. intros q Hq. rewrite lookup_insert_ne by set_solver. by apply Hz.
  - unfold tracker_drop in E. simpl in E.
    destruct (fa_dealloc_spec (ph_alloc ph) p Hwf) as (fa' & E' & Hwf' & Hs & Hf); [set_solver|].
    rewrite E' in E. simpl in E. injection E as <-.
    split; simpl; rewrite ?Hf; try done; [by rewrite (fa_all_same _ _ Hs)|set_solver| |].
    + rewrite <- Hc. apply set_eq. intros x. destruct (decide (x = p)); set_solver.
    + intros q [->%elem_of_singleton|Hq]%elem_of_union; [by rewrite lookup_insert_eq|].
      rewrite lookup_insert_ne by set_solver. by apply Hz.
Qed.

Lemma frame_inv_reachable all st st' :
  frame_inv all st → rtc frame_step st st' → frame_inv all st'.
Proof. intros Hi Hr. induction Hr; eauto using frame_inv_step. Qed.

Lemma frame_inv_init ph :
  fa_wf (ph_alloc ph) → fa_free (ph_alloc ph) = fa_all (ph_alloc ph) →
  (∀ p, p ∈ fa_all (ph_alloc ph) → ph_ram ph !! p = Some zero_page) →
  frame_inv (fa_all (ph_alloc ph)) (ph, ∅).
Proof. intros Hwf Hf Hz. split; simpl; rewrite ?Hf; set_solver. Qed.

(** C1: whatever the history of allocations, page writes and tracker drops from
    boot, every frame the allocator hands out, alone or in a contiguous run,
    has no live tracker, belongs to the memory it was given, and reads as zero;
    a run has the length asked for, without repetition; a single allocation
    fails only when every frame has a tracker; and none of the next requests
    can panic. *)
Theorem frame_history_exclusive ph0 ph live :
  fa_wf (ph_alloc ph0) → fa_free (ph_alloc ph0) = fa_all (ph_alloc ph0) →
  (∀ p, p ∈ fa_all (ph_alloc ph0) → ph_ram ph0 !! p = Some zero_page) →
  rtc frame_step (ph0, ∅) (ph, live) →
  (∃ res ph', frame_alloc ph = Val (res, ph') ∧
     match res with
     | Some p => p ∉ live ∧ p ∈ fa_all (ph_alloc ph0) ∧ ph_ram ph' !! p = Some zero_page
     | None => live = fa_all (ph_alloc ph0)
     end) ∧
  (∀ n, 0 < n → ∃ res ph', frame_alloc_much ph n = Val (res, ph') ∧
     match res with
     | Some ps => Z.of_nat (length ps) = n ∧ NoDup ps ∧ (∀ i p, ps !! i = Some p → ps !! 0%nat = Some (p - Z.of_nat i * PAGE_SIZE)) ∧
         ∀ p, p ∈ ps → p ∉ live ∧ p ∈ fa_all (ph_alloc ph0) ∧ ph_ram ph' !! p = Some zero_page
     | None => ph' = ph
     end) ∧
  (∀ p, p ∈ live → ∃ ph', tracker_drop p ph = Val ph').
Proof.
  intros Hwf Hf Hz Hr.
  destruct (frame_inv_reachable _ _ _ (frame_inv_init ph0 Hwf Hf Hz) Hr) as [Hwf' Ha Hd Hc Hz'].
  simpl in *. split_and!.
  - destruct (fa_alloc_spec _ Hwf') as (res & fa' & E & _ & _ & Hpost).
    exists res, (mkPhys fa' (ph_ram ph)). unfold frame_alloc. rewrite E. simpl. split; [done|].
    destruct res as [p|].
    + destruct Hpost as [Hin _]. split_and!; [set_solver|set_solver|by apply Hz'].
    + destruct Hpost as [_ He]. set_solver.
  - intros n Hn. destruct (fa_alloc_much_spec _ n Hwf' Hn) as (res & fa' & E & _ & _ & Hpost).
    exists res, (mkPhys fa' (ph_ram ph)). unfold frame_alloc_much. rewrite E. split; [done|].
    destruct res as [ps|]; [|destruct Hpost as [-> _]; by destruct ph].
    destruct Hpost as (p & -> & Hsub & _). split_and!; [apply length_page_run; lia|apply NoDup_page_run|by apply page_run_head|].
    intros q Hq. assert (q ∈ fa_free (ph_alloc ph)) as Hin by (apply Hsub; by apply elem_of_list_to_set).
    split_and!; [set_solver|set_solver|by apply Hz'].
  - intros p Hp. unfold tracker_drop. simpl.
    destruct (fa_dealloc_spec (ph_alloc ph) p Hwf') as (fa' & -> & _); [set_solver|].
    simpl. eauto.
Qed.

(** ** What clients rely on

    The interface through which the file system and the memory manager obtain
    frames: an allocation either fails without effect or moves one address from
    the free set to the caller. *)
Class FrameSource (S : Type) := {
  fs_alloc : S → outcome (option Z * S);
  fs_free : S → gset Z;
  fs_inv : S → Prop;
  fs_alloc_spec s : fs_inv s →
    ∃ res s', fs_alloc s = Val (res, s') ∧ fs_inv s' ∧
      match res with
      | Some p => p ∈ fs_free s ∧ fs_free s' = fs_free s ∖ {[p]}
      | None => s' = s ∧ fs_free s = ∅
      end
}.

#[export] Program Instance FrameAllocator_source : FrameSource FrameAllocator := {
  fs_alloc := fa_alloc;
  fs_free := fa_free;
  fs_inv := fa_wf
}.
Next Obligation.
  intros fa Hwf. destruct (fa_alloc_spec fa Hwf) as (res & fa' & ? & ? & _ & ?). eauto.
Qed.

(** ** A concrete allocator: 16 pages at the RAM base of the RISC-V board *)
Definition demo_region : FrameRegionMap :=
  mkFrm [Z.shiftl (Z.ones 48) 16] 0x80000000 0x80010000.

Lemma demo_region_new : frm_new 0x80000000 0x80010000 = Val demo_region.
Proof. by vm_compute. Qed.

Lemma demo_region_wf : frm_wf demo_region.
Proof.
  destruct (frm_new_spec 0x80000000 0x80010000) as (r & E & Hwf & _); [done..|].
  rewrite demo_region_new in E. injection E as <-. done.
Qed.

Definition demo_fa : FrameAllocator := [demo_region].

Lemma demo_fa_wf : fa_wf demo_fa.
Proof. apply fa_wf_cons; [apply demo_region_wf|constructor..]. Qed.

Definition demo_phys : Phys :=
  mkPhys demo_fa (list_to_map ((λ p, (p, zero_page)) <$> elements (fa_all demo_fa))).

Lemma demo_fa_all_free : fa_free demo_fa = fa_all demo_fa.
Proof. by vm_compute. Qed.

Lemma demo_ram_zero p :
  p ∈ fa_all demo_fa → ph_ram demo_phys !! p = Some zero_page.
Proof.
  intros Hp. simpl. apply elem_of_list_to_map_1.
  - rewrite <- list_fmap_compose. simpl. rewrite list_fmap_id. apply NoDup_elements.
  - apply list_elem_of_fmap. exists p. split; [done|]. by apply elem_of_elements.
Qed.

Lemma fa_alloc_correct_witness :
  fa_wf demo_fa ∧ ∃ res fa', fa_alloc demo_fa = Val (res, fa') ∧ res = Some 0x80000000 ∧
    fa_get_free_page_count fa' = 15.
Proof.
  split; [apply demo_fa_wf|].
  destruct (fa_alloc_correct demo_fa demo_fa_wf) as (res & fa' & E & _ & _ & _ & Hpost).
  exists res, fa'. split; [done|].
  assert (res = Some 0x80000000) as -> by (vm_compute in E; congruence).
  split; [done|]. destruct Hpost as (_ & _ & ->). reflexivity.
Defined.

Lemma fa_alloc_much_correct_witness :
  fa_wf demo_fa ∧ 0 < 3 ∧ ∃ ps fa', fa_alloc_much demo_fa 3 = Val (Some ps, fa') ∧
    ps = [0x80000000; 0x80001000; 0x80002000] ∧ fa_get_free_page_count fa' = 13.
Proof.
  split; [apply demo_fa_wf|]. split; [done|].
  destruct (fa_alloc_much_correct demo_fa 3 demo_fa_wf ltac:(done))
    as (res & fa' & E & _ & _ & Hpost).
  assert (res = Some [0x80000000; 0x80001000; 0x80002000]) as -> by (vm_compute in E; congruence).
  exists [0x80000000; 0x80001000; 0x80002000], fa'. split; [done|]. split; [done|].
  destruct Hpost as (p & _ & _ & _ & _ & _ & ->). reflexivity.
Defined.

Lemma fa_alloc_dealloc_roundtrip_witness :
  ∃ fa1 fa2, fa_alloc demo_fa = Val (Some 0x80000000, fa1) ∧
    fa_dealloc fa1 0x80000000 = Val fa2 ∧ fa_free fa2 = fa_free demo_fa.
Proof.
  eexists. destruct (fa_alloc_dealloc_roundtrip demo_fa 0x80000000
    [mkFrm [Z.lor (Z.shiftl (Z.ones 48) 16) 1] 0x80000000 0x80010000] demo_fa_wf
    ltac:(by vm_compute)) as (fa2 & Hd & _ & Hf & _).
  exists fa2. split; [|split; [exact Hd|exact Hf]]. by vm_compute.
Defined.

Lemma fa_add_memory_region_correct_witness :
  ∃ fa', fa_add_memory_region demo_fa 0x80010000 0x80020000 = Val fa' ∧
    fa_get_free_page_count fa' = 32.
Proof.
  destruct (fa_add_memory_region_correct demo_fa 0x80010000 0x80020000 demo_fa_wf)
    as (fa' & E & _ & _ & Hc & _).
  - constructor; [done|constructor].
  - done.
  - done.
  - done.
  - done.
  - done.
  - exists fa'. split; [exact E|]. rewrite Hc. reflexivity.
Defined.

Lemma frame_history_exclusive_witness :
  ∃ ph1, rtc frame_step (demo_phys, ∅) (ph1, {[0x80000000]} ∪ ∅) ∧
    (∃ res ph', frame_alloc ph1 = Val (res, ph') ∧ res = Some 0x80001000) ∧
    ∃ ps ph', frame_alloc_much ph1 3 = Val (Some ps, ph') ∧ 0x80000000 ∉ ps ∧ length ps = 3%nat.
Proof.
  eexists. split.
  { apply rtc_once. apply step_alloc. reflexivity. }
  destruct (frame_history_exclusive demo_phys
    (mkPhys [mkFrm [Z.lor (Z.shiftl (Z.ones 48) 16) 1] 0x80000000 0x80010000] (ph_ram demo_phys))
    ({[0x80000000]} ∪ ∅) demo_fa_wf demo_fa_all_free demo_ram_zero)
    as [(res & ph' & E & _) [Hmuch _]].
  { apply rtc_once. apply step_alloc. reflexivity. }
  split.
  - exists res, ph'. split; [exact E|]. clear -E.
    unfold frame_alloc in E. simpl ph_alloc in E.
    assert (fa_alloc [mkFrm [Z.lor (Z.shiftl (Z.ones 48) 16) 1] 0x80000000 0x80010000] =
       Val (Some 0x80001000, [mkFrm [Z.lor (Z.shiftl (Z.ones 48) 16) 3] 0x80000000 0x80010000]))
      as Hfa by (by vm_compute).
    rewrite Hfa in E. simpl in E. injection E as <- _. reflexivity.
  - clear E. destruct (Hmuch 3 ltac:(done)) as ([ps|] & ph2 & E & Hps).
    + exists ps, ph2. destruct Hps as (Hlen & _ & _ & Hp). split; [exact E|]. split; [|lia]. intros Hin. destruct (Hp _ Hin) as [Hni _].
      apply Hni, elem_of_union_l, elem_of_singleton. reflexivity.
    + exfalso. clear -E. apply (f_equal (λ o, match o with Val (Some _, _) => true | _ => false end)) in E. vm_compute in E. discriminate.
Defined.
