(* ===== verification/Heap.v ===== *)
(** * The kernel heap ([crates/runtime/src/heap.rs])

    [LargeAllocator] serves blocks above 64 KiB from a static 128 MiB pool by
    first fit over the gaps between its live records; [HybridAllocator] routes
    a request to it or to the buddy allocator (a third-party crate, a parameter
    here).  Addresses are 64-bit words; the pool's base is a parameter. *)

From S2P Require Import Prelude.
Local Open Scope Z_scope.

Definition LARGE_ALLOC_THRESHOLD : Z := 64 * 1024.
Definition LARGE_POOL_SIZE : Z := 128 * 1024 * 1024.

(** A record of the pool: offset, size, [is_free]. *)
Abbreviation Block := (Z * Z * bool)%type.
Definition b_off (b : Block) : Z := b.1.1.
Definition b_size (b : Block) : Z := b.1.2.
Definition b_free (b : Block) : bool := b.2.

Record LargeAllocator := mkLarge {
  la_allocations : list Block;
  la_next_alloc_hint : Z
}.

Definition la_new : LargeAllocator := mkLarge [] 0.

Definition set_allocations (la : LargeAllocator) (l : list Block) : LargeAllocator :=
  mkLarge l (la_next_alloc_hint la).

(** The records that are in use, in order. *)
Definition live (l : list Block) : list Block := filter (λ b, b_free b = false) l.

(** [iter().max().unwrap_or(0)] *)
Definition max_or_0 (l : list Z) : Z :=
  match l with [] => 0 | x :: l => foldl Z.max x l end.

Definition la_get_end_offset (la : LargeAllocator) : Z :=
  max_or_0 ((λ b, b_off b +w b_size b) <$> live (la_allocations la)).

Definition la_get_allocation_stats (la : LargeAllocator) : Z * Z :=
  let free_count := Z.of_nat (length (filter (λ b, b_free b = true) (la_allocations la))) in
  let used_count := Z.of_nat (length (la_allocations la)) - free_count in
  (free_count, used_count).

Definition la_compact_memory (la : LargeAllocator) : bool * LargeAllocator :=
  let before_count := length (la_allocations la) in
  let l := live (la_allocations la) in
  let after_count := length l in
  ((after_count <? before_count)%nat, set_allocations la l).

(** [sort_by_key(|(start, _)| start)], a stable sort. *)
Fixpoint sort_insert (x : Z * Z) (l : list (Z * Z)) : list (Z * Z) :=
  match l with
  | [] => [x]
  | y :: l' => if x.1 <=? y.1 then x :: l else y :: sort_insert x l'
  end.

Definition sort_by_start (l : list (Z * Z)) : list (Z * Z) := foldr sort_insert [] l.

(** [(pos + align - 1) & !(align - 1)] *)
Definition align_pos (pos align : Z) : Z := Z.land (pos +w align -w 1) (wnot (align -w 1)).

(** The gap search: [current_pos] is the end of the last range passed. *)
Fixpoint find_gap (current_pos size align : Z) (ranges : list (Z * Z)) : option Z :=
  match ranges with
  | [] =>
      let aligned_pos := align_pos current_pos align in
      if aligned_pos +w size <=? LARGE_POOL_SIZE then Some aligned_pos else None
  | (range_start, range_end) :: rest =>
      let aligned_pos := align_pos current_pos align in
      if aligned_pos +w size <=? range_start then Some aligned_pos
      else find_gap range_end size align rest
  end.

Definition la_find_free_block (la : LargeAllocator) (size align : Z) : option Z :=
  let used_ranges := (λ b, (b_off b, b_off b +w b_size b)) <$> live (la_allocations la) in
  find_gap 0 size align (sort_by_start used_ranges).

Definition la_emergency_reset (la : LargeAllocator) : bool * LargeAllocator :=
  let '(free_count, used_count) := la_get_allocation_stats la in
  if used_count <=? free_count * 3 then
    (true, set_allocations la (live (la_allocations la)))
  else
    let old_len := length (la_allocations la) in
    let l2 := if (800 <? old_len)%nat
              then filter (λ b, b_free b = true ∨ 64 * 1024 ≤ b_size b) (la_allocations la)
              else la_allocations la in
    if (800 <? old_len)%nat && (length l2 <? old_len)%nat then (true, set_allocations la l2)
    else if (500 <? length l2)%nat then
      (true, set_allocations la (take (length l2 / 2) l2))
    else (false, set_allocations la l2).

Definition la_push (la : LargeAllocator) (b : Block) : LargeAllocator :=
  set_allocations la (la_allocations la ++ [b]).

(** The offset inside the pool, or [None]. *)
Definition la_alloc_off (la : LargeAllocator) (size align : Z) : option Z * LargeAllocator :=
  let end_offset := la_get_end_offset la in
  let remaining := saturating_sub LARGE_POOL_SIZE end_offset in
  let la1 :=
    if (remaining <? LARGE_POOL_SIZE / 10) && (100 <? length (la_allocations la))%nat
    then (la_emergency_reset la).2 else la in
  match la_find_free_block la1 size align with
  | Some offset => (Some offset, la_push la1 (offset, size, false))
  | None =>
      let '(compacted, la2) := la_compact_memory la1 in
      match (if compacted then la_find_free_block la2 size align else None) with
      | Some offset => (Some offset, la_push la2 (offset, size, false))
      | None =>
          let end_offset := la_get_end_offset la2 in
          let aligned_offset := align_pos end_offset align in
          if aligned_offset +w size <=? LARGE_POOL_SIZE then
            (Some aligned_offset, la_push la2 (aligned_offset, size, false))
          else (None, la2)
      end
  end.

(** [LargeAllocator::alloc]: the offset added to the pool's base address. *)
Definition la_alloc (pool : Z) (la : LargeAllocator) (size align : Z)
  : option Z * LargeAllocator :=
  let '(r, la') := la_alloc_off la size align in ((λ off, pool +w off) <$> r, la').

(** Mark the first record that satisfies [p] as free. *)
Fixpoint free_first (p : Block → bool) (l : list Block) : option (list Block) :=
  match l with
  | [] => None
  | b :: l => if p b then Some ((b_off b, b_size b, true) :: l)
              else (λ l', b :: l') <$> free_first p l
  end.

Definition la_dealloc (pool : Z) (la : LargeAllocator) (ptr size : Z) : LargeAllocator :=
  let offset := ptr -w pool in
  match free_first (λ b, (b_off b =? offset) && (b_size b =? size) && negb (b_free b))
          (la_allocations la) with
  | Some l =>
      let la1 := set_allocations la l in
      let '(free_count, used_count) := la_get_allocation_stats la1 in
      if (50 <=? free_count) || ((0 <? free_count) && (used_count <=? free_count * 4))
      then (la_compact_memory la1).2 else la1
  | None =>
      match free_first (λ b, negb (b_free b) && (b_off b <=? offset) &&
                             (offset <? b_off b +w b_size b)) (la_allocations la) with
      | Some l => set_allocations la l
      | None => la
      end
  end.

(** ** [HybridAllocator] *)
Section Hybrid.
Context {B : Type}.
(** the buddy heap: [alloc layout] returns a pointer (0 on failure) *)
Variable buddy_alloc : B → Z → Z → Z * B.
Variable buddy_dealloc : B → Z → Z → Z → B.
(** the address of the large pool *)
Variable pool : Z.

Definition hybrid_alloc (st : LargeAllocator * B) (size align : Z) : Z * (LargeAllocator * B) :=
  let '(la, bd) := st in
  let fallback (la : LargeAllocator) :=
    let '(p, bd') := buddy_alloc bd size align in (p, (la, bd')) in
  if LARGE_ALLOC_THRESHOLD <? size then
    match la_alloc pool la size align with
    | (Some ptr, la') => (ptr, (la', bd))
    | (None, la') => fallback la'
    end
  else fallback la.

Definition hybrid_dealloc (st : LargeAllocator * B) (ptr size align : Z) : LargeAllocator * B :=
  let '(la, bd) := st in
  let pool_end := pool +w LARGE_POOL_SIZE in
  if (pool <=? ptr) && (ptr <? pool_end) then (la_dealloc pool la ptr size, bd)
  else (la, buddy_dealloc bd ptr size align).
End Hybrid.

(** ** Alignment *)
Lemma align_pos_spec k pos :
  0 ≤ k < 64 → 0 ≤ pos → pos + 2 ^ k < MAX64 →
  align_pos pos (2 ^ k) mod 2 ^ k = 0 ∧ pos ≤ align_pos pos (2 ^ k) < pos + 2 ^ k ∧
  ∀ q, q mod 2 ^ k = 0 → pos ≤ q → align_pos pos (2 ^ k) ≤ q.
Proof. apply round_up_spec. Qed.

(** ** Gaps between sorted ranges *)
Definition range_disjoint (r s : Z * Z) : Prop := r.2 ≤ s.1 ∨ s.2 ≤ r.1.

(** Ranges in increasing order from [cur], inside the pool. *)
Inductive chain : Z → list (Z * Z) → Prop :=
  | chain_nil cur : 0 ≤ cur ≤ LARGE_POOL_SIZE → chain cur []
  | chain_cons cur s e l : 0 ≤ cur ≤ s → s < e → e ≤ LARGE_POOL_SIZE → chain e l →
      chain cur ((s, e) :: l).

Lemma chain_lower cur l : chain cur l → Forall (λ r, cur ≤ r.1) l.
Proof.
  induction 1 as [|cur s e l Hcs Hse He Hc IH]; constructor; [simpl; lia|].
  eapply Forall_impl; [exact IH|]. simpl. intros; lia.
Qed.

Lemma chain_insert cur x l :
  chain cur l → 0 ≤ cur ≤ x.1 → x.1 < x.2 → x.2 ≤ LARGE_POOL_SIZE →
  Forall (range_disjoint x) l → chain cur (sort_insert x l).
Proof.
  intros Hc. revert x. induction Hc as [cur Hcur|cur s e l Hcs Hse He Hc IH];
    intros [xs xe] Hx1 Hx2 Hx3 Hd; simpl in *.
  - repeat constructor; simpl; lia.
  - inversion_clear Hd as [|? ? Hd1 Hd2]. unfold range_disjoint in Hd1. simpl in Hd1.
    destruct (Z.leb_spec xs s).
    + constructor; [lia..|]. constructor; [lia..|done].
    + constructor; [lia..|]. apply IH; simpl; try lia. done.
Qed.

Lemma sort_insert_perm x l : sort_insert x l ≡ₚ x :: l.
Proof.
  induction l as [|y l IH]; simpl; [done|]. case_match; [done|].
  rewrite IH. apply perm_swap.
Qed.

Lemma sort_by_start_perm l : sort_by_start l ≡ₚ l.
Proof. induction l as [|x l IH]; simpl; [done|]. by rewrite sort_insert_perm, IH. Qed.

Lemma sort_by_start_chain l :
  pairwise range_disjoint l →
  Forall (λ r, 0 ≤ r.1 ∧ r.1 < r.2 ∧ r.2 ≤ LARGE_POOL_SIZE) l → chain 0 (sort_by_start l).
Proof.
  intros Hp Hb. induction Hp as [|x l Hx Hp IH]; simpl.
  { constructor. unfold LARGE_POOL_SIZE. lia. }
  inversion_clear Hb as [|? ? Hb1 Hb2]. apply chain_insert; [by apply IH|lia..|].
  by rewrite sort_by_start_perm.
Qed.

Lemma find_gap_sound cur size k l pos :
  0 ≤ k ≤ 62 → 0 < size < 2 ^ 62 → chain cur l →
  find_gap cur size (2 ^ k) l = Some pos →
  pos mod 2 ^ k = 0 ∧ cur ≤ pos ∧ pos + size ≤ LARGE_POOL_SIZE ∧
  Forall (λ r, r.2 ≤ pos ∨ pos + size ≤ r.1) l.
Proof.
  intros Hk Hs Hc. assert (2 ^ k ≤ 2 ^ 62) by (apply Z.pow_le_mono_r; lia).
  induction Hc as [cur Hcur|cur s e l Hcs Hse He Hc IH]; simpl;
    (destruct (align_pos_spec k cur) as (Hmod & Hrange & _);
      [lia|lia|unfold LARGE_POOL_SIZE, MAX64 in *; lia|]);
    rewrite wadd_small by (unfold LARGE_POOL_SIZE in *; word_lia).
  - destruct (Z.leb_spec (align_pos cur (2 ^ k) + size) LARGE_POOL_SIZE); [|done].
    intros [= <-]. split_and!; try done; lia.
  - destruct (Z.leb_spec (align_pos cur (2 ^ k) + size) s).
    + intros [= <-]. split_and!; [done|lia|lia|]. constructor; [simpl; lia|].
      eapply Forall_impl; [by apply chain_lower|]. simpl. intros; lia.
    + intros E. destruct (IH E) as (? & ? & ? & ?). split_and!; [done|lia|done|].
      constructor; [simpl; lia|done].
Qed.

(** If the search fails, no aligned position is free of overlaps. *)
Lemma find_gap_complete cur size k l pos :
  0 ≤ k ≤ 62 → 0 < size < 2 ^ 62 → chain cur l →
  find_gap cur size (2 ^ k) l = None →
  pos mod 2 ^ k = 0 → cur ≤ pos → pos + size ≤ LARGE_POOL_SIZE →
  ¬ Forall (λ r, r.2 ≤ pos ∨ pos + size ≤ r.1) l.
Proof.
  intros Hk Hs Hc. assert (2 ^ k ≤ 2 ^ 62) by (apply Z.pow_le_mono_r; lia).
  induction Hc as [cur Hcur|cur s e l Hcs Hse He Hc IH]; simpl;
    (destruct (align_pos_spec k cur) as (Hmod & Hrange & Hleast);
      [lia|lia|unfold LARGE_POOL_SIZE, MAX64 in *; lia|]);
    rewrite wadd_small by (unfold LARGE_POOL_SIZE in *; word_lia).
  - destruct (Z.leb_spec (align_pos cur (2 ^ k) + size) LARGE_POOL_SIZE); [done|].
    intros _ Hpm Hpc. specialize (Hleast pos Hpm Hpc). lia.
  - destruct (Z.leb_spec (align_pos cur (2 ^ k) + size) s); [done|].
    intros E Hpm Hpc Hpp Hall. specialize (Hleast pos Hpm Hpc).
    inversion_clear Hall as [|? ? H1 H2]. simpl in H1.
    destruct H1; [|lia]. by apply (IH E Hpm).
Qed.

(** ** The pool invariant *)
Definition blk_range (b : Block) : Z * Z := (b_off b, b_off b + b_size b).
Definition blk_disjoint (b c : Block) : Prop := range_disjoint (blk_range b) (blk_range c).

(** Live records lie in the pool and do not overlap. *)
Record la_wf (la : LargeAllocator) : Prop := {
  lw_bounds : Forall (λ b, 0 ≤ b_off b ∧ 0 < b_size b ∧ b_off b + b_size b ≤ LARGE_POOL_SIZE)
                (live (la_allocations la));
  lw_disjoint : pairwise blk_disjoint (live (la_allocations la))
}.

(** The block [size] bytes at [pos] overlaps no live record. *)
Definition placeable (la : LargeAllocator) (pos size : Z) : Prop :=
  Forall (λ b, b_off b + b_size b ≤ pos ∨ pos + size ≤ b_off b) (live (la_allocations la)).

Lemma live_idemp l : live (live l) = live l.
Proof. unfold live. rewrite list_filter_filter. apply list_filter_iff. naive_solver. Qed.

Lemma live_app l k : live (l ++ k) = live l ++ live k.
Proof. apply filter_app. Qed.

#[export] Hint Rewrite live_idemp live_app : words.

Lemma live_ranges la :
  la_wf la →
  (λ b, (b_off b, b_off b +w b_size b)) <$> live (la_allocations la) =
  blk_range <$> live (la_allocations la).
Proof.
  intros [Hb _]. apply list_fmap_ext. intros i b Hi.
  pose proof (proj1 (Forall_lookup _ _) Hb i b Hi) as Hbb. simpl in Hbb.
  unfold blk_range. rewrite wadd_small by (unfold LARGE_POOL_SIZE in *; word_lia). done.
Qed.

Lemma live_chain la : la_wf la → chain 0 (sort_by_start (blk_range <$> live (la_allocations la))).
Proof.
  intros [Hb Hd]. apply sort_by_start_chain.
  - induction Hd as [|b l Hx Hd IH]; [constructor|]. inversion_clear Hb.
    rewrite fmap_cons. constructor; [|by apply IH]. by apply Forall_fmap.
  - apply Forall_fmap. eapply Forall_impl; [exact Hb|]. simpl. lia.
Qed.

Lemma placeable_ranges la pos size :
  placeable la pos size ↔
  Forall (λ r, r.2 ≤ pos ∨ pos + size ≤ r.1)
    (sort_by_start (blk_range <$> live (la_allocations la))).
Proof. rewrite sort_by_start_perm, Forall_fmap. done. Qed.

Lemma find_free_block_sound la size k pos :
  la_wf la → 0 ≤ k ≤ 62 → 0 < size < 2 ^ 62 →
  la_find_free_block la size (2 ^ k) = Some pos →
  pos mod 2 ^ k = 0 ∧ 0 ≤ pos ∧ pos + size ≤ LARGE_POOL_SIZE ∧ placeable la pos size.
Proof.
  intros Hwf Hk Hs. unfold la_find_free_block. rewrite (live_ranges la Hwf).
  rewrite placeable_ranges. by apply find_gap_sound; [..|apply live_chain].
Qed.

Lemma find_free_block_complete la size k pos :
  la_wf la → 0 ≤ k ≤ 62 → 0 < size < 2 ^ 62 →
  la_find_free_block la size (2 ^ k) = None →
  pos mod 2 ^ k = 0 → 0 ≤ pos → pos + size ≤ LARGE_POOL_SIZE → ¬ placeable la pos size.
Proof.
  intros Hwf Hk Hs. unfold la_find_free_block. rewrite (live_ranges la Hwf).
  rewrite placeable_ranges. by apply find_gap_complete; [..|apply live_chain].
Qed.

Lemma find_free_block_live la la' size align :
  live (la_allocations la') = live (la_allocations la) →
  la_find_free_block la' size align = la_find_free_block la size align.
Proof. intros E. unfold la_find_free_block. by rewrite E. Qed.

Lemma la_wf_live la la' :
  live (la_allocations la') = live (la_allocations la) → la_wf la → la_wf la'.
Proof. intros E [Hb Hd]. split; by rewrite E. Qed.

Lemma la_wf_push la pos size :
  la_wf la → 0 ≤ pos → 0 < size → pos + size ≤ LARGE_POOL_SIZE → placeable la pos size →
  la_wf (la_push la (pos, size, false)).
Proof.
  intros [Hb Hd] Hp Hs Hps Hpl. split; simpl; rewrite live_app; simpl.
  - apply Forall_app. split; [done|]. by repeat constructor.
  - apply pairwise_snoc; [done|]. eapply Forall_impl; [exact Hpl|]. done.
Qed.

Lemma max_or_0_ub l x : x ∈ l → x ≤ max_or_0 l.
Proof.
  assert (∀ a y, y = a ∨ y ∈ l → y ≤ foldl Z.max a l) as H.
  { clear x. induction l as [|z l IH]; intros a y Hy; simpl; [set_solver|].
    destruct (decide (y = a)) as [->|].
    - transitivity (Z.max a z); [lia|]. apply IH. by left.
    - destruct Hy as [?|[->|?]%elem_of_cons]; [done| |].
      + transitivity (Z.max a z); [lia|]. apply IH. by left.
      + apply IH. by right. }
  intros Hx. destruct l as [|z l]; simpl; [set_solver|].
  specialize (H z x). revert H. simpl. rewrite (Z.max_id z). set_solver.
Qed.

Lemma end_offset_spec la :
  la_wf la →
  0 ≤ la_get_end_offset la ≤ LARGE_POOL_SIZE ∧
  Forall (λ b, b_off b + b_size b ≤ la_get_end_offset la) (live (la_allocations la)).
Proof.
  intros Hwf. pose proof (lw_bounds _ Hwf) as Hb.
  unfold la_get_end_offset.
  assert ((λ b, b_off b +w b_size b) <$> live (la_allocations la) =
          (λ b, b_off b + b_size b) <$> live (la_allocations la)) as ->.
  { apply list_fmap_ext. intros i b Hi.
    pose proof (proj1 (Forall_lookup _ _) Hb i b Hi) as Hbb. simpl in Hbb.
    rewrite wadd_small by (unfold LARGE_POOL_SIZE in *; word_lia). done. }
  split.
  - destruct (live (la_allocations la)) as [|b l]; [done|]. rewrite fmap_cons. simpl.
    assert (∀ a, 0 ≤ a ≤ LARGE_POOL_SIZE →
      0 ≤ foldl Z.max a ((λ b, b_off b + b_size b) <$> l) ≤ LARGE_POOL_SIZE) as H.
    { inversion_clear Hb as [|? ? _ Hb']. clear b.
      induction Hb' as [|b l Hbb Hb' IH]; intros a Ha; simpl; [done|]. apply IH. lia. }
    apply H. inversion_clear Hb. lia.
  - apply Forall_forall. intros b Hin. apply max_or_0_ub, list_elem_of_fmap. eauto.
Qed.

(** ** Allocation *)

(** The pool is nearly full and holds many records: [alloc] runs the
    emergency reset first. *)
Definition in_emergency (la : LargeAllocator) : bool :=
  (saturating_sub LARGE_POOL_SIZE (la_get_end_offset la) <? LARGE_POOL_SIZE / 10) &&
  (100 <? length (la_allocations la))%nat.

(** The emergency reset forgets no live record: it is not run, or its first
    strategy applies, or there are too few records for the other two. *)
Definition reset_keeps_live (la : LargeAllocator) : Prop :=
  in_emergency la = false ∨
  (la_get_allocation_stats la).2 ≤ (la_get_allocation_stats la).1 * 3 ∨
  (length (la_allocations la) ≤ 500)%nat.

Lemma emergency_live la :
  reset_keeps_live la →
  live (la_allocations (if in_emergency la then (la_emergency_reset la).2 else la)) =
  live (la_allocations la).
Proof.
  intros Hk. destruct (in_emergency la) eqn:Ee; [|done].
  destruct Hk as [?|Hk]; [congruence|]. unfold la_emergency_reset.
  destruct (la_get_allocation_stats la) as [free_count used_count]. simpl in Hk.
  destruct (Z.leb_spec used_count (free_count * 3)); [apply live_idemp|].
  destruct Hk as [?|Hlen]; [lia|].
  rewrite (proj2 (Nat.ltb_ge 800 _)) by lia. simpl.
  by rewrite (proj2 (Nat.ltb_ge 500 _)) by lia.
Qed.

Lemma la_alloc_off_cases la size k :
  la_wf la → 0 ≤ k ≤ 62 → 0 < size < 2 ^ 62 → reset_keeps_live la →
  ∃ la', live (la_allocations la') = live (la_allocations la) ∧
    la_alloc_off la size (2 ^ k) =
      match la_find_free_block la size (2 ^ k) with
      | Some off => (Some off, la_push la' (off, size, false))
      | None => (None, la')
      end.
Proof.
  intros Hwf Hk Hs Hkeep. unfold la_alloc_off. fold (in_emergency la).
  set (la1 := if in_emergency la then _ else _).
  assert (live (la_allocations la1) = live (la_allocations la)) as H1 by by apply emergency_live.
  rewrite (find_free_block_live la la1) by done.
  destruct (la_find_free_block la size (2 ^ k)) as [off|] eqn:E; [by exists la1|].
  unfold la_compact_memory. simpl.
  set (la2 := set_allocations la1 (live (la_allocations la1))).
  assert (live (la_allocations la2) = live (la_allocations la)) as H2.
  { simpl. by rewrite live_idemp. }
  rewrite (find_free_block_live la la2) by done. rewrite E.
  exists la2. split; [done|].
  assert (la_wf la2) as Hwf2 by by eapply la_wf_live.
  destruct (end_offset_spec la2 Hwf2) as [Hend Hmax].
  assert (2 ^ k ≤ 2 ^ 62) by (apply Z.pow_le_mono_r; lia).
  destruct (align_pos_spec k (la_get_end_offset la2)) as (Hmod & Hrange & _);
    [lia|lia|unfold LARGE_POOL_SIZE, MAX64 in *; lia|].
  assert ((if (length (live (la_allocations la1)) <? length (la_allocations la1))%nat
           then @None Z else None) = None) as -> by by case_match.
  rewrite wadd_small by (unfold LARGE_POOL_SIZE in *; word_lia).
  destruct (Z.leb_spec (align_pos (la_get_end_offset la2) (2 ^ k) + size) LARGE_POOL_SIZE); [|done].
  exfalso. apply (find_free_block_complete la size k (align_pos (la_get_end_offset la2) (2 ^ k)));
    try done; [lia|]. unfold placeable. rewrite <- H2.
  eapply Forall_impl; [exact Hmax|]. simpl. intros; lia.
Qed.

(** C17: as long as the emergency reset drops no live record, [alloc] returns an
    aligned block inside the pool that overlaps no live block and records it,
    keeping the pool invariant; it fails only when no aligned position of the
    pool is free, and then keeps every live block. *)
Theorem la_alloc_correct la size k :
  la_wf la → 0 ≤ k ≤ 62 → 0 < size < 2 ^ 62 → reset_keeps_live la →
  ∃ r la', la_alloc_off la size (2 ^ k) = (r, la') ∧ la_wf la' ∧
    match r with
    | Some off => off mod 2 ^ k = 0 ∧ 0 ≤ off ∧ off + size ≤ LARGE_POOL_SIZE ∧
        placeable la off size ∧
        live (la_allocations la') = live (la_allocations la) ++ [(off, size, false)]
    | None => live (la_allocations la') = live (la_allocations la) ∧
        ∀ pos, pos mod 2 ^ k = 0 → 0 ≤ pos → pos + size ≤ LARGE_POOL_SIZE → ¬ placeable la pos size
    end.
Proof.
  intros Hwf Hk Hs Hkeep. destruct (la_alloc_off_cases la size k) as (la' & Hl & Heq); [done..|].
  rewrite Heq. destruct (la_find_free_block la size (2 ^ k)) as [off|] eqn:E.
  - apply find_free_block_sound in E as (? & ? & ? & Hpl); [|done..].
    eexists _, _. split; [done|]. split_and!; try done.
    + apply la_wf_push; try done; [by eapply la_wf_live|lia|]. unfold placeable. by rewrite Hl.
    + simpl. by rewrite live_app, Hl.
  - eexists _, _. split; [done|]. split; [by eapply la_wf_live|]. split; [done|].
    intros pos ? ? ?. by eapply find_free_block_complete.
Qed.

(** ** Release *)
Lemma free_first_live p l l' :
  free_first p l = Some l' →
  ∃ l1 b l2, l = l1 ++ b :: l2 ∧ p b = true ∧ Forall (λ c, p c = false) l1 ∧
    l' = l1 ++ (b_off b, b_size b, true) :: l2.
Proof.
  revert l'; induction l as [|c l IH]; intros l'; simpl; [done|]. destruct (p c) eqn:E.
  - intros [= <-]. by exists [], c, l.
  - destruct (free_first p l) as [k|]; simpl; [|done]. intros [= <-].
    destruct (IH k eq_refl) as (l1 & b & l2 & -> & ? & ? & ->). exists (c :: l1), b, l2.
    by repeat constructor.
Qed.

Lemma free_first_none p l : free_first p l = None ↔ Forall (λ c, p c = false) l.
Proof.
  induction l as [|c l IH]; simpl; [done|]. rewrite Forall_cons. destruct (p c); [naive_solver|].
  destruct (free_first p l); naive_solver.
Qed.

(** Live blocks are identified by their offset. *)
Lemma live_offsets_nodup la : la_wf la → NoDup (b_off <$> live (la_allocations la)).
Proof.
  intros [Hb Hd]. induction Hd as [|x l Hx Hd IH]; [constructor|].
  inversion_clear Hb as [|? ? Hb1 Hb2]. rewrite fmap_cons. constructor; [|by apply IH].
  intros (y & Hxy & Hy)%list_elem_of_fmap. rewrite Forall_forall in Hx, Hb2.
  specialize (Hx y Hy). specialize (Hb2 y Hy).
  unfold blk_disjoint, range_disjoint, blk_range in Hx. simpl in *. lia.
Qed.

Lemma live_freed l1 b l2 :
  b_free b = false → NoDup (b_off <$> live (l1 ++ b :: l2)) →
  live (l1 ++ (b_off b, b_size b, true) :: l2) =
  filter (λ c, b_off c ≠ b_off b) (live (l1 ++ b :: l2)).
Proof.
  intros Hf Hnd. rewrite !live_app in *. unfold live in *.
  rewrite (filter_cons_True _ b) in * by done. rewrite filter_cons_False by done.
  by rewrite filter_remove_nodup.
Qed.

Lemma la_dealloc_live pool la off size :
  word64 pool → pool + LARGE_POOL_SIZE < MAX64 → la_wf la →
  (off, size, false) ∈ la_allocations la →
  live (la_allocations (la_dealloc pool la (pool +w off) size)) =
  filter (λ b, b_off b ≠ off) (live (la_allocations la)).
Proof.
  intros Hpool Hpm Hwf Hin.
  assert ((off, size, false) ∈ live (la_allocations la)) as Hlive
    by (unfold live; by apply list_elem_of_filter).
  pose proof (proj1 (Forall_forall _ _) (lw_bounds _ Hwf) _ Hlive) as Hb. simpl in Hb.
  unfold la_dealloc. assert ((pool +w off) -w pool = off) as ->.
  { unfold LARGE_POOL_SIZE, b_off, b_size in *. simpl in *. no_wrap. lia. }
  set (p := λ b, _ && _ && _).
  destruct (free_first p (la_allocations la)) as [l|] eqn:E.
  - apply free_first_live in E as (l1 & b & l2 & Hl & Hp & _ & ->).
    unfold p in Hp. apply andb_true_iff in Hp as [Hp Hf%negb_true_iff].
    apply andb_true_iff in Hp as [Ho%Z.eqb_eq Hs%Z.eqb_eq]. subst off size.
    pose proof (live_offsets_nodup la Hwf) as Hnd. rewrite Hl in Hnd |- *.
    rewrite <- live_freed by done.
    destruct (la_get_allocation_stats _) as [fc uc]. case_match; simpl; [by rewrite live_idemp|done].
  - rewrite free_first_none in E. rewrite Forall_forall in E.
    specialize (E _ Hin). unfold p in E. simpl in E. rewrite !Z.eqb_refl in E. done.
Qed.

(** ** Properties of the heap *)

(** releasing a live block with the pointer and size of its allocation
    removes exactly that block from the live set, whether or not the release
    triggers a compaction, and keeps the pool invariant. *)
Theorem la_dealloc_correct pool la off size :
  word64 pool → pool + LARGE_POOL_SIZE < MAX64 → la_wf la →
  (off, size, false) ∈ la_allocations la →
  la_wf (la_dealloc pool la (pool +w off) size) ∧
  ∃ l1 l2, live (la_allocations la) = l1 ++ (off, size, false) :: l2 ∧
    live (la_allocations (la_dealloc pool la (pool +w off) size)) = l1 ++ l2.
Proof.
  intros Hpool Hpm Hwf Hin. pose proof (la_dealloc_live pool la off size Hpool Hpm Hwf Hin) as Hl.
  assert ((off, size, false) ∈ live (la_allocations la)) as Hlive
    by (unfold live; by apply list_elem_of_filter).
  apply list_elem_of_split in Hlive as (l1 & l2 & Hs).
  pose proof (live_offsets_nodup la Hwf) as Hnd. rewrite Hs in Hnd, Hl.
  rewrite (filter_remove_nodup b_off l1 l2 (off, size, false) Hnd) in Hl.
  split; [|by exists l1, l2]. destruct Hwf as [Hb Hd]. rewrite Hs in Hb, Hd.
  assert (l1 ++ l2 `sublist_of` l1 ++ (off, size, false) :: l2) as Hsub
    by (apply sublist_app; [done|by constructor]).
  split; rewrite Hl; [|by eapply pairwise_sublist].
  rewrite Forall_forall in *. intros x Hx. apply Hb. by eapply elem_of_sublist.
Qed.

Section HybridProps.
Context {B : Type}.
Variable buddy_alloc : B → Z → Z → Z * B.
Variable buddy_dealloc : B → Z → Z → Z → B.
Variable pool : Z.
Hypothesis pool_word : word64 pool.
Hypothesis pool_fits : pool + LARGE_POOL_SIZE < MAX64.

(** a block above the threshold that the large pool can serve is returned
    aligned relative to the pool base and inside the pool, the buddy heap is
    not touched, and [dealloc] with the same layout routes it back to the large
    pool and restores the set of live blocks. *)
Theorem hybrid_roundtrip la bd size k :
  la_wf la → 0 ≤ k ≤ 62 → LARGE_ALLOC_THRESHOLD < size < 2 ^ 62 → reset_keeps_live la →
  (∃ pos, pos mod 2 ^ k = 0 ∧ 0 ≤ pos ∧ pos + size ≤ LARGE_POOL_SIZE ∧ placeable la pos size) →
  ∃ ptr la1, hybrid_alloc buddy_alloc pool (la, bd) size (2 ^ k) = (ptr, (la1, bd)) ∧
    pool ≤ ptr ∧ ptr + size ≤ pool + LARGE_POOL_SIZE ∧ (ptr - pool) mod 2 ^ k = 0 ∧ la_wf la1 ∧
    ∃ la2, hybrid_dealloc buddy_dealloc pool (la1, bd) ptr size (2 ^ k) = (la2, bd) ∧ la_wf la2 ∧
      live (la_allocations la2) = live (la_allocations la).
Proof.
  intros Hwf Hk Hs Hkeep (pos & Hp1 & Hp2 & Hp3 & Hp4). unfold LARGE_ALLOC_THRESHOLD in Hs.
  destruct (la_alloc_off_cases la size k Hwf Hk ltac:(lia) Hkeep) as (la' & Hl & Heq).
  destruct (la_find_free_block la size (2 ^ k)) as [off|] eqn:E.
  2:{ exfalso. eapply (find_free_block_complete la size k pos); try done; lia. }
  apply find_free_block_sound in E as (Hm & H0 & Hend & Hpl); [|done|done|lia].
  unfold hybrid_alloc, la_alloc, hybrid_dealloc. rewrite Heq. simpl.
  rewrite (proj2 (Z.ltb_lt _ _)) by (unfold LARGE_ALLOC_THRESHOLD; lia).
  set (la1 := la_push la' (off, size, false)).
  assert (la_wf la') as Hwf' by by eapply la_wf_live.
  assert (la_wf la1) as Hwf1.
  { apply la_wf_push; try done; [lia|]. unfold placeable. by rewrite Hl. }
  assert (pool +w off = pool + off) as Hadd by (unfold LARGE_POOL_SIZE in *; no_wrap; lia).
  eexists _, la1. split; [done|]. rewrite Hadd.
  split; [lia|]. split; [lia|]. split; [by replace (pool + off - pool) with off by lia|].
  split; [done|].
  assert (pool +w LARGE_POOL_SIZE = pool + LARGE_POOL_SIZE) as -> by (no_wrap; word_lia).
  rewrite (proj2 (Z.leb_le _ _)), (proj2 (Z.ltb_lt _ _)) by lia. simpl.
  eexists; split; [done|].
  assert ((off, size, false) ∈ la_allocations la1) as Hin1 by (simpl; set_solver).
  pose proof (la_dealloc_live pool la1 off size pool_word pool_fits Hwf1 Hin1) as Hd.
  rewrite Hadd in Hd. pose proof (live_offsets_nodup la1 Hwf1) as Hnd1.
  assert (live (la_allocations la1) = live (la_allocations la) ++ [(off, size, false)]) as Hl1
    by (simpl; by rewrite live_app, Hl).
  rewrite Hl1 in Hd, Hnd1.
  rewrite (filter_remove_nodup b_off (live (la_allocations la)) [] (off, size, false) Hnd1) in Hd.
  rewrite app_nil_r in Hd. split; [by eapply la_wf_live|done].
Qed.
End HybridProps.

(** [n] allocations of the same layout, collecting the offsets. *)
Fixpoint alloc_many (n : nat) (la : LargeAllocator) (size align : Z) : list Z * LargeAllocator :=
  match n with
  | O => ([], la)
  | S n =>
      let '(r, la1) := la_alloc_off la size align in
      let '(offs, la2) := alloc_many n la1 size align in
      (match r with Some o => o :: offs | None => offs end, la2)
  end.

Definition overlap_check (r : list Z * LargeAllocator) (size align : Z) : bool :=
  Nat.eqb (length r.1) 501 &&
  match (la_alloc_off r.2 size align).1 with
  | Some off => existsb (Z.eqb off) r.1
  | None => false
  end.

Lemma overlap_check_true : overlap_check (alloc_many 501 la_new 245760 8) 245760 8 = true.
Proof. vm_compute. reflexivity. Qed.

(** the emergency reset hands out memory that is still in use: after 501
    allocations of 240 KiB and no release, the 502nd returns an offset that the
    pool already gave to an earlier, live block. *)
Theorem emergency_reset_overlaps :
  ∃ offs la off, alloc_many 501 la_new 245760 8 = (offs, la) ∧ length offs = 501%nat ∧
    (la_alloc_off la 245760 8).1 = Some off ∧ off ∈ offs.
Proof.
  pose proof overlap_check_true as H.
  destruct (alloc_many 501 la_new 245760 8) as [offs la].
  unfold overlap_check in H. cbn [fst snd] in H. apply andb_true_iff in H as [Hl%Nat.eqb_eq H].
  destruct ((la_alloc_off la 245760 8).1) as [off|] eqn:E; [|done].
  apply existsb_exists in H as (o & Hin & ->%Z.eqb_eq).
  exists offs, la, o. split_and!; try done. by apply list_elem_of_In.
Qed.

(** ** Witnesses *)
Definition demo_la : LargeAllocator := mkLarge [(0, 131072, false); (262144, 131072, false)] 0.

Lemma demo_la_wf : la_wf demo_la.
Proof.
  split; simpl.
  - by repeat constructor.
  - constructor; [|repeat constructor]. constructor; [by left|constructor].
Qed.

Lemma la_alloc_correct_witness :
  la_wf demo_la ∧ ∃ la', la_alloc_off demo_la 100000 (2 ^ 12) = (Some 131072, la') ∧ la_wf la'.
Proof.
  split; [apply demo_la_wf|].
  destruct (la_alloc_correct demo_la 100000 12 demo_la_wf ltac:(lia) ltac:(lia)
              (or_introl eq_refl)) as (r & la' & E & Hwf & _).
  assert (r = Some 131072) as -> by (vm_compute in E; congruence).
  exists la'. split; [exact E|exact Hwf].
Defined.

Lemma la_dealloc_correct_witness :
  la_wf (la_dealloc 0x90000000 demo_la (0x90000000 +w 262144) 131072) ∧
  ∃ l1 l2, live (la_allocations demo_la) = l1 ++ (262144, 131072, false) :: l2 ∧
    live (la_allocations (la_dealloc 0x90000000 demo_la (0x90000000 +w 262144) 131072)) = l1 ++ l2.
Proof.
  apply (la_dealloc_correct 0x90000000 demo_la 262144 131072).
  - split; reflexivity || (vm_compute; congruence).
  - reflexivity.
  - apply demo_la_wf.
  - simpl. right. left.
Defined.

Lemma hybrid_roundtrip_witness :
  ∃ ptr la1, hybrid_alloc (λ (b : unit) _ _, (0, b)) 0x90000000 (demo_la, tt) 100000 (2 ^ 12)
               = (ptr, (la1, tt)) ∧ 0x90000000 ≤ ptr.
Proof.
  destruct (hybrid_roundtrip (λ (b : unit) _ _, (0, b)) (λ b _ _ _, b) 0x90000000
    ltac:(split; reflexivity || (vm_compute; congruence)) eq_refl demo_la tt 100000 12 demo_la_wf
    ltac:(lia) ltac:(split; reflexivity) (or_introl eq_refl)) as (ptr & la1 & E & Hle & _).
  - exists 131072. split; [reflexivity|]. split; [lia|]. split; [vm_compute; congruence|].
    unfold placeable. simpl. constructor; [left; vm_compute; congruence|].
    constructor; [right; vm_compute; congruence|constructor].
  - exists ptr, la1. split; [exact E|exact Hle].
Defined.
