(* ===== verification/Bytes.v ===== *)
(** * Byte strings in pages

    Reading and replacing a range of bytes, and how a range of a byte string
    stored in equal pages falls into the pages.  Shared by the RAM file system
    and the memory manager. *)

From S2P Require Import Prelude.
Local Open Scope nat_scope.

Section bytes.
Context {A : Type}.
Implicit Types l bs : list A.

(** [l] with the bytes from [off] on replaced by [bs]. *)
Definition splice (off : nat) (bs l : list A) : list A :=
  take off l ++ bs ++ drop (off + length bs) l.

Lemma splice_nil off l : splice off [] l = l.
Proof. unfold splice. simpl. by rewrite Nat.add_0_r, take_drop. Qed.

Lemma length_splice off bs l :
  off + length bs ≤ length l → length (splice off bs l) = length l.
Proof. intros H. unfold splice. rewrite !length_app, length_take, length_drop. lia. Qed.

Lemma take_splice_before off bs l n :
  n ≤ off → off ≤ length l → take n (splice off bs l) = take n l.
Proof.
  intros Hn Hl. unfold splice. rewrite take_app_le by (rewrite length_take; lia).
  by rewrite take_take, Nat.min_l by lia.
Qed.

Lemma drop_splice_after off bs l n :
  off + length bs ≤ n → off + length bs ≤ length l → drop n (splice off bs l) = drop n l.
Proof.
  intros Hn Hl. unfold splice. rewrite app_assoc, drop_app_ge by (rewrite length_app, length_take; lia).
  rewrite drop_drop. f_equal. rewrite length_app, length_take. lia.
Qed.

(** Reading the replaced range returns it. *)
Lemma read_splice off bs l :
  off ≤ length l → take (length bs) (drop off (splice off bs l)) = bs.
Proof.
  intros Hl. unfold splice. rewrite drop_app_length' by (rewrite length_take; lia).
  by rewrite take_app_length.
Qed.

(** Two adjacent replacements are one. *)
Lemma splice_splice off x y l :
  off + length x + length y ≤ length l →
  splice (off + length x) y (splice off x l) = splice off (x ++ y) l.
Proof.
  intros Hl.
  assert (take (off + length x) (splice off x l) = take off l ++ x) as E.
  { unfold splice. rewrite app_assoc. apply take_app_length'. rewrite length_app, length_take. lia. }
  unfold splice at 1. rewrite E, drop_splice_after by lia.
  unfold splice. rewrite <- !app_assoc, length_app. do 4 f_equal. lia.
Qed.

Lemma splice_app_r off bs l k :
  off + length bs ≤ length l → splice off bs (l ++ k) = splice off bs l ++ k.
Proof.
  intros H. unfold splice. rewrite take_app_le, drop_app_le by lia. by rewrite <- !app_assoc.
Qed.

Lemma splice_app_l off bs l k :
  splice (length l + off) bs (l ++ k) = l ++ splice off bs k.
Proof.
  unfold splice. rewrite take_app_add, <- app_assoc. do 2 f_equal.
  rewrite <- Nat.add_assoc. by rewrite drop_app_add.
Qed.

(** ** Pages *)
Context (pg : nat).
Implicit Types pages : list (list A).

Definition paged (pages : list (list A)) : Prop := Forall (λ p, length p = pg) pages.

Lemma length_concat_paged pages : paged pages → length (concat pages) = length pages * pg.
Proof. induction 1 as [|p pages Hp _ IH]; [done|]. simpl. rewrite length_app, IH, Hp. lia. Qed.

(** A page in the middle splits the byte string. *)
Lemma concat_paged_split pages i p :
  paged pages → pages !! i = Some p →
  ∃ l k, concat pages = l ++ p ++ k ∧ length l = i * pg ∧ length p = pg ∧
    ∀ p', concat (<[i := p']> pages) = l ++ p' ++ k.
Proof.
  intros Hp Hi. apply list_elem_of_split_length in Hi as (p1 & p2 & -> & ->).
  apply Forall_app in Hp as [Hp1 Hp2]. inversion_clear Hp2 as [|? ? Hp Hp2'].
  exists (concat p1), (concat p2). rewrite concat_app. split; [done|].
  split; [by apply length_concat_paged|]. split; [done|].
  intros p'. rewrite insert_app_r_alt by lia. rewrite Nat.sub_diag. simpl.
  by rewrite concat_app.
Qed.

(** The bytes from [off] up to the end of its page are in the page. *)
Lemma page_slice pages i p o n :
  paged pages → pages !! i = Some p → o + n ≤ pg →
  take n (drop (i * pg + o) (concat pages)) = take n (drop o p).
Proof.
  intros Hp Hi Hn. destruct (concat_paged_split pages i p Hp Hi) as (l & k & -> & <- & Hlen & _).
  rewrite drop_app_add. rewrite drop_app_le by lia. by rewrite take_app_le by (rewrite length_drop; lia).
Qed.

(** Replacing a range inside one page. *)
Lemma page_splice pages i p o bs :
  paged pages → pages !! i = Some p → o + length bs ≤ pg →
  concat (<[i := splice o bs p]> pages) = splice (i * pg + o) bs (concat pages).
Proof.
  intros Hp Hi Hn.
  destruct (concat_paged_split pages i p Hp Hi) as (l & k & Hc & Hl & Hlen & Hins).
  rewrite Hins, Hc, <- Hl, splice_app_l. f_equal. by rewrite splice_app_r by lia.
Qed.

Lemma paged_insert pages i p : paged pages → length p = pg → paged (<[i := p]> pages).
Proof. intros. by apply Forall_insert. Qed.
End bytes.

#[export] Hint Resolve paged_insert : monkey.

(** ** Files as byte strings *)
(** [data] with [bs] written at [off]; a gap reads as zero. *)
Definition write_spec (off : nat) (bs data : list Z) : list Z :=
  splice off bs (data ++ replicate (off + length bs - length data) 0%Z).

Lemma length_write_spec off bs data :
  length (write_spec off bs data) = Nat.max (length data) (off + length bs).
Proof. unfold write_spec. rewrite length_splice; rewrite length_app, length_replicate; lia. Qed.

(** ** Little-endian integers *)
Local Open Scope Z_scope.

Definition le_bytes (n : nat) (v : Z) : list Z := (λ k, (v / 256 ^ Z.of_nat k) mod 256) <$> seq 0 n.

Definition le_value (bs : list Z) : Z := foldr (λ b acc, b + 256 * acc) 0 bs.

Lemma length_le_bytes n v : length (le_bytes n v) = n.
Proof. unfold le_bytes. by rewrite length_fmap, length_seq. Qed.

Lemma le_bytes_S n v : le_bytes (S n) v = v mod 256 :: le_bytes n (v / 256).
Proof.
  unfold le_bytes. cbn [seq]. rewrite fmap_cons, <- fmap_S_seq, <- list_fmap_compose.
  f_equal; [by rewrite Z.pow_0_r, Z.div_1_r|]. apply list_fmap_ext. intros _ k _. simpl.
  rewrite Zdiv.Zdiv_Zdiv by lia. do 2 f_equal. rewrite Nat2Z.inj_succ, Z.pow_succ_r by lia. done.
Qed.

Lemma le_value_bytes n v : le_value (le_bytes n v) = v mod 256 ^ Z.of_nat n.
Proof.
  revert v. induction n as [|n IH]; intros v.
  - rewrite Z.pow_0_r, Z.mod_1_r. done.
  - rewrite le_bytes_S. cbn [le_value foldr]. fold (le_value (le_bytes n (v / 256))). rewrite IH.
    rewrite Nat2Z.inj_succ, Z.pow_succ_r by lia. rewrite Z.rem_mul_r by lia. lia.
Qed.

Lemma le_value_zero n : le_value (replicate n 0) = 0.
Proof. induction n as [|n IH]; [done|]. cbn [replicate le_value foldr].
  fold (le_value (replicate n 0)). rewrite IH. done. Qed.

(** A page of PTE-sized words: reading one word after writing one. *)
Lemma read_word_splice (page bs : list Z) (i j : nat) :
  length bs = 8%nat → (8 * i + 8 ≤ length page)%nat → (8 * j + 8 ≤ length page)%nat →
  take 8 (drop (8 * j) (splice (8 * i) bs page)) =
  if bool_decide (j = i) then bs else take 8 (drop (8 * j) page).
Proof.
  intros Hb Hi Hj. case_bool_decide as Hij; [subst j|].
  - rewrite <- Hb at 1. rewrite read_splice by lia. done.
  - destruct (decide (j < i)%nat).
    + rewrite !take_drop_commute. f_equal. apply take_splice_before; lia.
    + rewrite drop_splice_after by lia. done.
Qed.
