(* ===== verification/Signal.v ===== *)
(** * Signals ([crates/signal], [tasks/signal.rs], [user/entry.rs], [syscall/signal.rs])

    Signal sets are 64-bit words: bit [i] stands for signal number [i + 1].
    The file models the flag type, the per-thread pending list with the queue
    counters of the real-time signals, masking, the delivery loop
    [check_signal], and the signal system calls that only touch one thread.
    The thread control block they work on is declared here and shared with the
    task files. *)

From S2P Require Import Prelude.
Local Open Scope Z_scope.

(** ** [SignalFlags] *)
Definition SignalFlags := Z.

(** [a << b] on [u64]/[usize] in the release profile: the amount is taken
    modulo the width. *)
Definition shl64 (a b : Z) : Z := wrap (Z.shiftl a (b mod 64)).
Definition shr64 (a b : Z) : Z := Z.shiftr a (b mod 64).

Definition bit (x : Z) : SignalFlags := shl64 1 x.

Definition SIGHUP := bit 0.
Definition SIGINT := bit 1.
Definition SIGQUIT := bit 2.
Definition SIGILL := bit 3.
Definition SIGTRAP := bit 4.
Definition SIGABRT := bit 5.
Definition SIGIOT := SIGABRT.
Definition SIGBUS := bit 6.
Definition SIGFPE := bit 7.
Definition SIGKILL := bit 8.
Definition SIGUSR1 := bit 9.
Definition SIGSEGV := bit 10.
Definition SIGUSR2 := bit 11.
Definition SIGPIPE := bit 12.
Definition SIGALRM := bit 13.
Definition SIGTERM := bit 14.
Definition SIGSTKFLT := bit 15.
Definition SIGCHLD := bit 16.
Definition SIGCONT := bit 17.
Definition SIGSTOP := bit 18.
Definition SIGTSTP := bit 19.
Definition SIGTTIN := bit 20.
Definition SIGTTOU := bit 21.
Definition SIGURG := bit 22.
Definition SIGXCPU := bit 23.
Definition SIGXFSZ := bit 24.
Definition SIGVTALRM := bit 25.
Definition SIGPROF := bit 26.
Definition SIGWINCH := bit 27.
Definition SIGIO := bit 28.
Definition SIGPWR := bit 29.
Definition SIGSYS := bit 30.
Definition SIGTIMER := bit 31.
Definition SIGCANCEL := bit 32.
Definition SIGSYNCCALL := bit 33.

(** Union of the declared flags; bits 34 to 63 are [SIGRT_3] .. [SIGRTMAX]. *)
Definition all_flags : SignalFlags :=
  foldr Z.lor 0
    ([SIGHUP; SIGINT; SIGQUIT; SIGILL; SIGTRAP; SIGABRT; SIGBUS; SIGFPE; SIGKILL; SIGUSR1;
      SIGSEGV; SIGUSR2; SIGPIPE; SIGALRM; SIGTERM; SIGSTKFLT; SIGCHLD; SIGCONT; SIGSTOP;
      SIGTSTP; SIGTTIN; SIGTTOU; SIGURG; SIGXCPU; SIGXFSZ; SIGVTALRM; SIGPROF; SIGWINCH;
      SIGIO; SIGPWR; SIGSYS; SIGTIMER; SIGCANCEL; SIGSYNCCALL]
     ++ ((λ k, bit (Z.of_nat k)) <$> seq 34 30)).

Definition from_bits_truncate (bits : Z) : SignalFlags := Z.land bits all_flags.

Definition REAL_TIME_SIGNAL_NUM : Z := 33.

Definition from_num (num : Z) : SignalFlags := from_bits_truncate (shl64 1 (num -w 1)).

Definition sf_num (s : SignalFlags) : Z :=
  match list_find (λ i, word_get_bit s (Z.of_nat i)) (seq 0 64) with
  | Some (_, i) => Z.of_nat i + 1
  | None => 0
  end.

Definition is_real_time (s : SignalFlags) : bool :=
  negb (Z.land s 0xFFFFFFFE00000000 =? 0).

Definition real_time_index (s : SignalFlags) : option Z :=
  if is_real_time s then Some (sf_num s -w 32) else None.

(** ** Masks and actions *)
Inductive SigMaskHow := Block | Unblock | Setmask.

Definition sig_mask_how_from_usize (how : Z) : option SigMaskHow :=
  match how with
  | 0 => Some Block
  | 1 => Some Unblock
  | 2 => Some Setmask
  | _ => None
  end.

Record SigProcMask := mkSigProcMask { sm_mask : Z }.

Definition sig_proc_mask_new : SigProcMask := mkSigProcMask 0.

Definition sig_proc_mask_handle (self : SigProcMask) (how : SigMaskHow) (mask : SigProcMask)
  : SigProcMask :=
  mkSigProcMask
    match how with
    | Block => Z.lor (sm_mask self) (sm_mask mask)
    | Unblock => Z.land (sm_mask self) (wnot (sm_mask mask))
    | Setmask => sm_mask mask
    end.

Definition sig_proc_mask_masked (self : SigProcMask) (signum : Z) : bool :=
  Z.land (shr64 (sm_mask self) signum) 1 =? 0.

Record SigAction := mkSigAction {
  sa_handler : Z;
  sa_flags : Z;
  sa_restorer : Z;
  sa_mask : SigProcMask
}.

Definition sig_action_new : SigAction := mkSigAction 0 0 0 sig_proc_mask_new.

(** ** [SignalList]: the pending set *)
Record SignalList := mkSignalList { sl_signal : Z }.

Definition signal_list_new : SignalList := mkSignalList 0.

Definition add_signal (self : SignalList) (signal : SignalFlags) : SignalList :=
  mkSignalList (Z.lor (sl_signal self) signal).

Definition has_signal (self : SignalList) : bool := negb (sl_signal self =? 0).

Definition try_get_signal (self : SignalList) : option SignalFlags :=
  match list_find (λ i, negb (Z.land (sl_signal self) (shl64 1 (Z.of_nat i)) =? 0)) (seq 0 64) with
  | Some (_, i) => Some (from_bits_truncate (shl64 1 (Z.of_nat i)))
  | None => None
  end.

Definition remove_signal (self : SignalList) (signal : SignalFlags) : SignalList :=
  mkSignalList (Z.land (sl_signal self) (wnot signal)).

Definition has_sig (self : SignalList) (signal : SignalFlags) : bool :=
  negb (Z.land (sl_signal self) signal =? 0).

Definition signal_list_mask (self : SignalList) (mask : SigProcMask) : SignalList :=
  mkSignalList (Z.land (wnot (sm_mask mask)) (sl_signal self)).

(** ** The trap frame (riscv64) and the thread control block

    The fields [sstatus] and [fsx] are the CPU's status and scratch for the
    floating-point state: the trap code fills and uses them, and the kernel only
    copies them with the frame. *)
Record TrapFrame := mkTrapFrame { tf_x : list Z; tf_sepc : Z }.

Inductive TrapFrameArgs := SEPC | RA | SP | RET | ARG0 | ARG1 | ARG2 | TLS | SYSCALL.

(** The slot of [x] a register name stands for ([SEPC] has its own field). *)
Definition reg_index (a : TrapFrameArgs) : nat :=
  match a with
  | SEPC => 0 | RA => 1 | SP => 2 | RET => 10 | ARG0 => 10 | ARG1 => 11 | ARG2 => 12
  | TLS => 4 | SYSCALL => 17
  end.

Definition tf_get (cx : TrapFrame) (a : TrapFrameArgs) : Z :=
  match a with SEPC => tf_sepc cx | _ => tf_x cx !!! reg_index a end.

Definition tf_set (cx : TrapFrame) (a : TrapFrameArgs) (v : Z) : TrapFrame :=
  match a with
  | SEPC => mkTrapFrame (tf_x cx) v
  | _ => mkTrapFrame (<[reg_index a := v]> (tf_x cx)) (tf_sepc cx)
  end.

Record ThreadControlBlock := mkTcb {
  tcb_cx : TrapFrame;
  tcb_sigmask : SigProcMask;
  tcb_clear_child_tid : Z;
  tcb_set_child_tid : Z;
  tcb_signal : SignalList;
  tcb_signal_queue : list Z;
  tcb_exit_signal : Z;
  tcb_thread_exit_code : option Z;
  tcb_robust_list_head : Z;
  tcb_robust_list_len : Z
}.

Definition set_cx (v : TrapFrame) (t : ThreadControlBlock) : ThreadControlBlock :=
  let '(mkTcb _ a2 a3 a4 a5 a6 a7 a8 a9 a10) := t in mkTcb v a2 a3 a4 a5 a6 a7 a8 a9 a10.
Definition set_sigmask (v : SigProcMask) (t : ThreadControlBlock) : ThreadControlBlock :=
  let '(mkTcb a1 _ a3 a4 a5 a6 a7 a8 a9 a10) := t in mkTcb a1 v a3 a4 a5 a6 a7 a8 a9 a10.
Definition set_signal (v : SignalList) (t : ThreadControlBlock) : ThreadControlBlock :=
  let '(mkTcb a1 a2 a3 a4 _ a6 a7 a8 a9 a10) := t in mkTcb a1 a2 a3 a4 v a6 a7 a8 a9 a10.
Definition set_signal_queue (v : list Z) (t : ThreadControlBlock) : ThreadControlBlock :=
  let '(mkTcb a1 a2 a3 a4 a5 _ a7 a8 a9 a10) := t in mkTcb a1 a2 a3 a4 a5 v a7 a8 a9 a10.
Definition set_thread_exit_code (v : option Z) (t : ThreadControlBlock) : ThreadControlBlock :=
  let '(mkTcb a1 a2 a3 a4 a5 a6 a7 _ a9 a10) := t in mkTcb a1 a2 a3 a4 a5 a6 a7 v a9 a10.

Definition tcb_add_signal (s : SignalFlags) (t : ThreadControlBlock) : ThreadControlBlock :=
  set_signal (add_signal (tcb_signal t) s) t.

(** [queue[index] += 1] and [-= 1] on the [[usize; 33]] counters. *)
Definition queue_update (f : Z → Z) (index : Z) (q : list Z) : outcome (list Z) :=
  v ← unwrap (q !! Z.to_nat index);
  Val (<[Z.to_nat index := f v]> q).

(** The sending half of [sys_tkill] and [sys_tgkill]: mark the signal pending,
    or count another instance of a real-time signal that already is. *)
Definition tcb_send (signum : Z) (t : ThreadControlBlock) : outcome ThreadControlBlock :=
  let target_signal := from_num signum in
  if negb (has_sig (tcb_signal t) target_signal) then Val (tcb_add_signal target_signal t)
  else
    match real_time_index target_signal with
    | Some index =>
        q ← queue_update (λ v, v +w 1) index (tcb_signal_queue t);
        Val (set_signal_queue q t)
    | None => Val t
    end.

(** ** Delivery ([check_signal])

    [handle] is [handle_signal], which may change the thread and the rest of
    the kernel ([W]); [check_signal] also lists the signals it handled. *)
Section check_signal.
Context {W : Type} (handle : SignalFlags → W * ThreadControlBlock → W * ThreadControlBlock).

(** The part of the loop body after [handle_signal]. *)
Definition after_handle (signal : SignalFlags) (t : ThreadControlBlock)
  : outcome ThreadControlBlock :=
  let t := set_signal (remove_signal (tcb_signal t) signal) t in
  match real_time_index signal with
  | Some index =>
      v ← unwrap (tcb_signal_queue t !! Z.to_nat index);
      if 0 <? v then
        let t := tcb_add_signal signal t in
        q ← queue_update (λ v, v -w 1) index (tcb_signal_queue t);
        Val (set_signal_queue q t)
      else Val t
  | None => Val t
  end.

Fixpoint check_signal (fuel : nat) (st : W * ThreadControlBlock)
  : outcome (option (list SignalFlags * (W * ThreadControlBlock))) :=
  match fuel with
  | O => Val None
  | S fuel =>
      let sig_mask := tcb_sigmask st.2 in
      match try_get_signal (signal_list_mask (tcb_signal st.2) sig_mask) with
      | Some signal =>
          let st := handle signal st in
          t ← after_handle signal st.2;
          r ← check_signal fuel (st.1, t);
          Val (option_map (λ '(log, st'), (signal :: log, st')) r)
      | None => Val (Some ([], st))
      end
  end.
End check_signal.

(** ** Signal system calls of one thread *)
(** [sys_sigprocmask]: [set] is the value at the user pointer when it is not
    null, [oldset] tells whether the old-set pointer is not null; the second
    component of the result is what is written there. *)
Definition sys_sigprocmask (how : Z) (set : option SigProcMask) (oldset : bool)
    (t : ThreadControlBlock) : result (Z * option SigProcMask * ThreadControlBlock) :=
  how ← ok_or (sig_mask_how_from_usize how) EINVAL;
  let old := if oldset then Some (tcb_sigmask t) else None in
  let t := match set with
           | Some sigmask => set_sigmask (sig_proc_mask_handle (tcb_sigmask t) how sigmask) t
           | None => t
           end in
  Ok (0, old, t).

(** [sys_sigaction] on the [[SigAction; 65]] table of the process. *)
Definition sys_sigaction (sig : Z) (act : option SigAction) (oldact : bool)
    (sigaction : list SigAction) : outcome (result Z * option SigAction * list SigAction) :=
  old ← (if oldact then o ← unwrap (sigaction !! Z.to_nat sig); Val (Some o) else Val None);
  tbl ← match act with
        | Some a => _ ← unwrap (sigaction !! Z.to_nat sig); Val (<[Z.to_nat sig := a]> sigaction)
        | None => Val sigaction
        end;
  Val (Ok 0, old, tbl).

(** ** Bits of signal words *)
Lemma bit_testbit i j : 0 ≤ i < 64 → Z.testbit (bit i) j = bool_decide (i = j).
Proof.
  intros Hi. unfold bit, shl64. rewrite Z.mod_small by lia.
  rewrite wrap_small; [apply testbit_shiftl_1; lia|].
  rewrite Z.shiftl_1_l. split; [lia|]. apply Z.pow_lt_mono_r; lia.
Qed.

Lemma bit_shiftl i : 0 ≤ i < 64 → bit i = Z.shiftl 1 i.
Proof.
  intros Hi. apply Z.bits_inj. intros j. rewrite bit_testbit, testbit_shiftl_1; lia || done.
Qed.

Lemma bit_word i : word64 (bit i).
Proof. apply wrap_range. Qed.
#[export] Hint Resolve bit_word : monkey.

Lemma all_flags_ones : all_flags = Z.ones 64.
Proof. vm_compute. reflexivity. Qed.

(** Every bit of the word is a declared flag, so truncation changes nothing. *)
Lemma from_bits_truncate_id w : word64 w → from_bits_truncate w = w.
Proof.
  intros Hw. unfold from_bits_truncate. rewrite all_flags_ones, Z.land_ones by lia.
  apply Z.mod_small. exact Hw.
Qed.

Lemma from_num_bit n : 1 ≤ n ≤ 64 → from_num n = bit (n - 1).
Proof.
  intros Hn. unfold from_num. no_wrap. fold (bit (n - 1)).
  apply from_bits_truncate_id, bit_word.
Qed.

Lemma list_find_seq_least (P : nat → Prop) `{∀ i, Decision (P i)} n i :
  (i < n)%nat → P i → (∀ j, (j < i)%nat → ¬ P j) → list_find P (seq 0 n) = Some (i, i).
Proof.
  intros Hi HP Hmin. apply list_find_Some. split; [|split; [done|]].
  - rewrite lookup_seq. split; lia.
  - intros j x Hj Hlt. apply lookup_seq in Hj as [-> ?]. by apply Hmin.
Qed.

Lemma list_find_seq_None (P : nat → Prop) `{∀ i, Decision (P i)} n :
  (∀ j, (j < n)%nat → ¬ P j) → list_find P (seq 0 n) = None.
Proof.
  intros HP. apply list_find_None, Forall_forall. intros x Hx%elem_of_seq. apply HP. lia.
Qed.

(** The number of a one-bit flag is its position plus one. *)
Lemma sf_num_bit i : (i < 64)%nat → sf_num (bit (Z.of_nat i)) = Z.of_nat i + 1.
Proof.
  intros Hi. unfold sf_num. rewrite (list_find_seq_least _ 64 i); [done|done|..].
  - rewrite word_get_bit_testbit, bit_testbit by lia. by rewrite bool_decide_eq_true_2.
  - intros j Hj. rewrite word_get_bit_testbit, bit_testbit by lia.
    rewrite bool_decide_eq_false_2 by lia. by intros [].
Qed.

Lemma land_bit_zero w i :
  0 ≤ i < 64 → (Z.land w (bit i) =? 0) = negb (Z.testbit w i).
Proof.
  intros Hi. rewrite bit_shiftl by done.
  rewrite <- word_get_bit_testbit by lia. unfold word_get_bit. by rewrite negb_involutive.
Qed.

Lemma is_real_time_bit i : (i < 64)%nat → is_real_time (bit (Z.of_nat i)) = bool_decide (33 ≤ i)%nat.
Proof.
  intros Hi. unfold is_real_time. rewrite Z.land_comm, land_bit_zero, negb_involutive by lia.
  assert (Forall (λ i, Z.testbit 0xFFFFFFFE00000000 (Z.of_nat i) = bool_decide (33 ≤ i)%nat)
            (seq 0 64)) as HF by (apply (bool_decide_unpack _); vm_compute; exact I).
  rewrite Forall_forall in HF. apply HF, elem_of_seq. lia.
Qed.

(** The queue index of a real-time signal is inside the [33] counters. *)
Lemma real_time_index_bit i :
  (i < 64)%nat →
  real_time_index (bit (Z.of_nat i)) =
    if bool_decide (33 ≤ i)%nat then Some (Z.of_nat i - 31) else None.
Proof.
  intros Hi. unfold real_time_index. rewrite is_real_time_bit, sf_num_bit by done.
  case_bool_decide; [|done]. f_equal. no_wrap. lia.
Qed.

#[export] Hint Rewrite sf_num_bit real_time_index_bit is_real_time_bit using lia : words.

(** ** The delivery loop *)
(** Further instances of a signal beyond the pending bit. *)
Definition queued (t : ThreadControlBlock) (i : nat) : nat :=
  if bool_decide (33 ≤ i)%nat then Z.to_nat (tcb_signal_queue t !!! (i - 31)%nat) else 0%nat.

(** The fields of a thread the loop works on are within their types, and a
    signal that is not pending has no queued instance. *)
Record tcb_sig_wf (t : ThreadControlBlock) : Prop := {
  tsw_signal : word64 (sl_signal (tcb_signal t));
  tsw_mask : word64 (sm_mask (tcb_sigmask t));
  tsw_queue_len : length (tcb_signal_queue t) = Z.to_nat REAL_TIME_SIGNAL_NUM;
  tsw_queue : Forall word64 (tcb_signal_queue t);
  tsw_idle : ∀ i, (i < 64)%nat →
    Z.testbit (sl_signal (tcb_signal t)) (Z.of_nat i) = false → queued t i = 0%nat
}.

Definition deliverable (t : ThreadControlBlock) (i : nat) : bool :=
  Z.testbit (sl_signal (tcb_signal t)) (Z.of_nat i) &&
  negb (Z.testbit (sm_mask (tcb_sigmask t)) (Z.of_nat i)).

(** How often the thread has still to handle signal [i + 1]. *)
Definition pending_count (t : ThreadControlBlock) (i : nat) : nat :=
  if deliverable t i then S (queued t i) else 0.

Definition count_list (c : nat → nat) : list SignalFlags :=
  concat ((λ i, replicate (c i) (bit (Z.of_nat i))) <$> seq 0 64).

(** Everything the thread has to handle: in ascending order of the signal
    numbers, every instance of an unmasked pending signal. *)
Definition deliveries (t : ThreadControlBlock) : list SignalFlags := count_list (pending_count t).

(** Fields of a thread a handler may not touch. *)
Definition same_signals (t t' : ThreadControlBlock) : Prop :=
  tcb_signal t' = tcb_signal t ∧ tcb_sigmask t' = tcb_sigmask t ∧
  tcb_signal_queue t' = tcb_signal_queue t.

Lemma count_list_split c i :
  (i < 64)%nat →
  count_list c =
    concat ((λ i, replicate (c i) (bit (Z.of_nat i))) <$> seq 0 i) ++
    replicate (c i) (bit (Z.of_nat i)) ++
    concat ((λ i, replicate (c i) (bit (Z.of_nat i))) <$> seq (S i) (63 - i)).
Proof.
  intros Hi. unfold count_list. replace 64%nat with (i + S (63 - i))%nat by lia.
  rewrite seq_app, fmap_app, concat_app. simpl. by rewrite Nat.sub_0_r || done.
Qed.

Lemma count_list_zero c n m :
  (∀ i, (n ≤ i < n + m)%nat → c i = 0%nat) →
  concat ((λ i, replicate (c i) (bit (Z.of_nat i))) <$> seq n m) = [].
Proof.
  revert n. induction m as [|m IH]; intros n Hc; [done|]. simpl.
  rewrite Hc by lia. simpl. apply IH. intros. apply Hc. lia.
Qed.

Lemma concat_ext {A} (f g : nat → list A) l :
  (∀ i, i ∈ l → f i = g i) → concat (f <$> l) = concat (g <$> l).
Proof.
  intros H. f_equal. apply list_fmap_ext. intros k x Hx. by eapply H, list_elem_of_lookup_2.
Qed.

Lemma count_list_step c c' i :
  (i < 64)%nat → (∀ j, (j < i)%nat → c j = 0%nat) → c i = S (c' i) →
  (∀ j, (j < 64)%nat → j ≠ i → c' j = c j) →
  count_list c = bit (Z.of_nat i) :: count_list c'.
Proof.
  intros Hi Hz Hc Hne. rewrite (count_list_split c i), (count_list_split c' i) by done.
  rewrite (count_list_zero c 0 i), (count_list_zero c' 0 i).
  - rewrite Hc. simpl. do 2 f_equal. apply concat_ext. intros j Hj%elem_of_seq.
    rewrite Hne; [done|lia|lia].
  - intros j Hj. rewrite Hne by lia. apply Hz. lia.
  - intros j Hj. apply Hz. lia.
Qed.

Lemma remove_signal_testbit s i j :
  (i < 64)%nat → (j < 64)%nat →
  Z.testbit (sl_signal (remove_signal s (bit (Z.of_nat i)))) (Z.of_nat j) =
    Z.testbit (sl_signal s) (Z.of_nat j) && bool_decide (i ≠ j).
Proof.
  intros Hi Hj. simpl. rewrite Z.land_spec, wnot_testbit, bit_testbit by lia.
  f_equal. repeat case_bool_decide; naive_solver lia.
Qed.

Lemma add_signal_testbit s i j :
  (i < 64)%nat →
  Z.testbit (sl_signal (add_signal s (bit (Z.of_nat i)))) (Z.of_nat j) =
    Z.testbit (sl_signal s) (Z.of_nat j) || bool_decide (i = j).
Proof.
  intros Hi. simpl. rewrite Z.lor_spec, bit_testbit by lia.
  f_equal. apply bool_decide_ext. lia.
Qed.

Lemma land_word a b : word64 a → 0 ≤ b → word64 (Z.land a b).
Proof.
  intros Ha Hb. apply word64_of_bits; [apply Z.land_nonneg; by right|].
  intros k Hk. by rewrite Z.land_spec, word64_testbit_high.
Qed.

Lemma lor_word a b : word64 a → word64 b → word64 (Z.lor a b).
Proof.
  intros Ha Hb. apply word64_of_bits; [apply Z.lor_nonneg; split; [apply Ha|apply Hb]|].
  intros k Hk. by rewrite Z.lor_spec, !word64_testbit_high.
Qed.

Lemma wnot_word a : word64 a → word64 (wnot a).
Proof.
  intros Ha. apply word64_of_bits.
  - apply Z.lxor_nonneg. destruct Ha. vm_compute Z.ones. split; lia.
  - intros k Hk. by apply wnot_testbit_high.
Qed.

Lemma remove_signal_word s g : word64 (sl_signal s) → word64 g → word64 (sl_signal (remove_signal s g)).
Proof. intros Hs Hg. apply land_word; [done|]. by apply wnot_word. Qed.

Lemma add_signal_word s g : word64 (sl_signal s) → word64 g → word64 (sl_signal (add_signal s g)).
Proof. apply lor_word. Qed.

#[export] Hint Resolve land_word lor_word wnot_word remove_signal_word add_signal_word : monkey.

(** One round of the loop uses up one instance of the signal and leaves the
    others alone. *)
Record delivered (i : nat) (t t' : ThreadControlBlock) : Prop := {
  dl_wf : tcb_sig_wf t';
  dl_mask : tcb_sigmask t' = tcb_sigmask t;
  dl_other : ∀ j, (j < 64)%nat → j ≠ i →
    Z.testbit (sl_signal (tcb_signal t')) (Z.of_nat j) =
      Z.testbit (sl_signal (tcb_signal t)) (Z.of_nat j) ∧
    queued t' j = queued t j;
  dl_count : pending_count t i = S (pending_count t' i);
  dl_empty : deliverable t' i = false → queued t' i = 0%nat
}.

Lemma set_signal_queued s t i : queued (set_signal s t) i = queued t i.
Proof. by destruct t. Qed.

Lemma delivered_clear i t :
  tcb_sig_wf t → (i < 64)%nat → deliverable t i = true → queued t i = 0%nat →
  delivered i t (set_signal (remove_signal (tcb_signal t) (bit (Z.of_nat i))) t).
Proof.
  intros [Hs Hm Hql Hq Hidle] Hi Hd Hz. split.
  - split; [|by destruct t..|].
    { destruct t; cbn [tcb_signal set_signal] in *. eauto with monkey. }
    intros j Hj Hb.
    rewrite set_signal_queued. destruct (decide (i = j)) as [->|Hne]; [done|].
    apply Hidle; [done|]. revert Hb.
    destruct t; cbn [tcb_signal set_signal]. rewrite remove_signal_testbit by done.
    by rewrite bool_decide_eq_true_2, andb_true_r.
  - by destruct t.
  - intros j Hj Hne. split; [|by rewrite set_signal_queued].
    destruct t; cbn [tcb_signal set_signal]. rewrite remove_signal_testbit by done.
    by rewrite bool_decide_eq_true_2, andb_true_r by done.
  - unfold pending_count. rewrite Hd, Hz. unfold deliverable.
    destruct t; cbn [tcb_signal set_signal]. rewrite remove_signal_testbit by done.
    by rewrite bool_decide_eq_false_2, andb_false_r by (intros H; by apply H).
  - intros _. by rewrite set_signal_queued.
Qed.

Lemma after_handle_queued i v t :
  tcb_sig_wf t → (33 ≤ i < 64)%nat → deliverable t i = true →
  tcb_signal_queue t !! (i - 31)%nat = Some v → 0 < v →
  let s := bit (Z.of_nat i) in
  delivered i t
    (set_signal_queue (<[(i - 31)%nat := v -w 1]> (tcb_signal_queue t))
       (tcb_add_signal s (set_signal (remove_signal (tcb_signal t) s) t))).
Proof.
  intros [Hs Hm Hql Hq Hidle] Hi Hd Hv Hpos s.
  assert (word64 v) as Hvw by (by eapply Forall_lookup_1 in Hq).
  assert (v -w 1 = v - 1) as Hv1 by (apply wsub_small; word_lia).
  set (t' := set_signal_queue _ _).
  assert (∀ j, (j < 64)%nat → Z.testbit (sl_signal (tcb_signal t')) (Z.of_nat j)
          = Z.testbit (sl_signal (tcb_signal t)) (Z.of_nat j)) as Hbits.
  { intros j Hj. unfold t', s, tcb_add_signal. unfold deliverable in Hd.
    apply andb_prop in Hd as [Hd _].
    destruct t; cbn [tcb_signal set_signal set_signal_queue] in *.
    rewrite add_signal_testbit, remove_signal_testbit by lia.
    destruct (decide (i = j)) as [->|Hne].
    - by rewrite Hd, bool_decide_eq_false_2, bool_decide_eq_true_2 by naive_solver.
    - by rewrite bool_decide_eq_true_2, bool_decide_eq_false_2, andb_true_r, orb_false_r. }
  assert (tcb_sigmask t' = tcb_sigmask t) as Hmask by (by destruct t).
  assert (∀ j, (j < 64)%nat → deliverable t' j = deliverable t j) as Hdel.
  { intros j Hj. unfold deliverable. by rewrite Hbits, Hmask. }
  assert (tcb_signal_queue t' = <[(i - 31)%nat := v - 1]> (tcb_signal_queue t)) as Hq'.
  { rewrite <- Hv1. by destruct t. }
  assert (i - 31 < length (tcb_signal_queue t))%nat as Hlt by (by eapply lookup_lt_Some).
  split.
  - split.
    + assert (sl_signal (tcb_signal t') =
        sl_signal (add_signal (remove_signal (tcb_signal t) s) s)) as -> by (by destruct t).
      apply add_signal_word; [|apply bit_word]. apply remove_signal_word; [done|apply bit_word].
    + by rewrite Hmask.
    + by rewrite Hq', length_insert.
    + rewrite Hq'. apply Forall_insert; [done|]. word_lia.
    + intros j Hj. rewrite Hbits by done. intros Hb. apply andb_prop in Hd as [Hd _].
      assert (i ≠ j) by congruence. rewrite <- (Hidle j Hj Hb). unfold queued.
      case_bool_decide; [|done]. by rewrite Hq', list_lookup_total_insert_ne by lia.
  - done.
  - intros j Hj Hne. split; [by apply Hbits|]. unfold queued. case_bool_decide; [|done].
    by rewrite Hq', list_lookup_total_insert_ne by lia.
  - unfold pending_count, queued. rewrite Hdel, Hd, bool_decide_eq_true_2, Hq' by lia.
    rewrite list_lookup_total_insert_eq by done.
    rewrite (list_lookup_total_correct _ _ _ Hv). lia.
  - rewrite Hdel, Hd by lia. done.
Qed.

Lemma after_handle_delivers i t :
  tcb_sig_wf t → (i < 64)%nat → deliverable t i = true →
  ∃ t', after_handle (bit (Z.of_nat i)) t = Val t' ∧ delivered i t t'.
Proof.
  intros Hwf Hi Hd. pose proof Hwf as [Hs Hm Hql Hq Hidle]. unfold after_handle.
  rewrite real_time_index_bit by done. case_bool_decide as Hrt.
  - replace (Z.to_nat (Z.of_nat i - 31)) with (i - 31)%nat by lia.
    destruct (lookup_lt_is_Some_2 (tcb_signal_queue t) (i - 31)) as [v Hv].
    { rewrite Hql. unfold REAL_TIME_SIGNAL_NUM. lia. }
    set (s := bit (Z.of_nat i)).
    assert (∀ sl, tcb_signal_queue (set_signal sl t) = tcb_signal_queue t) as E by by destruct t.
    assert (∀ sl, tcb_signal_queue (tcb_add_signal s (set_signal sl t)) = tcb_signal_queue t) as E2
      by by destruct t.
    rewrite E, Hv. cbn [unwrap mbind outcome_bind].
    destruct (Z.ltb_spec 0 v) as [Hpos|Hz].
    + unfold queue_update. rewrite E2.
      replace (Z.to_nat (Z.of_nat i - 31)) with (i - 31)%nat by lia. rewrite Hv.
      cbn [unwrap mbind outcome_bind]. eexists. split; [done|].
      apply after_handle_queued; done || lia.
    + eexists. split; [done|]. apply delivered_clear; try done.
      unfold queued. rewrite bool_decide_eq_true_2 by done.
      erewrite list_lookup_total_correct by done. lia.
  - eexists. split; [done|]. apply delivered_clear; try done.
    unfold queued. by rewrite bool_decide_eq_false_2.
Qed.

(** [try_get_signal] on the masked list is the lowest deliverable signal. *)
Lemma masked_testbit t i :
  (i < 64)%nat →
  negb (Z.land (sl_signal (signal_list_mask (tcb_signal t) (tcb_sigmask t)))
          (shl64 1 (Z.of_nat i)) =? 0) = deliverable t i.
Proof.
  intros Hi. fold (bit (Z.of_nat i)). rewrite land_bit_zero, negb_involutive by lia. simpl.
  rewrite Z.land_spec, wnot_testbit by lia. apply andb_comm.
Qed.

Lemma try_get_signal_masked t :
  match try_get_signal (signal_list_mask (tcb_signal t) (tcb_sigmask t)) with
  | Some s => ∃ i, (i < 64)%nat ∧ s = bit (Z.of_nat i) ∧ deliverable t i = true ∧
                   ∀ j, (j < i)%nat → deliverable t j = false
  | None => ∀ j, (j < 64)%nat → deliverable t j = false
  end.
Proof.
  unfold try_get_signal. destruct (list_find _ _) as [[k i]|] eqn:E.
  - apply list_find_Some in E as (Hk & HP & Hmin). apply lookup_seq in Hk as [-> Hi].
    exists k. rewrite Nat.add_0_l in *. split; [lia|]. split; [by apply from_bits_truncate_id, bit_word|].
    rewrite masked_testbit in HP by lia. split; [by apply Is_true_true|].
    intros j Hj. specialize (Hmin j j). rewrite masked_testbit in Hmin by lia.
    apply Is_true_false, Hmin; [|lia]. rewrite lookup_seq. lia.
  - apply list_find_None in E. intros j Hj. rewrite Forall_forall in E.
    specialize (E j). rewrite masked_testbit in E by lia.
    apply Is_true_false, E, elem_of_seq. lia.
Qed.

(** What the loop leaves behind. *)
Record drained (t t' : ThreadControlBlock) : Prop := {
  dr_wf : tcb_sig_wf t';
  dr_mask : tcb_sigmask t' = tcb_sigmask t;
  dr_bits : ∀ j, (j < 64)%nat →
    Z.testbit (sl_signal (tcb_signal t')) (Z.of_nat j) =
      Z.testbit (sl_signal (tcb_signal t)) (Z.of_nat j) &&
      Z.testbit (sm_mask (tcb_sigmask t)) (Z.of_nat j);
  dr_queue : ∀ j, (j < 64)%nat → queued t' j = if deliverable t j then 0%nat else queued t j
}.

Lemma pending_count_ext t t' j :
  deliverable t' j = deliverable t j → queued t' j = queued t j →
  pending_count t' j = pending_count t j.
Proof. intros H1 H2. unfold pending_count. by rewrite H1, H2. Qed.

Lemma delivered_deliverable i t t' j :
  delivered i t t' → (j < 64)%nat → j ≠ i → deliverable t' j = deliverable t j.
Proof.
  intros Hd Hj Hne. unfold deliverable. rewrite (dl_mask _ _ _ Hd).
  by destruct (dl_other _ _ _ Hd j Hj Hne) as [-> _].
Qed.

Lemma drained_refl t :
  tcb_sig_wf t → (∀ j, (j < 64)%nat → deliverable t j = false) → drained t t.
Proof.
  intros Hwf H. split; [done|done|..].
  - intros j Hj. specialize (H j Hj). unfold deliverable in H.
    destruct (Z.testbit (sl_signal _) _), (Z.testbit (sm_mask _) _); done.
  - intros j Hj. by rewrite H.
Qed.

Lemma drained_step i t t' t'' :
  (i < 64)%nat → deliverable t i = true → delivered i t t' → drained t' t'' → drained t t''.
Proof.
  intros Hi Hdi Hd [Hwf Hm Hb Hq]. pose proof Hd as [_ Hm' Ho Hc He]. split.
  - done.
  - congruence.
  - intros j Hj. rewrite Hb, Hm' by done. destruct (decide (j = i)) as [->|Hne].
    + unfold deliverable in Hdi. apply andb_prop in Hdi as [_ Hmi]. apply negb_true_iff in Hmi.
      by rewrite Hmi, !andb_false_r.
    + by destruct (Ho j Hj Hne) as [-> _].
  - intros j Hj. rewrite Hq by done. destruct (decide (j = i)) as [->|Hne].
    + rewrite Hdi. destruct (deliverable t' i) eqn:E; [done|by apply He].
    + rewrite (delivered_deliverable i t t') by done. by destruct (Ho j Hj Hne) as [_ ->].
Qed.

Lemma deliveries_step i t t' :
  (i < 64)%nat → (∀ j, (j < i)%nat → deliverable t j = false) → delivered i t t' →
  deliveries t = bit (Z.of_nat i) :: deliveries t'.
Proof.
  intros Hi Hmin Hd. apply count_list_step; [done|..].
  - intros j Hj. unfold pending_count. by rewrite Hmin.
  - apply (dl_count _ _ _ Hd).
  - intros j Hj Hne. apply pending_count_ext; [by eapply delivered_deliverable|].
    by destruct (dl_other _ _ _ Hd j Hj Hne).
Qed.

Lemma deliveries_nil t :
  (∀ j, (j < 64)%nat → deliverable t j = false) → deliveries t = [].
Proof.
  intros H. apply count_list_zero. intros j Hj. unfold pending_count. rewrite H by lia. done.
Qed.

Lemma same_signals_wf t t' : same_signals t t' → tcb_sig_wf t → tcb_sig_wf t'.
Proof.
  intros (E1 & E2 & E3) [H1 H2 H3 H4 H5].
  split; unfold queued in *; rewrite ?E1, ?E2, ?E3; done.
Qed.

Lemma same_signals_deliveries t t' : same_signals t t' → deliveries t' = deliveries t.
Proof.
  intros (E1 & E2 & E3). unfold deliveries, count_list. apply concat_ext. intros i _.
  f_equal. apply pending_count_ext; unfold deliverable, queued; by rewrite ?E1, ?E2, ?E3.
Qed.

Lemma same_signals_drained t t' t'' : same_signals t t' → drained t' t'' → drained t t''.
Proof.
  intros (E1 & E2 & E3) [H1 H2 H3 H4].
  split; unfold deliverable, queued in *; rewrite <- ?E1, <- ?E2, <- ?E3; done.
Qed.

(** ** Properties of the delivery loop *)
Section check_signal_props.
Context {W : Type} (handle : SignalFlags → W * ThreadControlBlock → W * ThreadControlBlock).
(** A handler that leaves the pending set, the mask and the queue alone: the
    default actions, ignored signals and user handlers that return. *)
Definition neutral : Prop := ∀ s st, same_signals st.2 (handle s st).2.

(** C22: With a handler that does not itself change the thread's signal state,
  [check_signal] returns (given more rounds than there are signals to
  deliver, so the loop terminates) without panicking; it handles exactly the
  unmasked pending signals in ascending order, a real-time signal once more
  for every queued instance; afterwards only masked signals are pending, the
  queues of the delivered signals are empty, and the mask and the queues of
  the masked signals are unchanged. *)
Theorem check_signal_delivers fuel w t :
  neutral → tcb_sig_wf t → (length (deliveries t) < fuel)%nat →
  ∃ st', check_signal handle fuel (w, t) = Val (Some (deliveries t, st')) ∧ drained t st'.2.
Proof.
  intros Hn. revert w t. induction fuel as [|fuel IH]; intros w t Hwf Hfuel; [lia|].
  cbn [check_signal snd fst]. pose proof (try_get_signal_masked t) as Htry.
  destruct (try_get_signal _) as [s|].
  - destruct Htry as (i & Hi & -> & Hdi & Hmin).
    set (st1 := handle _ _).
    assert (same_signals t st1.2) as Hs by apply Hn.
    pose proof (same_signals_wf _ _ Hs Hwf) as Hwf1.
    assert (∀ j, deliverable st1.2 j = deliverable t j) as Hdel.
    { destruct Hs as (E1 & E2 & _). intros j. unfold deliverable. by rewrite E1, E2. }
    destruct (after_handle_delivers i st1.2) as (t' & Ha & Hd); [done|done|by rewrite Hdel|].
    assert (deliveries t = bit (Z.of_nat i) :: deliveries t') as HD.
    { rewrite <- (same_signals_deliveries _ _ Hs). apply deliveries_step; [done| |done].
      intros j Hj. rewrite Hdel. by apply Hmin. }
    rewrite Ha. cbn [mbind outcome_bind].
    destruct (IH st1.1 t') as (st' & Hc & Hdr); [apply (dl_wf _ _ _ Hd)|rewrite HD in Hfuel; simpl in Hfuel; lia|].
    rewrite Hc, HD. cbn [mbind outcome_bind option_map]. eexists. split; [done|].
    eapply same_signals_drained; [done|]. eapply drained_step; [done| |done|done].
    by rewrite Hdel.
  - rewrite deliveries_nil by done. eexists. split; [done|]. by apply drained_refl.
Qed.
End check_signal_props.

(** A thread with two standard signals pending (one masked) and a real-time
    signal pending three times. *)
Definition demo_tcb : ThreadControlBlock :=
  mkTcb (mkTrapFrame (replicate 32 0) 0x10000) (mkSigProcMask (bit 14)) 0 0
    (mkSignalList (Z.lor (bit 9) (Z.lor (bit 14) (bit 40))))
    (<[9%nat := 2]> (replicate 33 0)) 0 None 0 0.

Lemma demo_tcb_wf : tcb_sig_wf demo_tcb.
Proof.
  split; try (split; vm_compute; congruence); try reflexivity.
  - apply (bool_decide_unpack (Forall word64 (tcb_signal_queue demo_tcb))). vm_compute. exact I.
  - assert (Forall (λ i, Z.testbit (sl_signal (tcb_signal demo_tcb)) (Z.of_nat i) = false →
                         queued demo_tcb i = 0%nat) (seq 0 64)) as HF
      by (apply (bool_decide_unpack _); vm_compute; exact I).
    intros i Hi. rewrite Forall_forall in HF. apply HF, elem_of_seq. lia.
Qed.

Lemma check_signal_delivers_witness :
  ∃ st', check_signal (λ _ (st : unit * ThreadControlBlock), st) 5 (tt, demo_tcb)
         = Val (Some ([bit 9; bit 40; bit 40; bit 40], st')) ∧ drained demo_tcb st'.2.
Proof.
  apply (check_signal_delivers (λ _ (st : unit * ThreadControlBlock), st) 5 tt demo_tcb).
  - intros s st. repeat split.
  - apply demo_tcb_wf.
  - vm_compute. lia.
Defined.

(** ** Sending *)
Lemma has_sig_bit t i :
  (i < 64)%nat → has_sig (tcb_signal t) (bit (Z.of_nat i)) = Z.testbit (sl_signal (tcb_signal t)) (Z.of_nat i).
Proof. intros Hi. unfold has_sig. by rewrite land_bit_zero, negb_involutive by lia. Qed.

Lemma tcb_add_signal_fields s t :
  tcb_signal (tcb_add_signal s t) = add_signal (tcb_signal t) s ∧
  tcb_sigmask (tcb_add_signal s t) = tcb_sigmask t ∧
  tcb_signal_queue (tcb_add_signal s t) = tcb_signal_queue t.
Proof. by destruct t. Qed.

Lemma tcb_add_signal_wf t i :
  tcb_sig_wf t → (i < 64)%nat → tcb_sig_wf (tcb_add_signal (bit (Z.of_nat i)) t).
Proof.
  intros [H1 H2 H3 H4 H5] Hi.
  destruct (tcb_add_signal_fields (bit (Z.of_nat i)) t) as (E1 & E2 & E3).
  split; unfold queued in *; rewrite ?E1, ?E2, ?E3; try done.
  - eauto with monkey.
  - intros j Hj. rewrite add_signal_testbit by done. intros [Hb _]%orb_false_elim. by apply H5.
Qed.

(** Instances of signal [i + 1] waiting at the thread, masked or not. *)
Definition instances (t : ThreadControlBlock) (i : nat) : nat :=
  if Z.testbit (sl_signal (tcb_signal t)) (Z.of_nat i) then S (queued t i) else 0.

(** Counting one more instance of a pending real-time signal. *)
Lemma queue_push_instances t i v :
  tcb_sig_wf t → (33 ≤ i < 64)%nat → Z.testbit (sl_signal (tcb_signal t)) (Z.of_nat i) = true →
  tcb_signal_queue t !! (i - 31)%nat = Some v → v < usize_max →
  let t' := set_signal_queue (<[(i - 31)%nat := v +w 1]> (tcb_signal_queue t)) t in
  tcb_sig_wf t' ∧ tcb_sigmask t' = tcb_sigmask t ∧ instances t' i = S (instances t i) ∧
  ∀ j, (j < 64)%nat → j ≠ i → instances t' j = instances t j.
Proof.
  intros [H1 H2 H3 H4 H5] Hi Hb Hv Hmax t'.
  assert (word64 v) as Hvw by (by eapply Forall_lookup_1 in H4).
  assert (v +w 1 = v + 1) as Hv1 by (apply wadd_small; word_lia).
  assert (i - 31 < length (tcb_signal_queue t))%nat as Hlt by (by eapply lookup_lt_Some).
  assert (tcb_signal t' = tcb_signal t ∧ tcb_sigmask t' = tcb_sigmask t ∧
    tcb_signal_queue t' = <[(i - 31)%nat := v + 1]> (tcb_signal_queue t)) as (E1 & E2 & E3)
    by (rewrite <- Hv1; by destruct t).
  assert (∀ j, j ≠ i → queued t' j = queued t j) as Hqo.
  { intros j Hne. unfold queued. case_bool_decide; [|done].
    by rewrite E3, list_lookup_total_insert_ne by lia. }
  split_and!.
  - split; rewrite ?E1, ?E2; try done.
    + by rewrite E3, length_insert.
    + rewrite E3. apply Forall_insert; [done|]. word_lia.
    + intros j Hj Hbj. rewrite Hqo by congruence. by apply H5.
  - done.
  - unfold instances. rewrite E1, Hb.
    f_equal. unfold queued. rewrite bool_decide_eq_true_2, E3 by lia.
    rewrite list_lookup_total_insert_eq by done.
    rewrite (list_lookup_total_correct _ _ _ Hv). word_lia.
  - intros j Hj Hne. unfold instances. by rewrite E1, Hqo.
Qed.

(** Sending a valid signal never panics and keeps the thread well formed;
    it adds one instance to a real-time signal (as long as its 64-bit counter
    has room), makes a standard signal pending exactly once, and does not
    change any other signal or the mask. *)
Theorem tcb_send_counts t signum :
  tcb_sig_wf t → 1 ≤ signum ≤ 64 →
  Forall (λ v, v < usize_max) (tcb_signal_queue t) →
  ∃ t', tcb_send signum t = Val t' ∧ tcb_sig_wf t' ∧ tcb_sigmask t' = tcb_sigmask t ∧
    let i := Z.to_nat (signum - 1) in
    instances t' i = (if bool_decide (34 ≤ signum) then S (instances t i) else 1%nat) ∧
    ∀ j, (j < 64)%nat → j ≠ i → instances t' j = instances t j.
Proof.
  intros Hwf Hs Hq. unfold tcb_send. rewrite from_num_bit by done.
  set (i := Z.to_nat (signum - 1)). replace (signum - 1) with (Z.of_nat i) by lia.
  assert (i < 64)%nat as Hi by lia. rewrite has_sig_bit by done.
  destruct (Z.testbit _ _) eqn:Hb; cbn [negb].
  - rewrite real_time_index_bit by done. case_bool_decide as Hrt.
    + replace (Z.to_nat (Z.of_nat i - 31)) with (i - 31)%nat by lia.
      pose proof Hwf as [H1 H2 H3 H4 H5].
      destruct (lookup_lt_is_Some_2 (tcb_signal_queue t) (i - 31)) as [v Hv].
      { rewrite H3. unfold REAL_TIME_SIGNAL_NUM. lia. }
      unfold queue_update. replace (Z.to_nat (Z.of_nat i - 31)) with (i - 31)%nat by lia.
      rewrite Hv. cbn [unwrap mbind outcome_bind].
      assert (v < usize_max) by (by eapply Forall_lookup_1 in Hq).
      destruct (queue_push_instances t i v) as (Hw & Hm & Hi1 & Hj); try done.
      eexists. split; [done|]. rewrite (bool_decide_eq_true_2 (34 ≤ signum)) by lia.
      split_and!; done.
    + exists t. split_and!; try done. rewrite bool_decide_eq_false_2 by lia.
      unfold instances, queued. by rewrite Hb, bool_decide_eq_false_2.
  - destruct (tcb_add_signal_fields (bit (Z.of_nat i)) t) as (E1 & E2 & E3).
    eexists. split; [done|]. split_and!.
    + by apply tcb_add_signal_wf.
    + done.
    + unfold instances at 1. rewrite E1, add_signal_testbit by done.
      rewrite (bool_decide_eq_true_2 (i = i)), orb_true_r by done.
      assert (queued (tcb_add_signal (bit (Z.of_nat i)) t) i = 0%nat) as ->.
      { unfold queued. rewrite E3. by apply (tsw_idle _ Hwf). }
      unfold instances. rewrite Hb. by case_bool_decide.
    + intros j Hj Hne. unfold instances, queued. rewrite E1, E3, add_signal_testbit by done.
      by rewrite (bool_decide_eq_false_2 (i = j)), orb_false_r by done.
Qed.

Lemma tcb_send_counts_witness :
  ∃ t', tcb_send 41 demo_tcb = Val t' ∧ tcb_sig_wf t' ∧ tcb_sigmask t' = tcb_sigmask demo_tcb ∧
    instances t' 40 = 4%nat ∧
    ∀ j, (j < 64)%nat → j ≠ 40%nat → instances t' j = instances demo_tcb j.
Proof.
  apply (tcb_send_counts demo_tcb 41).
  - apply demo_tcb_wf.
  - lia.
  - apply (bool_decide_unpack _). vm_compute. exact I.
Defined.

(** ** Masks *)
(** The mask a [how] request leads to, bit by bit. *)
Definition mask_spec (how : SigMaskHow) (old set : bool) : bool :=
  match how with Block => old || set | Unblock => old && negb set | Setmask => set end.

(** [sys_sigprocmask] rejects every [how] other than 0, 1 and 2 with
    EINVAL; otherwise it reports the old mask when asked, changes the mask bit
    by bit as [how] says, and touches nothing else of the thread; setting the
    reported mask again restores the thread. *)
Theorem sigprocmask_spec how set t :
  word64 (sm_mask set) → word64 (sm_mask (tcb_sigmask t)) →
  match sig_mask_how_from_usize how with
  | None => sys_sigprocmask how (Some set) true t = Err EINVAL
  | Some h => ∃ t',
      sys_sigprocmask how (Some set) true t = Ok (0, Some (tcb_sigmask t), t') ∧
      t' = set_sigmask (tcb_sigmask t') t ∧ word64 (sm_mask (tcb_sigmask t')) ∧
      (∀ i, 0 ≤ i < 64 →
        Z.testbit (sm_mask (tcb_sigmask t')) i =
          mask_spec h (Z.testbit (sm_mask (tcb_sigmask t)) i) (Z.testbit (sm_mask set) i)) ∧
      sys_sigprocmask 2 (Some (tcb_sigmask t)) false t' = Ok (0, None, t)
  end.
Proof.
  intros Hset Ht. unfold sys_sigprocmask.
  destruct (sig_mask_how_from_usize how) as [h|] eqn:E; [|done].
  eexists. split; [done|]. destruct t as [cx m a3 a4 a5 a6 a7 a8 a9 a10].
  cbn [tcb_sigmask set_sigmask] in *. split; [done|]. split.
  - destruct h; simpl; eauto with monkey. apply land_word; [done|]. by apply wnot_word.
  - split; [|by destruct m]. intros i Hi. destruct h; simpl.
    + apply Z.lor_spec.
    + rewrite Z.land_spec, wnot_testbit by done. done.
    + done.
Qed.

Lemma sigprocmask_spec_witness :
  ∃ t', sys_sigprocmask 0 (Some (mkSigProcMask (bit 8))) true demo_tcb
          = Ok (0, Some (mkSigProcMask (bit 14)), t') ∧
        sys_sigprocmask 2 (Some (tcb_sigmask demo_tcb)) false t' = Ok (0, None, demo_tcb).
Proof.
  destruct (sigprocmask_spec 0 (mkSigProcMask (bit 8)) demo_tcb) as (t' & H1 & _ & _ & _ & H2);
    [split; vm_compute; congruence..|].
  exists t'. split; [exact H1|exact H2].
Defined.

(** Nothing exempts SIGKILL from the mask: after a program blocks it, a
    SIGKILL sent to the thread stays pending and [check_signal] handles
    nothing, although the comment on the system call says SIGKILL cannot be
    blocked. *)
Theorem sigkill_can_be_blocked t :
  tcb_signal t = signal_list_new →
  ∃ t1 t2, sys_sigprocmask 0 (Some (mkSigProcMask SIGKILL)) false t = Ok (0, None, t1) ∧
    tcb_send 9 t1 = Val t2 ∧ has_sig (tcb_signal t2) SIGKILL = true ∧
    ∀ W (handle : SignalFlags → W * ThreadControlBlock → W * ThreadControlBlock) w fuel,
      (0 < fuel)%nat → check_signal handle fuel (w, t2) = Val (Some ([], (w, t2))).
Proof.
  intros Hs. destruct t as [cx m a3 a4 sl a6 a7 a8 a9 a10]. simpl in Hs. subst sl.
  eexists _, _. split; [reflexivity|]. split; [reflexivity|]. split; [vm_compute; reflexivity|].
  intros W handle w fuel Hfuel. destruct fuel as [|fuel]; [lia|].
  cbn [check_signal snd fst]. set (t2 := tcb_add_signal _ _).
  pose proof (try_get_signal_masked t2) as H. destruct (try_get_signal _); [|done].
  destruct H as (i & Hi & _ & Hd & _). exfalso. unfold deliverable in Hd.
  change (sl_signal (tcb_signal t2)) with (bit (Z.of_nat 8)) in Hd.
  rewrite bit_testbit in Hd by lia. apply andb_prop in Hd as [Hd1 Hd2].
  apply bool_decide_eq_true in Hd1. assert (i = 8%nat) as -> by lia.
  unfold t2 in Hd2. cbn [tcb_sigmask set_sigmask tcb_add_signal set_signal sig_proc_mask_handle sm_mask] in Hd2.
  rewrite Z.lor_spec in Hd2. change SIGKILL with (bit 8) in Hd2.
  by rewrite (bit_testbit 8 (Z.of_nat 8)), bool_decide_eq_true_2, orb_true_r in Hd2 by lia.
Qed.

Lemma sigkill_can_be_blocked_witness :
  ∃ t1 t2, sys_sigprocmask 0 (Some (mkSigProcMask SIGKILL)) false
             (set_signal signal_list_new demo_tcb) = Ok (0, None, t1) ∧
    tcb_send 9 t1 = Val t2 ∧ has_sig (tcb_signal t2) SIGKILL = true.
Proof.
  destruct (sigkill_can_be_blocked (set_signal signal_list_new demo_tcb)) as (t1 & t2 & H1 & H2 & H3 & _);
    [reflexivity|]. by exists t1, t2.
Defined.

(** ** Actions *)
(** On the 65-entry action table, [sys_sigaction] for a number up to 64
    reports the old action, stores the new one and leaves every other entry
    alone; for a larger number, which the caller chooses freely, it panics the
    kernel as soon as one of the pointers is not null. *)
Theorem sys_sigaction_spec sig act tbl :
  0 ≤ sig → length tbl = 65%nat →
  if bool_decide (sig ≤ 64) then
    ∃ old, tbl !! Z.to_nat sig = Some old ∧
      sys_sigaction sig (Some act) true tbl
        = Val (Ok 0, Some old, <[Z.to_nat sig := act]> tbl) ∧
      sys_sigaction sig None true (<[Z.to_nat sig := act]> tbl)
        = Val (Ok 0, Some act, <[Z.to_nat sig := act]> tbl)
  else ∀ a o, (a ≠ None ∨ o = true) → sys_sigaction sig a o tbl = Panic.
Proof.
  intros H0 Hlen. case_bool_decide as Hs.
  - destruct (lookup_lt_is_Some_2 tbl (Z.to_nat sig)) as [old Ho]; [lia|].
    exists old. split; [done|]. unfold sys_sigaction. rewrite Ho. split; [done|].
    by rewrite list_lookup_insert_eq by lia.
  - intros a o Hao. unfold sys_sigaction. rewrite lookup_ge_None_2 by lia.
    destruct a, o; naive_solver.
Qed.

Lemma sys_sigaction_spec_witness :
  sys_sigaction 65 None true (replicate 65 sig_action_new) = Panic ∧
  ∃ old, replicate 65 sig_action_new !! 10%nat = Some old ∧
      sys_sigaction 10 (Some (mkSigAction 0x10000 0 0 sig_proc_mask_new)) true (replicate 65 sig_action_new)
        = Val (Ok 0, Some old, <[10%nat := mkSigAction 0x10000 0 0 sig_proc_mask_new]> (replicate 65 sig_action_new)).
Proof.
  split.
  - apply (sys_sigaction_spec 65 sig_action_new (replicate 65 sig_action_new)); [lia|done|by right].
  - destruct (sys_sigaction_spec 10 (mkSigAction 0x10000 0 0 sig_proc_mask_new) (replicate 65 sig_action_new))
      as (old & H1 & H2 & _); [lia|done|]. by exists old.
Defined.

(** Signal number 0 (the existence probe of kill) becomes signal 64. *)
Lemma from_num_zero : from_num 0 = bit 63.
Proof. vm_compute. reflexivity. Qed.
