(* ===== verification/Path.v ===== *)
(** * Paths and mounts ([filesystem/fs/src/pathbuf.rs], [dentry.rs])

    A [PathBuf] is the list of the components of an absolute path; [join]
    normalises [.], [..] and empty components away.  [MOUNTED_FS] is the list
    of mounts in mounting order; a path is served by the last mount that is a
    prefix of it. *)

From Stdlib Require Import Ascii.
From S2P Require Import Prelude.
Local Open Scope Z_scope.

Definition PathBuf := list string.

(** ["/"], [str::starts_with("/")], [str::split("/")] and [[..].join("/")]. *)
Definition slash : ascii := "/"%char.

Definition starts_with_slash (s : string) : bool :=
  match s with String c _ => bool_decide (c = slash) | EmptyString => false end.

Fixpoint split_slash (s : string) : list string :=
  match s with
  | EmptyString => [EmptyString]
  | String c s =>
      if bool_decide (c = slash) then EmptyString :: split_slash s
      else match split_slash s with
           | x :: xs => String c x :: xs
           | [] => [String c EmptyString]
           end
  end.

Fixpoint join_slash (l : list string) : string :=
  match l with
  | [] => EmptyString
  | [x] => x
  | x :: xs => (x +:+ String slash (join_slash xs))%string
  end.

(** ** [PathBuf] *)
Definition pb_new : PathBuf := [].

(** [Vec::pop] *)
Definition pop {A} (l : list A) : list A := take (length l - 1) l.

Definition join_step (pb : PathBuf) (x : string) : PathBuf :=
  if bool_decide (x = "." ∨ x = "")%string then pb
  else if bool_decide (x = "..")%string then pop pb
  else pb ++ [x].

Definition pb_join (self : PathBuf) (path : string) : PathBuf :=
  foldl join_step (if starts_with_slash path then pb_new else self) (split_slash path).

Definition pb_from (value : string) : PathBuf := pb_join pb_new value.

Definition pb_path (self : PathBuf) : string := String slash (join_slash self).

Definition pb_filename (self : PathBuf) : string := default "/"%string (last self).

Definition pb_dir (self : PathBuf) : PathBuf := pop self.

Definition pb_levels (self : PathBuf) : nat := length self.

Definition pb_starts_with (self target : PathBuf) : bool := bool_decide (target `prefix_of` self).

Definition pb_trim_start (self target : PathBuf) : PathBuf :=
  if pb_starts_with self target then drop (length target) self else self.

(** ** Mounts *)
Section mounts.
Context {DEntryNode : Type}.

Definition MOUNTED_FS := list (PathBuf * DEntryNode).

Definition get_mounted (mounted : MOUNTED_FS) (path : PathBuf) : outcome (DEntryNode * PathBuf) :=
  finded ← unwrap (list_find (λ x, pb_starts_with path x.1) (reverse mounted));
  Val (finded.2.2, pb_trim_start path finded.2.1).

Definition mount_fs (mounted : MOUNTED_FS) (fs : DEntryNode) (path : string) : MOUNTED_FS :=
  mounted ++ [(pb_from path, fs)].

Definition umount (mounted : MOUNTED_FS) (path : PathBuf) : MOUNTED_FS * result unit :=
  (filter (λ x, x.1 ≠ path) mounted, Ok tt).
End mounts.
Arguments MOUNTED_FS : clear implicits.

(** ** Components *)
Fixpoint no_slash (s : string) : Prop :=
  match s with EmptyString => True | String c s => c ≠ slash ∧ no_slash s end.

(** A name [join] keeps: not empty, not [.] or [..], without a slash. *)
Definition component (x : string) : Prop :=
  no_slash x ∧ x ≠ ""%string ∧ x ≠ "."%string ∧ x ≠ ".."%string.

Definition path_wf (pb : PathBuf) : Prop := Forall component pb.

Lemma split_slash_nonempty s : split_slash s ≠ [].
Proof. destruct s as [|c s]; simpl; [done|]. case_bool_decide; [done|]. by destruct (split_slash s). Qed.

Lemma split_slash_no_slash s : Forall no_slash (split_slash s).
Proof.
  induction s as [|c s IH]; simpl; [by repeat constructor|].
  case_bool_decide as Hc; [by constructor|].
  destruct (split_slash s) as [|x xs]; [by repeat constructor|].
  inversion_clear IH. by constructor.
Qed.

Lemma split_slash_app_slash x s :
  no_slash x → split_slash (x +:+ String slash s)%string = x :: split_slash s.
Proof.
  induction x as [|c x IH]; simpl; [done|].
  intros [Hc Hx]. rewrite bool_decide_eq_false_2 by done. by rewrite IH.
Qed.

Lemma split_slash_single x : no_slash x → split_slash x = [x].
Proof.
  induction x as [|c x IH]; simpl; [done|].
  intros [Hc Hx]. rewrite bool_decide_eq_false_2 by done. by rewrite IH.
Qed.

(** Splitting undoes joining, for components without slashes. *)
Lemma split_join_slash l :
  l ≠ [] → Forall no_slash l → split_slash (join_slash l) = l.
Proof.
  induction l as [|x l IH]; [done|]. intros _ Hl. inversion_clear Hl as [|? ? Hx Hl'].
  destruct l as [|y l]; [by apply split_slash_single|].
  change (join_slash (x :: y :: l)) with (x +:+ String slash (join_slash (y :: l)))%string.
  rewrite split_slash_app_slash by done. f_equal. by apply IH.
Qed.

Lemma path_wf_no_slash l : path_wf l → Forall no_slash l.
Proof. intros H. eapply Forall_impl; [exact H|]. by intros x [Hx _]. Qed.

Lemma pop_wf pb : path_wf pb → path_wf (pop pb).
Proof. intros H. by apply Forall_take. Qed.

Lemma pop_snoc {A} (l : list A) x : pop (l ++ [x]) = l.
Proof. unfold pop. rewrite length_app, Nat.add_sub. by apply take_app_length. Qed.

Lemma join_step_wf pb x : path_wf pb → no_slash x → path_wf (join_step pb x).
Proof.
  intros Hpb Hx. unfold join_step. case_bool_decide as H1; [done|].
  case_bool_decide as H2; [by apply pop_wf|].
  apply Forall_app. split; [done|]. apply Forall_singleton. unfold component. naive_solver.
Qed.

Lemma join_fold_wf l : ∀ pb, path_wf pb → Forall no_slash l → path_wf (foldl join_step pb l).
Proof.
  induction l as [|x l IH]; intros pb Hpb Hl; [done|]. inversion_clear Hl.
  apply IH; [by apply join_step_wf|done].
Qed.

Lemma join_step_component pb x : component x → join_step pb x = pb ++ [x].
Proof.
  intros (_ & H1 & H2 & H3). unfold join_step. by rewrite !bool_decide_eq_false_2 by naive_solver.
Qed.

Lemma join_fold_components l : ∀ pb, path_wf l → foldl join_step pb l = pb ++ l.
Proof.
  induction l as [|x l IH]; intros pb Hl; simpl; [by rewrite app_nil_r|].
  inversion_clear Hl. rewrite join_step_component, IH by done. by rewrite <- app_assoc.
Qed.

Lemma join_slash_not_slash l : path_wf l → starts_with_slash (join_slash l) = false.
Proof.
  intros Hl. destruct Hl as [|x l (Hx & Hne & _) _]; [done|].
  destruct x as [|c x]; [done|]. destruct Hx as [Hc _].
  destruct l; simpl; by rewrite bool_decide_eq_false_2.
Qed.

(** C35: Whatever string is joined (user input, with any mixture of slashes and
    dots), the result is normalised: every component is a non-empty name
    without a slash that is neither [.] nor [..]; so no path escapes the root,
    and [..] at the root stays there. *)
Theorem pb_join_wf pb path : path_wf pb → path_wf (pb_join pb path).
Proof.
  intros Hpb. apply join_fold_wf; [by destruct starts_with_slash; [constructor|]|].
  apply split_slash_no_slash.
Qed.

Lemma pb_join_wf_witness :
  path_wf (pb_join ["a"%string] "../..//./b/c/../d"%string) ∧
  pb_join ["a"%string] "../..//./b/c/../d"%string = ["b"%string; "d"%string].
Proof.
  split; [|vm_compute; reflexivity].
  apply pb_join_wf. repeat constructor; try done; by intros [=].
Defined.

(** Printing a path and reading it back is the identity on normalised
    paths, and joining the printed form of a relative path appends it. *)
Theorem pb_path_roundtrip pb rel :
  path_wf pb → path_wf rel →
  pb_from (pb_path pb) = pb ∧ pb_join pb (join_slash rel) = pb ++ rel ∧
  (∀ self, pb_join self (pb_path pb) = pb).
Proof.
  intros Hpb Hrel.
  assert (∀ self, pb_join self (pb_path pb) = pb) as Habs.
  { intros self. unfold pb_join, pb_path.
    change (starts_with_slash (String slash (join_slash pb))) with true. cbv iota.
    change (split_slash (String slash (join_slash pb))) with (""%string :: split_slash (join_slash pb)).
    cbn [foldl]. change (join_step pb_new "") with pb_new.
    destruct (decide (pb = [])) as [->|Hne]; [done|].
    rewrite split_join_slash; [|done|by apply path_wf_no_slash].
    by apply join_fold_components. }
  split; [apply Habs|]. split; [|done].
  unfold pb_join. rewrite join_slash_not_slash by done.
  destruct (decide (rel = [])) as [->|Hne]; [by rewrite app_nil_r|].
  rewrite split_join_slash; [|done|by apply path_wf_no_slash].
  by apply join_fold_components.
Qed.

Lemma pb_path_roundtrip_witness :
  pb_path ["dev"%string; "shm"%string] = "/dev/shm"%string ∧
  pb_from (pb_path ["dev"%string; "shm"%string]) = ["dev"%string; "shm"%string].
Proof.
  split; [reflexivity|].
  apply (pb_path_roundtrip ["dev"%string; "shm"%string] ["x"%string]);
    repeat constructor; try done; by intros [=].
Defined.

(** ** Mount resolution *)
Section mount_props.
Context {DEntryNode : Type}.
Implicit Types mounted : MOUNTED_FS DEntryNode.

(** Splitting the mount list at the last mount that serves a path. *)
Lemma list_find_reverse {A} (P : A → Prop) `{∀ x, Decision (P x)} (l : list A) r :
  list_find P (reverse l) = Some r →
  ∃ l1 l2, l = l1 ++ r.2 :: l2 ∧ P r.2 ∧ Forall (λ x, ¬ P x) l2.
Proof.
  destruct r as [i x]. intros (Hi & HP & Hmin)%list_find_Some.
  apply list_elem_of_split_length in Hi as (k1 & k2 & Hk & ->).
  exists (reverse k2), (reverse k1).
  assert (l = reverse (reverse l)) as -> by by rewrite reverse_involutive.
  rewrite Hk, reverse_app, reverse_cons, <- app_assoc. split; [done|]. split; [done|].
  apply Forall_reverse, Forall_forall. intros y Hy.
  apply list_elem_of_lookup in Hy as [j Hj].
  apply (Hmin j); [|by eapply lookup_lt_Some].
  rewrite Hk. by apply lookup_app_l_Some.
Qed.

(** With a root mount in the table every path resolves, without a panic,
    to the most recent mount that is a prefix of the path and the path below
    it: mount point and remainder make up the path, and no later mount serves
    it. *)
Theorem get_mounted_spec mounted path :
  (∃ root, ([], root) ∈ mounted) →
  ∃ l1 l2 mp node rest,
    get_mounted mounted path = Val (node, rest) ∧
    mounted = l1 ++ (mp, node) :: l2 ∧ path = mp ++ rest ∧
    Forall (λ x, ¬ x.1 `prefix_of` path) l2.
Proof.
  intros [root Hroot]. unfold get_mounted.
  destruct (list_find _ _) as [r|] eqn:E.
  - apply list_find_reverse in E as (l1 & l2 & -> & HP & Hl2).
    destruct r as [i [mp node]]. simpl in *. apply bool_decide_unpack in HP as HP'.
    destruct HP' as [rest ->].
    exists l1, l2, mp, node, rest. split; [|split; [done|split; [done|]]].
    + unfold pb_trim_start. unfold pb_starts_with at 1. rewrite bool_decide_eq_true_2 by by eexists.
      by rewrite drop_app_length.
    + eapply Forall_impl; [done|]. intros x Hx Hpre. apply Hx. by apply bool_decide_pack.
  - apply list_find_None in E. rewrite Forall_forall in E. exfalso.
    apply (E ([], root)); [by apply elem_of_reverse|]. apply bool_decide_pack. simpl. apply prefix_nil.
Qed.

(** A file system mounted at a path serves that path and everything below
    it until it is unmounted; [umount] removes exactly the mounts at that
    path, so mounting on an unused path and unmounting restores the table. *)
Theorem mount_umount_roundtrip mounted fs path rest :
  (∀ m, m ∈ mounted → m.1 ≠ pb_from path) →
  get_mounted (mount_fs mounted fs path) (pb_from path ++ rest) = Val (fs, rest) ∧
  umount (mount_fs mounted fs path) (pb_from path) = (mounted, Ok tt).
Proof.
  intros Hfresh. split.
  - unfold get_mounted, mount_fs. rewrite reverse_snoc. simpl.
    rewrite decide_True by (apply bool_decide_pack; by eexists). simpl.
    unfold pb_trim_start, pb_starts_with. rewrite bool_decide_eq_true_2 by by eexists.
    by rewrite drop_app_length.
  - unfold umount, mount_fs. apply pair_equal_spec. split; [|done].
    etrans; [apply filter_app|]. rewrite (filter_none _ [_]), app_nil_r.
    + by apply filter_all.
    + intros x ->%list_elem_of_singleton. simpl. naive_solver.
Qed.
End mount_props.

(** The mounts [fs::init] makes, with the file systems as names. *)
Definition init_mounts : MOUNTED_FS string :=
  foldl (λ m x, mount_fs m x.1 x.2) []
    [("rootfs", "/"); ("devfs", "/dev"); ("ramfs1", "/tmp"); ("ramfs2", "/dev/shm");
     ("ramfs3", "/home"); ("ramfs4", "/var"); ("procfs", "/proc")]%string.

Lemma get_mounted_spec_witness :
  ∃ l1 l2 mp node rest,
    get_mounted init_mounts (pb_from "/dev/shm/x") = Val (node, rest) ∧
    init_mounts = l1 ++ (mp, node) :: l2 ∧ pb_from "/dev/shm/x" = mp ++ rest ∧
    Forall (λ x, ¬ x.1 `prefix_of` pb_from "/dev/shm/x") l2.
Proof.
  apply (get_mounted_spec init_mounts (pb_from "/dev/shm/x")).
  exists "rootfs"%string. vm_compute. left.
Defined.

Lemma mount_umount_roundtrip_witness :
  umount (mount_fs init_mounts "usb" "/mnt") (pb_from "/mnt") = (init_mounts, Ok tt).
Proof.
  apply (mount_umount_roundtrip init_mounts "usb" "/mnt" []).
  intros m Hm. vm_compute in Hm.
  repeat (apply elem_of_cons in Hm as [->|Hm]; [vm_compute; congruence|]).
  by apply elem_of_nil in Hm.
Defined.
