(* ===== verification/Vfs.v ===== *)
(** * The VFS interface ([filesystem/vfscore/src/lib.rs], futures of [fs/src/lib.rs])

    Flags, [Stat] and the [INodeInterface] trait.  An inode handle of type [H]
    lives in a store [S]; every trait method takes the store and returns the
    new one, and the trait's default methods are the fields of
    [inode_default].  The futures of blocking reads and writes are modelled by
    their [poll] function. *)

From S2P Require Import Prelude.
Local Open Scope Z_scope.

Definition intersection (flags other : Z) : Z := Z.land flags other.

(** ** [OpenFlags] *)
Definition O_RDONLY : Z := 0.
Definition O_WRONLY : Z := 1.
Definition O_RDWR : Z := 2.
Definition O_CREAT : Z := 0x40.
Definition O_EXCL : Z := 0x80.
Definition O_TRUNC : Z := 0x200.
Definition O_APPEND : Z := 0x400.
Definition O_NONBLOCK : Z := 0x800.
Definition O_DIRECTORY : Z := 0x10000.
Definition O_NOFOLLOW : Z := 0x20000.
Definition O_CLOEXEC : Z := 0x80000.

(** [OpenFlags::from_bits_truncate] *)
Definition open_flags (bits : Z) : Z := Z.land bits 0x7fffc3.

(** ** [StatMode] *)
Definition TYPE_MASK : Z := 0xF000.
Definition FIFO : Z := 0x1000.
Definition CHAR : Z := 0x2000.
Definition DIR : Z := 0x4000.
Definition BLOCK : Z := 0x6000.
Definition FILE : Z := 0x8000.
Definition LINK : Z := 0xA000.
Definition SOCKET : Z := 0xC000.
Definition OWNER_MASK : Z := 0x1c0.

(** ** [PollEvent] *)
Definition POLL_NONE : Z := 0.
Definition POLLIN : Z := 0x001.
Definition POLLOUT : Z := 0x004.
Definition POLLERR : Z := 0x008.

Definition UTIME_NOW : Z := 0x3fffffff.
Definition UTIME_OMIT : Z := 0x3ffffffe.

Inductive FileType := FT_File | FT_Directory | FT_Device | FT_Socket | FT_Link.

#[export] Instance FileType_eq_dec : EqDecision FileType.
Proof. solve_decision. Defined.

(** [From<StatMode> for FileType]; [unreachable!()] on any other type. *)
Definition file_type_from (value : Z) : outcome FileType :=
  let t := intersection value TYPE_MASK in
  if t =? SOCKET then Val FT_Socket
  else if t =? LINK then Val FT_Link
  else if t =? FILE then Val FT_File
  else if t =? BLOCK then Val FT_Device
  else if t =? DIR then Val FT_Directory
  else if t =? CHAR then Val FT_Device
  else if t =? FIFO then Val FT_Device
  else Panic.

Inductive SeekFrom := SEEK_SET (off : Z) | SEEK_CURRENT (off : Z) | SEEK_END (off : Z).

Record DirEntry := mkDirEntry {
  de_filename : string;
  de_len : Z;
  de_file_type : FileType
}.

Record TimeSpec := mkTimeSpec { ts_sec : Z; ts_nsec : Z }.

Definition timespec_to_nsec (t : TimeSpec) : Z := ts_sec t *w 1000000000 +w ts_nsec t.

Definition timespec_default : TimeSpec := mkTimeSpec 0 0.

Record Stat := mkStat {
  st_dev : Z; st_ino : Z; st_mode : Z; st_nlink : Z; st_uid : Z; st_gid : Z; st_rdev : Z;
  st_pad : Z; st_size : Z; st_blksize : Z; st_pad2 : Z; st_blocks : Z;
  st_atime : TimeSpec; st_mtime : TimeSpec; st_ctime : TimeSpec
}.

Definition stat_default : Stat :=
  mkStat 0 0 0 0 0 0 0 0 0 0 0 0 timespec_default timespec_default timespec_default.

Definition stat_set_mode (m : Z) (s : Stat) : Stat :=
  mkStat (st_dev s) (st_ino s) m (st_nlink s) (st_uid s) (st_gid s) (st_rdev s) (st_pad s)
    (st_size s) (st_blksize s) (st_pad2 s) (st_blocks s) (st_atime s) (st_mtime s) (st_ctime s).

Definition stat_set_dev (d : Z) (s : Stat) : Stat :=
  mkStat d (st_ino s) (st_mode s) (st_nlink s) (st_uid s) (st_gid s) (st_rdev s) (st_pad s)
    (st_size s) (st_blksize s) (st_pad2 s) (st_blocks s) (st_atime s) (st_mtime s) (st_ctime s).

Record StatFS := mkStatFS {
  sf_ftype : Z; sf_bsize : Z; sf_blocks : Z; sf_bfree : Z; sf_bavail : Z; sf_files : Z; sf_ffree : Z;
  sf_fsid : Z; sf_namelen : Z
}.

(** ** [INodeInterface]

    [io_readat h off n] fills a buffer of [n] bytes; its result is the prefix
    of the buffer that was written, whose length is the returned count. *)
Definition vfs (S A : Type) : Type := S → outcome (result A * S).

Record INodeOps (S H : Type) := mkINodeOps {
  io_readat : H → Z → nat → vfs S (list Z);
  io_writeat : H → Z → list Z → vfs S Z;
  io_create : H → string → FileType → vfs S unit;
  io_mkdir : H → string → vfs S unit;
  io_rmdir : H → string → vfs S unit;
  io_remove : H → string → vfs S unit;
  io_read_dir : H → vfs S (list DirEntry);
  io_lookup : H → string → vfs S H;
  io_truncate : H → Z → vfs S unit;
  io_link : H → string → H → vfs S unit;
  io_unlink : H → string → vfs S unit;
  io_stat : H → Stat → vfs S Stat;
  io_utimes : H → TimeSpec → TimeSpec → vfs S unit;
  io_poll : H → Z → vfs S Z;
  io_ioctl : H → Z → Z → vfs S Z;
  io_flush : H → vfs S unit;
  io_resolve_link : H → vfs S string;
  io_symlink : H → string → string → vfs S unit;
  io_mount : H → string → vfs S unit;
  io_umount : H → vfs S unit;
  io_statfs : H → StatFS → vfs S StatFS
}.
Arguments io_readat {S H}. Arguments io_writeat {S H}. Arguments io_create {S H}.
Arguments io_mkdir {S H}. Arguments io_rmdir {S H}. Arguments io_remove {S H}.
Arguments io_read_dir {S H}. Arguments io_lookup {S H}. Arguments io_truncate {S H}.
Arguments io_link {S H}. Arguments io_unlink {S H}. Arguments io_stat {S H}.
Arguments io_utimes {S H}. Arguments io_poll {S H}. Arguments io_ioctl {S H}. Arguments io_flush {S H}.
Arguments io_resolve_link {S H}. Arguments io_symlink {S H}. Arguments io_mount {S H}.
Arguments io_umount {S H}. Arguments io_statfs {S H}.

(** A method that fails without touching the store. *)
Definition vfs_err {S A} (e : Errno) : vfs S A := λ s, Val (Err e, s).
Definition vfs_ok {S A} (a : A) : vfs S A := λ s, Val (Ok a, s).

(** The trait's default methods. *)
Definition inode_default (S H : Type) : INodeOps S H := {|
  io_readat _ _ _ := vfs_err ENOENT;
  io_writeat _ _ _ := vfs_err ENOENT;
  io_create _ _ _ := vfs_err ENOTDIR;
  io_mkdir _ _ := vfs_err EEXIST;
  io_rmdir _ _ := vfs_err ENOENT;
  io_remove _ _ := vfs_err ENOENT;
  io_read_dir _ := vfs_err EPERM;
  io_lookup _ _ := vfs_err ENOENT;
  io_truncate _ _ := vfs_err EPERM;
  io_link _ _ _ := vfs_err EPERM;
  io_unlink _ _ := vfs_err EPERM;
  io_stat _ _ := vfs_err EPERM;
  io_utimes _ _ _ := vfs_err EPERM;
  io_poll _ _ := vfs_err EPERM;
  io_ioctl _ _ _ := vfs_err EPERM;
  io_flush _ := vfs_err EPERM;
  io_resolve_link _ := vfs_err EPERM;
  io_symlink _ _ _ := vfs_err EPERM;
  io_mount _ _ := vfs_err EPERM;
  io_umount _ := vfs_err EPERM;
  io_statfs _ _ := vfs_err EPERM
|}.

(** ** Polling

    What a poll answers in a store. *)
Definition poll_answer {S H} (ops : INodeOps S H) (h : H) (events : Z) (s : S) : result Z :=
  match io_poll ops h events s with Val (r, _) => r | Panic => Err EPERM end.

(** In the stores [I], polling an inode of [watched] answers, and does not
    change what the inodes of [watched] answer (it may change the store, as a
    terminal's poll does). *)
Definition polls_stable {S H} (ops : INodeOps S H) (watched : H → Prop) (I : S → Prop) : Prop :=
  ∀ h ev s, watched h → I s → ∃ r s', io_poll ops h ev s = Val (r, s') ∧ I s' ∧
    ∀ h' ev', watched h' → poll_answer ops h' ev' s' = poll_answer ops h' ev' s.

Lemma polls_stable_pure {S H} (ops : INodeOps S H) (watched : H → Prop) (I : S → Prop) :
  (∀ h ev s, watched h → I s → ∃ r, io_poll ops h ev s = Val (r, s)) → polls_stable ops watched I.
Proof. intros Hp h ev s Hh Hs. destruct (Hp h ev s Hh Hs) as [r E]. by exists r, s. Qed.

(** Sequencing with [?]: an [Err] ends the method. *)
Definition vfs_bind {S A B} (m : vfs S A) (f : A → vfs S B) : vfs S B := λ s,
  match m s with
  | Val (Ok a, s') => f a s'
  | Val (Err e, s') => Val (Err e, s')
  | Panic => Panic
  end.

Notation "x ←? m ; k" := (vfs_bind m (λ x, k))
  (at level 20, m at level 100, k at level 200, only parsing) : stdpp_scope.
Notation "m ;;? k" := (vfs_bind m (λ _, k))
  (at level 100, k at level 200, right associativity, only parsing) : stdpp_scope.

Lemma vfs_bind_ok {S A B} (m : vfs S A) (f : A → vfs S B) s a s' :
  m s = Val (Ok a, s') → vfs_bind m f s = f a s'.
Proof. intros E. unfold vfs_bind. by rewrite E. Qed.

Lemma vfs_bind_err {S A B} (m : vfs S A) (f : A → vfs S B) s e s' :
  m s = Val (Err e, s') → vfs_bind m f s = Val (Err e, s').
Proof. intros E. unfold vfs_bind. by rewrite E. Qed.

(** ** Blocking futures *)
Inductive Poll (A : Type) := Ready (a : A) | Pending.
Arguments Ready {A} a.
Arguments Pending {A}.

(** [WaitBlockingRead::poll] and [WaitBlockingWrite::poll]; the retry counter
    only drives a log line. *)
Definition wait_blocking_poll {S A} (op : vfs S A) (s : S) : outcome (Poll (result A) * S) :=
  match op s with
  | Val (Ok rsize, s') => Val (Ready (Ok rsize), s')
  | Val (Err err, s') =>
      if bool_decide (err = EWOULDBLOCK) then Val (Pending, s') else Val (Ready (Err err), s')
  | Panic => Panic
  end.

Definition wait_blocking_read {S H} (ops : INodeOps S H) (file : H) (offset : Z) (n : nat) :=
  wait_blocking_poll (io_readat ops file offset n).
Definition wait_blocking_write {S H} (ops : INodeOps S H) (file : H) (offset : Z) (buffer : list Z) :=
  wait_blocking_poll (io_writeat ops file offset buffer).
