(* ===== verification/Pipe.v ===== *)
(** * Pipes ([filesystem/fs/src/pipe.rs])

    A pipe is a byte queue shared by a [PipeSender] and a [PipeReceiver]; the
    receiver holds a weak reference to the sender, so it can tell whether any
    writer is left.  The store is the queue and the number of strong
    references to the sender. *)

From S2P Require Import Prelude Vfs.
Local Open Scope Z_scope.

Definition PIPE_BUFFER_SIZE : Z := 0x10000.

Record Pipe := mkPipe { pipe_queue : list Z; pipe_senders : nat }.

(** [create_pipe]: the returned sender is the only strong reference. *)
Definition create_pipe : Pipe := mkPipe [] 1.

Definition sender_writeat (buffer : list Z) : vfs Pipe Z := λ p,
  let len := Z.of_nat (length buffer) in
  if bool_decide (buffer = []) then Val (Ok 0, p)
  else if len <=? 16 then Val (Ok len, mkPipe (pipe_queue p ++ buffer) (pipe_senders p))
  else if Z.of_nat (length (pipe_queue p)) +w len <=? PIPE_BUFFER_SIZE then
    Val (Ok len, mkPipe (pipe_queue p ++ buffer) (pipe_senders p))
  else Val (Err EWOULDBLOCK, p).

Definition sender_poll (events : Z) : vfs Pipe Z := λ p,
  let res := POLL_NONE in
  let res := if contains events POLLOUT then
               if Z.of_nat (length (pipe_queue p)) <=? PIPE_BUFFER_SIZE then Z.lor res POLLOUT else res
             else res in
  Val (Ok res, p).

Definition pipe_stat (stat : Stat) : vfs Pipe Stat := vfs_ok (stat_set_mode FIFO stat).

Definition receiver_readat (n : nat) : vfs Pipe (list Z) := λ p,
  if bool_decide (n = 0%nat) then Val (Ok [], p)
  else
    let available := length (pipe_queue p) in
    if bool_decide (0 < available)%nat then
      let rlen := Nat.min available n in
      Val (Ok (take rlen (pipe_queue p)), mkPipe (drop rlen (pipe_queue p)) (pipe_senders p))
    else if bool_decide (0 < pipe_senders p)%nat then Val (Err EWOULDBLOCK, p)
    else Val (Ok [], p).

Definition receiver_poll (events : Z) : vfs Pipe Z := λ p,
  let res := POLL_NONE in
  let queue_len := length (pipe_queue p) in
  let sender_alive := bool_decide (0 < pipe_senders p)%nat in
  let res := if contains events POLLIN then
               if bool_decide (0 < queue_len)%nat then Z.lor res POLLIN
               else if negb sender_alive then Z.lor res POLLERR else res
             else res in
  let res := if contains events POLLERR then
               if bool_decide (queue_len = 0%nat) && negb sender_alive then Z.lor res POLLERR else res
             else res in
  Val (Ok res, p).

(** The two ends as inodes: the methods they override over the trait's
    defaults. *)
Inductive PipeEnd := PipeSender | PipeReceiver.

Definition pipe_ops : INodeOps Pipe PipeEnd :=
  let d := inode_default Pipe PipeEnd in {|
  io_readat h off n := match h with PipeReceiver => receiver_readat n | _ => io_readat d h off n end;
  io_writeat h off b := match h with PipeSender => sender_writeat b | _ => io_writeat d h off b end;
  io_create := io_create d; io_mkdir := io_mkdir d; io_rmdir := io_rmdir d;
  io_remove := io_remove d; io_read_dir := io_read_dir d; io_lookup := io_lookup d;
  io_truncate := io_truncate d; io_link := io_link d; io_unlink := io_unlink d;
  io_stat _ st := pipe_stat st;
  io_utimes := io_utimes d;
  io_poll h ev := match h with PipeSender => sender_poll ev | PipeReceiver => receiver_poll ev end;
  io_ioctl := io_ioctl d; io_flush := io_flush d; io_resolve_link := io_resolve_link d;
  io_symlink := io_symlink d; io_mount := io_mount d; io_umount := io_umount d; io_statfs := io_statfs d
|}.

(** ** Histories

    What the holders of the two ends can do, with the bytes accepted so far,
    the bytes delivered so far and whether end of file was reported. *)
Record PipeHistory := mkHist { h_pipe : Pipe; h_written : list Z; h_read : list Z; h_eof : bool }.

Inductive pipe_step : PipeHistory → PipeHistory → Prop :=
  | step_write p w r e off buf n p' :
      (0 < pipe_senders p)%nat →
      io_writeat pipe_ops PipeSender off buf p = Val (Ok n, p') →
      pipe_step (mkHist p w r e) (mkHist p' (w ++ take (Z.to_nat n) buf) r e)
  | step_write_err p w r e off buf err p' :
      (0 < pipe_senders p)%nat →
      io_writeat pipe_ops PipeSender off buf p = Val (Err err, p') →
      pipe_step (mkHist p w r e) (mkHist p' w r e)
  | step_read p w r e off n bs p' :
      (0 < n)%nat →
      io_readat pipe_ops PipeReceiver off n p = Val (Ok bs, p') →
      pipe_step (mkHist p w r e) (mkHist p' w (r ++ bs) (e || bool_decide (bs = [])))
  | step_read_err p w r e off n err p' :
      io_readat pipe_ops PipeReceiver off n p = Val (Err err, p') →
      pipe_step (mkHist p w r e) (mkHist p' w r e)
  | step_dup p w r e :
      (0 < pipe_senders p)%nat →
      pipe_step (mkHist p w r e) (mkHist (mkPipe (pipe_queue p) (S (pipe_senders p))) w r e)
  | step_close p w r e :
      (0 < pipe_senders p)%nat →
      pipe_step (mkHist p w r e) (mkHist (mkPipe (pipe_queue p) (pipe_senders p - 1)) w r e).

Definition pipe_init : PipeHistory := mkHist create_pipe [] [] false.

(** ** One operation *)
Lemma sender_writeat_cases buf p :
  let full := (16 <? Z.of_nat (length buf)) &&
    (PIPE_BUFFER_SIZE <? Z.of_nat (length (pipe_queue p)) +w Z.of_nat (length buf)) in
  sender_writeat buf p =
    if full then Val (Err EWOULDBLOCK, p)
    else Val (Ok (Z.of_nat (length buf)), mkPipe (pipe_queue p ++ buf) (pipe_senders p)).
Proof.
  cbv zeta. unfold sender_writeat. case_bool_decide as Hb.
  { subst. rewrite app_nil_r. by destruct p. }
  rewrite !Z.ltb_antisym. destruct (_ <=? 16); [done|]. by destruct (_ <=? PIPE_BUFFER_SIZE).
Qed.

Lemma receiver_readat_spec n p :
  (0 < n)%nat →
  match receiver_readat n p with
  | Val (Ok bs, p') =>
      pipe_queue p = bs ++ pipe_queue p' ∧ pipe_senders p' = pipe_senders p ∧
      length bs = Nat.min n (length (pipe_queue p)) ∧ (bs = [] → pipe_senders p = 0%nat)
  | Val (Err e, p') => e = EWOULDBLOCK ∧ p' = p ∧ pipe_queue p = [] ∧ (0 < pipe_senders p)%nat
  | Panic => False
  end.
Proof.
  intros Hn. unfold receiver_readat. rewrite bool_decide_eq_false_2 by lia.
  case_bool_decide as Ha.
  - simpl. rewrite take_drop. split; [done|]. split; [done|].
    rewrite length_take. split; [lia|]. intros E.
    apply (f_equal length) in E. rewrite length_take in E. simpl in E. lia.
  - assert (pipe_queue p = []) as Hq by (destruct (pipe_queue p); simpl in *; [done|lia]).
    case_bool_decide; rewrite Hq; repeat split; try done; [simpl; lia|intros _; lia].
Qed.

Lemma take_min_length {A} (l : list A) n : take (Nat.min (length l) n) l = take n l.
Proof.
  destruct (decide (n ≤ length l)%nat); [by rewrite Nat.min_r|].
  by rewrite Nat.min_l, !take_ge by lia.
Qed.

Lemma drop_min_length {A} (l : list A) n : drop (Nat.min (length l) n) l = drop n l.
Proof.
  destruct (decide (n ≤ length l)%nat); [by rewrite Nat.min_r|].
  by rewrite Nat.min_l, !drop_ge by lia.
Qed.

Definition pipe_inv (h : PipeHistory) : Prop :=
  h_written h = h_read h ++ pipe_queue (h_pipe h) ∧
  (h_eof h = true → pipe_senders (h_pipe h) = 0%nat ∧ pipe_queue (h_pipe h) = []).

Lemma take_length_written buf : take (Z.to_nat (Z.of_nat (length buf))) buf = (buf : list Z).
Proof. rewrite Nat2Z.id. by apply firstn_all. Qed.

Lemma pipe_step_inv h h' : pipe_step h h' → pipe_inv h → pipe_inv h'.
Proof.
  destruct 1 as [p w r e off buf n p' Hs Hop|p w r e off buf err p' Hs Hop
    |p w r e off n bs p' Hn Hop|p w r e off n err p' Hop|p w r e Hs|p w r e Hs];
    intros [H1 H2]; simpl in *.
  - rewrite sender_writeat_cases in Hop. destruct (_ && _); simplify_eq.
    rewrite take_length_written. split; simpl; [by rewrite app_assoc|].
    intros He. destruct (H2 He). lia.
  - rewrite sender_writeat_cases in Hop. by destruct (_ && _); simplify_eq.
  - pose proof (receiver_readat_spec n p Hn) as Hr. rewrite Hop in Hr.
    destruct Hr as (Hq & Hsend & Hlen & Hnil). split; simpl; [by rewrite H1, Hq, app_assoc|].
    intros [He|He]%orb_true_iff.
    + destruct (H2 He) as [? E]. rewrite Hq in E. apply app_eq_nil in E as [_ ?]. by rewrite Hsend.
    + apply bool_decide_eq_true in He. subst bs. rewrite Hsend, <- (app_nil_l (pipe_queue p')), <- Hq.
      split; [by apply Hnil|]. simpl in Hlen. destruct (pipe_queue p); [done|simpl in Hlen; lia].
  - destruct (decide (n = 0%nat)) as [->|Hn]; [done|].
    pose proof (receiver_readat_spec n p ltac:(lia)) as Hr. rewrite Hop in Hr.
    by destruct Hr as (_ & -> & _).
  - split; simpl; [done|]. intros He. destruct (H2 He). lia.
  - split; simpl; [done|]. intros He. destruct (H2 He). lia.
Qed.

(** C23: Over every history of writes, reads, duplicated and closed write ends,
    the bytes delivered to the reader followed by the bytes still queued are
    exactly the bytes accepted from the writers, in order; so nothing is lost,
    duplicated or reordered.  End of file (a read that returns no bytes) is
    reported only after every write end is closed and every byte was read. *)
Theorem pipe_stream_integrity h :
  rtc pipe_step pipe_init h →
  h_written h = h_read h ++ pipe_queue (h_pipe h) ∧
  (h_eof h = true → pipe_senders (h_pipe h) = 0%nat ∧ h_read h = h_written h).
Proof.
  intros Hrtc. enough (pipe_inv h) as [H1 H2].
  { split; [done|]. intros He. destruct (H2 He) as [-> Hq]. by rewrite H1, Hq, app_nil_r. }
  revert h Hrtc. apply (rtc_ind_r pipe_inv); [done|].
  intros h1 h2 _ Hstep IH. by eapply pipe_step_inv.
Qed.

(** Write three bytes, close, read two, read one, read end of file. *)
Lemma pipe_stream_integrity_witness :
  ∃ h, rtc pipe_step pipe_init h ∧ h_eof h = true ∧ h_read h = [1; 2; 3] ∧
       h_written h = h_read h ++ pipe_queue (h_pipe h).
Proof.
  assert (rtc pipe_step pipe_init (mkHist (mkPipe [] 0) [1; 2; 3] [1; 2; 3] true)) as H.
  { eapply rtc_l; [apply (step_write _ _ _ _ 0 [1; 2; 3] 3); [simpl; lia|reflexivity]|].
    eapply rtc_l; [apply step_close; simpl; lia|].
    eapply rtc_l; [apply (step_read _ _ _ _ 0 2); [lia|reflexivity]|].
    eapply rtc_l; [apply (step_read _ _ _ _ 0 2); [lia|reflexivity]|].
    eapply rtc_l; [apply (step_read _ _ _ _ 0 2); [lia|reflexivity]|].
    apply rtc_refl. }
  eexists. split; [exact H|]. split; [reflexivity|]. split; [reflexivity|].
  exact (proj1 (pipe_stream_integrity _ H)).
Defined.

(** What one operation on a pipe does, on every branch.  A write is all or
    nothing: up to 16 bytes are always queued, more are queued if they fit the
    64 KiB buffer and otherwise refused with EWOULDBLOCK without a change.  A
    read takes as many bytes as are there (at most the buffer), blocks on an
    empty pipe with a writer and reports end of file without one.  [poll]
    agrees: it reports POLLIN exactly when a read would return data, and
    POLLERR exactly at end of file; the other end's methods fail with the
    trait's default error. *)
Theorem pipe_operations off buf n p :
  Z.of_nat (length (pipe_queue p)) + Z.of_nat (length buf) < MAX64 → (0 < n)%nat →
  io_writeat pipe_ops PipeSender off buf p =
    (if bool_decide (Z.of_nat (length buf) ≤ 16 ∨
         Z.of_nat (length (pipe_queue p ++ buf)) ≤ PIPE_BUFFER_SIZE)
     then Val (Ok (Z.of_nat (length buf)), mkPipe (pipe_queue p ++ buf) (pipe_senders p))
     else Val (Err EWOULDBLOCK, p)) ∧
  io_readat pipe_ops PipeReceiver off n p =
    (if bool_decide (pipe_queue p = [] ∧ pipe_senders p ≠ 0%nat) then Val (Err EWOULDBLOCK, p)
     else Val (Ok (take n (pipe_queue p)), mkPipe (drop n (pipe_queue p)) (pipe_senders p))) ∧
  io_poll pipe_ops PipeReceiver POLLIN p =
    Val (Ok (if bool_decide (pipe_queue p ≠ []) then POLLIN
             else if bool_decide (pipe_senders p = 0%nat) then POLLERR else POLL_NONE), p) ∧
  io_readat pipe_ops PipeSender off n p = Val (Err ENOENT, p) ∧
  io_writeat pipe_ops PipeReceiver off buf p = Val (Err ENOENT, p).
Proof.
  intros Hw Hn. split; [|split; [|split; [|done]]]; simpl.
  - rewrite sender_writeat_cases, wadd_small by word_lia. rewrite length_app.
    destruct (Z.ltb_spec 16 (Z.of_nat (length buf))); simpl; [|by rewrite bool_decide_eq_true_2 by lia].
    destruct (Z.ltb_spec PIPE_BUFFER_SIZE (Z.of_nat (length (pipe_queue p)) + Z.of_nat (length buf)));
      [rewrite bool_decide_eq_false_2 by lia|rewrite bool_decide_eq_true_2 by lia]; done.
  - unfold receiver_readat. rewrite bool_decide_eq_false_2 by lia.
    rewrite take_min_length, drop_min_length.
    destruct p as [[|b q] k]; cbn [pipe_queue pipe_senders length].
    + rewrite bool_decide_eq_false_2 by lia. rewrite take_nil, drop_nil.
      by destruct k.
    + rewrite bool_decide_eq_true_2 by lia. by rewrite bool_decide_eq_false_2 by naive_solver.
  - unfold receiver_poll. destruct p as [[|b q] [|k]]; done.
Qed.

Lemma pipe_operations_witness :
  io_writeat pipe_ops PipeSender 0 [7; 8] create_pipe = Val (Ok 2, mkPipe [7; 8] 1) ∧
  io_readat pipe_ops PipeReceiver 0 4 create_pipe = Val (Err EWOULDBLOCK, create_pipe).
Proof.
  destruct (pipe_operations 0 [7; 8] 4 create_pipe) as (H1 & H2 & _);
    [vm_compute; reflexivity|lia|]. split; [exact H1|exact H2].
Defined.

(** A poll of a pipe changes nothing. *)
Lemma pipe_polls_stable : polls_stable pipe_ops (λ _, True) (λ _, True).
Proof. apply polls_stable_pure. intros [] ev p _ _; by eexists. Qed.
