(* ===== verification/RamFs.v ===== *)
(** * The RAM file system ([filesystem/ramfs/src/lib.rs])

    A file keeps its length and the list of the frames that hold its bytes; a
    directory keeps the list of its children; a link keeps the inode it stands
    for.  Inodes that are shared by reference ([Arc]) and mutable live in a
    store and are named by a number.  Frames come from any [FrameSource]; the
    contents of memory are a map from frame addresses to pages.

    Loops that are not structural take fuel; running out of it counts as a
    panic, so a theorem that gives a [Val] result also shows termination. *)

From S2P Require Import Prelude Frame Vfs Bytes.
Local Open Scope Z_scope.

Record RamFileInner := mkRamFile {
  rf_name : string;
  rf_len : Z;
  rf_pages : list Z;
  rf_times : TimeSpec * TimeSpec * TimeSpec   (* ctime, atime, mtime *)
}.

(** [FileContainer] and the inode types made from it ([RamFile], [RamDir],
    [RamLink]): a link holds the linked inode itself. *)
Inductive RamNode :=
  | NFile (id : nat)
  | NDir (id : nat)
  | NLink (name : string) (link_file : RamNode).

Record RamDirInner := mkRamDir { rd_name : string; rd_children : list RamNode }.

Section ramfs.
Context {A : Type} `{FrameSource A}.

Record RamStore := mkRam {
  rs_alloc : A;
  rs_ram : gmap Z (list Z);
  rs_files : gmap nat RamFileInner;
  rs_dirs : gmap nat RamDirInner;
  rs_next : nat
}.

(** The [PAGE_SIZE] bytes of a frame. *)
Definition page_bytes (ram : gmap Z (list Z)) (p : Z) : list Z := default [] (ram !! p).

(** ** [RamFile::readat] *)
Fixpoint read_loop (fuel : nat) (offset last_len : Z) (pages : list Z) (ram : gmap Z (list Z))
  : outcome (list Z) :=
  match fuel with
  | O => Panic
  | S fuel =>
      let curr_size := Z.min (PAGE_SIZE - offset mod PAGE_SIZE) last_len in
      if curr_size =? 0 then Val []
      else
        let index := offset / PAGE_SIZE in
        p ← unwrap (pages !! Z.to_nat index);
        rest ← read_loop fuel (offset +w curr_size) (last_len -w curr_size) pages ram;
        Val (take (Z.to_nat curr_size) (drop (Z.to_nat (offset mod PAGE_SIZE)) (page_bytes ram p)) ++ rest)
  end.

Definition rf_readat (f : RamFileInner) (ram : gmap Z (list Z)) (offset : Z) (n : nat)
  : outcome (list Z) :=
  let file_size := rf_len f in
  if file_size <=? offset then Val []
  else
    let read_len := Z.min (Z.of_nat n) (file_size -w offset) in
    read_loop (S (Z.to_nat read_len)) offset read_len (rf_pages f) ram.

(** ** [RamFile::writeat] *)
(** The loop that allocates [n] further pages; it stops at the first failure,
    with an error if nothing was allocated before. *)
Fixpoint alloc_pages (n : nat) (allocated_pages : nat) (al : A) (pages : list Z)
  : outcome (result unit * list Z * A) :=
  match n with
  | O => Val (Ok tt, pages, al)
  | S n =>
      '(r, al') ← fs_alloc al;
      match r with
      | Some frame => alloc_pages n (S allocated_pages) al' (pages ++ [frame])
      | None => if bool_decide (0 < allocated_pages)%nat then Val (Ok tt, pages, al')
                else Val (Err ENOMEM, pages, al')
      end
  end.

Fixpoint write_loop (fuel : nat) (write_offset wsize : Z) (buffer : list Z) (pages : list Z)
    (ram : gmap Z (list Z)) : outcome (Z * gmap Z (list Z)) :=
  match fuel with
  | O => Panic
  | S fuel =>
      let curr_size := Z.min (PAGE_SIZE - write_offset mod PAGE_SIZE) wsize in
      if curr_size =? 0 then Val (write_offset, ram)
      else
        let index := write_offset / PAGE_SIZE in
        if Z.of_nat (length pages) <=? index then Val (write_offset, ram)
        else
          p ← unwrap (pages !! Z.to_nat index);
          let page := splice (Z.to_nat (write_offset mod PAGE_SIZE))
                        (take (Z.to_nat curr_size) buffer) (page_bytes ram p) in
          write_loop fuel (write_offset +w curr_size) (wsize -w curr_size)
            (drop (Z.to_nat curr_size) buffer) pages (<[p := page]> ram)
  end.

Definition rf_set_pages (f : RamFileInner) (pages : list Z) : RamFileInner :=
  mkRamFile (rf_name f) (rf_len f) pages (rf_times f).
Definition rf_set_len (f : RamFileInner) (len : Z) : RamFileInner :=
  mkRamFile (rf_name f) len (rf_pages f) (rf_times f).

Definition rf_writeat (f : RamFileInner) (al : A) (ram : gmap Z (list Z)) (offset : Z)
    (buffer : list Z) : outcome (result Z * RamFileInner * A * gmap Z (list Z)) :=
  let len := Z.of_nat (length buffer) in
  let pages := div_ceil (offset +w len) PAGE_SIZE in
  '(r, inner, al') ← alloc_pages (Z.to_nat (pages - Z.of_nat (length (rf_pages f)))) 0 al (rf_pages f);
  let f := rf_set_pages f inner in
  match r with
  | Err e => Val (Err e, f, al', ram)
  | Ok _ =>
      let available_space := Z.of_nat (length inner) *w PAGE_SIZE in
      let max_writable := if offset <? available_space then available_space -w offset else 0 in
      let actual_write_size := Z.min len max_writable in
      '(write_offset, ram') ← write_loop (S (Z.to_nat actual_write_size)) offset actual_write_size
                                buffer inner ram;
      let f := if rf_len f <? write_offset then rf_set_len f write_offset else f in
      Val (Ok actual_write_size, f, al', ram')
  end.

(** ** [RamFile::truncate] *)
(** [for _ in pages..target_pages { push(frame_alloc) }] *)
Fixpoint push_pages (n : nat) (al : A) (pages : list Z) : outcome (result unit * list Z * A) :=
  match n with
  | O => Val (Ok tt, pages, al)
  | S n =>
      '(r, al') ← fs_alloc al;
      match r with
      | Some frame => push_pages n al' (pages ++ [frame])
      | None => Val (Err ENOMEM, pages, al')
      end
  end.

(** The two clearing steps: the pages beyond the target, then the rest of the
    page the new end falls into. *)
Definition truncate_clear (pages : list Z) (ram : gmap Z (list Z)) (size : Z) : gmap Z (list Z) :=
  let target_pages := div_ceil size PAGE_SIZE in
  let ram := foldl (λ ram p, <[p := zero_page]> ram) ram (drop (Z.to_nat target_pages) pages) in
  if negb (size mod PAGE_SIZE =? 0) then
    let offset := size mod PAGE_SIZE in
    match pages !! Z.to_nat (size / PAGE_SIZE) with
    | Some p => <[p := splice (Z.to_nat offset) (replicate (Z.to_nat (PAGE_SIZE - offset)) 0)
                         (page_bytes ram p)]> ram
    | None => ram
    end
  else ram.

Definition rf_truncate (f : RamFileInner) (al : A) (ram : gmap Z (list Z)) (size : Z)
  : outcome (result unit * RamFileInner * A * gmap Z (list Z)) :=
  let f := rf_set_len f size in
  let target_pages := div_ceil size PAGE_SIZE in
  let ram := truncate_clear (rf_pages f) ram size in
  '(r, inner, al') ← push_pages (Z.to_nat (target_pages - Z.of_nat (length (rf_pages f)))) al (rf_pages f);
  Val (r, rf_set_pages f inner, al', ram).

(** ** Store access *)
Definition set_file (id : nat) (f : RamFileInner) (s : RamStore) : RamStore :=
  mkRam (rs_alloc s) (rs_ram s) (<[id := f]> (rs_files s)) (rs_dirs s) (rs_next s).
Definition set_dir (id : nat) (d : RamDirInner) (s : RamStore) : RamStore :=
  mkRam (rs_alloc s) (rs_ram s) (rs_files s) (<[id := d]> (rs_dirs s)) (rs_next s).
Definition set_children (id : nat) (ch : list RamNode) (s : RamStore) : RamStore :=
  match rs_dirs s !! id with
  | Some d => set_dir id (mkRamDir (rd_name d) ch) s
  | None => s
  end.
Definition bump (s : RamStore) : RamStore :=
  mkRam (rs_alloc s) (rs_ram s) (rs_files s) (rs_dirs s) (S (rs_next s)).

(** [RamFs::new]: an empty root directory. *)
Definition ramfs_new (al : A) (ram : gmap Z (list Z)) : RamStore :=
  mkRam al ram ∅ {[ 0%nat := mkRamDir "" [] ]} 1.
Definition ramfs_root : RamNode := NDir 0.

(** [FileContainer::filename] *)
Definition node_name (s : RamStore) (c : RamNode) : option string :=
  match c with
  | NFile id => rf_name <$> rs_files s !! id
  | NDir id => rd_name <$> rs_dirs s !! id
  | NLink name _ => Some name
  end.

Definition children (s : RamStore) (id : nat) : list RamNode :=
  default [] (rd_children <$> rs_dirs s !! id).

Definition find_child (s : RamStore) (id : nat) (name : string) : option RamNode :=
  snd <$> list_find (λ c, node_name s c = Some name) (children s id).

(** ** [RamDir] *)
Definition rd_mkdir (id : nat) (name : string) : vfs RamStore unit := λ s,
  match find_child s id name with
  | Some _ => Val (Err EEXIST, s)
  | None =>
      let new := rs_next s in
      let s1 := bump (set_dir new (mkRamDir name []) s) in
      Val (Ok tt, set_children id (children s id ++ [NDir new]) s1)
  end.

Definition rd_lookup (id : nat) (name : string) : vfs RamStore RamNode := λ s,
  match find_child s id name with
  | Some c => Val (Ok c, s)
  | None => Val (Err ENOENT, s)
  end.

Definition ram_file_new (name : string) : RamFileInner :=
  mkRamFile name 0 [] (timespec_default, timespec_default, timespec_default).

(** [unimplemented!] for every type but directories and files. *)
Definition rd_create (id : nat) (name : string) (ty : FileType) : vfs RamStore unit := λ s,
  let new := rs_next s in
  if bool_decide (ty = FT_Directory) then
    let s1 := bump (set_dir new (mkRamDir name []) s) in
    Val (Ok tt, set_children id (children s id ++ [NDir new]) s1)
  else if bool_decide (ty = FT_File) then
    let s1 := bump (set_file new (ram_file_new name) s) in
    Val (Ok tt, set_children id (children s id ++ [NFile new]) s1)
  else Panic.

(** [extract_if(pred).count()], then [ENOENT] when nothing was extracted. *)
Definition rd_extract (id : nat) (pred : RamNode → Prop) `{∀ c, Decision (pred c)}
  : vfs RamStore unit := λ s,
  let ch := children s id in
  let s' := set_children id (filter (λ c, ¬ pred c) ch) s in
  if bool_decide (0 < length (filter pred ch))%nat then Val (Ok tt, s') else Val (Err ENOENT, s').

Definition is_dir_named (s : RamStore) (name : string) (c : RamNode) : Prop :=
  match c with NDir _ => node_name s c = Some name | _ => False end.
Definition is_file_named (s : RamStore) (name : string) (c : RamNode) : Prop :=
  match c with NDir _ => False | _ => node_name s c = Some name end.
#[export] Instance is_dir_named_dec s name c : Decision (is_dir_named s name c).
Proof. destruct c; simpl; apply _. Defined.
#[export] Instance is_file_named_dec s name c : Decision (is_file_named s name c).
Proof. destruct c; simpl; apply _. Defined.

Definition rd_rmdir (id : nat) (name : string) : vfs RamStore unit := λ s,
  rd_extract id (is_dir_named s name) s.

Definition rd_remove (id : nat) (name : string) : vfs RamStore unit := λ s,
  rd_extract id (is_file_named s name) s.

Definition rd_entry (s : RamStore) (c : RamNode) : option DirEntry :=
  match c with
  | NFile id => (λ f, mkDirEntry (rf_name f) (rf_len f) FT_File) <$> rs_files s !! id
  | NDir id => (λ d, mkDirEntry (rd_name d) 0 FT_Directory) <$> rs_dirs s !! id
  | NLink name _ => Some (mkDirEntry name 0 FT_Link)
  end.

Definition rd_read_dir (id : nat) : vfs RamStore (list DirEntry) := λ s,
  Val (Ok (omap (rd_entry s) (children s id)), s).

Definition rd_link (id : nat) (name : string) (src : RamNode) : vfs RamStore unit := λ s,
  match find_child s id name with
  | Some _ => Val (Err EEXIST, s)
  | None => Val (Ok tt, set_children id (children s id ++ [NLink name src]) s)
  end.

Definition rd_stat (stat : Stat) : vfs RamStore Stat :=
  vfs_ok (mkStat (st_dev stat) 1 DIR 1 0 0 0 (st_pad stat) 0 512 (st_pad2 stat) 0
            timespec_default timespec_default timespec_default).

(** ** [RamFile] and [RamLink] as inodes *)
(** [str::ends_with(".s")] *)
Definition ends_with_s (name : string) : bool :=
  bool_decide (String.substring (String.length name - 2) 2 name = ".s"%string).

Definition rf_stat (f : RamFileInner) (stat : Stat) : Stat :=
  let '(_, atime, mtime) := rf_times f in
  mkStat (st_dev stat) (if ends_with_s (rf_name f) then 2 else 1) FILE 1 0 0 0 (st_pad stat)
    (rf_len f) 512 (st_pad2 stat) 0 atime mtime (st_ctime stat).

Definition rf_utimes (f : RamFileInner) (t0 t1 : TimeSpec) : RamFileInner :=
  let '(ctime, atime, mtime) := rf_times f in
  let atime := if negb (ts_nsec t0 =? UTIME_OMIT) then t0 else atime in
  let mtime := if negb (ts_nsec t1 =? UTIME_OMIT) then t1 else mtime in
  mkRamFile (rf_name f) (rf_len f) (rf_pages f) (ctime, atime, mtime).

(** Run a method of the file [id]. *)
Definition on_file {B} (id : nat) (m : RamFileInner → vfs RamStore B) : vfs RamStore B := λ s,
  f ← unwrap (rs_files s !! id); m f s.

Fixpoint node_readat (h : RamNode) (off : Z) (n : nat) : vfs RamStore (list Z) :=
  match h with
  | NFile id => on_file id (λ f s, bs ← rf_readat f (rs_ram s) off n; Val (Ok bs, s))
  | NDir _ => vfs_err ENOENT
  | NLink _ l => node_readat l off n
  end.

Fixpoint node_writeat (h : RamNode) (off : Z) (buf : list Z) : vfs RamStore Z :=
  match h with
  | NFile id => on_file id (λ f s,
      '(r, f', al', ram') ← rf_writeat f (rs_alloc s) (rs_ram s) off buf;
      Val (r, set_file id f' (mkRam al' ram' (rs_files s) (rs_dirs s) (rs_next s))))
  | NDir _ => vfs_err ENOENT
  | NLink _ l => node_writeat l off buf
  end.

Fixpoint node_truncate (h : RamNode) (size : Z) : vfs RamStore unit :=
  match h with
  | NFile id => on_file id (λ f s,
      '(r, f', al', ram') ← rf_truncate f (rs_alloc s) (rs_ram s) size;
      Val (r, set_file id f' (mkRam al' ram' (rs_files s) (rs_dirs s) (rs_next s))))
  | NDir _ => vfs_err EPERM
  | NLink _ l => node_truncate l size
  end.

(** The methods of the three inode types; [addr] is the address [RamLink]
    reports as its inode number. *)
Definition ramfs_ops (addr : Z) : INodeOps RamStore RamNode :=
  let d := inode_default RamStore RamNode in {|
  io_readat := node_readat;
  io_writeat := node_writeat;
  io_create h name ty := match h with NDir id => rd_create id name ty | _ => io_create d h name ty end;
  io_mkdir h name := match h with NDir id => rd_mkdir id name | _ => io_mkdir d h name end;
  io_rmdir h name := match h with NDir id => rd_rmdir id name | _ => io_rmdir d h name end;
  io_remove h name := match h with NDir id => rd_remove id name | _ => io_remove d h name end;
  io_read_dir h := match h with NDir id => rd_read_dir id | _ => io_read_dir d h end;
  io_lookup h name := match h with NDir id => rd_lookup id name | _ => io_lookup d h name end;
  io_truncate := node_truncate;
  io_link h name src := match h with NDir id => rd_link id name src | _ => io_link d h name src end;
  io_unlink h name := match h with NDir id => rd_remove id name | _ => io_unlink d h name end;
  io_stat h stat := match h with
    | NDir _ => rd_stat stat
    | NFile id => on_file id (λ f, vfs_ok (rf_stat f stat))
    | NLink _ _ => vfs_ok (mkStat (st_dev stat) addr LINK (st_nlink stat) 0 0 (st_rdev stat) (st_pad stat)
                     3 4096 (st_pad2 stat) 8 (st_atime stat) (st_mtime stat) (st_ctime stat))
    end;
  io_utimes h t0 t1 := match h with
    | NFile id => on_file id (λ f s, Val (Ok tt, set_file id (rf_utimes f t0 t1) s))
    | _ => io_utimes d h t0 t1
    end;
  io_poll := io_poll d;
  io_ioctl := io_ioctl d; io_flush := io_flush d; io_resolve_link := io_resolve_link d;
  io_symlink := io_symlink d; io_mount := io_mount d; io_umount := io_umount d; io_statfs := io_statfs d
|}.

(** ** The contents of a file *)
Notation PG := (Z.to_nat PAGE_SIZE).

Definition raw (ram : gmap Z (list Z)) (pages : list Z) : list Z := concat (page_bytes ram <$> pages).

(** The bytes a reader sees. *)
Definition file_data (f : RamFileInner) (ram : gmap Z (list Z)) : list Z :=
  take (Z.to_nat (rf_len f)) (raw ram (rf_pages f)).

Definition capacity (f : RamFileInner) : Z := Z.of_nat (length (rf_pages f)) * PAGE_SIZE.

(** The invariant of a file: its pages are distinct, allocated and complete,
    they hold all its bytes, and the bytes beyond the length are zero; free
    frames read as zero. *)
Record file_ok (f : RamFileInner) (al : A) (ram : gmap Z (list Z)) : Prop := {
  fo_alloc : fs_inv al;
  fo_clean : ∀ p, p ∈ fs_free al → ram !! p = Some zero_page;
  fo_nodup : NoDup (rf_pages f);
  fo_owned : ∀ p, p ∈ rf_pages f → p ∉ fs_free al;
  fo_paged : paged PG (page_bytes ram <$> rf_pages f);
  fo_len : 0 ≤ rf_len f ≤ capacity f;
  fo_space : capacity f < MAX64;
  fo_tail : drop (Z.to_nat (rf_len f)) (raw ram (rf_pages f)) =
            replicate (Z.to_nat (capacity f - rf_len f)) 0
}.

(** ** Arithmetic of pages *)
Ltac page_lia :=
  unfold capacity, word64, usize_max, MAX64, PAGE_SIZE in *;
  Z.to_euclidean_division_equations; lia.

Lemma off_split off :
  0 ≤ off →
  Z.to_nat off = (Z.to_nat (off / PAGE_SIZE) * PG + Z.to_nat (off mod PAGE_SIZE))%nat.
Proof. intros. page_lia. Qed.

Lemma length_raw ram pages :
  paged PG (page_bytes ram <$> pages) → length (raw ram pages) = (length pages * PG)%nat.
Proof. intros Hp. unfold raw. rewrite (length_concat_paged PG) by done. by rewrite length_fmap. Qed.

Lemma lookup_page_bytes ram (pages : list Z) (i : nat) p :
  pages !! i = Some p → (page_bytes ram <$> pages) !! i = Some (page_bytes ram p).
Proof. intros Hi. by rewrite list_lookup_fmap, Hi. Qed.

(** ** Reading *)
Lemma read_loop_spec fuel : ∀ off n pages ram,
  paged PG (page_bytes ram <$> pages) → 0 ≤ off → 0 ≤ n →
  off + n ≤ Z.of_nat (length pages) * PAGE_SIZE → off + n < MAX64 → (Z.to_nat n < fuel)%nat →
  read_loop fuel off n pages ram = Val (take (Z.to_nat n) (drop (Z.to_nat off) (raw ram pages))).
Proof.
  induction fuel as [|fuel IH]; intros off n pages ram Hp Hoff Hn Hcap Hw Hf; [lia|].
  cbn [read_loop]. set (curr := Z.min _ _).
  assert (0 ≤ off mod PAGE_SIZE < PAGE_SIZE) as Hmod by page_lia.
  destruct (Z.eqb_spec curr 0) as [Hz|Hz].
  { replace n with 0 by lia. done. }
  destruct (lookup_lt_is_Some_2 pages (Z.to_nat (off / PAGE_SIZE))) as [p Hpi]; [page_lia|].
  rewrite Hpi. cbn [unwrap mbind outcome_bind]. no_wrap.
  rewrite IH; [|done|lia..]. cbn [mbind outcome_bind]. f_equal.
  rewrite <- (page_slice PG (page_bytes ram <$> pages) (Z.to_nat (off / PAGE_SIZE)));
    [|done|by apply lookup_page_bytes|lia].
  rewrite <- off_split by done. fold (raw ram pages).
  replace (Z.to_nat (off + curr)) with (Z.to_nat off + Z.to_nat curr)%nat by lia.
  replace (Z.to_nat n) with (Z.to_nat curr + Z.to_nat (n - curr))%nat by lia.
  rewrite <- drop_drop. apply take_take_drop.
Qed.

(** ** Writing *)
Lemma page_update ram (pages : list Z) (i : nat) p x :
  NoDup pages → pages !! i = Some p →
  page_bytes (<[p := x]> ram) <$> pages = <[i := x]> (page_bytes ram <$> pages).
Proof.
  intros Hnd Hi. apply list_eq. intros j. rewrite list_lookup_fmap.
  destruct (decide (i = j)) as [<-|Hne].
  - rewrite Hi. rewrite list_lookup_insert_eq by (rewrite length_fmap; by eapply lookup_lt_Some).
    simpl. unfold page_bytes. by rewrite lookup_insert_eq.
  - rewrite list_lookup_insert_ne, list_lookup_fmap by done.
    destruct (pages !! j) as [q|] eqn:Hj; [|done]. simpl. f_equal. unfold page_bytes.
    rewrite lookup_insert_ne; [done|]. intros <-. by destruct Hne; eapply NoDup_lookup.
Qed.

Lemma write_loop_spec fuel : ∀ off n buf pages ram,
  paged PG (page_bytes ram <$> pages) → NoDup pages → 0 ≤ off → 0 ≤ n ≤ Z.of_nat (length buf) →
  off + n ≤ Z.of_nat (length pages) * PAGE_SIZE → off + n < MAX64 → (Z.to_nat n < fuel)%nat →
  ∃ ram', write_loop fuel off n buf pages ram = Val (off + n, ram') ∧
    raw ram' pages = splice (Z.to_nat off) (take (Z.to_nat n) buf) (raw ram pages) ∧
    paged PG (page_bytes ram' <$> pages) ∧ (∀ p, p ∉ pages → ram' !! p = ram !! p).
Proof.
  induction fuel as [|fuel IH]; intros off n buf pages ram Hp Hnd Hoff Hn Hcap Hw Hf; [lia|].
  cbn [write_loop]. set (curr := Z.min _ _).
  assert (0 ≤ off mod PAGE_SIZE < PAGE_SIZE) as Hmod by page_lia.
  destruct (Z.eqb_spec curr 0) as [Hz|Hz].
  { replace n with 0 by lia. exists ram. rewrite Z.add_0_r. split_and!; try done.
    change (Z.to_nat 0) with 0%nat. by rewrite take_0, splice_nil. }
  destruct (Z.leb_spec (Z.of_nat (length pages)) (off / PAGE_SIZE)); [page_lia|].
  destruct (lookup_lt_is_Some_2 pages (Z.to_nat (off / PAGE_SIZE))) as [p Hpi]; [page_lia|].
  rewrite Hpi. cbn [unwrap mbind outcome_bind]. no_wrap.
  set (bs := take (Z.to_nat curr) buf).
  assert (length bs = Z.to_nat curr) as Hbs by (unfold bs; rewrite length_take; lia).
  set (page := splice _ _ _). set (ram1 := <[p := page]> ram).
  assert (page_bytes ram1 <$> pages = <[Z.to_nat (off / PAGE_SIZE) := page]> (page_bytes ram <$> pages))
    as Hupd by by apply page_update.
  assert (length (page_bytes ram p) = PG) as Hlp.
  { eapply Forall_lookup_1 in Hp; [|by apply lookup_page_bytes]. done. }
  assert (raw ram1 pages = splice (Z.to_nat off) bs (raw ram pages)) as Hraw.
  { unfold raw. rewrite Hupd. unfold page. rewrite (page_splice PG) by (done || (rewrite Hbs; lia) || by apply lookup_page_bytes).
    by rewrite <- off_split. }
  destruct (IH (off + curr) (n - curr) (drop (Z.to_nat curr) buf) pages ram1) as (ram' & E & Hr & Hp' & Ho).
  - rewrite Hupd. apply paged_insert; [done|]. unfold page. rewrite length_splice; [done|]. rewrite Hbs, Hlp. lia.
  - done.
  - lia.
  - rewrite length_drop. lia.
  - lia.
  - lia.
  - lia.
  - exists ram'. split; [rewrite E; do 2 f_equal; lia|]. split; [|split; [done|]].
    + rewrite Hr, Hraw. replace (Z.to_nat (off + curr)) with (Z.to_nat off + length bs)%nat by lia.
      assert (length (raw ram pages) = (length pages * PG)%nat) as Hlr by by apply length_raw.
      rewrite splice_splice; [|rewrite length_take, length_drop, Hbs, Hlr; page_lia].
      f_equal. unfold bs. rewrite take_take_drop. f_equal. lia.
    + intros q Hq. rewrite Ho by done. apply lookup_insert_ne. intros <-.
      by apply Hq, list_elem_of_lookup_2 with (i := Z.to_nat (off / PAGE_SIZE)).
Qed.

(** ** Growing *)
(** [new] are the frames added by an allocation loop that wanted [n]. *)
Record grown (n : nat) (al al' : A) (new : list Z) : Prop := {
  gr_inv : fs_inv al';
  gr_nodup : NoDup new;
  gr_free : ∀ p, p ∈ new → p ∈ fs_free al;
  gr_rest : fs_free al' = fs_free al ∖ list_to_set new;
  gr_le : (length new ≤ n)%nat;
  gr_short : (length new < n)%nat → fs_free al' = ∅
}.

Lemma grown_cons n al al1 al' p new :
  p ∈ fs_free al → fs_free al1 = fs_free al ∖ {[p]} → grown n al1 al' new →
  grown (S n) al al' (p :: new).
Proof.
  intros Hp Hf [H1 H2 H3 H4 H5 H6]. split; [done|..].
  - constructor; [|done]. intros Hin%H3. set_solver.
  - intros q [->|Hq%H3]%elem_of_cons; set_solver.
  - rewrite H4, Hf. set_solver.
  - simpl. lia.
  - simpl. intros. apply H6. lia.
Qed.

Lemma alloc_pages_spec n : ∀ k al pages,
  fs_inv al →
  ∃ r al' new, alloc_pages n k al pages = Val (r, pages ++ new, al') ∧ grown n al al' new ∧
    match r with
    | Ok _ => (new = [] → k = 0%nat → n = 0%nat)
    | Err e => e = ENOMEM ∧ new = [] ∧ al' = al ∧ (0 < n)%nat ∧ k = 0%nat
    end.
Proof.
  induction n as [|n IH]; intros k al pages Hinv; cbn [alloc_pages].
  { exists (Ok tt), al, []. rewrite app_nil_r. split; [done|]. split; [|done].
    split; simpl; try done; [constructor|set_solver|set_solver|lia]. }
  destruct (fs_alloc_spec al Hinv) as (res & al1 & -> & Hinv1 & Hres).
  cbn [mbind outcome_bind]. destruct res as [p|].
  - destruct Hres as [Hp Hf]. destruct (IH (S k) al1 (pages ++ [p]) Hinv1) as (r & al' & new & -> & Hg & Hr).
    exists r, al', (p :: new). rewrite <- app_assoc. split; [done|]. split; [by eapply grown_cons|].
    destruct r; [done|]. by destruct Hr as (_ & _ & _ & _ & ?).
  - destruct Hres as [-> Hf].
    assert (grown (S n) al al []) as Hg.
    { split; simpl; try done; [constructor|set_solver|set_solver|lia]. }
    exists (if bool_decide (0 < k)%nat then Ok tt else Err ENOMEM), al, []. rewrite app_nil_r.
    split; [by case_bool_decide|]. split; [done|]. case_bool_decide; naive_solver lia.
Qed.

Lemma push_pages_spec n : ∀ al pages,
  fs_inv al →
  ∃ r al' new, push_pages n al pages = Val (r, pages ++ new, al') ∧ grown n al al' new ∧
    r = if bool_decide (length new = n) then Ok tt else Err ENOMEM.
Proof.
  induction n as [|n IH]; intros al pages Hinv; cbn [push_pages].
  { exists (Ok tt), al, []. rewrite app_nil_r. split; [done|]. split; [|done].
    split; simpl; try done; [constructor|set_solver|set_solver|lia]. }
  destruct (fs_alloc_spec al Hinv) as (res & al1 & -> & Hinv1 & Hres).
  cbn [mbind outcome_bind]. destruct res as [p|].
  - destruct Hres as [Hp Hf]. destruct (IH al1 (pages ++ [p]) Hinv1) as (r & al' & new & -> & Hg & ->).
    exists (if bool_decide (length new = n) then Ok tt else Err ENOMEM), al', (p :: new).
    rewrite <- app_assoc. split; [done|]. split; [by eapply grown_cons|].
    apply if_decide_ext. simpl. lia.
  - destruct Hres as [-> Hf]. exists (Err ENOMEM), al, []. rewrite app_nil_r. split; [done|].
    split; [|done]. split; simpl; try done; [constructor|set_solver|set_solver|lia].
Qed.

Lemma file_raw f al ram :
  file_ok f al ram →
  raw ram (rf_pages f) = file_data f ram ++ replicate (Z.to_nat (capacity f - rf_len f)) 0.
Proof. intros Hf. rewrite <- (fo_tail _ _ _ Hf). unfold file_data. by rewrite take_drop. Qed.

Lemma length_file_data f al ram : file_ok f al ram → length (file_data f ram) = Z.to_nat (rf_len f).
Proof.
  intros Hf. pose proof (fo_len _ _ _ Hf). unfold file_data.
  rewrite length_take, length_raw by apply Hf. page_lia.
Qed.

Lemma raw_app ram p1 p2 : raw ram (p1 ++ p2) = raw ram p1 ++ raw ram p2.
Proof. unfold raw. by rewrite fmap_app, concat_app. Qed.

Lemma raw_zero ram new :
  (∀ p, p ∈ new → ram !! p = Some zero_page) →
  raw ram new = replicate (length new * PG) 0 ∧ paged PG (page_bytes ram <$> new).
Proof.
  induction new as [|p new IH]; intros Hz; [split; [done|constructor]|].
  destruct IH as [IH1 IH2]; [set_solver|].
  assert (page_bytes ram p = zero_page) as E by (unfold page_bytes; by rewrite Hz by set_solver).
  split.
  - unfold raw in *. rewrite fmap_cons, E. cbn [concat]. rewrite IH1. unfold zero_page.
    rewrite <- replicate_add. f_equal.
  - rewrite fmap_cons, E. constructor; [|done]. unfold zero_page. by rewrite length_replicate.
Qed.

(** Adding fresh frames changes neither the data nor the invariant. *)
Lemma file_ok_grow f al al' ram n new :
  file_ok f al ram → grown n al al' new →
  let f' := rf_set_pages f (rf_pages f ++ new) in
  capacity f' < MAX64 → file_ok f' al' ram ∧ file_data f' ram = file_data f ram.
Proof.
  intros Hf [Hi Hnd Hfr Hrest Hle Hsh] f' Hcap. pose proof Hf as [H1 H2 H3 H4 H5 H6 H7 H8].
  destruct (raw_zero ram new) as [Hraw Hpg]; [intros p Hp; by apply H2, Hfr|].
  assert (raw ram (rf_pages f') = raw ram (rf_pages f) ++ replicate (length new * PG) 0) as Hr.
  { simpl. by rewrite raw_app, Hraw. }
  assert (Z.of_nat (length (rf_pages f')) = Z.of_nat (length (rf_pages f)) + Z.of_nat (length new)) as Hl.
  { simpl. rewrite length_app. lia. }
  assert (file_data f' ram = file_data f ram) as Hd.
  { unfold file_data. rewrite Hr. apply take_app_le. rewrite length_raw by done. simpl. page_lia. }
  split; [|done]. split; try done.
  - intros p Hp. rewrite Hrest in Hp. apply H2. set_solver.
  - simpl. apply NoDup_app. split_and!; [done| |done]. intros p Hp Hn%Hfr. by apply (H4 p).
  - simpl. intros p [Hp|Hp]%elem_of_app; rewrite Hrest; [specialize (H4 p Hp); set_solver|set_solver].
  - simpl. rewrite fmap_app. by apply Forall_app.
  - unfold capacity in *. simpl. rewrite length_app. page_lia.
  - rewrite Hr, drop_app_le by (rewrite length_raw by done; simpl; page_lia).
    simpl rf_len. rewrite H8, <- replicate_add. f_equal. unfold capacity in *. rewrite Hl. page_lia.
Qed.

(** ** The contract of [writeat] *)
(** Writing inside the capacity of a file. *)
Lemma file_ok_write f al ram off n buf fuel :
  file_ok f al ram → 0 ≤ off → 0 ≤ n ≤ Z.of_nat (length buf) → off + n ≤ capacity f →
  (Z.to_nat n < fuel)%nat →
  ∃ ram', write_loop fuel off n buf (rf_pages f) ram = Val (off + n, ram') ∧
    let f' := if rf_len f <? off + n then rf_set_len f (off + n) else f in
    file_ok f' al ram' ∧
    file_data f' ram' = write_spec (Z.to_nat off) (take (Z.to_nat n) buf) (file_data f ram) ∧
    (∀ p, p ∉ rf_pages f → ram' !! p = ram !! p).
Proof.
  intros Hf Hoff Hn Hcap Hfuel. pose proof Hf as [H1 H2 H3 H4 H5 H6 H7 H8].
  destruct (write_loop_spec fuel off n buf (rf_pages f) ram) as (ram' & E & Hr & Hp' & Ho); try done.
  { unfold capacity in *. lia. }
  exists ram'. split; [done|]. cbv zeta.
  set (f' := if rf_len f <? off + n then rf_set_len f (off + n) else f).
  set (bs := take (Z.to_nat n) buf) in *. set (data := file_data f ram) in *.
  assert (length bs = Z.to_nat n) as Hbs by (unfold bs; rewrite length_take; lia).
  assert (length data = Z.to_nat (rf_len f)) as Hld by by eapply length_file_data.
  assert (rf_pages f' = rf_pages f) as Hpf by (unfold f'; by destruct (_ <? _)).
  assert (rf_len f' = Z.max (rf_len f) (off + n)) as Hlf.
  { unfold f'. destruct (Z.ltb_spec (rf_len f) (off + n)); simpl; lia. }
  assert (capacity f' = capacity f) as Hcf by (unfold capacity; by rewrite Hpf).
  assert (raw ram' (rf_pages f') = write_spec (Z.to_nat off) bs data ++
          replicate (Z.to_nat (capacity f - rf_len f')) 0) as Hraw.
  { rewrite Hpf, Hr, (file_raw _ _ _ Hf). fold data. unfold write_spec.
    replace (Z.to_nat (capacity f - rf_len f)) with
      ((Z.to_nat off + length bs - length data) + Z.to_nat (capacity f - rf_len f'))%nat by lia.
    rewrite replicate_add, app_assoc. apply splice_app_r. rewrite length_app, length_replicate. lia. }
  assert (length (write_spec (Z.to_nat off) bs data) = Z.to_nat (rf_len f')) as Hlw.
  { rewrite length_write_spec. lia. }
  split_and!; [split| |done]; rewrite ?Hcf, ?Hpf; try done.
  - intros p Hp. rewrite Ho; [by apply H2|]. intros Hin. by apply (H4 p).
  - lia.
  - rewrite <- Hpf, Hraw. apply drop_app_length'. done.
  - unfold file_data. rewrite Hraw. apply take_app_length'. done.
Qed.

Lemma rf_set_pages_nil f : rf_set_pages f (rf_pages f ++ []) = f.
Proof. rewrite app_nil_r. by destruct f. Qed.

Lemma rf_readat_data f al ram off n :
  file_ok f al ram → 0 ≤ off →
  rf_readat f ram off n = Val (take n (drop (Z.to_nat off) (file_data f ram))).
Proof.
  intros Hf Hoff. pose proof (fo_len _ _ _ Hf) as Hlen. pose proof (fo_space _ _ _ Hf) as Hsp.
  pose proof (length_file_data _ _ _ Hf) as Hld. unfold rf_readat.
  destruct (Z.leb_spec (rf_len f) off).
  { by rewrite drop_ge, take_nil by lia. }
  no_wrap. rewrite read_loop_spec; [|apply Hf|unfold capacity in *; lia..]. f_equal.
  unfold file_data.
  replace (Z.to_nat (rf_len f)) with (Z.to_nat off + (Z.to_nat (rf_len f) - Z.to_nat off))%nat by lia.
  rewrite <- take_drop_commute, take_take. f_equal. lia.
Qed.

(** Reading returns exactly the bytes of the file from the offset on, at
    most as many as the buffer holds and none at or past the end; it
    terminates and never touches a page the file does not have. *)
Theorem rf_readat_correct f al ram off n :
  file_ok f al ram → 0 ≤ off →
  rf_readat f ram off n = Val (take n (drop (Z.to_nat off) (file_data f ram))).
Proof. apply rf_readat_data. Qed.

(** Writing at any offset either fails with ENOMEM when no frame is free,
    without any effect, or writes a prefix of the buffer, short only when
    memory ran out; if the offset is inside the space the file then has, the
    file's contents are the old ones with the prefix written at the offset
    (gaps read as zero), the invariant holds again, and no frame outside the
    file is touched. *)
Theorem rf_writeat_correct f al ram off buf :
  file_ok f al ram → 0 ≤ off → off + Z.of_nat (length buf) ≤ MAX64 - PAGE_SIZE →
  ∃ r f' al' ram', rf_writeat f al ram off buf = Val (r, f', al', ram') ∧
    match r with
    | Err e => e = ENOMEM ∧ f' = f ∧ al' = al ∧ ram' = ram ∧ fs_free al = ∅
    | Ok n => 0 ≤ n ≤ Z.of_nat (length buf) ∧ (n < Z.of_nat (length buf) → fs_free al' = ∅) ∧
        (off ≤ capacity f' →
           file_ok f' al' ram' ∧
           file_data f' ram' = write_spec (Z.to_nat off) (take (Z.to_nat n) buf) (file_data f ram) ∧
           ∀ p, p ∉ rf_pages f' → ram' !! p = ram !! p)
    end.
Proof.
  intros Hf Hoff Hw. pose proof Hf as [H1 H2 H3 H4 H5 H6 H7 H8]. unfold rf_writeat.
  rewrite wadd_small by page_lia. set (len := Z.of_nat (length buf)) in *.
  pose proof (div_ceil_spec (off + len) PAGE_SIZE ltac:(lia) ltac:(done)) as Hdc.
  set (need := Z.to_nat _).
  destruct (alloc_pages_spec need 0 al (rf_pages f) H1) as (r & al' & new & -> & Hg & Hr).
  cbn [mbind outcome_bind]. destruct r as [[]|e].
  - set (f1 := rf_set_pages f (rf_pages f ++ new)).
    assert (Z.of_nat (length (rf_pages f ++ new)) *w PAGE_SIZE = capacity f1) as Hcap.
    { unfold capacity. simpl. apply wmul_small. rewrite length_app. pose proof (gr_le _ _ _ _ Hg). page_lia. }
    assert (capacity f1 < MAX64) as Hc1.
    { unfold capacity. simpl. rewrite length_app. pose proof (gr_le _ _ _ _ Hg). page_lia. }
    rewrite Hcap. destruct (file_ok_grow f al al' ram need new Hf Hg Hc1) as [Hf1 Hd1].
    fold f1 in Hf1, Hd1. assert (0 ≤ capacity f1) by page_lia.
    set (n := Z.min len _).
    assert (n = Z.max 0 (Z.min len (capacity f1 - off))) as Hn.
    { unfold n. destruct (Z.ltb_spec off (capacity f1)); [rewrite wsub_small by word_lia|]; lia. }
    destruct (decide (off ≤ capacity f1)) as [Hin|Hout].
    + destruct (file_ok_write f1 al' ram off n buf (S (Z.to_nat n))) as (ram' & E & Hf2 & Hd2 & Ho);
        [done|done|lia..|].
      change (rf_pages f1) with (rf_pages f ++ new) in E. rewrite E. cbn [mbind outcome_bind].
      eexists _, _, _, _. split; [done|]. split; [lia|]. split.
      * intros Hlt. apply (gr_short _ _ _ _ Hg). unfold capacity in *. simpl in *.
        rewrite length_app in *. page_lia.
      * intros _. rewrite Hd1 in Hd2. split; [done|]. split; [done|]. intros p Hp. apply Ho.
        by destruct (rf_len f1 <? off + n).
    + assert (n = 0) as Hn0 by lia. rewrite Hn0. change (S (Z.to_nat 0)) with 1%nat. cbn [write_loop].
      replace (Z.min (PAGE_SIZE - off mod PAGE_SIZE) 0) with 0 by page_lia. cbn [Z.eqb mbind outcome_bind].
      eexists _, _, _, _. split; [done|]. split; [lia|]. split.
      * intros _. apply (gr_short _ _ _ _ Hg). unfold capacity in *. simpl in *.
        rewrite length_app in *. page_lia.
      * intros Hin. destruct Hout. revert Hin. by destruct (rf_len f1 <? off).
  - destruct Hr as (-> & -> & -> & Hneed & _). rewrite rf_set_pages_nil.
    eexists _, _, _, _. split; [done|]. split_and!; try done.
    apply (gr_short _ _ _ _ Hg). simpl. lia.
Qed.

(** Frames [writeat] has to allocate. *)
Definition frames_needed (f : RamFileInner) (off : Z) (buf : list Z) : nat :=
  Z.to_nat (div_ceil (off + Z.of_nat (length buf)) PAGE_SIZE - Z.of_nat (length (rf_pages f))).

Lemma grown_enough n al al' new :
  grown n al al' new → (n ≤ size (fs_free al))%nat → length new = n.
Proof.
  intros [_ Hnd Hfr Hrest Hle Hsh] Hn. destruct (decide (length new < n)%nat) as [Hlt|]; [|lia].
  specialize (Hsh Hlt). rewrite Hrest in Hsh.
  assert (fs_free al ⊆ list_to_set new) as Hsub by set_solver.
  apply subseteq_size in Hsub. rewrite size_list_to_set in Hsub by done. lia.
Qed.

Lemma rf_writeat_full f al ram off buf :
  file_ok f al ram → 0 ≤ off → off + Z.of_nat (length buf) ≤ MAX64 - PAGE_SIZE →
  (frames_needed f off buf ≤ size (fs_free al))%nat →
  ∃ f' al' ram', rf_writeat f al ram off buf = Val (Ok (Z.of_nat (length buf)), f', al', ram') ∧
    file_ok f' al' ram' ∧ file_data f' ram' = write_spec (Z.to_nat off) buf (file_data f ram).
Proof.
  intros Hf Hoff Hw Hneed.
  pose proof Hf as [H1 _ _ _ _ H6 H7 _]. unfold rf_writeat, frames_needed in *. rewrite wadd_small by page_lia.
  pose proof (div_ceil_spec (off + Z.of_nat (length buf)) PAGE_SIZE ltac:(lia) ltac:(done)) as Hdc.
  destruct (alloc_pages_spec (frames_needed f off buf) 0 al (rf_pages f) H1) as (r & al' & new & E & Hg & Hr).
  unfold frames_needed in E, Hg, Hr. rewrite E. cbn [mbind outcome_bind]. clear E.
  pose proof (grown_enough _ _ _ _ Hg Hneed) as Hl. destruct r as [[]|e].
  2: { destruct Hr as (_ & -> & _ & Hpos & _). simpl in Hl. lia. }
  set (f1 := rf_set_pages f (rf_pages f ++ new)).
  assert (capacity f1 = Z.of_nat (length (rf_pages f) + length new) * PAGE_SIZE) as Hc.
  { unfold capacity. simpl. by rewrite length_app. }
  assert (capacity f1 < MAX64) as Hc1 by (rewrite Hc; page_lia).
  assert (off + Z.of_nat (length buf) ≤ capacity f1) as Hin by (rewrite Hc; page_lia).
  destruct (file_ok_grow f al al' ram _ new Hf Hg Hc1) as [Hf1 Hd1]. fold f1 in Hf1, Hd1.
  rewrite length_app, wmul_small by (rewrite <- Hc; page_lia). rewrite <- Hc.
  assert (Z.min (Z.of_nat (length buf)) (if off <? capacity f1 then capacity f1 -w off else 0)
          = Z.of_nat (length buf)) as ->.
  { destruct (Z.ltb_spec off (capacity f1)); [rewrite wsub_small by word_lia|]; lia. }
  destruct (file_ok_write f1 al' ram off (Z.of_nat (length buf)) buf
    (S (Z.to_nat (Z.of_nat (length buf))))) as (ram' & E & Hf2 & Hd2 & _); [done|done|lia..|].
  change (rf_pages f1) with (rf_pages f ++ new) in E. rewrite E. cbn [mbind outcome_bind].
  eexists _, _, _. split; [done|]. split; [done|].
  rewrite Hd1, Nat2Z.id, firstn_all in Hd2. exact Hd2.
Qed.

(** C25: When enough frames are free, a write of any buffer at any offset is
    complete, and reading the range back returns the buffer; every byte
    outside the range reads as before, as zero in a gap. *)
Theorem ramfs_write_read_roundtrip f al ram off buf :
  file_ok f al ram → 0 ≤ off → off + Z.of_nat (length buf) ≤ MAX64 - PAGE_SIZE →
  (frames_needed f off buf ≤ size (fs_free al))%nat →
  ∃ f' al' ram',
    rf_writeat f al ram off buf = Val (Ok (Z.of_nat (length buf)), f', al', ram') ∧
    file_ok f' al' ram' ∧
    rf_readat f' ram' off (length buf) = Val buf ∧
    (∀ o n, 0 ≤ o → o + Z.of_nat n ≤ off → 
       rf_readat f' ram' o n = Val (take n (drop (Z.to_nat o) (file_data f ram ++
                                     replicate (Z.to_nat off - length (file_data f ram)) 0)))) ∧
    (∀ o n, off + Z.of_nat (length buf) ≤ o → rf_readat f' ram' o n = rf_readat f ram o n).
Proof.
  intros Hf Hoff Hw Hneed.
  destruct (rf_writeat_full f al ram off buf) as (f' & al' & ram' & E & Hf' & Hd); [done..|].
  exists f', al', ram'. split; [done|]. split; [done|].
  set (data := file_data f ram) in *.
  set (padded := data ++ replicate (Z.to_nat off + length buf - length data) 0).
  assert (Z.to_nat off + length buf ≤ length padded)%nat as Hpad
    by (unfold padded; rewrite length_app, length_replicate; lia).
  split_and!.
  - rewrite (rf_readat_data f' al' ram') by done. rewrite Hd. f_equal. apply read_splice. fold padded. lia.
  - intros o n Ho Hon. rewrite (rf_readat_data f' al' ram') by done. f_equal. rewrite Hd.
    rewrite !take_drop_commute. f_equal. unfold write_spec. rewrite take_splice_before by (fold padded; lia).
    set (m := (Z.to_nat o + n)%nat). assert (m ≤ Z.to_nat off)%nat by lia.
    replace (Z.to_nat off + length buf - length data)%nat with
      ((Z.to_nat off - length data) + (Z.to_nat off + length buf - length data - (Z.to_nat off - length data)))%nat by lia.
    rewrite replicate_add, app_assoc. apply take_app_le. rewrite length_app, length_replicate. lia.
  - intros o n Ho. rewrite (rf_readat_data f' al' ram'), (rf_readat_data f al ram) by (done || lia).
    f_equal. rewrite Hd. fold data. unfold write_spec. fold padded. f_equal.
    rewrite drop_splice_after by lia. unfold padded.
    destruct (decide (Z.to_nat off + length buf ≤ length data)%nat) as [Hl|Hl].
    + replace (Z.to_nat off + length buf - length data)%nat with 0%nat by lia. by rewrite app_nil_r.
    + rewrite !drop_ge; [done|lia|rewrite length_app, length_replicate; lia].
Qed.

(** ** Truncation *)
Lemma foldl_zero_lookup l : ∀ (ram : gmap Z (list Z)) p,
  foldl (λ ram p, <[p := zero_page]> ram) ram l !! p =
    if bool_decide (p ∈ l) then Some zero_page else ram !! p.
Proof.
  induction l as [|q l IH]; intros ram p; [done|]. cbn [foldl]. rewrite IH.
  repeat case_bool_decide; try set_solver.
  - assert (p = q) as -> by set_solver. by rewrite lookup_insert_eq.
  - rewrite lookup_insert_ne by set_solver. done.
Qed.

(** Pages cleared from the [k]-th on. *)
Lemma clear_pages_raw ram pages k :
  paged PG (page_bytes ram <$> pages) → NoDup pages →
  let ram1 := foldl (λ ram p, <[p := zero_page]> ram) ram (drop k pages) in
  paged PG (page_bytes ram1 <$> pages) ∧
  raw ram1 pages = take (k * PG) (raw ram pages) ++ replicate ((length pages - k) * PG) 0 ∧
  (∀ p, p ∉ pages → ram1 !! p = ram !! p).
Proof.
  intros Hp Hnd ram1.
  assert (∀ p, ram1 !! p = if bool_decide (p ∈ drop k pages) then Some zero_page else ram !! p) as Hl.
  { intros p. apply foldl_zero_lookup. }
  assert (page_bytes ram1 <$> take k pages = page_bytes ram <$> take k pages) as H1.
  { apply list_fmap_ext. intros i p Hi. unfold page_bytes. rewrite Hl, bool_decide_eq_false_2; [done|].
    intros Hin. rewrite <- (take_drop k pages) in Hnd. apply NoDup_app in Hnd as (_ & Hd & _).
    eapply Hd; [|exact Hin]. by eapply list_elem_of_lookup_2. }
  destruct (raw_zero ram1 (drop k pages)) as [H2 H3].
  { intros p Hin. by rewrite Hl, bool_decide_eq_true_2. }
  assert (paged PG (page_bytes ram <$> take k pages)) as H4.
  { rewrite <- (take_drop k pages), fmap_app in Hp. by apply Forall_app in Hp as [? _]. }
  split_and!.
  - rewrite <- (take_drop k pages), fmap_app, H1. by apply Forall_app.
  - rewrite <- (take_drop k pages) at 1. rewrite raw_app, H2, length_drop. f_equal.
    unfold raw at 1. rewrite H1. fold (raw ram (take k pages)).
    rewrite <- (take_drop k pages) at 2. rewrite raw_app.
    destruct (decide (k ≤ length pages)%nat).
    + rewrite take_app_length'; [done|]. by rewrite length_raw, length_take, Nat.min_l.
    + rewrite (drop_ge pages), (take_ge pages) by lia. rewrite app_nil_r, take_ge; [done|].
      rewrite length_raw by done. page_lia.
  - intros p Hnp. rewrite Hl, bool_decide_eq_false_2; [done|].
    intros Hin. apply Hnp. rewrite <- (take_drop k pages). set_solver.
Qed.

(** The clearing steps leave the bytes before the new end and zero after. *)
Lemma truncate_clear_raw ram pages size :
  paged PG (page_bytes ram <$> pages) → NoDup pages → 0 ≤ size →
  let ram' := truncate_clear pages ram size in
  paged PG (page_bytes ram' <$> pages) ∧
  raw ram' pages = take (Z.to_nat size) (raw ram pages) ++
                   replicate (length pages * PG - Z.to_nat size) 0 ∧
  (∀ p, p ∉ pages → ram' !! p = ram !! p).
Proof.
  intros Hp Hnd Hs. unfold truncate_clear. set (k := Z.to_nat (div_ceil size PAGE_SIZE)).
  destruct (clear_pages_raw ram pages k Hp Hnd) as (Hp1 & Hr1 & Ho1).
  set (ram1 := foldl _ _ _) in *.
  pose proof (div_ceil_spec size PAGE_SIZE ltac:(lia) ltac:(done)) as Hdc.
  assert (length (raw ram pages) = (length pages * PG)%nat) as Hlr by by apply length_raw.
  destruct (Z.eqb_spec (size mod PAGE_SIZE) 0) as [Hm|Hm]; cbn [negb].
  - split_and!; [done| |done]. rewrite Hr1.
    assert (k * PG = Z.to_nat size)%nat as -> by page_lia. do 2 f_equal. page_lia.
  - destruct (pages !! Z.to_nat (size / PAGE_SIZE)) as [p|] eqn:Hi.
    + pose proof (lookup_lt_Some _ _ _ Hi) as Hlt.
      assert (length (page_bytes ram1 p) = PG) as Hlp.
      { eapply Forall_lookup_1 in Hp1; [|by apply lookup_page_bytes]. done. }
      set (zs := replicate (Z.to_nat (PAGE_SIZE - size mod PAGE_SIZE)) 0).
      assert (length zs = (k * PG - Z.to_nat size)%nat) as Hz
        by (unfold zs; rewrite length_replicate; page_lia).
      split_and!.
      * rewrite (page_update _ _ _ _ _ Hnd Hi). apply paged_insert; [done|]. rewrite length_splice; [done|].
        rewrite Hz, Hlp. page_lia.
      * unfold raw at 1. rewrite (page_update _ _ _ _ _ Hnd Hi).
        rewrite (page_splice PG) by (done || (rewrite Hz; page_lia) || by apply lookup_page_bytes).
        rewrite <- off_split by done. fold (raw ram1 pages). rewrite Hr1. unfold splice.
        rewrite take_app_le by (rewrite length_take, Hlr; page_lia).
        rewrite take_take, Nat.min_l by page_lia. f_equal.
        rewrite drop_app_length' by (rewrite length_take, Hlr, Hz; page_lia).
        unfold zs. rewrite <- replicate_add. f_equal. page_lia.
      * intros q Hq. rewrite lookup_insert_ne; [by apply Ho1|]. intros <-.
        by apply Hq, list_elem_of_lookup_2 with (i := Z.to_nat (size / PAGE_SIZE)).
    + apply lookup_ge_None_1 in Hi. split_and!; [done| |done].
      rewrite Hr1. rewrite !take_ge by (rewrite Hlr; page_lia). do 2 f_equal. page_lia.
Qed.

(** The file after a truncation that got all its frames. *)
Lemma file_ok_resize f al al' ram ram' size need new :
  file_ok f al ram → 0 ≤ size ≤ MAX64 - PAGE_SIZE →
  need = Z.to_nat (div_ceil size PAGE_SIZE - Z.of_nat (length (rf_pages f))) →
  grown need al al' new → length new = need →
  paged PG (page_bytes ram' <$> rf_pages f) →
  raw ram' (rf_pages f) = take (Z.to_nat size) (raw ram (rf_pages f)) ++
                          replicate (length (rf_pages f) * PG - Z.to_nat size) 0 →
  (∀ p, p ∉ rf_pages f → ram' !! p = ram !! p) →
  let f' := rf_set_pages (rf_set_len f size) (rf_pages f ++ new) in
  file_ok f' al' ram' ∧ file_data f' ram' = resize (Z.to_nat size) 0 (file_data f ram).
Proof.
  intros Hf Hs Hneed Hg Hn Hp Hr Ho f'. pose proof Hf as [H1 H2 H3 H4 H5 H6 H7 H8].
  pose proof (div_ceil_spec size PAGE_SIZE ltac:(lia) ltac:(done)) as Hdc.
  assert (capacity f' = Z.of_nat (length (rf_pages f) + length new) * PAGE_SIZE) as Hc.
  { unfold capacity. simpl. by rewrite length_app. }
  destruct (raw_zero ram' new) as [Hz Hzp].
  { intros p Hp0. rewrite Ho; [by apply H2, (gr_free _ _ _ _ Hg)|].
    intros Hin. by apply (H4 p), (gr_free _ _ _ _ Hg). }
  assert (raw ram' (rf_pages f') = resize (Z.to_nat size) 0 (file_data f ram) ++
          replicate (Z.to_nat (capacity f' - size)) 0) as Hraw.
  { simpl. rewrite raw_app, Hz, Hr, <- app_assoc, <- replicate_add.
    pose proof (length_file_data _ _ _ Hf) as Hld. rewrite (file_raw _ _ _ Hf).
    set (data := file_data f ram) in *. rewrite resize_spec.
    rewrite take_app. rewrite <- !app_assoc. f_equal. rewrite take_replicate, <- !replicate_add.
    f_equal. rewrite Hld, Hc. page_lia. }
  assert (length (resize (Z.to_nat size) 0 (file_data f ram)) = Z.to_nat size) as Hlz
    by apply length_resize.
  split; [split; try done|].
  - apply Hg.
  - intros p Hp0. rewrite (gr_rest _ _ _ _ Hg) in Hp0. rewrite Ho; [apply H2; set_solver|].
    intros Hin. apply (H4 p Hin). set_solver.
  - simpl. apply NoDup_app. split_and!; [done| |apply Hg].
    intros p Hp0 Hn0. by apply (H4 p), (gr_free _ _ _ _ Hg).
  - simpl. intros p Hin. rewrite (gr_rest _ _ _ _ Hg).
    apply elem_of_app in Hin as [Hin|Hin]; [specialize (H4 p Hin); set_solver|set_solver].
  - simpl. rewrite fmap_app. by apply Forall_app.
  - change (rf_len f') with size. rewrite Hc. page_lia.
  - rewrite Hc. page_lia.
  - rewrite Hraw. change (rf_len f') with size. by apply drop_app_length'.
  - unfold file_data at 1. rewrite Hraw. change (rf_len f') with size. by apply take_app_length'.
Qed.

(** Reading at the end of the pages of a file whose length lies beyond them. *)
Lemma read_beyond_pages f ram :
  capacity f < rf_len f < MAX64 → rf_readat f ram (capacity f) 1 = Panic.
Proof.
  intros Hc. unfold rf_readat. assert (0 ≤ capacity f) by page_lia.
  rewrite (proj2 (Z.leb_gt _ _)) by lia. rewrite wsub_small by page_lia.
  rewrite Z.min_l by lia. cbn [read_loop].
  replace (capacity f mod PAGE_SIZE) with 0 by page_lia.
  change (Z.min (PAGE_SIZE - 0) (Z.of_nat 1) =? 0) with false. cbv iota.
  rewrite lookup_ge_None_2; [done|]. page_lia.
Qed.

(** Truncating (or extending) a file to a size either succeeds, and the
    contents are the old ones cut off or padded with zeros to that size, with
    the invariant kept; or memory runs out, and then the call reports ENOMEM
    but the recorded length is already the new one, beyond the pages the file
    has, so that the next read past its pages panics. *)
Theorem rf_truncate_correct f al ram size :
  file_ok f al ram → 0 ≤ size ≤ MAX64 - PAGE_SIZE →
  ∃ r f' al' ram', rf_truncate f al ram size = Val (r, f', al', ram') ∧
    (∀ p, p ∉ rf_pages f → ram' !! p = ram !! p) ∧
    match r with
    | Ok _ => file_ok f' al' ram' ∧ file_data f' ram' = resize (Z.to_nat size) 0 (file_data f ram)
    | Err e => e = ENOMEM ∧ fs_free al' = ∅ ∧ rf_len f' = size ∧ capacity f' < size ∧
               rf_readat f' ram' (capacity f') 1 = Panic
    end.
Proof.
  intros Hf Hs. pose proof Hf as [H1 _ H3 _ H5 _ _ _]. unfold rf_truncate.
  change (rf_pages (rf_set_len f size)) with (rf_pages f).
  destruct (truncate_clear_raw ram (rf_pages f) size H5 H3 ltac:(lia)) as (Hp & Hr & Ho).
  set (ram1 := truncate_clear _ _ _) in *.
  pose proof (div_ceil_spec size PAGE_SIZE ltac:(lia) ltac:(done)) as Hdc.
  set (need := Z.to_nat _).
  destruct (push_pages_spec need al (rf_pages f) H1) as (r & al' & new & -> & Hg & Hres).
  cbn [mbind outcome_bind]. set (f' := rf_set_pages _ _).
  exists r, f', al', ram1. split; [done|]. split; [done|].
  pose proof (gr_le _ _ _ _ Hg) as Hle. case_bool_decide as Hn; subst r.
  - by apply (file_ok_resize f al al' ram ram1 size need new).
  - assert (capacity f' < size) as Hcs by (unfold capacity; simpl; rewrite length_app; page_lia).
    split_and!; [done|apply (gr_short _ _ _ _ Hg); lia|done|done|].
    apply read_beyond_pages. simpl. page_lia.
Qed.

(** ** Directories *)
Lemma list_find_snoc {B} (P : B → Prop) `{∀ x, Decision (P x)} l c :
  snd <$> list_find P (l ++ [c]) =
    match snd <$> list_find P l with
    | Some x => Some x
    | None => if bool_decide (P c) then Some c else None
    end.
Proof.
  induction l as [|x l IH]; simpl.
  { by case_decide; case_bool_decide. }
  case_decide; [done|]. destruct (list_find P (l ++ [c])), (list_find P l); simpl in *; done.
Qed.

Lemma list_find_ext {B} (P Q : B → Prop) `{∀ x, Decision (P x)} `{∀ x, Decision (Q x)} l :
  (∀ x, x ∈ l → P x ↔ Q x) → list_find P l = list_find Q l.
Proof.
  induction l as [|x l IH]; intros HPQ; [done|]. simpl.
  rewrite IH by set_solver. specialize (HPQ x ltac:(set_solver)).
  repeat case_decide; naive_solver.
Qed.

(** Ids are handed out once, and every child exists. *)
Record store_wf (s : RamStore) : Prop := {
  sw_fresh : ∀ i, (rs_next s ≤ i)%nat → rs_files s !! i = None ∧ rs_dirs s !! i = None;
  sw_child : ∀ id c, c ∈ children s id → is_Some (node_name s c)
}.

Lemma node_name_set_children s id ch c : node_name (set_children id ch s) c = node_name s c.
Proof.
  unfold set_children. destruct (rs_dirs s !! id) as [d|] eqn:E; [|done].
  destruct c as [i|i|]; simpl; try done. destruct (decide (i = id)) as [->|].
  - by rewrite lookup_insert_eq, E.
  - by rewrite lookup_insert_ne.
Qed.

Lemma children_set_children s id ch id' :
  is_Some (rs_dirs s !! id) →
  children (set_children id ch s) id' = if bool_decide (id = id') then ch else children s id'.
Proof.
  intros [d Hd]. unfold set_children. rewrite Hd. unfold children. simpl.
  case_bool_decide; subst; by rewrite ?lookup_insert_eq, ?lookup_insert_ne.
Qed.

(** A fresh inode is added to the store: names of old inodes do not change. *)
Lemma bump_names s s1 c :
  store_wf s → is_Some (node_name s c) →
  (∃ f, s1 = bump (set_file (rs_next s) f s)) ∨ (∃ d, s1 = bump (set_dir (rs_next s) d s)) →
  node_name s1 c = node_name s c.
Proof.
  intros [Hf _] [n Hn] Hs1. destruct (Hf (rs_next s) ltac:(lia)) as [H1 H2].
  destruct c as [i|i|]; simpl in *; [..|by destruct Hs1 as [[? ->]|[? ->]]].
  - assert (i ≠ rs_next s) by (intros ->; by rewrite H1 in Hn).
    destruct Hs1 as [[? ->]|[? ->]]; simpl; [by rewrite lookup_insert_ne|done].
  - assert (i ≠ rs_next s) by (intros ->; by rewrite H2 in Hn).
    destruct Hs1 as [[? ->]|[? ->]]; simpl; [done|by rewrite lookup_insert_ne].
Qed.

(** Appending a named child to a directory of [s]. *)
Lemma find_child_add s s1 id c name name' :
  (∀ c0, c0 ∈ children s id → node_name s1 c0 = node_name s c0) →
  is_Some (rs_dirs s1 !! id) → node_name s1 c = Some name →
  find_child (set_children id (children s id ++ [c]) s1) id name' =
    match find_child s id name' with
    | Some x => Some x
    | None => if bool_decide (name = name') then Some c else None
    end.
Proof.
  intros Hn Hd Hc. unfold find_child. rewrite children_set_children, bool_decide_eq_true_2 by done.
  rewrite (list_find_ext _ (λ c, node_name s1 c = Some name'))
    by (intros x _; by rewrite node_name_set_children).
  rewrite list_find_snoc. rewrite (list_find_ext _ (λ c, node_name s c = Some name'))
    by (intros x Hx; by rewrite Hn).
  destruct (snd <$> _); [done|]. apply if_decide_ext. rewrite Hc. naive_solver.
Qed.

(** Creating a file under an unused name makes the name resolve to a new,
    empty file and leaves every other name of the directory as it was; the
    same holds of [mkdir], which refuses a name that is taken with EEXIST. *)
Theorem ramdir_create_lookup s id name :
  store_wf s → is_Some (rs_dirs s !! id) → find_child s id name = None →
  (∃ s', rd_create id name FT_File s = Val (Ok tt, s') ∧
    find_child s' id name = Some (NFile (rs_next s)) ∧
    (∀ off n, 0 ≤ off → node_readat (NFile (rs_next s)) off n s' = Val (Ok [], s')) ∧
    ∀ name', name' ≠ name → find_child s' id name' = find_child s id name') ∧
  (∃ s', rd_mkdir id name s = Val (Ok tt, s') ∧
    find_child s' id name = Some (NDir (rs_next s)) ∧ children s' (rs_next s) = [] ∧
    rd_mkdir id name s' = Val (Err EEXIST, s') ∧
    ∀ name', name' ≠ name → find_child s' id name' = find_child s id name').
Proof.
  intros Hwf Hd Hnone. destruct (sw_fresh _ Hwf (rs_next s) ltac:(lia)) as [Hf0 Hd0].
  assert (id ≠ rs_next s) as Hne by (intros ->; rewrite Hd0 in Hd; by destruct Hd).
  split.
  - eexists. split; [done|].
    set (s1 := bump _). assert (rs_dirs s1 = rs_dirs s) as Ed by done.
    assert (∀ name', find_child (set_children id (children s id ++ [NFile (rs_next s)]) s1) id name' =
      match find_child s id name' with Some x => Some x
      | None => if bool_decide (name = name') then Some (NFile (rs_next s)) else None end) as HF.
    { intros name'. apply find_child_add; [|by rewrite Ed|simpl; by rewrite lookup_insert_eq].
      intros c0 Hc0. eapply bump_names; [done|by eapply sw_child|left; by eexists]. }
    split_and!.
    + rewrite HF, Hnone. by rewrite bool_decide_eq_true_2.
    + intros off n Hoff. simpl. unfold on_file, set_children. rewrite Ed.
      destruct Hd as [d ->]. simpl. rewrite lookup_insert_eq. simpl. unfold rf_readat. simpl.
      by rewrite (proj2 (Z.leb_le 0 off)).
    + intros name' Hn'. rewrite HF, bool_decide_eq_false_2 by done. by destruct (find_child s id name').
  - unfold rd_mkdir at 1. rewrite Hnone. eexists. split; [done|].
    set (s1 := bump _). assert (is_Some (rs_dirs s1 !! id)) as Hd1.
    { simpl. by rewrite lookup_insert_ne. }
    set (s' := set_children _ _ _).
    assert (∀ name', find_child s' id name' =
      match find_child s id name' with Some x => Some x
      | None => if bool_decide (name = name') then Some (NDir (rs_next s)) else None end) as HF.
    { intros name'. apply find_child_add; [|done|simpl; by rewrite lookup_insert_eq].
      intros c0 Hc0. eapply bump_names; [done|by eapply sw_child|right; by eexists]. }
    assert (find_child s' id name = Some (NDir (rs_next s))) as HF1
      by (rewrite HF, Hnone; by rewrite bool_decide_eq_true_2).
    split_and!.
    + done.
    + unfold s'. rewrite children_set_children, bool_decide_eq_false_2 by done.
      unfold children. simpl. by rewrite lookup_insert_eq.
    + unfold rd_mkdir. by rewrite HF1.
    + intros name' Hn'. rewrite HF, bool_decide_eq_false_2 by done. by destruct (find_child s id name').
Qed.

(** Children kept by [extract_if] keep their names and order. *)
Lemma find_child_extract s id pred `{∀ c, Decision (pred c)} name :
  is_Some (rs_dirs s !! id) →
  find_child (set_children id (filter (λ c, ¬ pred c) (children s id)) s) id name =
    snd <$> list_find (λ c, node_name s c = Some name) (filter (λ c, ¬ pred c) (children s id)).
Proof.
  intros Hd. unfold find_child. rewrite children_set_children, bool_decide_eq_true_2 by done.
  f_equal. apply list_find_ext. intros x _. by rewrite node_name_set_children.
Qed.

Lemma list_find_filter {B} (P Q : B → Prop) `{∀ x, Decision (P x)} `{∀ x, Decision (Q x)} l :
  (∀ x, x ∈ l → P x → Q x) → snd <$> list_find P (filter Q l) = snd <$> list_find P l.
Proof.
  induction l as [|x l IH]; intros HPQ; [done|]. rewrite filter_cons. simpl.
  assert (snd <$> list_find P (filter Q l) = snd <$> list_find P l) as IH' by (apply IH; set_solver).
  destruct (decide (P x)) as [Hp|Hp].
  - rewrite decide_True by (apply HPQ; [set_solver|done]). simpl. by rewrite decide_True.
  - destruct (decide (Q x)); simpl; [rewrite decide_False by done|];
      destruct (list_find P (filter Q l)), (list_find P l); simpl in *; done.
Qed.

(** Removing a name succeeds exactly when a file or link of that name is
    there and removes every such entry, so a lookup then finds at most a
    directory of that name; other names are untouched.  [rmdir] does the same
    for directories (also non-empty ones). *)
Theorem ramdir_remove_lookup s id name :
  is_Some (rs_dirs s !! id) →
  ∃ r s', rd_remove id name s = Val (r, s') ∧
    (r = Ok tt ↔ ∃ c, c ∈ children s id ∧ is_file_named s name c) ∧ (r = Ok tt ∨ r = Err ENOENT) ∧
    (∀ c, find_child s' id name = Some c → ∃ i, c = NDir i) ∧
    ∀ name', name' ≠ name → find_child s' id name' = find_child s id name'.
Proof.
  intros Hd. unfold rd_remove, rd_extract. set (s' := set_children _ _ _).
  set (r := if bool_decide (0 < length (filter (is_file_named s name) (children s id)))%nat
            then Ok tt else Err ENOENT : result unit).
  exists r, s'. split; [unfold r; by case_bool_decide|].
  assert (r = Ok tt ↔ ∃ c, c ∈ children s id ∧ is_file_named s name c) as Hr.
  { unfold r. case_bool_decide as Hl; split; try done.
    - intros _. destruct (filter (is_file_named s name) (children s id)) as [|c l] eqn:E;
        [simpl in Hl; lia|].
      assert (c ∈ filter (is_file_named s name) (children s id)) as [? ?]%list_elem_of_filter
        by (rewrite E; set_solver). eauto.
    - intros (c & Hc & Hn). destruct Hl.
      assert (c ∈ filter (is_file_named s name) (children s id)) as Hin by by apply list_elem_of_filter.
      destruct (filter (is_file_named s name) (children s id));
        [by apply elem_of_nil in Hin|simpl; lia]. }
  split; [done|]. split; [unfold r; case_bool_decide; auto|]. split.
  - intros c. unfold s'. rewrite find_child_extract by done.
    intros ([k c'] & Hf & ->)%fmap_Some_1. apply list_find_Some in Hf as (Hk & Hname & _). simpl in *.
    apply list_elem_of_lookup_2, list_elem_of_filter in Hk as [Hnot _].
    destruct c' as [i|i|n l]; [destruct Hnot; done|by eexists|destruct Hnot; done].
  - intros name' Hne. unfold s'. rewrite find_child_extract by done. unfold find_child.
    apply list_find_filter. intros x _ Hx Hfn. destruct x; simpl in *; congruence.
Qed.

(** [create] does not check for an existing entry: creating a name that is
    taken succeeds and adds a second entry of the same name, which the
    directory lists but no lookup reaches. *)
Theorem ramdir_create_duplicates s id name c :
  store_wf s → is_Some (rs_dirs s !! id) → find_child s id name = Some c →
  ∃ s', rd_create id name FT_File s = Val (Ok tt, s') ∧
    find_child s' id name = Some c ∧ c ≠ NFile (rs_next s) ∧
    children s' id = children s id ++ [NFile (rs_next s)] ∧
    node_name s' (NFile (rs_next s)) = Some name ∧ node_name s' c = Some name.
Proof.
  intros Hwf Hd Hc. destruct (sw_fresh _ Hwf (rs_next s) ltac:(lia)) as [Hf0 Hd0].
  eexists. split; [done|]. set (s1 := bump _).
  assert (c ∈ children s id ∧ node_name s c = Some name) as [Hin Hname].
  { unfold find_child in Hc. apply fmap_Some_1 in Hc as ([k c'] & Hf & ->).
    apply list_find_Some in Hf as (Hk & ? & _). split; [by eapply list_elem_of_lookup_2|done]. }
  split_and!.
  - erewrite find_child_add; [by rewrite Hc| |done|simpl; by rewrite lookup_insert_eq].
    intros c0 Hc0. eapply bump_names; [done|by eapply sw_child|left; by eexists].
  - intros ->. simpl in Hname. by rewrite Hf0 in Hname.
  - by rewrite children_set_children, bool_decide_eq_true_2.
  - rewrite node_name_set_children. simpl. by rewrite lookup_insert_eq.
  - rewrite node_name_set_children. rewrite <- Hname.
    eapply bump_names; [done|by eapply sw_child|left; by eexists].
Qed.

(** ** Out of memory in a sparse write *)
(** A write far behind the end of a file that gets some but not all of its
    frames returns 0 bytes written yet moves the file length to the offset,
    beyond the frames the file has; reading the file there panics. *)
Theorem ramfs_short_write_breaks_read f al ram b :
  file_ok f al ram → rf_pages f = [] → size (fs_free al) = 1%nat →
  ∃ f' al' ram', rf_writeat f al ram 8192 [b] = Val (Ok 0, f', al', ram') ∧
    rf_len f' = 8192 ∧ capacity f' = 4096 ∧ rf_readat f' ram' 4096 1 = Panic.
Proof.
  intros Hf Hp Hs. pose proof (fo_len _ _ _ Hf) as Hlen. unfold capacity in Hlen. rewrite Hp in Hlen.
  unfold rf_writeat. rewrite Hp.
  destruct (alloc_pages_spec 3 0 al [] (fo_alloc _ _ _ Hf)) as (r & al' & new & E & Hg & Hr).
  change (Z.to_nat (div_ceil (8192 +w Z.of_nat (length [b])) PAGE_SIZE - Z.of_nat (length (@nil Z))))
    with 3%nat. rewrite E. cbn [mbind outcome_bind app]. clear E.
  assert (length new = 1%nat) as Hl.
  { destruct Hg as [_ Hnd Hfr Hrest Hle Hsh].
    assert (size (list_to_set new : gset Z) ≤ 1)%nat as Hl1
      by (rewrite <- Hs; apply subseteq_size; set_solver).
    rewrite size_list_to_set in Hl1 by done.
    destruct (decide (length new < 1)%nat) as [Hz|]; [|lia].
    destruct new; [|simpl in Hz; lia]. rewrite Hrest in Hsh.
    assert (fs_free al = ∅) as E0 by (specialize (Hsh ltac:(simpl; lia)); set_solver).
    rewrite E0, size_empty in Hs. lia. }
  destruct r as [[]|e]; [|destruct Hr as (_ & -> & _); done]. rewrite Hl.
  change (Z.of_nat 1 *w PAGE_SIZE) with 4096. cbn [Z.ltb Z.compare Pos.compare Pos.compare_cont].
  change (Z.min (Z.of_nat (length [b])) 0) with 0. change (S (Z.to_nat 0)) with 1%nat.
  cbn [write_loop]. change (Z.min (PAGE_SIZE - 8192 mod PAGE_SIZE) 0 =? 0) with true. cbv iota.
  cbn [mbind outcome_bind].
  set (f1 := if _ <? _ then _ else _).
  assert (f1 = rf_set_len (rf_set_pages f new) 8192) as ->.
  { unfold f1. by rewrite (proj2 (Z.ltb_lt _ _)) by (simpl in *; lia). }
  set (f1' := rf_set_len _ _). assert (capacity f1' = 4096) as Hc by (unfold capacity; simpl; by rewrite Hl).
  eexists _, _, _. split; [done|]. split; [done|]. split; [done|].
  rewrite <- Hc at 1. apply read_beyond_pages. rewrite Hc. simpl. unfold MAX64. lia.
Qed.

Lemma empty_file_ok name al ram :
  fs_inv al → (∀ p, p ∈ fs_free al → ram !! p = Some zero_page) → file_ok (ram_file_new name) al ram.
Proof. intros H1 H2. split; try done; simpl; try constructor; try lia; set_solver. Qed.
End ramfs.

(** ** Concrete files *)
Definition demo_file : RamFileInner := ram_file_new "a.txt".

Lemma demo_file_ok : file_ok demo_file demo_fa (ph_ram demo_phys).
Proof.
  apply empty_file_ok; [apply demo_fa_wf|]. intros p Hp. apply demo_ram_zero.
  rewrite <- demo_fa_all_free. done.
Qed.

Lemma rf_readat_correct_witness :
  rf_readat demo_file (ph_ram demo_phys) 5 10 = Val [].
Proof. exact (rf_readat_correct demo_file demo_fa (ph_ram demo_phys) 5 10 demo_file_ok ltac:(lia)). Defined.

Lemma rf_writeat_correct_witness :
  ∃ r f' al' ram', rf_writeat demo_file demo_fa (ph_ram demo_phys) 4095 [1; 2] = Val (r, f', al', ram').
Proof.
  destruct (rf_writeat_correct demo_file demo_fa (ph_ram demo_phys) 4095 [1; 2])
    as (r & f' & al' & ram' & H & _); [apply demo_file_ok|lia|vm_compute; congruence|].
  by exists r, f', al', ram'.
Defined.

Lemma ramfs_write_read_roundtrip_witness :
  ∃ f' al' ram',
    rf_writeat demo_file demo_fa (ph_ram demo_phys) 4095 [1; 2] = Val (Ok 2, f', al', ram') ∧
    rf_readat f' ram' 4095 2 = Val [1; 2].
Proof.
  destruct (ramfs_write_read_roundtrip demo_file demo_fa (ph_ram demo_phys) 4095 [1; 2])
    as (f' & al' & ram' & H1 & _ & H2 & _);
    [apply demo_file_ok|lia|vm_compute; congruence|vm_compute; lia|].
  exists f', al', ram'. split; [exact H1|exact H2].
Defined.

Lemma rf_truncate_correct_witness :
  ∃ r f' al' ram', rf_truncate demo_file demo_fa (ph_ram demo_phys) 5000 = Val (r, f', al', ram').
Proof.
  destruct (rf_truncate_correct demo_file demo_fa (ph_ram demo_phys) 5000)
    as (r & f' & al' & ram' & H & _); [apply demo_file_ok|split; [lia|vm_compute; congruence]|].
  by exists r, f', al', ram'.
Defined.

(** One free page in all of memory. *)
Definition tiny_region : FrameRegionMap := mkFrm [Z.shiftl (Z.ones 63) 1] 0x80000000 0x80001000.
Definition tiny_fa : FrameAllocator := [tiny_region].

Lemma tiny_fa_wf : fa_wf tiny_fa.
Proof.
  apply fa_wf_cons; [|constructor..].
  destruct (frm_new_spec 0x80000000 0x80001000) as (r & E & Hwf & _); [done..|].
  assert (frm_new 0x80000000 0x80001000 = Val tiny_region) as E' by by vm_compute.
  rewrite E' in E. injection E as <-. done.
Qed.

Lemma tiny_file_ok : file_ok demo_file tiny_fa {[ 0x80000000 := zero_page ]}.
Proof.
  apply empty_file_ok; [apply tiny_fa_wf|]. intros p Hp.
  assert (fs_free tiny_fa = {[0x80000000]}) as E by by vm_compute.
  rewrite E in Hp. apply elem_of_singleton in Hp as ->. by simplify_map_eq.
Qed.

Lemma ramfs_short_write_breaks_read_witness :
  ∃ f' al' ram', rf_writeat demo_file tiny_fa {[ 0x80000000 := zero_page ]} 8192 [7]
                   = Val (Ok 0, f', al', ram') ∧ rf_readat f' ram' 4096 1 = Panic.
Proof.
  destruct (ramfs_short_write_breaks_read demo_file tiny_fa {[ 0x80000000 := zero_page ]} 7)
    as (f' & al' & ram' & H1 & _ & _ & H2); [apply tiny_file_ok|reflexivity|vm_compute; reflexivity|].
  by exists f', al', ram'.
Defined.

(** A root directory, and the same with a file [x]. *)
Definition demo_store : RamStore := ramfs_new demo_fa (ph_ram demo_phys).
Definition demo_store_x : RamStore :=
  match rd_create 0 "x" FT_File demo_store with Val (_, s) => s | Panic => demo_store end.

Lemma demo_store_wf : store_wf demo_store.
Proof.
  split.
  - intros i Hi. split; [done|]. simpl in *. apply lookup_singleton_ne. lia.
  - intros id c. unfold children. simpl. destruct (decide (id = 0%nat)) as [->|].
    + simplify_map_eq. set_solver.
    + rewrite lookup_singleton_ne by done. set_solver.
Qed.

Lemma demo_store_x_eq :
  demo_store_x = mkRam demo_fa (ph_ram demo_phys) {[ 1%nat := ram_file_new "x" ]}
                   {[ 0%nat := mkRamDir "" [NFile 1] ]} 2.
Proof. reflexivity. Qed.

Lemma demo_store_x_wf : store_wf demo_store_x.
Proof.
  rewrite demo_store_x_eq. split.
  - simpl. intros i Hi. split; apply lookup_singleton_ne; lia.
  - intros id c. unfold children. simpl. destruct (decide (id = 0%nat)) as [->|].
    + simplify_map_eq. intros ->%list_elem_of_singleton. simpl. simplify_map_eq. by eexists.
    + rewrite lookup_singleton_ne by done. set_solver.
Qed.

Lemma ramdir_create_lookup_witness :
  ∃ s', rd_create 0 "x" FT_File demo_store = Val (Ok tt, s') ∧ find_child s' 0 "x" = Some (NFile 1).
Proof.
  destruct (ramdir_create_lookup demo_store 0 "x") as [(s' & H1 & H2 & _) _];
    [apply demo_store_wf|by eexists|reflexivity|]. exists s'. split; [exact H1|exact H2].
Defined.

Lemma ramdir_remove_lookup_witness :
  ∃ r s', rd_remove 0 "x" demo_store_x = Val (r, s') ∧
    (∀ c, find_child s' 0 "x" = Some c → ∃ i, c = NDir i).
Proof.
  destruct (ramdir_remove_lookup demo_store_x 0 "x") as (r & s' & H1 & _ & _ & H2 & _);
    [vm_compute; by eexists|]. exists r, s'. split; [exact H1|exact H2].
Defined.

Lemma ramdir_create_duplicates_witness :
  ∃ s', rd_create 0 "x" FT_File demo_store_x = Val (Ok tt, s') ∧ find_child s' 0 "x" = Some (NFile 1).
Proof.
  destruct (ramdir_create_duplicates demo_store_x 0 "x" (NFile 1)) as (s' & H1 & H2 & _);
    [apply demo_store_x_wf|by eexists|vm_compute; reflexivity|]. exists s'. split; [exact H1|exact H2].
Defined.
