(* ===== verification/File.v ===== *)
(** * Open files ([filesystem/fs/src/file.rs])

    A [File] is an inode with a path, a byte offset and flags.  The operations
    are proved against the inode interface: any store [S] with handles [H] and
    methods [ops]. *)

From Stdlib Require Import Ascii.
From S2P Require Import Prelude Vfs Path Bytes.
Local Open Scope Z_scope.

Record File (H : Type) := mkFile {
  f_inner : H;
  f_path_buf : PathBuf;
  f_offset : Z;
  f_flags : Z
}.
Arguments mkFile {H}. Arguments f_inner {H}. Arguments f_path_buf {H}.
Arguments f_offset {H}. Arguments f_flags {H}.

(** [x as isize] and [x as usize]. *)
Definition as_isize (x : Z) : Z := if x <? 2 ^ 63 then x else x - MAX64.
Definition as_usize (x : Z) : Z := wrap x.

Section file.
Context {S H : Type} (ops : INodeOps S H).

Definition set_offset (f : File H) (o : Z) : File H :=
  mkFile (f_inner f) (f_path_buf f) o (f_flags f).

(** ** [File::open] *)
(** [for name in path.dir().iter() { file = file.lookup(name)? }] *)
Fixpoint walk (names : list string) (file : H) : vfs S H :=
  match names with
  | [] => vfs_ok file
  | name :: names => vfs_bind (io_lookup ops file name) (walk names)
  end.

Definition file_open (mounted : MOUNTED_FS H) (path_buf : PathBuf) (flags : Z) : vfs S (File H) := λ s,
  '(de, path) ← get_mounted mounted path_buf;
  let opened file := mkFile file path_buf 0 flags in
  if bool_decide (0 < pb_levels path)%nat then
    vfs_bind (walk (pb_dir path) de) (λ file,
    vfs_bind (if contains flags O_CREAT then
                io_create ops file (pb_filename path)
                  (if contains flags O_DIRECTORY then FT_Directory else FT_File)
              else vfs_ok tt) (λ _,
    vfs_bind (io_lookup ops file (pb_filename path)) (λ file,
    vfs_ok (opened file)))) s
  else Val (Ok (opened de), s).

Definition new_dev (inner : H) : File H := mkFile inner pb_new 0 O_RDWR.

(** [remove_self]: open the parent directory and remove the name in it. *)
Definition remove_self (mounted : MOUNTED_FS H) (f : File H) : vfs S unit :=
  vfs_bind (file_open mounted (pb_dir (f_path_buf f)) O_DIRECTORY) (λ dir,
  io_remove ops (f_inner dir) (pb_filename (f_path_buf f))).

(** ** Methods of the inode *)
Definition file_mkdir (f : File H) (name : string) : vfs S unit := io_mkdir ops (f_inner f) name.
Definition file_rmdir (f : File H) (name : string) : vfs S unit := io_rmdir ops (f_inner f) name.
Definition file_remove (f : File H) (name : string) : vfs S unit := io_remove ops (f_inner f) name.
Definition file_moveto (f : File H) (path : string) : vfs S (File H) := λ _, Panic.
Definition file_read_dir (f : File H) : vfs S (list DirEntry) := io_read_dir ops (f_inner f).
Definition file_lookup (f : File H) (name : string) : vfs S H := io_lookup ops (f_inner f) name.
Definition file_ioctl (f : File H) (command arg : Z) : vfs S Z := io_ioctl ops (f_inner f) command arg.
Definition file_truncate (f : File H) (size : Z) : vfs S unit := io_truncate ops (f_inner f) size.
Definition file_flush (f : File H) : vfs S unit := io_flush ops (f_inner f).
Definition file_resolve_link (f : File H) : vfs S string := io_resolve_link ops (f_inner f).
Definition file_link (f : File H) (name : string) (src : H) : vfs S unit := io_link ops (f_inner f) name src.
Definition file_unlink (f : File H) (name : string) : vfs S unit := io_unlink ops (f_inner f) name.
Definition file_symlink (f : File H) (name target : string) : vfs S unit := io_symlink ops (f_inner f) name target.
Definition file_mount (f : File H) (path : string) : vfs S unit := io_mount ops (f_inner f) path.
Definition file_umount (f : File H) : vfs S unit := io_umount ops (f_inner f).
Definition file_statfs (f : File H) (statfs : StatFS) : vfs S StatFS := io_statfs ops (f_inner f) statfs.
Definition file_utimes (f : File H) (t0 t1 : TimeSpec) : vfs S unit := io_utimes ops (f_inner f) t0 t1.
Definition file_poll (f : File H) (events : Z) : vfs S Z := io_poll ops (f_inner f) events.

Definition check_writeable (f : File H) : result unit :=
  if contains (f_flags f) O_RDWR || contains (f_flags f) O_WRONLY then Ok tt else Err EPERM.

Definition file_size (f : File H) : vfs S Z :=
  vfs_bind (io_stat ops (f_inner f) stat_default) (λ st, vfs_ok (st_size st)).

Definition file_type (f : File H) : vfs S FileType :=
  vfs_bind (io_stat ops (f_inner f) stat_default) (λ st s,
    ty ← file_type_from (st_mode st); Val (Ok ty, s)).

Definition file_stat (f : File H) (stat : Stat) : vfs S Stat :=
  vfs_bind (io_stat ops (f_inner f) stat) (λ st, vfs_ok (stat_set_dev 0 st)).

(** ** Reading and writing

    The file is shared through its [Arc]; the operations return it with its
    new offset. *)
Definition file_readat (f : File H) (offset : Z) (n : nat) : vfs S (list Z) :=
  io_readat ops (f_inner f) offset n.

Definition file_writeat (f : File H) (offset : Z) (buffer : list Z) : vfs S Z := λ s,
  match check_writeable f with
  | Err e => Val (Err e, s)
  | Ok _ => if bool_decide (length buffer = 0%nat) then Val (Ok 0, s)
            else io_writeat ops (f_inner f) offset buffer s
  end.

(** [.map(|x| { *self.offset.lock() += x; x })] *)
Definition advance {B} (f : File H) (count : B → Z) (r : result B) : result B * File H :=
  match r with
  | Ok x => (Ok x, set_offset f (f_offset f +w count x))
  | Err e => (Err e, f)
  end.

Definition file_read (f : File H) (n : nat) (s : S) : outcome (result (list Z) * File H * S) :=
  '(r, s') ← io_readat ops (f_inner f) (f_offset f) n s;
  Val (advance f (λ bs, Z.of_nat (length bs)) r, s').

Definition file_write (f : File H) (buffer : list Z) (s : S) : outcome (result Z * File H * S) :=
  match check_writeable f with
  | Err e => Val (Err e, f, s)
  | Ok _ =>
      if bool_decide (length buffer = 0%nat) then Val (Ok 0, f, s)
      else
        '(r, s') ← io_writeat ops (f_inner f) (f_offset f) buffer s;
        Val (advance f id r, s')
  end.

(** One poll of [async_read] and [async_write]. *)
Definition async_read (f : File H) (n : nat) (s : S)
  : outcome (Poll (result (list Z)) * File H * S) :=
  if contains (f_flags f) O_NONBLOCK then
    '(r, s') ← io_readat ops (f_inner f) (f_offset f) n s;
    let '(r, f') := advance f (λ bs, Z.of_nat (length bs)) r in Val (Ready r, f', s')
  else
    '(p, s') ← wait_blocking_read ops (f_inner f) (f_offset f) n s;
    match p with
    | Pending => Val (Pending, f, s')
    | Ready r => let '(r, f') := advance f (λ bs, Z.of_nat (length bs)) r in Val (Ready r, f', s')
    end.

Definition async_write (f : File H) (buffer : list Z) (s : S)
  : outcome (Poll (result Z) * File H * S) :=
  if bool_decide (length buffer = 0%nat) then Val (Ready (Ok 0), f, s)
  else
    '(p, s') ← wait_blocking_write ops (f_inner f) (f_offset f) buffer s;
    match p with
    | Pending => Val (Pending, f, s')
    | Ready r => let '(r, f') := advance f id r in Val (Ready r, f', s')
    end.

(** ** [File::seek] *)
Definition file_seek (f : File H) (seek_from : SeekFrom) (s : S) : outcome (result Z * File H * S) :=
  '(r, s') ← io_stat ops (f_inner f) stat_default s;
  match r with
  | Err e => Val (Err e, f, s')
  | Ok stat =>
      let new_off := match seek_from with
                     | SEEK_SET off => as_isize off
                     | SEEK_CURRENT off => as_isize (wrap (as_isize (f_offset f) + off))
                     | SEEK_END off => as_isize (wrap (as_isize (st_size stat) + off))
                     end in
      let new_off := if new_off <? 0 then 0 else new_off in
      Val (Ok (as_usize new_off), set_offset f (as_usize new_off), s')
  end.

(** ** [File::getdents] *)
Definition MAX_ENTRIES : nat := 50.
(** [size_of::<Dirent64>()]: two words, [u16], [u8], padded to eight bytes. *)
Definition DIRENT64_SIZE : nat := 24.

Definition entry_len (x : DirEntry) : nat := DIRENT64_SIZE + String.length (de_filename x) + 1.

(** Bytes the records of [xs] take. *)
Definition dirents_len (xs : list DirEntry) : nat := foldr (λ x n, entry_len x + n)%nat 0%nat xs.

(** The loop over the entries from index [i]; [room] is the free space of the
    buffer and [budget] the entries it may still take.  The result lists the
    entries written and the index after the last of them ([finished]). *)
Fixpoint getdents_loop (entries : list DirEntry) (i room budget : nat) (finished : nat)
  : list DirEntry * nat :=
  match entries with
  | [] => ([], finished)
  | x :: entries =>
      match budget with
      | O => ([], finished)
      | Datatypes.S budget =>
          if bool_decide (room < entry_len x)%nat then ([], finished)
          else let '(out, fin) := getdents_loop entries (i + 1) (room - entry_len x) budget (i + 1) in
               (x :: out, fin)
      end
  end.

(** The bytes of one record: [ino], [off], [reclen], [ftype], then the name
    and its terminator from byte 19 on; the rest of the record keeps the
    bytes of the buffer. *)
Definition str_bytes (s : string) : list Z :=
  (λ c, Z.of_nat (nat_of_ascii c)) <$> String.list_ascii_of_string s.

Definition dirent_bytes (x : DirEntry) : list Z :=
  let current_len := Z.of_nat (entry_len x) in
  le_bytes 8 0 ++ le_bytes 8 current_len ++ le_bytes 2 current_len ++ le_bytes 1 0 ++
  str_bytes (de_filename x) ++ [0].

(** Writing the records into the buffer one after the other. *)
Fixpoint write_dirents (xs : list DirEntry) (buffer : list Z) : list Z :=
  match xs with
  | [] => buffer
  | x :: xs =>
      let d := dirent_bytes x in
      d ++ drop (length d) (take (entry_len x) buffer) ++ write_dirents xs (drop (entry_len x) buffer)
  end.

Definition getdents (f : File H) (buffer : list Z) (s : S)
  : outcome (result Z * list Z * File H * S) :=
  '(r, s') ← io_read_dir ops (f_inner f) s;
  match r with
  | Err _ => Val (Ok 0, buffer, f, s')
  | Ok dir_entries =>
      let start := Z.to_nat (f_offset f) in
      let '(out, finished) :=
        getdents_loop (drop start dir_entries) start (length buffer) MAX_ENTRIES 0 in
      Val (Ok (Z.of_nat (dirents_len out)), write_dirents out buffer,
           set_offset f (Z.of_nat finished), s')
  end.
End file.
#[global] Arguments entry_len : simpl never.
#[global] Arguments dirents_len : simpl never.

(** ** Directory listing *)
(** What a C library does with the buffer: a record's length is at byte 16,
    its name runs from byte 19 to the first zero byte. *)
Fixpoint c_string (bs : list Z) : string :=
  match bs with
  | [] => EmptyString
  | b :: bs => if b =? 0 then EmptyString else String (ascii_of_nat (Z.to_nat b)) (c_string bs)
  end.

Fixpoint parse_dirents (fuel : nat) (bs : list Z) : list string :=
  match fuel with
  | O => []
  | S fuel =>
      match bs with
      | [] => []
      | _ => let reclen := Z.to_nat (nth 16 bs 0 + 256 * nth 17 bs 0) in
             c_string (drop 19 bs) :: parse_dirents fuel (drop reclen bs)
      end
  end.

(** Names the code can represent: no zero byte, record length below 2^16. *)
Definition name_ok (x : DirEntry) : Prop :=
  Forall (λ c, c ≠ Ascii.zero) (String.list_ascii_of_string (de_filename x)) ∧ Z.of_nat (entry_len x) < 65536.

Lemma length_str_bytes s : length (str_bytes s) = String.length s.
Proof.
  unfold str_bytes. rewrite length_fmap. induction s as [|c s IH]; simpl; [done|]. by rewrite IH.
Qed.

Lemma length_dirent_bytes x : length (dirent_bytes x) = (20 + String.length (de_filename x))%nat.
Proof. unfold dirent_bytes. rewrite !length_app, !length_le_bytes, length_str_bytes. simpl. lia. Qed.

Lemma c_string_str_bytes s l :
  Forall (λ c, c ≠ Ascii.zero) (String.list_ascii_of_string s) → c_string (str_bytes s ++ 0 :: l) = s.
Proof.
  unfold str_bytes. induction s as [|c s IH]; simpl; [done|]. intros Hs. inversion_clear Hs as [|? ? Hc Hs'].
  destruct (Z.eqb_spec (Z.of_nat (nat_of_ascii c)) 0) as [E|E].
  - destruct Hc. assert (nat_of_ascii c = 0%nat) as E' by lia.
    rewrite <- (ascii_nat_embedding c), E'. done.
  - rewrite Nat2Z.id, ascii_nat_embedding. f_equal. by apply IH.
Qed.

Lemma le_bytes_2 v : 0 ≤ v < 65536 → nth 0 (le_bytes 2 v) 0 + 256 * nth 1 (le_bytes 2 v) 0 = v.
Proof. 
  intros Hv. unfold le_bytes. cbn [seq fmap list_fmap nth].
  change (256 ^ Z.of_nat 0) with 1. change (256 ^ Z.of_nat 1) with 256.
  Z.to_euclidean_division_equations. lia.
 Qed.

(** A record at the front of the buffer is parsed as its name. *)
Lemma parse_record x pad tail fuel :
  name_ok x → (length pad + length (dirent_bytes x) = entry_len x)%nat →
  parse_dirents (S fuel) ((dirent_bytes x ++ pad) ++ tail) = de_filename x :: parse_dirents fuel tail.
Proof.
  intros [Hz Hl] Hpad. set (bs := (dirent_bytes x ++ pad) ++ tail).
  set (v := Z.of_nat (entry_len x)).
  assert (bs = (le_bytes 8 0 ++ le_bytes 8 v) ++ le_bytes 2 v ++ le_bytes 1 0 ++
               str_bytes (de_filename x) ++ 0 :: pad ++ tail) as E.
  { unfold bs, dirent_bytes. fold v. by rewrite <- !app_assoc. }
  assert (Z.to_nat (nth 16 bs 0 + 256 * nth 17 bs 0) = entry_len x) as Hrec.
  { rewrite E, !app_nth2 by (rewrite length_app, !length_le_bytes; lia).
    rewrite length_app, !length_le_bytes. cbn [Nat.add Nat.sub].
    rewrite !app_nth1 by (rewrite length_le_bytes; lia).
    rewrite le_bytes_2 by (unfold v; lia). unfold v. lia. }
  assert (drop 19 bs = str_bytes (de_filename x) ++ 0 :: pad ++ tail) as Hname.
  { rewrite E, !app_assoc. rewrite <- (app_assoc _ (str_bytes _)). apply drop_app_length'.
    by rewrite !length_app, !length_le_bytes. }
  assert (drop (entry_len x) bs = tail) as Htail.
  { unfold bs. apply drop_app_length'. rewrite length_app. lia. }
  assert (bs ≠ []) as Hne by (rewrite E; by unfold le_bytes). 
  cbn [parse_dirents]. destruct bs as [|b bs0] eqn:Eb; [done|]. rewrite <- Eb in *.
  by rewrite Hrec, Hname, Htail, c_string_str_bytes.
Qed.

Lemma dirents_len_cons x xs : dirents_len (x :: xs) = (entry_len x + dirents_len xs)%nat.
Proof. done. Qed.

Lemma write_dirents_spec xs : ∀ buffer fuel,
  Forall name_ok xs → (dirents_len xs ≤ length buffer)%nat → (length xs < fuel)%nat →
  length (write_dirents xs buffer) = length buffer ∧
  parse_dirents fuel (take (dirents_len xs) (write_dirents xs buffer)) = de_filename <$> xs.
Proof.
  induction xs as [|x xs IH]; intros buffer fuel Hok Hlen Hf.
  { simpl. split; [done|]. rewrite take_0. by destruct fuel. }
  inversion_clear Hok as [|? ? Hx Hxs]. rewrite dirents_len_cons in Hlen.
  destruct fuel as [|fuel]; [lia|].
  assert (length (dirent_bytes x) + 5 = entry_len x)%nat as Hd
    by (rewrite length_dirent_bytes; unfold entry_len, DIRENT64_SIZE; lia).
  destruct (IH (drop (entry_len x) buffer) fuel) as [H1 H2]; [done|rewrite length_drop; lia|simpl in Hf; lia|].
  rewrite dirents_len_cons. cbn [write_dirents fmap list_fmap]. cbv zeta.
  set (pad := drop (length (dirent_bytes x)) (take (entry_len x) buffer)).
  assert (length pad = 5)%nat as Hpad by (unfold pad; rewrite length_drop, length_take; lia).
  rewrite app_assoc. split.
  - rewrite !length_app, H1, length_drop. lia.
  - rewrite take_app_add' by (rewrite length_app; lia).
    rewrite parse_record by (done || lia). f_equal. exact H2.
Qed.

(** ** The loop *)
Lemma getdents_loop_spec entries : ∀ i room budget fin,
  ∃ out rest, getdents_loop entries i room budget fin =
      (out, if bool_decide (out = []) then fin else (i + length out)%nat) ∧
    entries = out ++ rest ∧ (dirents_len out ≤ room)%nat ∧
    ∀ x rest', rest = x :: rest' → length out = budget ∨ (room - dirents_len out < entry_len x)%nat.
Proof.
  induction entries as [|x entries IH]; intros i room budget fin; simpl.
  { exists [], []. split_and!; try done. apply Nat.le_0_l. }
  destruct budget as [|budget].
  { exists [], (x :: entries). split_and!; try done; [apply Nat.le_0_l|auto]. }
  case_bool_decide as Hroom.
  { exists [], (x :: entries). split_and!; try done; [apply Nat.le_0_l|].
    intros y rest' [= -> _]. right. change (dirents_len []) with 0%nat. lia. }
  destruct (IH (i + 1)%nat (room - entry_len x)%nat budget (i + 1)%nat) as (out & rest & -> & -> & Hs & Hr).
  exists (x :: out), rest. split; [|split; [done|split]].
  - rewrite (bool_decide_eq_false_2 (x :: out = [])) by done. f_equal.
    case_bool_decide; subst; simpl; lia.
  - rewrite dirents_len_cons. lia.
  - intros y rest' ->. rewrite dirents_len_cons.
    destruct (Hr y rest' eq_refl); [left; simpl; lia|right; lia].
Qed.

Lemma entries_min_size xs : (25 * length xs ≤ dirents_len xs)%nat.
Proof. 
  induction xs as [|x xs IH]; [apply Nat.le_0_l|]. rewrite dirents_len_cons. simpl length.
  unfold entry_len, DIRENT64_SIZE. lia.
 Qed.

(** ** Listing a directory

    What [readdir] does: call [getdents] on the same buffer until it returns
    0, collecting the names. *)
Section list_dir.
Context {S H : Type} (ops : INodeOps S H).

Fixpoint list_dir (fuel : nat) (f : File H) (buffer : list Z) (s : S) : outcome (list string) :=
  match fuel with
  | O => Panic
  | Datatypes.S fuel =>
      '(r, buffer', f', s') ← getdents ops f buffer s;
      match r with
      | Ok n => if n =? 0 then Val []
                else rest ← list_dir fuel f' buffer' s';
                     Val (parse_dirents (length buffer') (take (Z.to_nat n) buffer') ++ rest)
      | Err _ => Panic
      end
  end.

Lemma list_dir_from entries s f n : ∀ buffer k fuel,
  (∀ s0, s0 = s → io_read_dir ops (f_inner f) s0 = Val (Ok entries, s0)) →
  Forall name_ok entries → Forall (λ x, (entry_len x ≤ n)%nat) entries → length buffer = n →
  (k ≤ length entries)%nat → (length entries - k < fuel)%nat →
  list_dir fuel (set_offset f (Z.of_nat k)) buffer s = Val (de_filename <$> drop k entries).
Proof.
  intros buffer k fuel Hrd Hok Hfit. revert buffer k. induction fuel as [|fuel IH]; intros buffer k Hb Hk Hf; [lia|].
  cbn [list_dir]. unfold getdents. simpl f_inner. rewrite Hrd by done. cbn [mbind outcome_bind].
  simpl f_offset. rewrite Nat2Z.id.
  destruct (getdents_loop_spec (drop k entries) k (length buffer) MAX_ENTRIES 0) as (out & rest & -> & Hdrop & Hsum & Hstop).
  cbn [mbind outcome_bind].
  assert (Forall name_ok out ∧ Forall name_ok rest) as [Hok1 Hok2].
  { apply Forall_app. rewrite <- Hdrop. by apply Forall_drop. }
  destruct out as [|x out].
  - simpl. destruct rest as [|x rest]; [by rewrite Hdrop|]. exfalso.
    destruct (Hstop x rest eq_refl) as [Hl|Hl]; [done|]. change (dirents_len []) with 0%nat in Hl.
    assert (x ∈ entries) as Hin by (rewrite <- (take_drop k entries), Hdrop; set_solver).
    rewrite Forall_forall in Hfit. specialize (Hfit x Hin). simpl in Hfit. lia.
  - rewrite bool_decide_eq_false_2 by done.
    assert (0 < dirents_len (x :: out))%nat as Hpos
      by (rewrite dirents_len_cons; unfold entry_len, DIRENT64_SIZE; lia).
    destruct (Z.eqb_spec (Z.of_nat (dirents_len (x :: out))) 0); [lia|].
    assert (length (drop k entries) = length (x :: out) + length rest)%nat as Hlen
      by (rewrite Hdrop, length_app; lia). rewrite length_drop in Hlen.
    pose proof (entries_min_size (x :: out)) as Hmin.
    destruct (write_dirents_spec (x :: out) buffer (length buffer) Hok1 Hsum) as [H1 H2].
    { simpl length in *. lia. }
    change (set_offset (set_offset f (Z.of_nat k)) (Z.of_nat (k + length (x :: out))))
      with (set_offset f (Z.of_nat (k + length (x :: out)))).
    rewrite IH; [|by rewrite H1|simpl in *; lia|simpl in *; lia]. cbn [mbind outcome_bind].
    rewrite H1, Nat2Z.id, H2. f_equal. rewrite Hdrop, <- drop_drop, Hdrop.
    rewrite drop_app_length, fmap_app. done.
Qed.
End list_dir.

(** C30: Listing a directory with [getdents] from the start, with any buffer
    that holds the longest record, terminates and yields the name of every
    entry exactly once and in order, whatever the number of calls the buffer
    and the 50-entry limit make necessary. *)
Theorem getdents_lists_all {S H} (ops : INodeOps S H) (f : File H) s entries buffer :
  io_read_dir ops (f_inner f) s = Val (Ok entries, s) →
  f_offset f = 0 → Forall name_ok entries →
  Forall (λ x, (entry_len x ≤ length buffer)%nat) entries →
  list_dir ops (Datatypes.S (length entries)) f buffer s = Val (de_filename <$> entries).
Proof.
  intros Hrd Hoff Hok Hfit.
  assert (f = set_offset f (Z.of_nat 0)) as -> by (destruct f; simpl in *; by subst).
  rewrite (list_dir_from ops entries s f (length buffer)); try done; [|lia|lia].
  intros s0 ->. exact Hrd.
Qed.

(** A directory of three entries listed through a buffer that holds two. *)
Definition demo_entries : list DirEntry :=
  [mkDirEntry "a" 0 FT_File; mkDirEntry "bc" 1 FT_Directory; mkDirEntry "def" 2 FT_File].

Definition demo_dir_ops : INodeOps unit unit :=
  let d := inode_default unit unit in
  mkINodeOps _ _ (io_readat d) (io_writeat d) (io_create d) (io_mkdir d) (io_rmdir d) (io_remove d)
    (λ _, vfs_ok demo_entries) (io_lookup d) (io_truncate d) (io_link d) (io_unlink d) (io_stat d)
    (io_utimes d) (io_poll d) (io_ioctl d) (io_flush d) (io_resolve_link d) (io_symlink d) (io_mount d)
    (io_umount d) (io_statfs d).

Lemma getdents_lists_all_witness :
  list_dir demo_dir_ops 4 (new_dev tt) (replicate 60 0) tt = Val ["a"; "bc"; "def"]%string.
Proof.
  apply (getdents_lists_all demo_dir_ops (new_dev tt) tt demo_entries (replicate 60 0)).
  - reflexivity.
  - reflexivity.
  - repeat constructor; vm_compute; congruence.
  - repeat constructor; vm_compute; lia.
Defined.

(** ** Regular files

    What [File] relies on of the inode of a regular file whose contents in
    store [s] are [data s]; [room s off buf] says the write fits. *)
Record inode_file_laws {S H} (ops : INodeOps S H) (h : H) (inv : S → Prop) (data : S → list Z)
    (room : S → Z → list Z → Prop) : Prop := {
  law_read s off n : inv s → 0 ≤ off →
    io_readat ops h off n s = Val (Ok (take n (drop (Z.to_nat off) (data s))), s);
  law_write s off buf : inv s → 0 ≤ off → room s off buf →
    ∃ s', io_writeat ops h off buf s = Val (Ok (Z.of_nat (length buf)), s') ∧ inv s' ∧
      data s' = write_spec (Z.to_nat off) buf (data s);
  law_stat s st : inv s → ∃ st', io_stat ops h st s = Val (Ok st', s) ∧
    st_size st' = Z.of_nat (length (data s))
}.

Lemma as_isize_small x : 0 ≤ x < 2 ^ 63 → as_isize x = x.
Proof. intros Hx. unfold as_isize. by rewrite (proj2 (Z.ltb_lt _ _)) by lia. Qed.

Section file_props.
Context {S H : Type} {ops : INodeOps S H} {f : File H} {inv : S → Prop} {data : S → list Z}
  {room : S → Z → list Z → Prop} (laws : inode_file_laws ops (f_inner f) inv data room).

Lemma seek_set s off :
  inv s → 0 ≤ off < 2 ^ 63 → file_seek ops f (SEEK_SET off) s = Val (Ok off, set_offset f off, s).
Proof.
  intros Hi Hoff. unfold file_seek.
  destruct (law_stat _ _ _ _ _ laws s stat_default Hi) as (st & -> & _).
  cbn [mbind outcome_bind]. rewrite as_isize_small by done.
  rewrite (proj2 (Z.ltb_ge _ _)) by lia. unfold as_usize. by rewrite wrap_small by word_lia.
Qed.

(** C32: On a regular file opened for writing, writing a buffer advances the
    offset by its length and reading after seeking back to the start of the
    write returns the buffer and leaves the offset at its end; seeking to the
    end goes to the size of the file, and seeking before the start clamps to
    0. *)
Theorem file_write_seek_read s buffer :
  inv s → check_writeable f = Ok tt → 0 ≤ f_offset f → buffer ≠ [] →
  f_offset f + Z.of_nat (length buffer) < 2 ^ 63 → room s (f_offset f) buffer →
  ∃ s', file_write ops f buffer s =
      Val (Ok (Z.of_nat (length buffer)), set_offset f (f_offset f + Z.of_nat (length buffer)), s') ∧
    inv s' ∧
    let f1 := set_offset f (f_offset f + Z.of_nat (length buffer)) in
    file_seek ops f1 (SEEK_SET (f_offset f)) s' = Val (Ok (f_offset f), f, s') ∧
    file_read ops f (length buffer) s' = Val (Ok buffer, f1, s') ∧
    (Z.of_nat (length (data s')) < 2 ^ 63 →
      file_seek ops f (SEEK_END 0) s' =
        Val (Ok (Z.of_nat (length (data s'))), set_offset f (Z.of_nat (length (data s'))), s')) ∧
    file_seek ops f (SEEK_CURRENT (- f_offset f - 1)) s' = Val (Ok 0, set_offset f 0, s').
Proof.
  intros Hi Hcw Hoff Hne Hw Hroom.
  destruct (law_write _ _ _ _ _ laws s (f_offset f) buffer Hi Hoff Hroom) as (s' & Ew & Hi' & Hd).
  exists s'. unfold file_write. rewrite Hcw, bool_decide_eq_false_2 by (by destruct buffer).
  rewrite Ew. cbn [mbind outcome_bind advance]. unfold id. rewrite wadd_small by word_lia.
  split; [done|]. split; [done|]. cbv zeta. unfold file_seek. simpl f_inner.
  destruct (law_stat _ _ _ _ _ laws s' stat_default Hi') as (st & -> & Hst).
  cbn [mbind outcome_bind]. split_and!.
  - rewrite as_isize_small, (proj2 (Z.ltb_ge _ _)) by lia.
    unfold as_usize. rewrite wrap_small by word_lia. by destruct f.
  - unfold file_read. rewrite (law_read _ _ _ _ _ laws) by done. cbn [mbind outcome_bind advance].
    rewrite Hd. unfold write_spec. rewrite read_splice by (rewrite length_app, length_replicate; lia).
    by rewrite wadd_small by word_lia.
  - intros Hsz. rewrite Hst, (as_isize_small (Z.of_nat _)), Z.add_0_r by lia.
    rewrite (wrap_small (Z.of_nat _)) by word_lia.
    rewrite as_isize_small, (proj2 (Z.ltb_ge _ _)) by lia.
    unfold as_usize. by rewrite wrap_small by word_lia.
  - rewrite (as_isize_small (f_offset f)) by lia.
    replace (f_offset f + (- f_offset f - 1)) with (-1) by lia.
    change (as_isize (wrap (-1))) with (-1). done.
Qed.
End file_props.
