(* ===== verification/Fs.v ===== *)
(** * Files of the RAM file system behind [File]

    The RAM file system satisfies what [File] relies on of a regular file, so
    the theorems about [File] hold for it. *)

From S2P Require Import Prelude Frame Vfs Path Bytes RamFs File.
Local Open Scope Z_scope.

Section ramfs_file.
Context {A : Type} `{FrameSource A} (addr : Z) (id : nat).

Definition rfile_inv (s : RamStore (A := A)) : Prop :=
  ∃ f, rs_files s !! id = Some f ∧ file_ok f (rs_alloc s) (rs_ram s).

Definition rfile_data (s : RamStore (A := A)) : list Z :=
  match rs_files s !! id with Some f => file_data f (rs_ram s) | None => [] end.

(** The write stays within the address range and enough frames are free. *)
Definition rfile_room (s : RamStore (A := A)) (off : Z) (buf : list Z) : Prop :=
  off + Z.of_nat (length buf) ≤ MAX64 - PAGE_SIZE ∧
  ∀ f, rs_files s !! id = Some f → (frames_needed f off buf ≤ size (fs_free (rs_alloc s)))%nat.

Lemma ramfs_file_laws :
  inode_file_laws (ramfs_ops addr) (NFile id) rfile_inv rfile_data rfile_room.
Proof.
  split.
  - intros s off n (f & Hf & Hok) Hoff. simpl. unfold on_file, rfile_data. rewrite Hf.
    cbn [unwrap mbind outcome_bind]. by rewrite (rf_readat_data f (rs_alloc s)) by done.
  - intros s off buf (f & Hf & Hok) Hoff [Hw Hn]. simpl. unfold on_file. rewrite Hf.
    cbn [unwrap mbind outcome_bind].
    destruct (rf_writeat_full f (rs_alloc s) (rs_ram s) off buf) as (f' & al' & ram' & -> & Hok' & Hd);
      [done..|by apply Hn|].
    cbn [mbind outcome_bind]. eexists. split; [done|]. unfold rfile_inv, rfile_data. simpl.
    rewrite lookup_insert_eq, Hf. split; [by eexists|done].
  - intros s st (f & Hf & Hok). simpl. unfold on_file, rfile_data. rewrite Hf.
    cbn [unwrap mbind outcome_bind]. eexists. split; [done|].
    rewrite (length_file_data _ _ _ Hok). pose proof (fo_len _ _ _ Hok).
    unfold rf_stat. destruct (rf_times f) as [[? ?] ?]. simpl. lia.
Qed.
End ramfs_file.

(** Writing to the empty file [x] of the demo store. *)
Lemma file_write_seek_read_witness :
  ∃ s', file_write (ramfs_ops 0) (mkFile (NFile 1) ["x"%string] 0 O_RDWR) [10; 20; 30] demo_store_x
          = Val (Ok 3, mkFile (NFile 1) ["x"%string] 3 O_RDWR, s') ∧
        file_read (ramfs_ops 0) (mkFile (NFile 1) ["x"%string] 0 O_RDWR) 3 s'
          = Val (Ok [10; 20; 30], mkFile (NFile 1) ["x"%string] 3 O_RDWR, s').
Proof.
  destruct (file_write_seek_read (f := mkFile (NFile 1) ["x"%string] 0 O_RDWR)
    (ramfs_file_laws 0 1) demo_store_x [10; 20; 30]) as (s' & H1 & _ & _ & H2 & _).
  - exists (ram_file_new "x"). split; [reflexivity|]. apply empty_file_ok; [apply demo_fa_wf|].
    intros p Hp. apply demo_ram_zero. rewrite <- demo_fa_all_free. exact Hp.
  - reflexivity.
  - simpl. lia.
  - discriminate.
  - vm_compute. reflexivity.
  - split; [vm_compute; congruence|]. intros f Hf. rewrite demo_store_x_eq in *. simpl in Hf.
    simplify_map_eq. vm_compute. lia.
  - exists s'. split; [exact H1|exact H2].
Defined.
