(* ===== verification/DevFs.v ===== *)
(** * Devices and kernel information as files ([filesystem/devfs],
      [filesystem/procfs])

    The nodes of [/dev] and [/proc] as inodes: the terminal, the null, zero and
    random devices, the block devices' mount hooks, and files whose text is
    computed on every read. *)

From Stdlib Require Import Ascii Sorted.
From S2P Require Import Prelude Vfs Path File.
Local Open Scope Z_scope.

(** ** Maps ordered by name ([BTreeMap<&str, _>]) *)
Section btree.
Context {A : Type}.

Fixpoint bt_insert (k : string) (v : A) (m : list (string * A)) : list (string * A) :=
  match m with
  | [] => [(k, v)]
  | (k', v') :: m' =>
      match String.compare k k' with
      | Lt => (k, v) :: m
      | Eq => (k, v) :: m'
      | Gt => (k', v') :: bt_insert k v m'
      end
  end.

Fixpoint bt_get (k : string) (m : list (string * A)) : option A :=
  match m with
  | [] => None
  | (k', v) :: m => if decide (k = k') then Some v else bt_get k m
  end.
End btree.

(** ** Terminals *)
Record Termios := mkTermios {
  tio_iflag : Z; tio_oflag : Z; tio_cflag : Z; tio_lflag : Z; tio_line : Z; tio_cc : list Z; tio_ispeed : Z; tio_ospeed : Z
}.
Definition termios_default : Termios :=
  mkTermios 0x6d02 5 0x4bf 0x8a3b 0 [3; 28; 127; 21; 4; 0; 1; 0; 17; 19; 26; 255; 18; 15; 23; 22; 255; 0; 0; 0; 0] 0 0.

Record WinSize := mkWinSize { ws_row : Z; ws_col : Z; ws_xpixel : Z; ws_ypixel : Z }.
Definition winsize_default : WinSize := mkWinSize 24 140 0 0.

Record Tty := mkTty { tty_buffer : list Z; tty_termios : Termios; tty_pgid : Z; tty_winsize : WinSize }.
Definition tty_new : Tty := mkTty [] termios_default 0 winsize_default.

(** [Sdx]: a block device and where it is mounted. *)
Record Sdx := mkSdx { sdx_device_id : Z; sdx_mount_paths : list string }.

(** ** The nodes and their store *)
Inductive DevNode :=
  | DDevDir | DTty (id : nat) | DNull | DZero | DShm | DRtc | DUrandom | DCpuDmaLatency | DSdx (id : nat)
  | DProcDir | DMounts | DMemInfo | DInterrupts | DVersion | DProcStat | DCpuInfo.

(** [ds_input]: characters that have arrived at the console and were not
    fetched by [get_char]; [ds_output]: what [puts] printed. *)
Record DevStore := mkDevStore {
  ds_map : list (string * DevNode);
  ds_ttys : list Tty;
  ds_sdx : list Sdx;
  ds_input : list Z;
  ds_output : list Z
}.

Definition set_tty (id : nat) (t : Tty) (s : DevStore) : DevStore :=
  mkDevStore (ds_map s) (<[id := t]> (ds_ttys s)) (ds_sdx s) (ds_input s) (ds_output s).
Definition set_input (l : list Z) (s : DevStore) : DevStore := mkDevStore (ds_map s) (ds_ttys s) (ds_sdx s) l (ds_output s).
Definition set_output (l : list Z) (s : DevStore) : DevStore := mkDevStore (ds_map s) (ds_ttys s) (ds_sdx s) (ds_input s) l.
Definition set_sdx (id : nat) (x : Sdx) (s : DevStore) : DevStore :=
  mkDevStore (ds_map s) (ds_ttys s) (<[id := x]> (ds_sdx s)) (ds_input s) (ds_output s).

(** [DevDir::new], in the order of the insertions; every terminal is a new
    object. *)
Definition dev_entries : list (string * DevNode) :=
  [("stdout", DTty 0); ("stderr", DTty 1); ("stdin", DTty 2); ("ttyv0", DTty 3); ("tty", DTty 4); ("console", DTty 5);
   ("null", DNull); ("zero", DZero); ("shm", DShm); ("rtc", DRtc); ("urandom", DUrandom); ("random", DUrandom);
   ("cpu_dma_latency", DCpuDmaLatency)]%string.
Definition insert_all {A} (l : list (string * A)) (m : list (string * A)) : list (string * A) :=
  foldl (λ m x, bt_insert x.1 x.2 m) m l.
Definition dev_store_new : DevStore := mkDevStore (insert_all dev_entries []) (replicate 6 tty_new) [] [] [].

(** [DevDir::add] *)
Definition dev_add (path : string) (node : DevNode) (s : DevStore) : DevStore :=
  mkDevStore (bt_insert path node (ds_map s)) (ds_ttys s) (ds_sdx s) (ds_input s) (ds_output s).

(** [ProcDir::new] *)
Definition proc_entries : list (string * DevNode) :=
  [("mounts", DMounts); ("meminfo", DMemInfo); ("interrupts", DInterrupts); ("version", DVersion); ("stat", DProcStat);
   ("cpuinfo", DCpuInfo)]%string.
Definition proc_map : list (string * DevNode) := insert_all proc_entries [].

(** ** Texts *)
Definition text_of (l : list string) : list Z := concat ((λ x, str_bytes x ++ [10]) <$> l).

Definition version_content : list Z := text_of
  ["Linux version 5.10.0-7-riscv64 (MonkeyOS) (gcc version 9.4.0) #1 SMP PREEMPT Mon Jan 1 00:00:00 UTC 2024"]%string.

Definition stat_content : list Z := text_of [
   "cpu  0 0 0 0 0 0 0 0 0 0";
   "cpu0 0 0 0 0 0 0 0 0 0 0";
   "intr 0";
   "ctxt 0";
   "btime 1640995200";
   "processes 1";
   "procs_running 1";
   "procs_blocked 0";
   "softirq 0 0 0 0 0 0 0 0 0 0 0"]%string.

Definition cpuinfo_content : list Z := text_of [
   "processor	: 0";
   "vendor_id	: MonkeyOS";
   "cpu family	: 0";
   "model		: 0";
   "model name	: MonkeyOS Virtual CPU";
   "stepping	: 0";
   "microcode	: 0x1";
   "cpu MHz		: 1000.000";
   "cache size	: 256 KB";
   "physical id	: 0";
   "siblings	: 1";
   "core id		: 0";
   "cpu cores	: 1";
   "apicid		: 0";
   "initial apicid	: 0";
   "fpu		: yes";
   "fpu_exception	: yes";
   "cpuid level	: 1";
   "wp		: yes";
   "flags		: fpu de pse tsc msr pae mce cx8 apic sep mtrr pge mca cmov pat pse36 clflush mmx fxsr sse sse2";
   "bogomips	: 2000.00";
   "clflush size	: 64";
   "cache_alignment	: 64";
   "address sizes	: 32 bits physical, 32 bits virtual";
   "power management:";
   ""]%string.

Definition meminfo_content : list Z := text_of [
   "MemTotal:        8388608 kB";
   "MemFree:         4194304 kB";
   "MemAvailable:    6291456 kB";
   "Buffers:           65536 kB";
   "Cached:          1048576 kB";
   "SwapCached:            0 kB";
   "Active:          2097152 kB";
   "Inactive:         524288 kB";
   "Active(anon):    1572864 kB";
   "Inactive(anon):   262144 kB";
   "Active(file):     524288 kB";
   "Inactive(file):   262144 kB";
   "Unevictable:           0 kB";
   "Mlocked:               0 kB";
   "SwapTotal:             0 kB";
   "SwapFree:              0 kB";
   "Dirty:                 0 kB";
   "Writeback:             0 kB";
   "AnonPages:       1572864 kB";
   "Mapped:           262144 kB";
   "Shmem:             65536 kB";
   "KReclaimable:     131072 kB";
   "Slab:             262144 kB";
   "SReclaimable:     131072 kB";
   "SUnreclaim:       131072 kB";
   "KernelStack:       16384 kB";
   "PageTables:        32768 kB";
   "NFS_Unstable:          0 kB";
   "Bounce:                0 kB";
   "WritebackTmp:          0 kB";
   "CommitLimit:     4194304 kB";
   "Committed_AS:    2097152 kB";
   "VmallocTotal:   34359738367 kB";
   "VmallocUsed:      131072 kB";
   "VmallocChunk:          0 kB";
   "Percpu:            65536 kB";
   "HardwareCorrupted:     0 kB";
   "AnonHugePages:         0 kB";
   "ShmemHugePages:        0 kB";
   "ShmemPmdMapped:        0 kB";
   "FileHugePages:         0 kB";
   "FilePmdMapped:         0 kB";
   "HugePages_Total:       0";
   "HugePages_Free:        0";
   "HugePages_Rsvd:        0";
   "HugePages_Surp:        0";
   "Hugepagesize:       2048 kB";
   "Hugetlb:               0 kB";
   "DirectMap4k:     2097152 kB";
   "DirectMap2M:     6291456 kB";
   "DirectMap1G:           0 kB"]%string.

(** ** Reading *)
Definition text_readat (content : list Z) (offset : Z) (n : nat) : vfs DevStore (list Z) :=
  if Z.of_nat (length content) <=? offset then vfs_ok []
  else
    let remaining := Z.of_nat (length content) -w offset in
    let copy_len := Z.min remaining (Z.of_nat n) in
    vfs_ok (take (Z.to_nat copy_len) (drop (Z.to_nat offset) content)).

Definition meminfo_readat (offset : Z) (n : nat) : vfs DevStore (list Z) :=
  let content := meminfo_content in
  if Z.of_nat (length content) <=? offset then vfs_ok []
  else
    let end_ := Z.min (offset +w Z.of_nat n) (Z.of_nat (length content)) in
    if end_ <? offset then λ _, Panic
    else vfs_ok (take (Z.to_nat (end_ -w offset)) (drop (Z.to_nat offset) content)).

(** The text is empty; a slice that leaves it is a panic. *)
Definition interrupts_readat (offset : Z) (n : nat) : vfs DevStore (list Z) :=
  let rsize := Z.min (0 -w offset) (Z.of_nat n) in
  if (offset <=? offset +w rsize) && (offset +w rsize <=? 0) then vfs_ok [] else λ _, Panic.

Definition cpu_dma_latency_readat (n : nat) : vfs DevStore (list Z) :=
  vfs_ok (if (1 <? n)%nat then 1 :: replicate (n - 1) 0 else replicate n 0).

(** [devices::utils::get_char]: the UART hands out the characters that arrived
    in order; a character the hardware drops before it can be fetched counts as
    never typed. *)
Definition get_char (s : DevStore) : option Z * DevStore :=
  match ds_input s with
  | [] => (None, s)
  | c :: l => (Some c, set_input l s)
  end.

Definition with_tty {A} (id : nat) (f : Tty → vfs DevStore A) : vfs DevStore A := λ s,
  t ← unwrap (ds_ttys s !! id); f t s.

Definition set_buffer (l : list Z) (t : Tty) : Tty := mkTty l (tty_termios t) (tty_pgid t) (tty_winsize t).

Definition tty_readat (id : nat) (n : nat) : vfs DevStore (list Z) := with_tty id (λ t s,
  _ ← assert_ (0 <? n)%nat;
  if bool_decide (0 < length (tty_buffer t))%nat then
    let rlen := Nat.min n (length (tty_buffer t)) in
    Val (Ok (take rlen (tty_buffer t)), set_tty id (set_buffer (drop rlen (tty_buffer t)) t) s)
  else
    match get_char s with
    | (Some c, s) => Val (Ok [c], s)
    | (None, s) => Val (Err EWOULDBLOCK, s)
    end).

Definition tty_writeat (buffer : list Z) : vfs DevStore Z := λ s,
  Val (Ok (Z.of_nat (length buffer)), set_output (ds_output s ++ buffer) s).

Definition tty_poll (id : nat) (events : Z) : vfs DevStore Z := with_tty id (λ t s,
  let '(res, s) :=
    if contains events POLLIN then
      if bool_decide (0 < length (tty_buffer t))%nat then (POLLIN, s)
      else match get_char s with
           | (Some c, s) => (POLLIN, set_tty id (set_buffer (tty_buffer t ++ [c]) t) s)
           | (None, s) => (POLL_NONE, s)
           end
    else (POLL_NONE, s) in
  let res := if contains events POLLOUT then Z.lor res POLLOUT else res in
  Val (Ok res, s)).

Definition urandom_poll (events : Z) : vfs DevStore Z :=
  vfs_ok (if contains events POLLIN then Z.lor POLL_NONE POLLIN else POLL_NONE).

(** ** Terminal control *)
(** What the argument of an [ioctl] points to, and what is stored there. *)
Inductive TtyArg := ANull | ATermios (t : Termios) | AWord (v : Z) | AWinSize (w : WinSize).

Definition set_termios (v : Termios) (t : Tty) : Tty := mkTty (tty_buffer t) v (tty_pgid t) (tty_winsize t).
Definition set_pgid (v : Z) (t : Tty) : Tty := mkTty (tty_buffer t) (tty_termios t) v (tty_winsize t).
Definition set_winsize (v : WinSize) (t : Tty) : Tty := mkTty (tty_buffer t) (tty_termios t) (tty_pgid t) v.

Definition TeletypeCommand_known (c : Z) : bool :=
  bool_decide (c ∈ [0x5401; 0x5402; 0x5403; 0x5404; 0x5405; 0x5406; 0x5407; 0x5408; 0x540F; 0x5410; 0x5413; 0x5414;
                    0x540E; 0x5422; 0x5429; 0x5450; 0x5451; 0x5421; 0x80247009]).

(** The terminal after the call, the value stored and the result.  A null
    pointer where a structure is expected is a panic. *)
Definition tty_ioctl (command : Z) (arg : TtyArg) (t : Tty) : outcome (result Z * option TtyArg * Tty) :=
  let set_from {A} (f : TtyArg → option A) (g : A → Tty → Tty) :=
    match f arg with Some v => Val (Ok 0, None, g v t) | None => Panic end in
  if negb (TeletypeCommand_known command) then Val (Err EINVAL, None, t)
  else if bool_decide (command ∈ [0x5401; 0x5405]) then
    match arg with ANull => Panic | _ => Val (Ok 0, Some (ATermios (tty_termios t)), t) end
  else if bool_decide (command ∈ [0x5402; 0x5403; 0x5404]) then
    set_from (λ a, match a with ATermios v => Some v | _ => None end) set_termios
  else if command =? 0x540F then
    match arg with ANull => Val (Err EINVAL, None, t) | _ => Val (Ok 0, Some (AWord (tty_pgid t)), t) end
  else if command =? 0x5410 then
    match arg with AWord v => Val (Ok 0, None, set_pgid v t) | ANull => Val (Err EINVAL, None, t) | _ => Panic end
  else if command =? 0x5413 then
    match arg with ANull => Panic | _ => Val (Ok 0, Some (AWinSize (tty_winsize t)), t) end
  else if command =? 0x5414 then
    set_from (λ a, match a with AWinSize v => Some v | _ => None end) set_winsize
  else if command =? 0x5429 then
    match arg with ANull => Val (Err EINVAL, None, t) | _ => Val (Ok 0, Some (AWord 1), t) end
  else if bool_decide (command ∈ [0x540E; 0x5422; 0x5450; 0x5451]) then Val (Ok 0, None, t)
  else Val (Err EPERM, None, t).

(** ** Metadata *)
Definition node_stat (dev mode uid gid size blocks rdev : Z) (st : Stat) : Stat :=
  mkStat dev 1 mode 1 uid gid rdev (st_pad st) size 512 (st_pad2 st) blocks (st_atime st) (st_mtime st) (st_ctime st).
Definition RW_ALL : Z := 0x1b6.
Definition text_stat (content : list Z) : Stat → Stat :=
  let size := Z.of_nat (length content) in node_stat 0 CHAR 1000 1000 size ((size + 511) / 512) 0.

Definition dev_stat (h : DevNode) (st : Stat) : Stat :=
  match h with
  | DDevDir | DProcDir => node_stat 0 DIR 0 0 0 0 0 st
  | DTty _ => node_stat 0x0500 (Z.lor CHAR RW_ALL) 0 0 0 0 0x0500 st
  | DNull => node_stat 0x0103 (Z.lor CHAR RW_ALL) 0 0 0 0 0x0103 st
  | DShm => node_stat 0 DIR 1000 1000 0 0 0 st
  | DZero | DRtc | DUrandom | DCpuDmaLatency | DSdx _ | DMounts | DInterrupts => node_stat 0 CHAR 1000 1000 0 0 0 st
  | DVersion => text_stat version_content st
  | DProcStat => text_stat stat_content st
  | DCpuInfo => text_stat cpuinfo_content st
  | DMemInfo => text_stat meminfo_content st
  end.

Definition dir_entries (m : list (string * DevNode)) : list DirEntry := (λ x, mkDirEntry x.1 0 FT_Device) <$> m.

(** ** The inodes *)
Section devfs.
(** The functions a block device was registered with, and what the argument of
    an [ioctl] points to. *)
Context (mount_fn umount_fn : Z → string → result unit) (user_arg : Z → TtyArg).

Definition sdx_mount (id : nat) (path : string) : vfs DevStore unit := λ s,
  x ← unwrap (ds_sdx s !! id);
  Val (mount_fn (sdx_device_id x) path, set_sdx id (mkSdx (sdx_device_id x) (sdx_mount_paths x ++ [path])) s).

Definition sdx_umount (id : nat) : vfs DevStore unit := λ s,
  x ← unwrap (ds_sdx s !! id);
  path ← unwrap (last (sdx_mount_paths x));
  Val (umount_fn (sdx_device_id x) path, set_sdx id (mkSdx (sdx_device_id x) (removelast (sdx_mount_paths x))) s).

Definition node_ioctl (h : DevNode) (command arg : Z) : vfs DevStore Z :=
  match h with
  | DTty id => with_tty id (λ t s, '(r, _, t) ← tty_ioctl command (user_arg arg) t; Val (r, set_tty id t s))
  | DRtc => if arg =? 0 then λ _, Panic else vfs_ok 0
  | _ => vfs_err EPERM
  end.

Definition dev_ops : INodeOps DevStore DevNode :=
  let d := inode_default DevStore DevNode in {|
  io_readat h off n := match h with
    | DTty id => tty_readat id n
    | DNull | DMounts => vfs_ok []
    | DZero | DUrandom => vfs_ok (replicate n 0)
    | DCpuDmaLatency => cpu_dma_latency_readat n
    | DVersion => text_readat version_content off n
    | DProcStat => text_readat stat_content off n
    | DCpuInfo => text_readat cpuinfo_content off n
    | DMemInfo => meminfo_readat off n
    | DInterrupts => interrupts_readat off n
    | _ => io_readat d h off n
    end;
  io_writeat h off b := match h with
    | DTty _ => tty_writeat b
    | DNull | DZero | DUrandom | DCpuDmaLatency => vfs_ok (Z.of_nat (length b))
    | _ => io_writeat d h off b
    end;
  io_create := io_create d; io_mkdir := io_mkdir d; io_rmdir := io_rmdir d; io_remove := io_remove d;
  io_read_dir h := match h with
    | DDevDir => λ s, Val (Ok (dir_entries (ds_map s)), s)
    | DProcDir => vfs_ok (dir_entries proc_map)
    | _ => io_read_dir d h
    end;
  io_lookup h name := match h with
    | DDevDir => λ s, Val (ok_or (bt_get name (ds_map s)) ENOENT, s)
    | DProcDir => λ s, Val (ok_or (bt_get name proc_map) ENOENT, s)
    | _ => io_lookup d h name
    end;
  io_truncate := io_truncate d; io_link := io_link d; io_unlink := io_unlink d;
  io_stat h st := vfs_ok (dev_stat h st);
  io_utimes := io_utimes d;
  io_poll h ev := match h with DTty id => tty_poll id ev | DUrandom => urandom_poll ev | _ => io_poll d h ev end;
  io_ioctl := node_ioctl; io_flush := io_flush d; io_resolve_link := io_resolve_link d; io_symlink := io_symlink d;
  io_mount h path := match h with DSdx id => sdx_mount id path | _ => io_mount d h path end;
  io_umount h := match h with DSdx id => sdx_umount id | _ => io_umount d h end;
  io_statfs := io_statfs d
|}.
End devfs.

(** ** Names in order *)
Definition str_lt (a b : string) : Prop := String.compare a b = Lt.

Lemma ascii_compare_spec a b : Ascii.compare a b = N.compare (N_of_ascii a) (N_of_ascii b).
Proof. done. Qed.

Lemma str_lt_trans a : ∀ b c, str_lt a b → str_lt b c → str_lt a c.
Proof.
  unfold str_lt. induction a as [|x a IH]; intros [|y b] [|z c]; simpl; try done. rewrite !ascii_compare_spec.
  destruct (N.compare_spec (N_of_ascii x) (N_of_ascii y)) as [E|E|E]; try done;
    destruct (N.compare_spec (N_of_ascii y) (N_of_ascii z)) as [E'|E'|E']; try done; intros H1 H2.
  - rewrite E, E', N.compare_refl. by eapply IH.
  - rewrite E. by rewrite (proj2 (N.compare_lt_iff _ _) E').
  - rewrite <- E'. by rewrite (proj2 (N.compare_lt_iff _ _) E).
  - by rewrite (proj2 (N.compare_lt_iff _ _) (N.lt_trans _ _ _ E E')).
Qed.

Lemma str_lt_irrefl a : ¬ str_lt a a.
Proof. unfold str_lt. induction a as [|x a IH]; simpl; [done|]. by rewrite ascii_compare_spec, N.compare_refl. Qed.

Lemma str_compare_gt a b : String.compare a b = Gt → str_lt b a.
Proof. intros E. unfold str_lt. rewrite String.compare_antisym, E. done. Qed.

Lemma str_compare_eq a b : String.compare a b = Eq → a = b.
Proof. apply String.compare_eq_iff. Qed.

Section btree_facts.
Context {A : Type}.
Implicit Types m : list (string * A).

Definition bt_sorted m : Prop := StronglySorted str_lt m.*1.

Lemma bt_insert_keys k v m k' : k' ∈ (bt_insert k v m).*1 ↔ k' = k ∨ k' ∈ m.*1.
Proof.
  induction m as [|[k0 v0] m IH]; [simpl; set_solver|]. simpl.
  destruct (String.compare k k0) eqn:E; simpl; [apply str_compare_eq in E as ->; set_solver|set_solver|].
  rewrite elem_of_cons, IH. set_solver.
Qed.

Lemma bt_insert_sorted k v m : bt_sorted m → bt_sorted (bt_insert k v m).
Proof.
  unfold bt_sorted. induction m as [|[k0 v0] m IH]; simpl; intros Hs; [repeat constructor|].
  inversion Hs as [|? ? Hs' Hall]; subst. destruct (String.compare k k0) eqn:E; simpl.
  - apply str_compare_eq in E as ->. done.
  - constructor; [done|]. constructor; [done|]. eapply Forall_impl; [exact Hall|]. intros x Hx. by eapply str_lt_trans.
  - constructor; [by apply IH|]. apply Forall_forall. intros x [->|Hx]%bt_insert_keys; [by apply str_compare_gt|].
    by apply (proj1 (Forall_forall _ _) Hall).
Qed.

Lemma bt_get_insert k v m k' : bt_get k' (bt_insert k v m) = if decide (k' = k) then Some v else bt_get k' m.
Proof.
  induction m as [|[k0 v0] m IH]; simpl; [done|]. destruct (String.compare k k0) eqn:E; simpl.
  - apply str_compare_eq in E as ->. by repeat case_decide.
  - done.
  - rewrite IH. assert (k ≠ k0) as Hne by (intros ->; by apply str_compare_gt, str_lt_irrefl in E).
    repeat case_decide; congruence.
Qed.

Lemma bt_get_keys k m : is_Some (bt_get k m) ↔ k ∈ m.*1.
Proof.
  induction m as [|[k0 v0] m IH]; simpl; [split; [by intros []|by intros ?%not_elem_of_nil]|]. rewrite elem_of_cons, <- IH.
  case_decide; naive_solver.
Qed.

Lemma insert_all_sorted l : ∀ m, bt_sorted m → bt_sorted (insert_all l m).
Proof. unfold insert_all. induction l as [|x l IH]; intros m Hm; simpl; [done|]. apply IH. by apply bt_insert_sorted. Qed.
End btree_facts.

Section devfs_props.
Context (mount_fn umount_fn : Z → string → result unit) (user_arg : Z → TtyArg).
Notation ops := (dev_ops mount_fn umount_fn user_arg).

(** Names added to the directory of devices. *)
Definition dev_adds (l : list (string * DevNode)) (s : DevStore) : DevStore := foldl (λ s x, dev_add x.1 x.2 s) s l.

Lemma dev_adds_map l : ∀ s, ds_map (dev_adds l s) = insert_all l (ds_map s).
Proof. unfold dev_adds, insert_all. induction l as [|x l IH]; intros s; simpl; [done|]. by rewrite IH. Qed.

(** The directory of devices lists exactly what can be looked up.  After
    any devices were added to a new [DevFS], [read_dir] lists the names in
    ascending order and each once, [lookup] of a name succeeds exactly when it
    is listed, and a name just added resolves to its node while the others
    resolve as before. *)
Theorem devdir_lists_lookups l name node :
  let s := dev_adds l dev_store_new in
  ∃ es, io_read_dir ops DDevDir s = Val (Ok es, s) ∧ StronglySorted str_lt (de_filename <$> es) ∧
    (∀ k, k ∈ (de_filename <$> es) ↔ ∃ h, io_lookup ops DDevDir k s = Val (Ok h, s)) ∧
    (∀ k, io_lookup ops DDevDir k (dev_add name node s) =
       Val (if decide (k = name) then Ok node else ok_or (bt_get k (ds_map s)) ENOENT, dev_add name node s)).
Proof.
  intros s. exists (dir_entries (ds_map s)). assert (de_filename <$> dir_entries (ds_map s) = (ds_map s).*1) as ->.
  { unfold dir_entries. rewrite <- list_fmap_compose. done. }
  split; [done|]. split.
  { unfold s. rewrite dev_adds_map. apply insert_all_sorted.
    change (ds_map dev_store_new) with (insert_all dev_entries []). apply insert_all_sorted. constructor. }
  split.
  - intros k. rewrite <- bt_get_keys. simpl. destruct (bt_get k (ds_map s)) as [h|]; simpl.
    + split; [eauto|]. intros _. eauto.
    + split; [by intros []|]. by intros [? ?].
  - intros k. simpl. rewrite bt_get_insert. by case_decide.
Qed.

(** *** Files with a text *)
Definition text_content (h : DevNode) : option (list Z) :=
  match h with
  | DVersion => Some version_content | DProcStat => Some stat_content
  | DCpuInfo => Some cpuinfo_content | DMemInfo => Some meminfo_content | _ => None
  end.

(** Read [n] bytes at a time until nothing comes. *)
Fixpoint read_all (fuel : nat) (h : DevNode) (off : Z) (n : nat) : vfs DevStore (list Z) := λ s,
  match fuel with
  | O => Panic
  | S fuel =>
      match io_readat ops h off n s with
      | Val (Ok [], s) => Val (Ok [], s)
      | Val (Ok bs, s) => (rest ←? read_all fuel h (off + Z.of_nat (length bs)) n; vfs_ok (bs ++ rest)) s
      | r => r
      end
  end.

Lemma text_content_small h c : text_content h = Some c → Z.of_nat (length c) < 2 ^ 16.
Proof. intros Hc. destruct h; try discriminate Hc; injection Hc as <-; by vm_compute. Qed.

Lemma text_readat_spec h c off n s :
  text_content h = Some c → 0 ≤ off < 2 ^ 62 → Z.of_nat n < 2 ^ 62 →
  io_readat ops h off n s = Val (Ok (take n (drop (Z.to_nat off) c)), s).
Proof.
  intros Hc Hoff Hn. pose proof (text_content_small h c Hc) as Hs.
  assert (text_readat c off n s = Val (Ok (take n (drop (Z.to_nat off) c)), s)) as Ht.
  { unfold text_readat. destruct (Z.leb_spec (Z.of_nat (length c)) off).
    { rewrite drop_ge by lia. by rewrite take_nil. }
    rewrite wsub_small by word_lia. unfold vfs_ok. do 3 f_equal. destruct (Z.min_spec (Z.of_nat (length c) - off) (Z.of_nat n)) as [[? ->]|[? ->]].
    - rewrite (take_ge _ n) by (rewrite length_drop; lia). apply take_ge. rewrite length_drop. lia.
    - by rewrite Nat2Z.id. }
  destruct h; try discriminate Hc; injection Hc as <-; try exact Ht. clear Ht.
  simpl. unfold meminfo_readat. destruct (Z.leb_spec (Z.of_nat (length meminfo_content)) off).
  { rewrite drop_ge by lia. by rewrite take_nil. }
  rewrite wadd_small by word_lia. destruct (Z.ltb_spec (Z.min (off + Z.of_nat n) (Z.of_nat (length meminfo_content))) off); [lia|].
  rewrite wsub_small by word_lia. unfold vfs_ok. do 3 f_equal.
  destruct (Z.min_spec (off + Z.of_nat n) (Z.of_nat (length meminfo_content))) as [[? ->]|[? ->]].
  - f_equal. lia.
  - rewrite (take_ge _ n) by (rewrite length_drop; lia). apply take_ge. rewrite length_drop. lia.
Qed.

Lemma read_all_from h c n s : text_content h = Some c → (0 < n)%nat → Z.of_nat n < 2 ^ 62 →
  ∀ fuel off, (length c - off < fuel)%nat → Z.of_nat off < 2 ^ 62 →
  read_all fuel h (Z.of_nat off) n s = Val (Ok (drop off c), s).
Proof.
  intros Hc Hn Hn'. pose proof (text_content_small h c Hc) as Hs. induction fuel as [|fuel IH]; intros off Hf Ho; [lia|].
  cbn [read_all]. rewrite (text_readat_spec h c) by (done || lia). rewrite Nat2Z.id.
  destruct (take n (drop off c)) as [|b bs] eqn:E.
  - assert (length (take n (drop off c)) = 0%nat) as El by (by rewrite E). rewrite length_take, length_drop in El. by rewrite drop_ge by lia.
  - assert (length (b :: bs) = Nat.min n (length c - off)) as El by (by rewrite <- E, length_take, length_drop).
    assert (0 < length (b :: bs))%nat as Hpos by (simpl; lia). unfold vfs_bind.
    rewrite <- Nat2Z.inj_add, IH by lia. unfold vfs_ok. rewrite El, <- E. do 3 f_equal.
    rewrite <- (take_drop n (drop off c)) at 2. f_equal. rewrite drop_drop. destruct (Nat.min_spec n (length c - off)) as [[? ->]|[? ->]]; [done|].
    rewrite !drop_ge by lia. done.
Qed.

(** Reading a file of [/proc] to its end terminates and yields its text:
    whatever positive number of bytes is asked for at a time, the reads return
    the text of [version], [stat], [cpuinfo] or [meminfo] in order and without
    gaps, then nothing, in at most one read per byte and one more; and the
    size [stat] reports is the length of that text. *)
Theorem proc_text_read h c n st s :
  text_content h = Some c → (0 < n)%nat → Z.of_nat n < 2 ^ 62 →
  read_all (S (length c)) h 0 n s = Val (Ok c, s) ∧
  ∃ st', io_stat ops h st s = Val (Ok st', s) ∧ st_size st' = Z.of_nat (length c).
Proof.
  intros Hc Hn Hn'. split.
  - rewrite (read_all_from h c n s Hc Hn Hn' _ 0%nat) by lia. by rewrite drop_0.
  - eexists. split; [done|]. destruct h; try discriminate Hc; by injection Hc as <-.
Qed.

(** [/proc/interrupts] stops the kernel: its text is empty, and a read at
    any offset but 0, of any length, leaves the text and panics. *)
Theorem interrupts_read_panics off n s : 0 < off < MAX64 → io_readat ops DInterrupts off n s = Panic.
Proof.
  intros Ho. simpl. unfold interrupts_readat. destruct (Z.leb_spec off (off +w Z.min (0 -w off) (Z.of_nat n))) as [Hl|]; [|done].
  destruct (Z.leb_spec (off +w Z.min (0 -w off) (Z.of_nat n)) 0); [lia|done].
Qed.

(** Reading nothing from a terminal stops the kernel: a read of zero bytes
    reaches the terminal through an open file, blocking or not, and fails its
    assertion. *)
Theorem tty_empty_read_panics id path off flags s : async_read ops (mkFile (DTty id) path off flags) 0 s = Panic.
Proof.
  unfold async_read. simpl. unfold wait_blocking_read, wait_blocking_poll. simpl. unfold tty_readat, with_tty.
  destruct (ds_ttys s !! id); simpl; by destruct (contains flags O_NONBLOCK).
Qed.

(** *** Terminal input *)
(** What happens to one terminal, with the characters typed and delivered so
    far: typing, reads, polls and control calls, in any order. *)
Record TtyHistory := mkTtyHist { th_store : DevStore; th_typed : list Z; th_read : list Z }.

Inductive tty_step (id : nat) : TtyHistory → TtyHistory → Prop :=
  | tty_types s t r c :
      tty_step id (mkTtyHist s t r) (mkTtyHist (set_input (ds_input s ++ [c]) s) (t ++ [c]) r)
  | tty_reads s t r off n bs s' :
      io_readat ops (DTty id) off n s = Val (Ok bs, s') → tty_step id (mkTtyHist s t r) (mkTtyHist s' t (r ++ bs))
  | tty_waits s t r off n e s' :
      io_readat ops (DTty id) off n s = Val (Err e, s') → tty_step id (mkTtyHist s t r) (mkTtyHist s' t r)
  | tty_polls s t r ev res s' :
      io_poll ops (DTty id) ev s = Val (res, s') → tty_step id (mkTtyHist s t r) (mkTtyHist s' t r)
  | tty_writes s t r off b res s' :
      io_writeat ops (DTty id) off b s = Val (res, s') → tty_step id (mkTtyHist s t r) (mkTtyHist s' t r)
  | tty_controls s t r c arg res s' :
      io_ioctl ops (DTty id) c arg s = Val (res, s') → tty_step id (mkTtyHist s t r) (mkTtyHist s' t r).

Definition tty_queue (id : nat) (s : DevStore) : list Z :=
  match ds_ttys s !! id with Some t => tty_buffer t | None => [] end ++ ds_input s.

Lemma tty_queue_set id t t' s : ds_ttys s !! id = Some t → tty_queue id (set_tty id t' s) = tty_buffer t' ++ ds_input s.
Proof. intros Ht. unfold tty_queue. simpl. rewrite list_lookup_insert_eq; [done|]. by eapply lookup_lt_Some. Qed.

Lemma tty_ioctl_buffer c a t r o t' : tty_ioctl c a t = Val (r, o, t') → tty_buffer t' = tty_buffer t.
Proof. unfold tty_ioctl. repeat case_match; intros E; try discriminate E; injection E as _ _ <-; done. Qed.

Lemma tty_readat_queue id n s r s' :
  tty_readat id n s = Val (r, s') → tty_queue id s = match r with Ok bs => bs | Err _ => [] end ++ tty_queue id s'.
Proof.
  unfold tty_readat, with_tty. destruct (ds_ttys s !! id) as [t|] eqn:Et; [|done]. cbn [unwrap mbind outcome_bind].
  destruct (assert_ _); [|done]. cbn [mbind outcome_bind]. case_bool_decide as Hb.
  - intros E. injection E as <- <-. rewrite (tty_queue_set _ t) by done. unfold tty_queue. rewrite Et. simpl.
    by rewrite app_assoc, take_drop.
  - assert (tty_buffer t = []) as Eb by (apply length_zero_iff_nil; lia).
    unfold get_char. destruct (ds_input s) as [|c l] eqn:Ei; intros E; injection E as <- <-; [done|].
    unfold tty_queue. simpl. by rewrite Et, Eb, Ei.
Qed.

Lemma tty_poll_queue id ev s r s' : tty_poll id ev s = Val (r, s') → tty_queue id s' = tty_queue id s.
Proof.
  unfold tty_poll, with_tty. destruct (ds_ttys s !! id) as [t|] eqn:Et; [|done]. cbn [unwrap mbind outcome_bind].
  destruct (contains ev POLLIN); [|intros E; by injection E as _ <-]. case_bool_decide as Hb; [intros E; by injection E as _ <-|].
  unfold get_char. destruct (ds_input s) as [|c l] eqn:Ei; intros E; injection E as _ <-; [done|].
  rewrite (tty_queue_set id t) by done. unfold tty_queue. rewrite Et, Ei. simpl. by rewrite <- app_assoc.
Qed.

Lemma tty_step_queue id h h' :
  tty_step id h h' → th_typed h = th_read h ++ tty_queue id (th_store h) → th_typed h' = th_read h' ++ tty_queue id (th_store h').
Proof.
  intros Hstep Hinv. destruct Hstep as [s t r c|s t r off n bs s' E|s t r off n e s' E|s t r ev res s' E|s t r off b res s' E|s t r c arg res s' E];
    simpl in *; subst.
  - unfold tty_queue. simpl. by rewrite !app_assoc.
  - apply tty_readat_queue in E as ->. by rewrite app_assoc.
  - by apply tty_readat_queue in E as ->.
  - by apply tty_poll_queue in E as ->.
  - unfold tty_writeat in E. by injection E as _ <-.
  - unfold with_tty in E. destruct (ds_ttys s !! id) as [t|] eqn:Et; [|done]. cbn [unwrap mbind outcome_bind] in E.
    destruct (tty_ioctl _ _ t) as [[[? ?] t']|] eqn:Eio; [|done]. injection E as _ <-. apply tty_ioctl_buffer in Eio.
    rewrite (tty_queue_set id t) by done. unfold tty_queue. by rewrite Et, Eio.
Qed.

(** C28: a terminal delivers what was typed, in order.  Over every history of
    typing, reads, polls, writes and control calls on one terminal of a new
    [DevFS], the characters read so far followed by those still waiting, in
    the terminal's buffer and at the console, are exactly the characters
    typed (those the UART hands out): nothing is lost, repeated or reordered,
    by no control call either.  [TCSETSF] is among them: its comment announces
    a flush of the input, but the code keeps it, as it does for [TCSETS]. *)
Theorem tty_delivers_typed id h :
  rtc (tty_step id) (mkTtyHist dev_store_new [] []) h → th_typed h = th_read h ++ tty_queue id (th_store h).
Proof.
  intros Hr. assert (th_typed (mkTtyHist dev_store_new [] []) = th_read (mkTtyHist dev_store_new [] []) ++ tty_queue id dev_store_new) as H0.
  { unfold tty_queue, dev_store_new. cbn [th_typed th_read ds_ttys ds_input]. destruct (replicate 6 tty_new !! id) as [t|] eqn:E; [|done].
    apply lookup_replicate_1 in E as [-> _]. done. }
  revert H0. change dev_store_new with (th_store (mkTtyHist dev_store_new [] [])) at 3.
  induction Hr as [h|h h1 h2 Hs _ IH]; [done|]. intros H0. apply IH. by eapply tty_step_queue.
Qed.

(** Polling one terminal, and any devices but other terminals, leaves what they
    answer: a character fetched from the console waits in the terminal's
    buffer. *)
Lemma tty_polls_stable id :
  polls_stable ops (λ h, match h with DTty k => k = id | _ => True end) (λ s, is_Some (ds_ttys s !! id)).
Proof.
  intros h ev s Hh [t Ht].
  destruct h; try (by eexists _, s). cbn in Hh. subst. cbn. unfold tty_poll, with_tty. rewrite Ht. cbn [unwrap mbind outcome_bind].
  destruct (contains ev POLLIN); [|by eexists _, s]. case_bool_decide as Hb; [by eexists _, s|].
  unfold get_char. destruct (ds_input s) as [|c l] eqn:Ei; [by eexists _, s|].
  eexists _, _. split; [done|]. cbn [ds_ttys set_tty set_input]. pose proof (lookup_lt_Some _ _ _ Ht).
  rewrite list_lookup_insert_eq by done. split; [by eexists|]. intros h' ev' Hh'. unfold poll_answer. destruct h'; try done.
  cbn. subst. unfold tty_poll, with_tty. cbn. rewrite list_lookup_insert_eq, Ht by done. cbn [unwrap mbind outcome_bind].
  destruct (contains ev' POLLIN); [|done]. unfold get_char. rewrite (bool_decide_eq_false_2 _ Hb), Ei.
  rewrite bool_decide_eq_true_2 by (cbn; rewrite length_app; cbn; lia). done.
Qed.

(** Two terminals take each other's input.  Every terminal of [/dev] is an
    object of its own with its own buffer, but all read the one console: a
    poll of [/dev/tty] fetches the first character typed, after which a read
    of [/dev/ttyv0], the file behind the standard descriptors, returns the
    second. *)
Theorem tty_poll_takes_input a b l s :
  ds_ttys s !! 3%nat = Some tty_new → ds_ttys s !! 4%nat = Some tty_new → ds_input s = a :: b :: l →
  ∃ s1 s2, io_poll ops (DTty 4) POLLIN s = Val (Ok POLLIN, s1) ∧ io_readat ops (DTty 3) 0 1 s1 = Val (Ok [b], s2).
Proof.
  intros H3 H4 Hi. eexists _, _. split.
  - simpl. unfold tty_poll, with_tty. rewrite H4. simpl. unfold get_char. rewrite Hi. reflexivity.
  - simpl. unfold tty_readat, with_tty. simpl. rewrite list_lookup_insert_ne, H3 by done. reflexivity.
Qed.
End devfs_props.

(** ** Concrete files *)
Definition no_mount (d : Z) (p : string) : result unit := Err EPERM.
Definition no_arg (a : Z) : TtyArg := ANull.

Lemma proc_text_read_witness :
  read_all no_mount no_mount no_arg 106 DVersion 0 7 dev_store_new = Val (Ok version_content, dev_store_new).
Proof.
  destruct (proc_text_read no_mount no_mount no_arg DVersion version_content 7 stat_default dev_store_new) as [E _]; [reflexivity|lia|lia|].
  assert (length version_content = 105%nat) as El by reflexivity. rewrite El in E. exact E.
Defined.

Lemma interrupts_read_panics_witness : io_readat (dev_ops no_mount no_mount no_arg) DInterrupts 1 10 dev_store_new = Panic.
Proof. apply (interrupts_read_panics no_mount no_mount no_arg 1 10 dev_store_new). word_lia. Defined.

Lemma tty_delivers_typed_witness : [104; 105] = [104] ++ tty_queue 3 (set_input [105] dev_store_new).
Proof.
  apply (tty_delivers_typed no_mount no_mount no_arg 3 (mkTtyHist (set_input [105] dev_store_new) [104; 105] [104])).
  eapply rtc_l; [apply (tty_types _ _ _ 3 _ _ _ 104)|]. eapply rtc_l; [apply (tty_types _ _ _ 3 _ _ _ 105)|].
  eapply rtc_l; [eapply (tty_reads _ _ _ 3 _ _ _ 0 1 [104]); reflexivity|]. apply rtc_refl.
Defined.

Lemma tty_poll_takes_input_witness :
  ∃ s1 s2, io_poll (dev_ops no_mount no_mount no_arg) (DTty 4) POLLIN (set_input [104; 105] dev_store_new) = Val (Ok POLLIN, s1) ∧
    io_readat (dev_ops no_mount no_mount no_arg) (DTty 3) 0 1 s1 = Val (Ok [105], s2).
Proof. apply (tty_poll_takes_input no_mount no_mount no_arg 104 105 [] (set_input [104; 105] dev_store_new)); reflexivity. Defined.
