(* ===== verification/Devices.v ===== *)
(** * Devices ([crates/devices], [crates/sync], [driver/], the disks of the
      file-system adapters)

    The table of devices, the RAM disk and the virtio block device as block
    drivers, the two cursors through which the ext4 libraries reach a disk
    ([ext4_shim.rs], [ext4_rs_shim.rs]), and the registers of the interrupt
    controller and of the clock. *)

From S2P Require Import Prelude Bytes.
Local Open Scope Z_scope.

(** ** [LazyInit]: a cell that is written once *)
Definition LazyInit (A : Type) : Type := option A.
Definition init_by {A} (data : A) (c : LazyInit A) : outcome (LazyInit A) :=
  match c with Some _ => Panic | None => Val (Some data) end.
(** [Deref] *)
Definition lazy_get {A} (c : LazyInit A) : outcome A := unwrap c.

(** ** The device table ([devices/src/lib.rs], [device.rs]) *)
Section devices.
(** The device objects of each kind. *)
Context {Rtc Blk Net Input Int Uart : Type}.

Inductive DeviceType :=
  | DT_RTC (d : Rtc) | DT_BLOCK (d : Blk) | DT_NET (d : Net) | DT_INPUT (d : Input) | DT_INT (d : Int) | DT_UART (d : Uart) | NoDevice.

Record DeviceSet := mkDeviceSet {
  ds_rtc : list Rtc; ds_blk : list Blk; ds_net : list Net; ds_uart : list Uart; ds_in : list Input;
  ds_int_device : LazyInit Int; ds_main_uart : LazyInit Uart
}.
Definition device_set_new : DeviceSet := mkDeviceSet [] [] [] [] [] None None.

Definition add_device (device : DeviceType) (s : DeviceSet) : outcome DeviceSet :=
  let '(mkDeviceSet rtc blk net uart inp int main) := s in
  match device with
  | DT_RTC d => Val (mkDeviceSet (rtc ++ [d]) blk net uart inp int main)
  | DT_BLOCK d => Val (mkDeviceSet rtc (blk ++ [d]) net uart inp int main)
  | DT_NET d => Val (mkDeviceSet rtc blk (net ++ [d]) uart inp int main)
  | DT_INPUT d => Val (mkDeviceSet rtc blk net uart (inp ++ [d]) int main)
  | DT_INT d => int ← init_by d int; Val (mkDeviceSet rtc blk net uart inp int main)
  | DT_UART d =>
      main ← (if (length uart =? 0)%nat then init_by d main else Val main);
      Val (mkDeviceSet rtc blk net (uart ++ [d]) inp int main)
  | NoDevice => Val s
  end.

(** [prepare_drivers]: the drivers that need no device-tree node; [f()] of each. *)
Fixpoint prepare_drivers (inits : list (option DeviceType)) (s : DeviceSet) : outcome DeviceSet :=
  match inits with
  | [] => Val s
  | f :: inits =>
      s ← match f with Some d => add_device d s | None => Val s end;
      prepare_drivers inits s
  end.

Definition get_blk_device (id : Z) (s : DeviceSet) : option Blk :=
  if id <? Z.of_nat (length (ds_blk s)) then ds_blk s !! Z.to_nat id else None.
Definition get_int_device (s : DeviceSet) : outcome Int := unwrap (ds_int_device s).
Definition get_main_uart (s : DeviceSet) : option Uart := ds_main_uart s.
Definition get_net_device (id : Z) (s : DeviceSet) : outcome Net := unwrap (ds_net s !! Z.to_nat id).
End devices.

(** ** Block drivers *)
(** [BlkDriver]: [read_blocks b n] fills a buffer of [n] bytes. *)
Class BlkDriver (D : Type) := {
  read_blocks : Z → nat → D → outcome (list Z);
  write_blocks : Z → list Z → D → outcome D;
  capacity : D → Z
}.

(** Bytes of kernel memory through raw slices. *)
Definition mem_read (m : Z → Z) (addr : Z) (n : nat) : list Z := (λ i, m (addr +w Z.of_nat i)) <$> seq 0 n.
Definition mem_write (m : Z → Z) (addr : Z) (buf : list Z) : Z → Z := λ x,
  if x -w addr <? Z.of_nat (length buf) then buf !!! Z.to_nat (x -w addr) else m x.

(** [kramdisk]: the image linked into the kernel. *)
Record RamDiskBlock := mkRamDisk { rd_start : Z; rd_size : Z; rd_mem : Z → Z }.

Definition ramdisk_check (sector len : Z) (d : RamDiskBlock) : outcome unit :=
  _ ← assert_ (len mod 0x200 =? 0);
  if rd_size d <=? sector *w 0x200 +w len then Panic else Val tt.

Definition ramdisk_read (sector_offset : Z) (n : nat) (d : RamDiskBlock) : outcome (list Z) :=
  _ ← ramdisk_check sector_offset (Z.of_nat n) d;
  Val (mem_read (rd_mem d) (rd_start d +w sector_offset *w 0x200) n).

Definition ramdisk_write (sector_idx : Z) (buf : list Z) (d : RamDiskBlock) : outcome RamDiskBlock :=
  _ ← ramdisk_check sector_idx (Z.of_nat (length buf)) d;
  Val (mkRamDisk (rd_start d) (rd_size d) (mem_write (rd_mem d) (rd_start d +w sector_idx *w 0x200) buf)).

#[export] Instance ramdisk_driver : BlkDriver RamDiskBlock := {
  read_blocks := ramdisk_read; write_blocks := ramdisk_write; capacity := rd_size
}.

(** [virtio_blk.rs]: the device of the virtio crate, whose operations may fail. *)
Section virtio.
Context {V : Type} (v_read : Z → nat → V → option (list Z)) (v_write : Z → list Z → V → option V) (v_capacity : V → Z).

Definition virtio_blk : BlkDriver V := {|
  read_blocks b n d := unwrap (v_read b n d);
  write_blocks b buf d := unwrap (v_write b buf d);
  capacity d := v_capacity d *w 0x200
|}.
End virtio.

(** ** [Ext4DiskWrapper]: the cursor of [ext4_shim.rs] *)
Section disk.
Context {D : Type} `{!BlkDriver D}.

Definition BLOCK_SIZE : Z := 0x200.

Record Ext4DiskWrapper := mkDisk { dw_block_id : Z; dw_offset : Z; dw_blk_id : Z }.
Definition disk_new (blk_id : Z) : Ext4DiskWrapper := mkDisk 0 0 blk_id.

Definition position (w : Ext4DiskWrapper) : Z := dw_block_id w *w BLOCK_SIZE +w dw_offset w.
Definition set_position (pos : Z) (w : Ext4DiskWrapper) : Ext4DiskWrapper :=
  mkDisk (pos / BLOCK_SIZE) (pos mod BLOCK_SIZE) (dw_blk_id w).

(** The cursor and the block devices of the table. *)
Definition DiskSt : Type := Ext4DiskWrapper * list D.

Definition blk_at (id : Z) (devs : list D) : outcome D :=
  if id <? Z.of_nat (length devs) then unwrap (devs !! Z.to_nat id) else Panic.

Definition advance_cursor (len : Z) (w : Ext4DiskWrapper) : Ext4DiskWrapper :=
  mkDisk (dw_block_id w +w len / BLOCK_SIZE) (dw_offset w) (dw_blk_id w).

Definition disk_write (buf : list Z) : ST DiskSt Z := λ '(w, devs),
  _ ← assert_ (dw_offset w mod BLOCK_SIZE =? 0);
  d ← blk_at 0 devs;
  d ← write_blocks (dw_block_id w) buf d;
  Val (Z.of_nat (length buf), (advance_cursor (Z.of_nat (length buf)) w, <[0%nat := d]> devs)).

Definition disk_read (n : nat) : ST DiskSt (list Z) := λ '(w, devs),
  _ ← assert_ (dw_offset w mod BLOCK_SIZE =? 0);
  d ← blk_at 0 devs;
  bs ← read_blocks (dw_block_id w) n d;
  Val (bs, (advance_cursor (Z.of_nat n) w, devs)).

(** [u64::checked_add_signed] *)
Definition checked_add_signed (a off : Z) : option Z :=
  if (0 <=? a + off) && (a + off <? MAX64) then Some (a + off) else None.
Definition as_i64 (x : Z) : Z := if x <? 2 ^ 63 then x else x - MAX64.

(** [seek]: the new position, or the error -1. *)
Definition disk_seek (off whence : Z) : ST DiskSt (Z + Z) := λ '(w, devs),
  d ← blk_at (dw_blk_id w) devs;
  let size := capacity d in
  let new_pos :=
    if whence =? 0 then Some off
    else if whence =? 1 then as_i64 <$> checked_add_signed (position w) off
    else if whence =? 2 then as_i64 <$> checked_add_signed size off
    else Some off in
  match new_pos with
  | None => Val (inr (-1), (w, devs))
  | Some new_pos => Val (inl new_pos, (set_position (wrap new_pos) w, devs))
  end.

(** ** [Ext4Disk]: the disk of [ext4_rs_shim.rs] *)
Definition EXT4_RS_BLOCK : nat := 4096.

(** The loop of [read_offset]: blocks [b .. b+k-1] into [buf]. *)
Fixpoint read_offset_loop (k : nat) (b off total : Z) (buf : list Z) (d : D) : outcome (list Z) :=
  match k with
  | O => Val buf
  | S k =>
      data ← read_blocks b 512 d;
      let bytes := if total =? 0 then 512 - off else 512 in
      let buf := splice (Z.to_nat total) (take (Z.to_nat bytes) (drop (Z.to_nat off) data)) buf in
      read_offset_loop k (b +w 1) 0 (total + bytes) buf d
  end.

Definition read_offset (offset : Z) (d : D) : outcome (list Z) :=
  read_offset_loop (EXT4_RS_BLOCK / 512) (offset / 512) (offset mod 512) 0 (replicate EXT4_RS_BLOCK 0) d.

(** The loop of [write_offset]. *)
Fixpoint write_offset_loop (k : nat) (b off : Z) (total : Z) (buf : list Z) (d : D) : outcome D :=
  match k with
  | O => Val d
  | S k =>
      let len := Z.of_nat (length buf) in
      data ← (if len <? 512 then read_blocks b 512 d else Val (replicate 512 0));
      let buf_end := if len <? total + 512 then len else total + 512 in
      let bytes := buf_end - total in
      _ ← assert_ (off + bytes <=? 512);
      let data := splice (Z.to_nat off) (take (Z.to_nat bytes) (drop (Z.to_nat total) buf)) data in
      d ← write_blocks b data d;
      write_offset_loop k (b +w 1) 0 (total + bytes) buf d
  end.

Definition write_offset (offset : Z) (buf : list Z) (d : D) : outcome D :=
  write_offset_loop (Z.to_nat (div_ceil (Z.of_nat (length buf)) 512)) (offset / 512) (offset mod 512) 0 buf d.
End disk.

(** ** Registers *)
(** 32-bit device registers: a read may change the device. *)
Class Mmio (R : Type) := {
  mmio_read : Z → R → Z * R;
  mmio_write : Z → Z → R → R
}.

Section plic.
Context {R : Type} `{!Mmio R} (base : Z).

(** The context of a hart and a mode. *)
Definition plic_context (hart_id : Z) (is_smode : bool) : Z := hart_id *w 2 +w (if is_smode then 1 else 0).

(** [1 << irq] of a 32-bit integer: the shift count is taken modulo 32. *)
Definition shl32 (irq : Z) : Z := Z.shiftl 1 (irq mod 32).

Definition set_irq_enable (hart_id : Z) (is_smode : bool) (irq : Z) (r : R) : R :=
  let addr := base +w 0x2000 +w irq / 32 in
  let addr := addr +w plic_context hart_id is_smode *w 0x80 in
  let '(v, r) := mmio_read addr r in
  mmio_write addr (Z.lor v (shl32 irq)) r.

Definition claim_addr (hart_id : Z) (is_smode : bool) : Z :=
  base +w 0x200004 +w plic_context hart_id is_smode *w 0x1000.

Definition get_irq_claim (hart_id : Z) (is_smode : bool) (r : R) : Z * R := mmio_read (claim_addr hart_id is_smode) r.
Definition complete_irq_claim (hart_id : Z) (is_smode : bool) (irq : Z) (r : R) : R :=
  mmio_write (claim_addr hart_id is_smode) irq r.
Definition set_thresold (hart_id : Z) (is_smode : bool) (thresold : Z) (r : R) : R :=
  mmio_write (base +w 0x200000 +w plic_context hart_id is_smode *w 0x1000) thresold r.
Definition set_priority (irq priority : Z) (r : R) : R := mmio_write (base +w irq *w 4) priority r.

(** [Driver] and [IntDriver for PLIC] *)
Definition try_handle_interrupt (r : R) : bool * R :=
  let '(claim, r) := get_irq_claim 0 true r in (false, complete_irq_claim 0 true claim r).
Definition register_irq (irq : Z) (r : R) : R := set_priority irq 7 (set_irq_enable 0 true irq r).

(** [RtcGoldfish]: the low and the high word of the time. *)
Definition rtc_read (r : R) : Z * R :=
  let '(low, r) := mmio_read (base +w 0x00) r in
  let '(high, r) := mmio_read (base +w 0x04) r in
  (Z.lor (Z.shiftl high 32) low, r).
Definition rtc_read_timestamp (r : R) : Z * R := let '(t, r) := rtc_read r in (t / 1000000000, r).
End plic.

(** ** Disks as byte strings

    What a disk promises its clients: below its end, blocks are pieces of one
    byte string.  The last block is left out: the RAM disk refuses it. *)
Class DiskLaws (D : Type) `{!BlkDriver D} := {
  image : D → list Z;
  disk_ok : D → Prop;
  read_law d b n : disk_ok d → 0 ≤ b → (512 | Z.of_nat n) → b * 512 + Z.of_nat n < Z.of_nat (length (image d)) →
    read_blocks b n d = Val (take n (drop (Z.to_nat (b * 512)) (image d)));
  write_law d b buf : disk_ok d → 0 ≤ b → (512 | Z.of_nat (length buf)) →
    b * 512 + Z.of_nat (length buf) < Z.of_nat (length (image d)) →
    ∃ d', write_blocks b buf d = Val d' ∧ disk_ok d' ∧ image d' = splice (Z.to_nat (b * 512)) buf (image d);
  disk_small d : disk_ok d → Z.of_nat (length (image d)) < 2 ^ 63
}.

(** *** The RAM disk *)
Definition rd_image (d : RamDiskBlock) : list Z := mem_read (rd_mem d) (rd_start d) (Z.to_nat (rd_size d)).
Definition rd_ok (d : RamDiskBlock) : Prop := 0 ≤ rd_start d ∧ 0 ≤ rd_size d < 2 ^ 63 ∧ rd_start d + rd_size d < MAX64.

Lemma mem_read_lookup m a n i : mem_read m a n !! i = if decide (i < n)%nat then Some (m (a +w Z.of_nat i)) else None.
Proof.
  unfold mem_read. rewrite list_lookup_fmap. case_decide.
  - by rewrite lookup_seq_lt.
  - by rewrite lookup_seq_ge by lia.
Qed.

Lemma length_mem_read m a n : length (mem_read m a n) = n.
Proof. unfold mem_read. by rewrite length_fmap, length_seq. Qed.

Lemma mem_read_part m a n off k :
  0 ≤ a → a + Z.of_nat n < MAX64 → (off + k ≤ n)%nat →
  mem_read m (a +w Z.of_nat off) k = take k (drop off (mem_read m a n)).
Proof.
  intros Ha Hn Hk. apply list_eq. intros i. rewrite mem_read_lookup. case_decide as Hi.
  - rewrite lookup_take_lt, lookup_drop, mem_read_lookup, decide_True by lia. do 2 f_equal. no_wrap. lia.
  - by rewrite lookup_take_ge by lia.
Qed.

Lemma mem_write_part m a n off buf :
  0 ≤ a → a + Z.of_nat n < MAX64 → (off + length buf ≤ n)%nat →
  mem_read (mem_write m (a +w Z.of_nat off) buf) a n = splice off buf (mem_read m a n).
Proof.
  intros Ha Hn Hk. apply list_eq. intros i. rewrite mem_read_lookup. unfold splice.
  assert (length (take off (mem_read m a n)) = off) as Hl by (rewrite length_take, length_mem_read; lia).
  case_decide as Hi.
  - unfold mem_write. rewrite (wadd_small a), (wadd_small a) by word_lia. destruct (decide (i < off)%nat).
    + assert (a + Z.of_nat i -w (a + Z.of_nat off) = MAX64 - (Z.of_nat off - Z.of_nat i)) as ->.
      { unfold wsub, wrap. symmetry. apply (Z.mod_unique_pos _ _ (-1)); unfold MAX64 in *; lia. }
      rewrite (proj2 (Z.ltb_ge _ _)) by (unfold MAX64 in *; lia).
      rewrite lookup_app_l by lia. rewrite lookup_take_lt, mem_read_lookup, decide_True by lia.
      by rewrite wadd_small by word_lia.
    + rewrite (wsub_small (a + Z.of_nat i)) by word_lia. rewrite lookup_app_r by lia. rewrite Hl.
      destruct (Z.ltb_spec (a + Z.of_nat i - (a + Z.of_nat off)) (Z.of_nat (length buf))).
      * rewrite lookup_app_l by lia. replace (Z.to_nat (a + Z.of_nat i - (a + Z.of_nat off))) with (i - off)%nat by lia.
        symmetry. apply list_lookup_lookup_total_lt. lia.
      * rewrite lookup_app_r by lia. rewrite lookup_drop, mem_read_lookup, decide_True by lia.
        rewrite wadd_small by word_lia. do 2 f_equal. lia.
  - symmetry. apply lookup_ge_None_2. rewrite !length_app, length_drop, Hl, length_mem_read. lia.
Qed.

Lemma ramdisk_check_ok b len d :
  rd_ok d → 0 ≤ b → (512 | len) → 0 ≤ len → b * 512 + len < rd_size d → ramdisk_check b len d = Val tt.
Proof.
  intros (Hs & Hz & Hm) Hb [k ->] Hl Hr. unfold ramdisk_check. rewrite Z.mod_mul by lia. cbn [assert_ Z.eqb mbind outcome_bind].
  no_wrap. by rewrite (proj2 (Z.leb_gt _ _)) by lia.
Qed.

#[export] Program Instance ramdisk_laws : DiskLaws RamDiskBlock := { image := rd_image; disk_ok := rd_ok }.
Next Obligation.
  intros d b n Hok Hb Hd Hr. pose proof Hok as (Hs & Hz & Hm). unfold rd_image in *. rewrite length_mem_read in Hr.
  cbn [read_blocks ramdisk_driver]. unfold ramdisk_read. rewrite ramdisk_check_ok by (try done; lia).
  cbn [mbind outcome_bind]. f_equal. rewrite <- (mem_read_part _ _ _ (Z.to_nat (b * 512))) by lia.
  f_equal. rewrite Z2Nat.id by lia. no_wrap. lia.
Qed.
Next Obligation.
  intros d b buf Hok Hb Hd Hr. pose proof Hok as (Hs & Hz & Hm). unfold rd_image in *. rewrite length_mem_read in Hr.
  cbn [write_blocks ramdisk_driver]. unfold ramdisk_write. rewrite ramdisk_check_ok by (try done; lia).
  cbn [mbind outcome_bind]. eexists. split; [done|]. split; [done|]. cbn [rd_mem rd_start rd_size].
  rewrite <- mem_write_part by lia. do 2 f_equal. rewrite Z2Nat.id by lia. no_wrap. lia.
Qed.
Next Obligation. intros d (Hs & Hz & Hm). unfold rd_image. rewrite length_mem_read. lia. Qed.

(** *** The cursor of [ext4_shim.rs] *)
Section disk_props.
Context {D : Type} `{!BlkDriver D} `{!DiskLaws D}.

Lemma blk_at_spec id (devs : list D) d : 0 ≤ id → devs !! Z.to_nat id = Some d → blk_at id devs = Val d.
Proof.
  intros Hid E. unfold blk_at. pose proof (lookup_lt_Some _ _ _ E). rewrite (proj2 (Z.ltb_lt _ _)) by lia. by rewrite E.
Qed.

(** Seeking to a block. *)
Lemma seek_block k (w : Ext4DiskWrapper) devs (d : D) :
  0 ≤ k → k * 512 < 2 ^ 63 → 0 ≤ dw_blk_id w → devs !! Z.to_nat (dw_blk_id w) = Some d →
  disk_seek (k * 512) 0 (w, devs) = Val (inl (k * 512), (mkDisk k 0 (dw_blk_id w), devs)).
Proof.
  intros Hk Hr Hb Hd. unfold disk_seek. rewrite (blk_at_spec _ _ d) by done. cbn [mbind outcome_bind Z.eqb].
  rewrite wrap_small by word_lia. unfold set_position, BLOCK_SIZE. by rewrite Z.div_mul, Z.mod_mul by lia.
Qed.

(** Through the cursor that the ext4 library is given, whole blocks written
    at a block boundary are read back from it, the rest of the disk is
    unchanged and the cursor ends behind them.  The data goes to block device
    0, whichever device the cursor was made for. *)
Theorem disk_cursor_roundtrip k buf (w : Ext4DiskWrapper) devs (d e : D) :
  devs !! 0%nat = Some d → disk_ok d → 0 ≤ dw_blk_id w → devs !! Z.to_nat (dw_blk_id w) = Some e →
  0 ≤ k → (512 | Z.of_nat (length buf)) → k * 512 + Z.of_nat (length buf) < Z.of_nat (length (image d)) →
  ∃ d' w1 w2, 
    disk_seek (k * 512) 0 (w, devs) = Val (inl (k * 512), (w1, devs)) ∧
    disk_write buf (w1, devs) = Val (Z.of_nat (length buf), (w2, <[0%nat := d']> devs)) ∧
    position w2 = k * 512 + Z.of_nat (length buf) ∧
    image d' = splice (Z.to_nat (k * 512)) buf (image d) ∧
    disk_seek (k * 512) 0 (w2, <[0%nat := d']> devs) = Val (inl (k * 512), (w1, <[0%nat := d']> devs)) ∧
    disk_read (length buf) (w1, <[0%nat := d']> devs) = Val (buf, (w2, <[0%nat := d']> devs)).
Proof.
  intros H0 Hok Hb He Hk Hdiv Hr. pose proof (disk_small d Hok) as Hsm. pose proof Hdiv as [j Hj].
  destruct (write_law d k buf Hok Hk Hdiv Hr) as (d' & Ew & Hok' & Him).
  assert (length (image d') = length (image d)) as Hlen by (rewrite Him; apply length_splice; lia).
  exists d', (mkDisk k 0 (dw_blk_id w)), (mkDisk (k +w j) 0 (dw_blk_id w)).
  assert (0 < length devs)%nat by (by eapply lookup_lt_Some).
  assert (<[0%nat:=d']> devs !! 0%nat = Some d') as H0' by (by apply list_lookup_insert_eq).
  assert (∃ e', <[0%nat:=d']> devs !! Z.to_nat (dw_blk_id w) = Some e') as [e' He'].
  { apply lookup_lt_is_Some_2. rewrite length_insert. by eapply lookup_lt_Some. }
  split_and!.
  - by apply (seek_block k w devs e); [|lia|..].
  - unfold disk_write. cbn [dw_offset assert_]. change (0 mod BLOCK_SIZE =? 0) with true. cbn [assert_ mbind outcome_bind].
    rewrite (blk_at_spec 0 devs d) by done. cbn [mbind outcome_bind dw_block_id]. rewrite Ew. cbn [mbind outcome_bind].
    unfold advance_cursor, BLOCK_SIZE. cbn [dw_block_id dw_offset dw_blk_id]. by rewrite Hj, Z.div_mul by lia.
  - unfold position, BLOCK_SIZE. cbn [dw_block_id dw_offset]. no_wrap. lia.
  - done.
  - apply (seek_block k (mkDisk (k +w j) 0 (dw_blk_id w)) _ e'); [done|lia|done|done].
  - unfold disk_read. cbn [dw_offset]. change (0 mod BLOCK_SIZE =? 0) with true. cbn [assert_ mbind outcome_bind].
    rewrite (blk_at_spec 0 _ d') by done. cbn [mbind outcome_bind dw_block_id].
    rewrite read_law by (first [done|lia]). cbn [mbind outcome_bind]. rewrite Him, read_splice by lia.
    unfold advance_cursor, BLOCK_SIZE. cbn [dw_block_id dw_offset dw_blk_id]. by rewrite Hj, Z.div_mul by lia.
Qed.

(** *** The disk of [ext4_rs_shim.rs], at block boundaries *)
Lemma take_add_split {A} (n m : nat) (l : list A) : take (n + m) l = take n l ++ take m (drop n l).
Proof. by rewrite <- (take_drop n (take (n + m) l)), take_take, Nat.min_l, skipn_firstn_comm, Nat.add_comm, Nat.add_sub by lia. Qed.

Lemma read_loop_aligned (d : D) b (m : nat) : ∀ (i : nat) buf,
  disk_ok d → 0 ≤ b → (b + Z.of_nat (i + m)) * 512 < Z.of_nat (length (image d)) → length buf = (512 * (i + m))%nat →
  take (512 * i) buf = take (512 * i) (drop (Z.to_nat (b * 512)) (image d)) →
  read_offset_loop m (b + Z.of_nat i) 0 (512 * Z.of_nat i) buf d
    = Val (take (512 * (i + m)) (drop (Z.to_nat (b * 512)) (image d))).
Proof.
  induction m as [|m IH]; intros i buf Hok Hb Hr Hl Ht; cbn [read_offset_loop].
  - rewrite Nat.add_0_r in *. by rewrite <- Ht, take_ge by lia.
  - rewrite read_law by (first [done|lia|by exists 1]). cbn [mbind outcome_bind].
    assert ((if 512 * Z.of_nat i =? 0 then 512 - 0 else 512) = 512) as -> by (by destruct (_ =? _)).
    pose proof (disk_small d Hok). no_wrap.
    replace (b + Z.of_nat i + 1) with (b + Z.of_nat (S i)) by lia.
    replace (512 * Z.of_nat i + 512) with (512 * Z.of_nat (S i)) by lia.
    change (Z.to_nat 0) with 0%nat. rewrite drop_0, take_take, Nat.min_id.
    set (blk := take 512 (drop (Z.to_nat ((b + Z.of_nat i) * 512)) (image d))).
    assert (length blk = 512%nat) as Hblk by (unfold blk; rewrite length_take, length_drop; lia).
    replace (i + S m)%nat with (S i + m)%nat by lia. apply IH; [done|done|lia| |].
    + rewrite length_splice by lia. lia.
    + unfold splice. rewrite app_assoc. rewrite take_app_length' by (rewrite length_app, length_take; lia).
      replace (Z.to_nat (512 * Z.of_nat i)) with (512 * i)%nat by lia. rewrite Ht.
      replace (512 * S i)%nat with (512 * i + 512)%nat by lia. rewrite take_add_split. f_equal.
      unfold blk. rewrite drop_drop. do 2 f_equal. lia.
Qed.

Lemma write_loop_aligned b (m : nat) buf : ∀ (i : nat) (d : D) im,
  disk_ok d → 0 ≤ b → length buf = (512 * (i + m))%nat → length (image d) = length im →
  (b + Z.of_nat (i + m)) * 512 < Z.of_nat (length im) →
  image d = splice (Z.to_nat (b * 512)) (take (512 * i) buf) im →
  ∃ d', write_offset_loop m (b + Z.of_nat i) 0 (512 * Z.of_nat i) buf d = Val d' ∧ disk_ok d' ∧
    image d' = splice (Z.to_nat (b * 512)) buf im.
Proof.
  induction m as [|m IH]; intros i d im Hok Hb Hl Hlen Hr Him; cbn [write_offset_loop].
  - exists d. split_and!; [done..|]. rewrite Him, take_ge by lia. done.
  - rewrite (proj2 (Z.ltb_ge (Z.of_nat (length buf)) 512)) by lia. cbn [mbind outcome_bind].
    rewrite (proj2 (Z.ltb_ge (Z.of_nat (length buf)) _)) by lia.
    replace (512 * Z.of_nat i + 512 - 512 * Z.of_nat i) with 512 by lia. cbn [assert_ Z.add Z.leb mbind outcome_bind].
    change (0 + 512 <=? 512) with true. cbn [assert_ mbind outcome_bind].
    set (blk := take (Z.to_nat 512) (drop (Z.to_nat (512 * Z.of_nat i)) buf)).
    assert (length blk = 512%nat) as Hblk by (unfold blk; rewrite length_take, length_drop; lia).
    assert (splice (Z.to_nat 0) blk (replicate 512 0) = blk) as ->.
    { unfold splice. change (Z.to_nat 0) with 0%nat. by rewrite Hblk, take_0, drop_ge, app_nil_r by (rewrite length_replicate; lia). }
    destruct (write_law d (b + Z.of_nat i) blk) as (d1 & -> & Hok1 & Him1);
      [done|lia|rewrite Hblk; by exists 1|lia|]. cbn [mbind outcome_bind].
    pose proof (disk_small d Hok). no_wrap.
    replace (b + Z.of_nat i + 1) with (b + Z.of_nat (S i)) by lia.
    replace (512 * Z.of_nat i + 512) with (512 * Z.of_nat (S i)) by lia.
    apply IH; [done|done|lia|by rewrite Him1, length_splice by lia|lia|].
    rewrite Him1, Him. assert (length (take (512 * i) buf) = 512 * i)%nat as Hti by (rewrite length_take; lia).
    replace (Z.to_nat ((b + Z.of_nat i) * 512)) with (Z.to_nat (b * 512) + length (take (512 * i) buf))%nat by lia.
    rewrite splice_splice by lia. f_equal. replace (512 * S i)%nat with (512 * i + 512)%nat by lia.
    rewrite take_add_split. f_equal. unfold blk. f_equal. f_equal. lia.
Qed.

(** C36: At block boundaries the disk that the ext4_rs library is given is the
    byte string of the device: reading returns the 4096 bytes at the offset,
    and writing whole blocks replaces exactly them. *)
Theorem ext4_rs_disk_aligned (d : D) b buf (m : nat) :
  disk_ok d → 0 ≤ b → length buf = (512 * m)%nat →
  b * 512 + Z.max 4096 (Z.of_nat (length buf)) < Z.of_nat (length (image d)) →
  read_offset (b * 512) d = Val (take 4096 (drop (Z.to_nat (b * 512)) (image d))) ∧
  ∃ d', write_offset (b * 512) buf d = Val d' ∧ image d' = splice (Z.to_nat (b * 512)) buf (image d).
Proof.
  intros Hok Hb Hl Hr. split.
  - unfold read_offset. rewrite Z.div_mul, Z.mod_mul by lia.
    pose proof (read_loop_aligned d b 8 0 (replicate EXT4_RS_BLOCK 0) Hok Hb) as E.
    change (512 * Z.of_nat 0) with 0 in E. rewrite Z.add_0_r in E. apply E; [lia|by rewrite length_replicate|done].
  - unfold write_offset. rewrite Z.div_mul, Z.mod_mul by lia.
    assert (Z.to_nat (div_ceil (Z.of_nat (length buf)) 512) = m) as ->.
    { rewrite div_ceil_eq by lia. rewrite Hl. rewrite Nat2Z.inj_mul.
      replace (Z.of_nat 512 * Z.of_nat m + 512 - 1) with (511 + Z.of_nat m * 512) by lia.
      rewrite Z.div_add by lia. change (511 / 512) with 0. lia. }
    pose proof (write_loop_aligned b m buf 0 d (image d) Hok Hb Hl eq_refl) as E.
    change (512 * Z.of_nat 0) with 0 in E. rewrite Z.add_0_r in E.
    destruct E as (d' & E & _ & Him); [lia|by rewrite take_0, splice_nil|by exists d'].
Qed.
End disk_props.

(** *** The end of the RAM disk *)
(** The RAM disk serves every block but the last: a read or a write of whole
    blocks that ends exactly at the end of the image, or beyond it, panics. *)
Theorem ramdisk_refuses_last_block d b n :
  rd_ok d → 0 ≤ b → (512 | Z.of_nat n) → b * 512 + Z.of_nat n < MAX64 →
  (rd_size d ≤ b * 512 + Z.of_nat n ↔ read_blocks b n d = Panic).
Proof.
  intros Hok Hb Hd Hr. pose proof Hok as (Hs & Hz & Hm). split.
  - intros Hend. pose proof Hd as [k Hk]. cbn [read_blocks ramdisk_driver]. unfold ramdisk_read, ramdisk_check.
    rewrite Hk, Z.mod_mul by lia. cbn [assert_ Z.eqb mbind outcome_bind]. rewrite <- Hk. no_wrap.
    by rewrite (proj2 (Z.leb_le _ _)) by lia.
  - intros E. destruct (decide (rd_size d ≤ b * 512 + Z.of_nat n)) as [|Hlt]; [done|].
    rewrite (read_law d b n) in E; [done..|]. unfold image, ramdisk_laws, rd_image. rewrite length_mem_read. lia.
Qed.

(** ** The enable bits of the interrupt controller

    The register the layout in the head of [plic.rs] gives for the enable bit
    of an interrupt on a context: one bit per source, 32 to a register of four
    bytes. *)
Definition enable_addr (base hart_id : Z) (is_smode : bool) (irq : Z) : Z :=
  base + 0x2000 + (hart_id * 2 + (if is_smode then 1 else 0)) * 0x80 + 4 * (irq / 32).

(** Registers that keep what was written to them. *)
#[export] Instance plain_mmio : Mmio (gmap Z Z) := {
  mmio_read a r := (default 0 (r !! a), r); mmio_write a v r := <[a := v]> r
}.

Lemma set_irq_enable_spec base hart_id is_smode irq (r : gmap Z Z) :
  0 ≤ base < 2 ^ 63 → 0 ≤ hart_id < 2 ^ 32 → 0 ≤ irq < 1024 →
  let w := enable_addr base hart_id is_smode 0 + irq / 32 in
  set_irq_enable base hart_id is_smode irq r = <[w := Z.setbit (default 0 (r !! w)) (irq mod 32)]> r.
Proof.
  intros Hb Hh Hi w.
  assert (0 ≤ irq / 32 < 32) by (split; [apply Z.div_pos; lia|apply Z.div_lt_upper_bound; lia]).
  unfold set_irq_enable, plic_context, shl32. cbn [mmio_read mmio_write plain_mmio].
  assert (base +w 0x2000 +w irq / 32 +w (hart_id *w 2 +w (if is_smode then 1 else 0)) *w 0x80 = w) as ->.
  { unfold w, enable_addr. change (0 / 32) with 0. destruct is_smode; no_wrap; lia. }
  reflexivity.
Qed.

(** Enabling an interrupt below 32 sets exactly its bit in the register of
    the layout and changes no other register.  For every interrupt from 32 on
    the register of the layout is left alone: the word index is added to the
    address without being multiplied by the register size, so the bit is set
    in the word that many bytes after the first. *)
Theorem plic_enable_registers base hart_id is_smode irq (r : gmap Z Z) :
  0 ≤ base < 2 ^ 63 → 0 ≤ hart_id < 2 ^ 32 → 0 ≤ irq < 1024 →
  let a := enable_addr base hart_id is_smode irq in
  let r' := set_irq_enable base hart_id is_smode irq r in
  if irq <? 32 then r' = <[a := Z.setbit (default 0 (r !! a)) irq]> r
  else r' !! a = r !! a ∧
    let w := enable_addr base hart_id is_smode 0 + irq / 32 in r' !! w = Some (Z.setbit (default 0 (r !! w)) (irq mod 32)).
Proof.
  intros Hb Hh Hi. cbv zeta. rewrite set_irq_enable_spec by done. cbv zeta.
  destruct (Z.ltb_spec irq 32).
  - rewrite (Z.div_small irq), (Z.mod_small irq) by lia. unfold enable_addr. rewrite (Z.div_small irq) by lia.
    change (0 / 32) with 0. by rewrite Z.mul_0_r, !Z.add_0_r.
  - assert (1 ≤ irq / 32) by (apply Z.div_le_lower_bound; lia). rewrite lookup_insert_eq. split; [|done].
    apply lookup_insert_ne. unfold enable_addr. change (0 / 32) with 0. lia.
Qed.

(** ** Concrete devices *)
Definition demo_disk : RamDiskBlock := mkRamDisk 0x1000 2048 (λ x, x mod 256).

Lemma disk_cursor_roundtrip_witness :
  ∃ d' w1 w2, disk_seek 512 0 (disk_new 0, [demo_disk]) = Val (inl 512, (w1, [demo_disk])) ∧
    disk_write (replicate 512 7) (w1, [demo_disk]) = Val (512, (w2, [d'])) ∧ position w2 = 1024 ∧
    disk_read 512 (w1, [d']) = Val (replicate 512 7, (w2, [d'])).
Proof.
  destruct (disk_cursor_roundtrip 1 (replicate 512 7) (disk_new 0) [demo_disk] demo_disk demo_disk)
    as (d' & w1 & w2 & E1 & E2 & Ep & _ & _ & E3); [reflexivity| |simpl; lia|reflexivity|lia| | |].
  - split_and!; simpl; unfold MAX64; lia.
  - rewrite length_replicate. by exists 1.
  - rewrite length_replicate. vm_compute. reflexivity.
  - exists d', w1, w2. rewrite length_replicate in *. split_and!; [exact E1|exact E2|exact Ep|exact E3].
Defined.

Lemma ext4_rs_disk_aligned_witness :
  ∃ d', write_offset 512 (replicate 512 7) (mkRamDisk 0x1000 8192 (λ x, x mod 256)) = Val d'.
Proof.
  destruct (ext4_rs_disk_aligned (mkRamDisk 0x1000 8192 (λ x, x mod 256)) 1 (replicate 512 7) 1) as (_ & d' & E & _).
  - split_and!; simpl; unfold MAX64; lia.
  - lia.
  - by rewrite length_replicate.
  - vm_compute. reflexivity.
  - by exists d'.
Defined.

Lemma ramdisk_refuses_last_block_witness : read_blocks 3 512 demo_disk = Panic.
Proof.
  apply (ramdisk_refuses_last_block demo_disk 3 512).
  - split_and!; simpl; unfold MAX64; lia.
  - lia.
  - by exists 1.
  - unfold MAX64. lia.
  - simpl. lia.
Defined.

Lemma plic_enable_registers_witness : set_irq_enable 0xc000000 0 true 40 (∅ : gmap Z Z) !! enable_addr 0xc000000 0 true 40 = None.
Proof. exact (proj1 (plic_enable_registers 0xc000000 0 true 40 ∅ ltac:(lia) ltac:(lia) ltac:(lia))). Defined.

(** A write through [write_offset] that is longer than a block and not a whole
    number of blocks fills the rest of its last block with zeros. *)
Example write_offset_zeroes_tail :
  match write_offset 0 (replicate 513 7) demo_disk with
  | Val d => rd_mem d (0x1000 + 512) = 7 ∧ rd_mem d (0x1000 + 600) = 0 ∧ rd_mem demo_disk (0x1000 + 600) = 88
  | Panic => False
  end.
Proof. vm_compute. done. Qed.
