(* ===== verification/Drivers.v ===== *)
(** * Finding devices ([driver/kvirtio], [driver/ns16550a], [crates/devices])

    What happens between the device tree (or the PCI bus on loongarch64) and
    the table of devices: the drivers' initialisers, the table of interrupts,
    the memory virtio devices get for DMA and the addresses PCI devices get.
    The virtio, PCI and UART crates are parameters. *)

From S2P Require Import Prelude Frame Devices.
From stdpp Require Import sorting.
Local Open Scope Z_scope.

(** ** Nodes of the device tree *)
Record Node := mkNode {
  nd_compatibles : list string;
  nd_reg : option (list Z);              (* the addresses of [reg] *)
  nd_reg_raw : option (list Z);          (* its bytes *)
  nd_interrupts : option (list (list Z))
}.

Definition node_to_interrupts (node : Node) : list Z := match nd_interrupts node with Some l => concat l | None => [] end.

(** Bytes 4 to 7 of [reg], most significant first. *)
Definition reg_address (node : Node) : outcome Z :=
  raw ← unwrap (nd_reg_raw node);
  _ ← assert_ (8 <=? Z.of_nat (length raw));
  Val (foldl (λ acc x, Z.lor (wrap (Z.shiftl acc 8)) x) 0 (take 4 (drop 4 raw))).

(** ** Drivers *)
Section drivers.
Context {Blk Net Input Uart T R : Type} `{!Mmio R} (VIRT_ADDR_START : Z).
Notation Device := (DeviceType (Rtc := Z) (Blk := Blk) (Net := Net) (Input := Input) (Int := Z) (Uart := Uart)).

(** [Driver]: its name, [interrupts()] and [get_device_wrapper()]. *)
Record Driver := mkDriver { dr_id : string; dr_interrupts : list Z; dr_wrapper : Device }.
Definition UnsupportedDriver : Driver := mkDriver "unsupported-driver" [] NoDevice.

(** The registers and [IRQ_MANAGER]. *)
Record Irqs := mkIrqs { iq_regs : R; iq_manager : gmap Z Driver }.
Notation M := (ST Irqs).
Definition with_regs {A} (f : R → A * R) : M A := λ s,
  let '(a, r) := f (iq_regs s) in Val (a, mkIrqs r (iq_manager s)).

Definition register_device_irqs (driver : Driver) : M unit := λ s,
  Val (tt, mkIrqs (iq_regs s) (foldl (λ m irq, <[irq := driver]> m) (iq_manager s) (dr_interrupts driver))).

(** [regist_devices_irq]: every interrupt of the manager, in order. *)
Definition irq_order (m : gmap Z Driver) : list Z := merge_sort Z.le (elements (dom m)).
Definition regist_devices_irq (int_device : LazyInit Z) : M unit := λ s,
  match int_device with
  | Some base => Val (tt, mkIrqs (foldl (λ r irq, register_irq base irq r) (iq_regs s) (irq_order (iq_manager s))) (iq_manager s))
  | None => Val (tt, s)
  end.

(** *** The interrupt controller, the clock and the UART *)
Definition init_plic (node : Node) : M Driver :=
  addr ← st_lift (reg_address node);
  let base := VIRT_ADDR_START +w addr in
  _ ← with_regs (λ r, (tt, set_thresold base 0 true 0 r));
  mret (mkDriver "riscv-plic" [] (DT_INT base)).

Definition init_rtc (node : Node) : M Driver :=
  addr ← st_lift (reg_address node);
  let base := VIRT_ADDR_START +w addr in
  _ ← with_regs (rtc_read_timestamp base);
  mret (mkDriver "rtc_goldfish" [] (DT_RTC base)).

Context (uart_new : Z → Uart) (uart_init : Uart → Uart).
(** The log line unwraps the node's interrupts, here and in [init_mmio]. *)
Definition init_uart (node : Node) : M Driver :=
  regs ← st_lift (unwrap (nd_reg node));
  addr ← st_lift (unwrap (head regs));
  _ ← st_lift (unwrap (nd_interrupts node));
  let uart := mkDriver "ns16550a" (node_to_interrupts node) (DT_UART (uart_init (uart_new (VIRT_ADDR_START +w addr)))) in
  _ ← register_device_irqs uart;
  mret uart.

(** *** virtio *)
Inductive VirtioType := VT_Block | VT_Input | VT_Network | VT_Other.
Context (device_type : T → VirtioType) (mmio_new : Z → option T).
Context (blk_new : T → option Blk) (net_new : T → option Net) (input_new : T → option Input).

(** [virtio_blk::init] registers no interrupt; [VirtIONet] leaves
    [interrupts()] at its default. *)
Definition blk_init (transport : T) (irqs : list Z) : M Driver :=
  d ← st_lift (unwrap (blk_new transport));
  mret (mkDriver "virtio-blk" irqs (DT_BLOCK d)).

Definition net_init (transport : T) (irqs : list Z) : M Driver :=
  d ← st_lift (unwrap (net_new transport));
  let net := mkDriver "virtio-net" [] (DT_NET d) in
  _ ← register_device_irqs net;
  mret net.

Definition input_init (transport : T) (irqs : list Z) : M Driver :=
  d ← st_lift (unwrap (input_new transport));
  let input := mkDriver "virtio-input" irqs (DT_INPUT d) in
  _ ← register_device_irqs input;
  mret input.

Definition virtio_device (transport : T) (node : Node) : M Driver :=
  let irqs := node_to_interrupts node in
  match device_type transport with
  | VT_Block => blk_init transport irqs
  | VT_Input => input_init transport irqs
  | VT_Network => net_init transport irqs
  | VT_Other => mret UnsupportedDriver
  end.

Definition init_mmio (node : Node) : M Driver :=
  match nd_reg node ≫= head with
  | None => mret UnsupportedDriver
  | Some paddr =>
      let vaddr := VIRT_ADDR_START +w paddr in
      if vaddr =? 0 then λ _, Panic
      else match mmio_new vaddr with
           | Some transport => _ ← st_lift (unwrap (nd_interrupts node)); virtio_device transport node
           | None => mret UnsupportedDriver
           end
  end.

(** *** The walk over the device tree *)
(** [DRIVER_REGS] *)
Definition driver_of (compatible : string) : option (Node → M Driver) :=
  if String.eqb compatible "riscv,plic0" then Some init_plic
  else if String.eqb compatible "google,goldfish-rtc" then Some init_rtc
  else if String.eqb compatible "ns16550a" then Some init_uart
  else if String.eqb compatible "virtio,mmio" then Some init_mmio
  else None.

Notation Set_ := (DeviceSet (Rtc := Z) (Blk := Blk) (Net := Net) (Input := Input) (Int := Z) (Uart := Uart)).
Definition Probe (A : Type) : Type := ST (Set_ * Irqs) A.

Definition probe_with (m : M Driver) : Probe unit := λ '(ds, s),
  '(d, s) ← m s; ds ← add_device (dr_wrapper d) ds; Val (tt, (ds, s)).

Definition try_to_add_device (node : Node) : Probe unit :=
  match list_find (λ c, is_Some (driver_of c)) (nd_compatibles node) ≫= (λ r, driver_of r.2) with
  | Some init => probe_with (init node)
  | None => mret tt
  end.

Fixpoint add_nodes (nodes : list Node) : Probe unit :=
  match nodes with
  | [] => mret tt
  | node :: nodes => _ ← try_to_add_device node; add_nodes nodes
  end.

(** [virtio_device_probe] (loongarch64): a device found on the PCI bus. *)
Definition virtio_device_probe (transport : T) : Probe unit :=
  match device_type transport with
  | VT_Block => probe_with (blk_init transport [])
  | VT_Network => probe_with (net_init transport [])
  | _ => mret tt
  end.

(** The devices part of [main]. *)
Definition boot_devices (inits : list (option Device)) (fdt : option (list Node)) : Probe unit := λ '(ds, s),
  ds ← prepare_drivers inits ds;
  '(_, (ds, s)) ← add_nodes (default [] fdt) (ds, s);
  '(_, s) ← regist_devices_irq (ds_int_device ds) s;
  Val (tt, (ds, s)).
End drivers.

Arguments Driver : clear implicits.
Arguments Irqs : clear implicits.

(** ** Memory for DMA ([virtio_impl.rs])

    Physical memory and [VIRTIO_CONTAINER], the frames lent to devices. *)
Section hal.
Context (VIRT_ADDR_START : Z).
Definition Dma : Type := Phys * list Z.

Definition dma_alloc (pages : Z) : ST Dma (Z * Z) := λ '(ph, container),
  '(trackers, ph) ← frame_alloc_much ph pages;
  trackers ← unwrap trackers;
  paddr ← unwrap (head trackers);
  let vaddr := Z.lor paddr VIRT_ADDR_START in
  _ ← assert_ (negb (vaddr =? 0));
  Val ((paddr, vaddr), (ph, container ++ trackers)).

(** [retain]: what is not kept is dropped. *)
Fixpoint drop_trackers (l : list Z) (ph : Phys) : outcome Phys :=
  match l with [] => Val ph | p :: l => ph ← tracker_drop p ph; drop_trackers l ph end.

Definition dma_keeps (paddr pages x : Z) : bool :=
  let phy_page := Z.shiftr paddr 12 in
  negb ((phy_page <=? x) && (x <? phy_page +w pages)).

Definition dma_dealloc (paddr pages : Z) : ST Dma Z := λ '(ph, container),
  ph ← drop_trackers (filter (λ x, dma_keeps paddr pages x = false) container) ph;
  Val (0, (ph, filter (λ x, dma_keeps paddr pages x = true) container)).

Definition mmio_phys_to_virt (paddr : Z) : Z := Z.lor paddr 0x8000000000000000.

(** [virt_to_phys] of the page tables is a parameter. *)
Definition share (virt_to_phys : Z → option Z) (raw_ptr : Z) : Z :=
  default (Z.land raw_ptr (wnot VIRT_ADDR_START)) (virt_to_phys raw_ptr).
End hal.

(** ** Packets ([virtio_net.rs])

    The virtio crate hands out received packets in buffers of its own, which
    go back to it once they are copied. *)
Class VirtioNet (N Rx : Type) := {
  net_receive : N → option Rx * N;
  rx_packet : Rx → list Z;
  recycle_rx_buffer : Rx → N → bool * N;
  net_transmit : list Z → N → bool * N
}.

Section net.
Context {N Rx : Type} `{!VirtioNet N Rx}.

(** The number of bytes, or [NoData]; and the buffer. *)
Definition net_recv (buf : list Z) : ST N (option Z * list Z) := λ n,
  let '(packet, n) := net_receive n in
  match packet with
  | None => Val ((None, buf), n)
  | Some packet =>
      let rlen := Nat.min (length buf) (length (rx_packet packet)) in
      let '(ok, n) := recycle_rx_buffer packet n in
      _ ← assert_ ok;
      Val ((Some (Z.of_nat rlen), take rlen (rx_packet packet) ++ drop rlen buf), n)
  end.

Definition net_send (buf : list Z) : ST N unit := λ n,
  let '(ok, n) := net_transmit buf n in
  _ ← assert_ ok; Val (tt, n).

(** The buffer keeps its length, and a packet that does not fit is cut. *)
Lemma net_recv_buffer buf n r buf' n' :
  net_recv buf n = Val ((r, buf'), n') →
  length buf' = length buf ∧
  match r with
  | None => buf' = buf
  | Some k => ∃ rx, (net_receive n).1 = Some rx ∧ k = Z.of_nat (Nat.min (length buf) (length (rx_packet rx))) ∧
                    take (Z.to_nat k) buf' = take (length buf) (rx_packet rx) ∧ drop (Z.to_nat k) buf' = drop (Z.to_nat k) buf
  end.
Proof.
  unfold net_recv. destruct (net_receive n) as [[rx|] n1]; [|intros; simplify_eq; done].
  destruct (recycle_rx_buffer rx n1) as [[] n2]; [|done]. intros Hv. simpl in Hv. simplify_eq. split.
  - rewrite length_app, length_take, length_drop. lia.
  - exists rx. split_and!; [done|done| |].
    + rewrite Nat2Z.id, take_app_length'; [|rewrite length_take; lia].
      destruct (Nat.le_ge_cases (length buf) (length (rx_packet rx))) as [|]; [f_equal; lia|].
      rewrite !(take_ge (rx_packet rx)) by lia. done.
    + rewrite Nat2Z.id, drop_app_length'; [done|]. rewrite length_take. lia.
Qed.
End net.

(** ** PCI (loongarch64) *)
Definition pci_align_up (addr align : Z) : Z := Z.land (addr +w align -w 1) (wnot (align -w 1)).

Definition PCI_MEMORY32_START : Z := 0x58000000.
Definition PCI_MEMORY32_END : Z := 0x80000000.
Definition PCI_MEMORY64_START : Z := 0x100000000000.

(** The state is [NEXT_BAR_ADDR]. *)
Definition NEXT_BAR_ADDR : Z := PCI_MEMORY32_START.
Definition allocate_bar_address (size next : Z) : option Z * Z :=
  let aligned_addr := pci_align_up next size in
  if aligned_addr +w size <=? PCI_MEMORY32_END then (Some aligned_addr, aligned_addr +w size)
  else if next <? PCI_MEMORY64_START then
    let aligned_addr := pci_align_up PCI_MEMORY64_START size in
    (Some aligned_addr, aligned_addr +w size)
  else (None, next).

Inductive MemoryBarType := Width32 | Below1MiB | Width64.
Inductive BarInfo :=
  | BarMemory (address_type : MemoryBarType) (address size : Z)
  | BarIO (address size : Z).
Definition takes_two_entries (b : BarInfo) : bool :=
  match b with BarMemory Width64 _ _ => true | _ => false end.

(** What the code uses of the PCI crate: the devices of bus 0 with their
    virtio types, base address registers and the transport. *)
Class PciRoot (P DF T : Type) := {
  enumerate_bus : P → list (DF * option VirtioType);
  bar_info : DF → Z → P → option BarInfo * P;
  set_bar_32 : DF → Z → Z → P → P;
  set_bar_64 : DF → Z → Z → P → P;
  set_command : DF → Z → P → P;
  pci_transport : DF → P → option T * P;
  set_status_ack : T → T
}.

Section pci.
Context {P DF T : Type} `{!PciRoot P DF T}.
Notation M := (ST (P * Z)).

Definition on_root {A} (f : P → A * P) : M A := λ '(r, next), let '(a, r) := f r in Val (a, (r, next)).
Definition alloc_bar (size : Z) : M (option Z) := λ '(r, next),
  let '(a, next) := allocate_bar_address size next in Val (a, (r, next)).
Definition write_bar_32 (df : DF) (i a : Z) : M unit := on_root (λ r, (tt, set_bar_32 df i (a mod 2 ^ 32) r)).
Definition write_bar_64 (df : DF) (i a : Z) : M unit := on_root (λ r, (tt, set_bar_64 df i a r)).

(** One round of the loop: the next [bar_index]. *)
Definition assign_bar (df : DF) (i : Z) : M Z :=
  info ← on_root (bar_info df i);
  let skip : M Z :=
    if 0 <? i then _ ← on_root (bar_info df (i - 1)); mret (i + 1) else mret (i + 1) in
  match info with
  | None => mret (i + 1)
  | Some (BarMemory ty address size) =>
      if (0 <? size) && (address =? 0) then
        a ← alloc_bar size;
        match a with
        | None => mret (i + 1)
        | Some a =>
            match ty with
            | Width32 => _ ← write_bar_32 df i a; mret (i + 1)
            | Width64 => _ ← write_bar_64 df i a; mret (i + 2)
            | Below1MiB => mret (i + 1)
            end
        end
      else skip
  | Some (BarIO address size) =>
      if (0 <? size) && (address =? 0) then
        a ← alloc_bar size;
        _ ← match a with Some a => write_bar_32 df i a | None => mret tt end;
        mret (i + 1)
      else skip
  end.

(** [assign_bars_with_pci_root]: six registers, [fuel] rounds. *)
Fixpoint assign_bars (fuel : nat) (df : DF) (i : Z) : M unit :=
  if 6 <=? i then mret tt
  else match fuel with
       | O => λ _, Panic
       | S fuel => i ← assign_bar df i; assign_bars fuel df i
       end.

(** [verify_pci_configuration] probes the six registers again. *)
Definition verify_pci (df : DF) : M unit :=
  foldl (λ (m : M unit) i, _ ← m; _ ← on_root (bar_info df i); mret tt) (mret tt) [0; 1; 2; 3; 4; 5].

(** [enumerate_pci]: the transports that were made, in order. *)
Definition PCI_COMMAND : Z := 0x7.
Fixpoint enumerate_devices (l : list (DF * option VirtioType)) : M (list T) :=
  match l with
  | [] => mret []
  | (df, None) :: l => enumerate_devices l
  | (df, Some _) :: l =>
      _ ← assign_bars 6 df 0;
      _ ← on_root (λ r, (tt, set_command df PCI_COMMAND r));
      _ ← verify_pci df;
      t ← on_root (pci_transport df);
      ts ← enumerate_devices l;
      mret match t with Some t => set_status_ack t :: ts | None => ts end
  end.
Definition enumerate_pci : M (list T) := λ '(r, next), enumerate_devices (enumerate_bus r) (r, next).
End pci.

(** ** The address windows of PCI devices *)
(** The size of a base address register: a power of two below 2^32. *)
Definition bar_size (s : Z) : Prop := ∃ k, 0 ≤ k < 32 ∧ s = 2 ^ k.

(** [NEXT_BAR_ADDR] is in the 32-bit window or past the start of the other. *)
Definition next_ok (next : Z) : Prop :=
  PCI_MEMORY32_START ≤ next ≤ PCI_MEMORY32_END ∨ PCI_MEMORY64_START < next < 2 * PCI_MEMORY64_START.

(** Requests one after the other. *)
Fixpoint bar_requests (sizes : list Z) (next : Z) : list (option Z) :=
  match sizes with
  | [] => []
  | size :: sizes => let '(a, next) := allocate_bar_address size next in a :: bar_requests sizes next
  end.

Ltac pci_lia := unfold word64, next_ok, PCI_MEMORY32_START, PCI_MEMORY32_END, PCI_MEMORY64_START, MAX64 in *; lia.

Lemma bar_size_bounds s : bar_size s → 0 < s ≤ 2 ^ 31.
Proof. intros (k & Hk & ->). split; [apply Z.pow_pos_nonneg; lia|apply Z.pow_le_mono_r; lia]. Qed.

Lemma pci_align_up_spec s pos :
  bar_size s → 0 ≤ pos ≤ 2 * PCI_MEMORY64_START →
  pci_align_up pos s mod s = 0 ∧ pos ≤ pci_align_up pos s < pos + s ∧ (pos mod s = 0 → pci_align_up pos s = pos).
Proof.
  intros Hs Hp. pose proof (bar_size_bounds s Hs). destruct Hs as (k & Hk & ->).
  destruct (round_up_spec k pos) as (Hm & Hr & Hl); [lia|pci_lia|pci_lia|].
  split; [exact Hm|]. split; [exact Hr|]. intros Hq. specialize (Hl pos Hq ltac:(lia)). unfold pci_align_up. lia.
Qed.

Lemma window_aligned s : bar_size s → PCI_MEMORY64_START mod s = 0.
Proof.
  intros (k & Hk & ->). apply Z.mod_divide; [lia|]. exists (2 ^ (44 - k)).
  rewrite <- Z.pow_add_r by lia. replace (44 - k + k) with 44 by lia. reflexivity.
Qed.

Lemma allocate_bar_spec s next :
  bar_size s → next_ok next →
  match allocate_bar_address s next with
  | (Some a, next') => a mod s = 0 ∧ next ≤ PCI_MEMORY32_END ∧ next ≤ a ∧ next' = a + s ∧ next_ok next' ∧
                       (a + s ≤ PCI_MEMORY32_END ∨ a = PCI_MEMORY64_START)
  | (None, next') => next' = next ∧ PCI_MEMORY64_START < next
  end.
Proof.
  intros Hs Hn. pose proof (bar_size_bounds s Hs) as Hb. unfold allocate_bar_address.
  destruct (pci_align_up_spec s next Hs) as (Hm & Hr & _); [pci_lia|].
  destruct (pci_align_up_spec s PCI_MEMORY64_START Hs) as (Hm' & _ & He); [pci_lia|].
  rewrite (wadd_small (pci_align_up next s)) by pci_lia. destruct (Z.leb_spec (pci_align_up next s + s) PCI_MEMORY32_END).
  { split_and!; [done|lia|lia|done| |by left]. left. pci_lia. }
  destruct (Z.ltb_spec next PCI_MEMORY64_START); [|split; [done|pci_lia]].
  rewrite He in Hm' |- * by (by apply window_aligned). rewrite wadd_small by pci_lia.
  split_and!; [done|pci_lia|pci_lia|done|right; pci_lia|by right].
Qed.

Lemma bar_requests_exhausted sizes : ∀ next,
  Forall bar_size sizes → PCI_MEMORY64_START < next < 2 * PCI_MEMORY64_START →
  bar_requests sizes next = replicate (length sizes) None.
Proof.
  induction sizes as [|s sizes IH]; intros next Hs Hn; [done|]. apply Forall_cons in Hs as [Hs1 Hs].
  pose proof (allocate_bar_spec s next Hs1 (or_intror Hn)) as Ha. cbn [bar_requests length replicate].
  destruct (allocate_bar_address s next) as [[a|] next'].
  - destruct Ha as (_ & Hle & _). pci_lia.
  - destruct Ha as [-> _]. by rewrite IH.
Qed.

Lemma bar_requests_spec sizes : ∀ next,
  Forall bar_size sizes → next_ok next →
  (∀ i s a, sizes !! i = Some s → bar_requests sizes next !! i = Some (Some a) →
     next ≤ a ∧ a mod s = 0 ∧ (a + s ≤ PCI_MEMORY32_END ∨ a = PCI_MEMORY64_START)) ∧
  (∀ i j s a b, (i < j)%nat → sizes !! i = Some s → bar_requests sizes next !! i = Some (Some a) →
     bar_requests sizes next !! j = Some (Some b) → a + s ≤ b ∧ a ≠ PCI_MEMORY64_START).
Proof.
  induction sizes as [|s sizes IH]; intros next Hs Hn; [split; intros; done|]. apply Forall_cons in Hs as [Hs1 Hs].
  pose proof (allocate_bar_spec s next Hs1 Hn) as Ha. pose proof (bar_size_bounds s Hs1) as Hb. cbn [bar_requests].
  destruct (allocate_bar_address s next) as [[a0|] next'].
  - destruct Ha as (Hm & Hle & Hge & -> & Hn' & Hw). destruct (IH _ Hs Hn') as [I1 I2]. split.
    + intros [|i] s' a; cbn [lookup list_lookup]; [by intros [= <-] [= <-]|]. intros E1 E2.
      destruct (I1 i s' a E1 E2) as (? & ? & ?). split; [lia|done].
    + intros [|i] [|j] s' a b Hij; cbn [lookup list_lookup]; [lia| |lia|by apply I2; lia].
      intros [= <-] [= <-] E2. destruct (decide (a0 = PCI_MEMORY64_START)) as [->|Ne].
      * rewrite bar_requests_exhausted in E2 by (done || pci_lia). by apply lookup_replicate in E2 as [? _].
      * split; [|done]. destruct (lookup_lt_is_Some_2 sizes j) as [s2 Hs2].
        { assert (length (bar_requests sizes (a0 + s)) = length sizes) as <-; [|by eapply lookup_lt_Some].
          clear. generalize (a0 + s). induction sizes as [|x l IHl]; intros n; [done|]. cbn [bar_requests].
          destruct (allocate_bar_address x n). simpl. by rewrite IHl. }
        destruct (I1 j s2 b Hs2 E2) as (? & _ & _). lia.
  - destruct Ha as [-> Hn']. destruct (IH _ Hs Hn) as [I1 I2]. split.
    + intros [|i] s' a; cbn [lookup list_lookup]; [done|]. apply I1.
    + intros [|i] [|j] s' a b Hij; cbn [lookup list_lookup]; [lia|done|lia|apply I2; lia].
Qed.

(** C40: The addresses [allocate_bar_address] hands out for PCI windows.  Over
    any sequence of requests for sizes that are powers of two, as the registers
    report them, every address is a multiple of its size and lies with its
    window in the 32-bit range or is the start of the 64-bit one; no two
    windows overlap; and after the start of the 64-bit range was handed out
    every request fails, whatever its size, so that range serves one request.
    Nothing here says that a register can hold its address: a 32-bit register
    that is given the start of the 64-bit range is written with zero
    ([exhausted_bar32_is_zero]). *)
Theorem bar_windows_disjoint sizes :
  Forall bar_size sizes →
  let addrs := bar_requests sizes NEXT_BAR_ADDR in
  (∀ i s a, sizes !! i = Some s → addrs !! i = Some (Some a) →
     a mod s = 0 ∧ (PCI_MEMORY32_START ≤ a ∧ a + s ≤ PCI_MEMORY32_END ∨ a = PCI_MEMORY64_START)) ∧
  (∀ i j s a b, (i < j)%nat → sizes !! i = Some s → addrs !! i = Some (Some a) → addrs !! j = Some (Some b) →
     a + s ≤ b ∧ a ≠ PCI_MEMORY64_START).
Proof.
  intros Hs addrs. destruct (bar_requests_spec sizes NEXT_BAR_ADDR Hs) as [H1 H2]; [left; unfold NEXT_BAR_ADDR; pci_lia|].
  split; [|exact H2]. intros i s a Es Ea. destruct (H1 i s a Es Ea) as (Hge & Hm & Hw). split; [done|].
  unfold NEXT_BAR_ADDR in Hge. destruct Hw; [by left|by right].
Qed.

Lemma bar_windows_disjoint_witness :
  bar_requests [0x4000; 0x100000; 0x20000000; 0x8000000; 0x1000] NEXT_BAR_ADDR
    = [Some 0x58000000; Some 0x58100000; Some 0x60000000; Some 0x100000000000; None] ∧
  0x58000000 mod 0x4000 = 0 ∧ 0x58000000 + 0x4000 ≤ 0x58100000.
Proof.
  assert (bar_requests [0x4000; 0x100000; 0x20000000; 0x8000000; 0x1000] NEXT_BAR_ADDR
    = [Some 0x58000000; Some 0x58100000; Some 0x60000000; Some 0x100000000000; None]) as E by (vm_compute; reflexivity).
  destruct (bar_windows_disjoint [0x4000; 0x100000; 0x20000000; 0x8000000; 0x1000]) as [H1 H2].
  { repeat constructor; [exists 14|exists 20|exists 29|exists 27|exists 12]; split; (lia || reflexivity). }
  rewrite E in H1, H2. split; [exact E|]. split.
  - apply (H1 0%nat 0x4000 0x58000000); reflexivity.
  - apply (H2 0%nat 1%nat 0x4000 0x58000000 0x58100000); [lia|reflexivity..].
Defined.

Section pci_props.
Context {P DF T : Type} `{!PciRoot P DF T}.

(** A round never fails and moves on. *)
Lemma assign_bar_total df i (s : P * Z) : ∃ i' s', assign_bar df i s = Val (i', s') ∧ i < i'.
Proof.
  destruct s as [r next]. unfold assign_bar, alloc_bar, write_bar_32, write_bar_64, on_root, mbind, st_bind, mret, st_ret.
  destruct (bar_info df i r) as [[[ty a z|a z]|] r1]; [| |eexists _, _; split; [done|lia]].
  - destruct (_ && _).
    + destruct (allocate_bar_address z next) as [[a'|] next']; [destruct ty|]; eexists _, _; (split; [reflexivity|lia]).
    + destruct (0 <? i); [destruct (bar_info df (i - 1) r1)|]; eexists _, _; (split; [reflexivity|lia]).
  - destruct (_ && _).
    + destruct (allocate_bar_address z next) as [[a'|] next']; eexists _, _; (split; [reflexivity|lia]).
    + destruct (0 <? i); [destruct (bar_info df (i - 1) r1)|]; eexists _, _; (split; [reflexivity|lia]).
Qed.

(** The walk over the six registers ends, whatever the device answers. *)
Lemma assign_bars_total fuel df : ∀ i (s : P * Z), 6 - i ≤ Z.of_nat fuel → ∃ s', assign_bars fuel df i s = Val (tt, s').
Proof.
  induction fuel as [|fuel IH]; intros i s Hf; cbn [assign_bars]; destruct (Z.leb_spec 6 i); [by eexists|lia|by eexists|].
  destruct (assign_bar_total df i s) as (i' & s' & E & Hi). unfold mbind, st_bind. rewrite E. apply IH. lia.
Qed.

(** A 32-bit register is written with zero once its window is exhausted: the
    address of the other window does not fit it. *)
Theorem exhausted_bar32_is_zero df i r next size r1 :
  bar_info df i r = (Some (BarMemory Width32 0 size), r1) → bar_size size →
  PCI_MEMORY32_START ≤ next ≤ PCI_MEMORY32_END → PCI_MEMORY32_END < pci_align_up next size + size →
  assign_bar df i (r, next) = Val (i + 1, (set_bar_32 df i 0 r1, PCI_MEMORY64_START + size)).
Proof.
  intros Hi Hs Hn Hx. pose proof (allocate_bar_spec size next Hs (or_introl Hn)) as Ha. pose proof (bar_size_bounds size Hs) as Hb.
  destruct (pci_align_up_spec size next Hs) as (_ & Hr & _); [pci_lia|].
  unfold assign_bar, alloc_bar, write_bar_32, on_root, mbind, st_bind, mret, st_ret. rewrite Hi.
  rewrite (proj2 (Z.ltb_lt 0 size)) by lia. cbn [andb Z.eqb].
  unfold allocate_bar_address in *. rewrite (wadd_small (pci_align_up next size)) in * by pci_lia.
  rewrite (proj2 (Z.leb_gt _ _) Hx) in *. rewrite (proj2 (Z.ltb_lt next PCI_MEMORY64_START)) in * by pci_lia.
  destruct Ha as (_ & _ & _ & E & _ & [Hw|Hw]).
  - destruct (pci_align_up_spec size PCI_MEMORY64_START Hs) as (_ & ? & _); [pci_lia|]. pci_lia.
  - rewrite E, Hw. reflexivity.
Qed.
End pci_props.

(** ** DMA memory is not returned *)
(** [dma_dealloc] compares frame addresses with page numbers.  With memory at
    2 GiB and above (below 8 TiB) it keeps every frame it is asked to
    release: nothing is returned to the allocator. *)
Theorem dma_dealloc_keeps_frames paddr pages ph container :
  0 ≤ paddr < 2 ^ 43 - pages * PAGE_SIZE → 0 ≤ pages → Forall (λ x, 2 ^ 31 ≤ x) container →
  dma_dealloc paddr pages (ph, container) = Val (0, (ph, container)).
Proof.
  intros Hp Hn Hc. unfold dma_dealloc.
  assert (∀ x, x ∈ container → dma_keeps paddr pages x = true) as Hk.
  { intros x Hx. rewrite Forall_forall in Hc. specialize (Hc x Hx). unfold dma_keeps. rewrite Z.shiftr_div_pow2 by lia.
    assert (paddr / 2 ^ 12 + pages < 2 ^ 31).
    { assert (paddr / 2 ^ 12 < 2 ^ 31 - pages); [|lia]. apply Z.div_lt_upper_bound; [lia|]. unfold PAGE_SIZE in Hp. lia. }
    assert (0 ≤ paddr / 2 ^ 12) by (apply Z.div_pos; lia).
    rewrite wadd_small by word_lia. rewrite (proj2 (Z.ltb_ge x _)) by lia. by rewrite andb_false_r. }
  rewrite (filter_none (λ x, dma_keeps paddr pages x = false)) by (intros x Hx Hf; by rewrite (Hk x Hx) in Hf).
  by rewrite filter_all by exact Hk.
Qed.

(** ** Interrupts *)
(** The interrupts of virtio block and network devices are never entered in
    the table of interrupts, so they are not enabled at boot. *)
Theorem virtio_irqs_not_registered {Blk Net Input Uart T R} (device_type : T → VirtioType)
    (blk_new : T → option Blk) (net_new : T → option Net) (input_new : T → option Input) t node
    (s : Irqs Blk Net Input Uart R) d s' :
  device_type t = VT_Block ∨ device_type t = VT_Network →
  virtio_device device_type blk_new net_new input_new t node s = Val (d, s') → s' = s.
Proof.
  unfold virtio_device, blk_init, net_init, mbind, st_bind, st_lift, register_device_irqs.
  intros [-> | ->].
  - destruct (blk_new t); simpl; [|done]. by intros [= <- <-].
  - destruct (net_new t); simpl; [|done]. intros [= <- <-]. by destruct s.
Qed.
