(* ===== verification/Lwext4.v ===== *)
(** * The files of the ext4 library ([vendor/lwext4_rust/src/file.rs])

    The Rust side of [lwext4_rust]: an [Ext4File] keeps a descriptor of the C
    library, a path and a type, and its methods call the C library and turn its
    return values into results.  The C library is an instance of [Lwext4]: its
    state [L] and the functions the Rust code calls.  The functions that only
    look at a descriptor ([ext4_fseek], [ext4_fsize], [ext4_fclose]) are
    modelled; what the others promise for a regular file is [Lwext4Files]. *)

From Stdlib Require Import Ascii.
From S2P Require Import Prelude Bytes Vfs Devices.
Local Open Scope Z_scope.

(** ** Types *)
Inductive InodeTypes :=
  | DE_UNKNOWN | DE_REG_FILE | DE_DIR | DE_CHRDEV | DE_BLKDEV | DE_FIFO | DE_SOCK | DE_SYMLINK
  | MODE_FIFO | MODE_CHARDEV | MODE_DIRECTORY | MODE_BLOCKDEV | MODE_FILE | MODE_SOFTLINK | MODE_SOCKET | MODE_TYPE_MASK.

#[export] Instance InodeTypes_eq_dec : EqDecision InodeTypes.
Proof. solve_decision. Defined.

(** [types as i32] *)
Definition inode_num (types : InodeTypes) : Z :=
  match types with
  | DE_UNKNOWN => 0 | DE_REG_FILE => 1 | DE_DIR => 2 | DE_CHRDEV => 3 | DE_BLKDEV => 4 | DE_FIFO => 5 | DE_SOCK => 6
  | DE_SYMLINK => 7 | MODE_FIFO => 0x1000 | MODE_CHARDEV => 0x2000 | MODE_DIRECTORY => 0x4000 | MODE_BLOCKDEV => 0x6000
  | MODE_FILE => 0x8000 | MODE_SOFTLINK => 0xA000 | MODE_SOCKET => 0xC000 | MODE_TYPE_MASK => 0xF000
  end.

(** [InodeTypes::from] *)
Definition inode_from (num : Z) : InodeTypes :=
  match num with
  | 0 => DE_UNKNOWN | 1 => DE_REG_FILE | 2 => DE_DIR | 3 => DE_CHRDEV | 4 => DE_BLKDEV | 5 => DE_FIFO | 6 => DE_SOCK
  | 7 => DE_SYMLINK | 0x1000 => MODE_FIFO | 0x2000 => MODE_CHARDEV | 0x4000 => MODE_DIRECTORY | 0x6000 => MODE_BLOCKDEV
  | 0x8000 => MODE_FILE | 0xA000 => MODE_SOFTLINK | 0xC000 => MODE_SOCKET | 0xF000 => MODE_TYPE_MASK
  | _ => DE_UNKNOWN
  end.

(** [Result<A, i32>] *)
Definition XRes (A : Type) : Type := (A + Z)%type.

(** [struct ext4_file]: [mp] is null (0) when the file is closed. *)
Record ext4_file := mkFd { fd_mp : Z; fd_inode : Z; fd_flags : Z; fd_fsize : Z; fd_fpos : Z }.

(** [struct ext4_direntry]; [de_name] has 255 bytes. *)
Record ext4_direntry := mkDirent { de_name_length : Z; de_inode_type : Z; de_name : list Z }.

(** ** The C library

    Every function gives back its return value and what it changed; a read
    also gives the bytes it put in the buffer (so [rcnt] is their number), a
    write the number [wcnt]. *)
Class Lwext4 (L : Type) := {
  ext4_dir : Type;
  ext4_fopen : ext4_file → string → string → L → Z * (ext4_file * L);
  ext4_fread : ext4_file → nat → L → Z * list Z * (ext4_file * L);
  ext4_fwrite : ext4_file → list Z → L → Z * Z * (ext4_file * L);
  ext4_ftruncate : ext4_file → Z → L → Z * (ext4_file * L);
  ext4_inode_exist : string → Z → L → Z;
  ext4_frename : string → string → L → Z * L;
  ext4_fremove : string → L → Z * L;
  ext4_cache_flush : string → L → Z * L;
  ext4_mode_get : string → Z → L → Z * Z;
  ext4_mode_set : string → Z → L → Z * L;
  ext4_dir_mk : string → L → Z * L;
  ext4_dir_mv : string → string → L → Z * L;
  ext4_dir_rm : string → L → Z * L;
  ext4_dir_zeroed : ext4_dir;
  ext4_dir_open : ext4_dir → string → L → Z * (ext4_dir * L);
  ext4_dir_entry_next : ext4_dir → L → option ext4_direntry * (ext4_dir * L);
  ext4_dir_close : ext4_dir → L → L;
  (** a bound on the entries still to come *)
  ext4_dir_left : ext4_dir → L → nat;
  ext4_fsymlink : string → string → L → Z * L;
  ext4_readlink : string → nat → L → Z * list Z;
  ext4_raw_inode_fill : string → L → option Z
}.

(** [int64_t] arguments are signed, the fields of the descriptor are not. *)
Definition ext4_fseek (d : ext4_file) (offset origin : Z) : Z * ext4_file :=
  let at_pos p := (0, mkFd (fd_mp d) (fd_inode d) (fd_flags d) (fd_fsize d) (wrap p)) in
  if origin =? 0 then
    if (offset <? 0) || (fd_fsize d <? offset) then (22, d) else at_pos offset
  else if origin =? 1 then
    if ((offset <? 0) && (fd_fpos d <? - offset)) || ((0 <? offset) && (wsub (fd_fsize d) (fd_fpos d) <? offset))
    then (22, d) else at_pos (fd_fpos d + offset)
  else if origin =? 2 then
    if (offset <? 0) || (fd_fsize d <? offset) then (22, d) else at_pos (fd_fsize d - offset)
  else (22, d).

Definition ext4_fsize (d : ext4_file) : Z := fd_fsize d.
Definition ext4_fclose (d : ext4_file) : ext4_file := mkFd 0 0 0 0 0.

(** ** [Ext4File] *)
Record Ext4File := mkExt4File { file_desc : ext4_file; file_path : string; this_type : InodeTypes }.

Fixpoint has_nul (s : string) : bool :=
  match s with EmptyString => false | String c s => bool_decide (c = "000"%char) || has_nul s end.

(** [CString::new(path).expect(..)] *)
Definition cstring_new (path : string) : outcome string := if has_nul path then Panic else Val path.

Definition Ext4File_new (path : string) (types : InodeTypes) : outcome Ext4File :=
  c_path ← cstring_new path; Val (mkExt4File (mkFd 0 0 0 0 0) c_path types).

(** [r != EOK] *)
Definition rc_result (r : Z) : XRes Z := if negb (r =? 0) then inr r else inl 0.
(** [r != EOK && r != ENOENT] *)
Definition rc_unless_gone (r : Z) : XRes Z := if negb (r =? 0) && negb (r =? 2) then inr r else inl 0.

Definition flags_to_cstring (flags : Z) : string :=
  if flags =? O_RDONLY then "rb" else if flags =? O_RDWR then "r+" else if flags =? 0x241 then "wb"
  else if flags =? 0x441 then "ab" else if flags =? 0x242 then "w+" else if flags =? 0x442 then "a+" else "r+".

Section file.
Context {L : Type} `{!Lwext4 L}.

(** A method of a file, on the file and the library. *)
Definition fcall (A : Type) : Type := Ext4File * L → outcome (XRes A * (Ext4File * L)).

Definition with_desc (f : Ext4File) (d : ext4_file) : Ext4File := mkExt4File d (file_path f) (this_type f).

Definition file_open (path : string) (flags : Z) : fcall Z := λ '(f, l),
  c_path ← cstring_new path;
  let '(r, (d, l)) := ext4_fopen (file_desc f) c_path (flags_to_cstring flags) l in
  Val (rc_result r, (with_desc f d, l)).

Definition file_close : fcall Z := λ '(f, l),
  Val (inl 0, (if negb (fd_mp (file_desc f) =? 0) then with_desc f (ext4_fclose (file_desc f)) else f, l)).

Definition check_inode_exist (path : string) (types : InodeTypes) (l : L) : outcome bool :=
  c_path ← cstring_new path; Val (ext4_inode_exist c_path (inode_num types) l =? 0).

Definition file_rename (path new_path : string) : fcall Z := λ '(f, l),
  c_path ← cstring_new path; c_new_path ← cstring_new new_path;
  let '(r, l) := ext4_frename c_path c_new_path l in Val (rc_result r, (f, l)).

Definition file_remove (path : string) : fcall Z := λ '(f, l),
  c_path ← cstring_new path; let '(r, l) := ext4_fremove c_path l in Val (rc_unless_gone r, (f, l)).

Definition file_size (f : Ext4File) : Z := ext4_fsize (file_desc f).

Definition file_seek (offset seek_type : Z) : fcall Z := λ '(f, l),
  let size := as_i64 (file_size f) in
  let offset := if size <? offset then size else offset in
  let '(r, d) := ext4_fseek (file_desc f) offset seek_type in
  Val (rc_result r, (with_desc f d, l)).

(** The bytes put in the buffer; their number is the count returned. *)
Definition file_read (n : nat) : fcall (list Z) := λ '(f, l),
  let '(r, bs, (d, l)) := ext4_fread (file_desc f) n l in
  Val (if negb (r =? 0) then inr r else inl bs, (with_desc f d, l)).

Definition file_write (buf : list Z) : fcall Z := λ '(f, l),
  let '(r, rw_count, (d, l)) := ext4_fwrite (file_desc f) buf l in
  Val (if negb (r =? 0) then inr r else inl rw_count, (with_desc f d, l)).

Definition file_truncate (size : Z) : fcall Z := λ '(f, l),
  let '(r, (d, l)) := ext4_ftruncate (file_desc f) size l in Val (rc_result r, (with_desc f d, l)).

Definition file_cache_flush : fcall Z := λ '(f, l),
  let '(r, l) := ext4_cache_flush (file_path f) l in Val (rc_result r, (f, l)).

Definition file_mode_get : fcall Z := λ '(f, l),
  let '(r, mode) := ext4_mode_get (file_path f) 0x1ff l in Val (if negb (r =? 0) then inr r else inl mode, (f, l)).

Definition file_mode_set (mode : Z) : fcall Z := λ '(f, l),
  let '(r, l) := ext4_mode_set (file_path f) mode l in Val (rc_result r, (f, l)).

(** [mode & !0o777], on 32 bits *)
Definition file_type_get (s : Ext4File * L) : outcome InodeTypes :=
  '(r, _) ← file_mode_get s;
  match r with
  | inr _ => Panic
  | inl mode =>
      let types := Z.land mode (Z.lxor 0x1ff (Z.ones 32)) in
      Val (if bool_decide (types ∈ [0x1000; 0x2000; 0x4000; 0x6000; 0x8000; 0xA000; 0xC000; 0xF000])
           then inode_from types else MODE_FILE)
  end.

Definition dir_mk (path : string) : fcall Z := λ '(f, l),
  c_path ← cstring_new path; let '(r, l) := ext4_dir_mk c_path l in Val (rc_result r, (f, l)).

Definition dir_mv (path new_path : string) : fcall Z := λ '(f, l),
  c_path ← cstring_new path; c_new_path ← cstring_new new_path;
  let '(r, l) := ext4_dir_mv c_path c_new_path l in Val (rc_result r, (f, l)).

Definition dir_rm (path : string) : fcall Z := λ '(f, l),
  c_path ← cstring_new path; let '(r, l) := ext4_dir_rm c_path l in Val (rc_unless_gone r, (f, l)).

(** The name with a zero byte after it, cut from an array of 255 bytes: a name
    of 255 bytes leaves no place for the zero. *)
Definition entry_name (e : ext4_direntry) : outcome (list Z) :=
  let len := Z.to_nat (de_name_length e) in
  if (255 <? len)%nat then Panic
  else if (len =? 255)%nat then Panic
  else Val (take len (de_name e) ++ [0]).

(** The loop over the entries; [None] would be a loop that has not ended. *)
Fixpoint dir_loop (fuel : nat) (d : ext4_dir) (l : L) : option (outcome (list (list Z) * list InodeTypes * (ext4_dir * L))) :=
  match fuel with
  | O => None
  | S fuel =>
      match ext4_dir_entry_next d l with
      | (None, (d, l)) => Some (Val ([], [], (d, l)))
      | (Some e, (d, l)) =>
          match entry_name e with
          | Panic => Some Panic
          | Val name =>
              r ← dir_loop fuel d l;
              Some ('(names, types, s) ← r; Val (name :: names, inode_from (de_inode_type e) :: types, s))
          end
      end
  end.

Definition lwext4_dir_entries (f : Ext4File) (l : L) : outcome (XRes (list (list Z) * list InodeTypes) * L) :=
  if negb (bool_decide (this_type f = DE_DIR)) then Val (inr (-1), l)
  else
    let '(_, (d, l)) := ext4_dir_open ext4_dir_zeroed (file_path f) l in
    '(names, types, (d, l)) ← default Panic (dir_loop (S (ext4_dir_left d l)) d l);
    Val (inl (names, types), ext4_dir_close d l).
End file.

(** ** Regular files

    What the C library promises ([ext4.h], [ext4.c]): opening a regular file
    for reading, or for both, gives a descriptor of its inode at position 0
    with its size; reading and writing start at the descriptor's position,
    which is not beyond the end.  [inode_at] is the regular file a path leads
    to, [inode_bytes] its contents, [room] that the disk has the blocks. *)
Definition same_files {L I B} (inode_at : string → L → I) (inode_bytes : Z → L → B) (l l' : L) : Prop :=
  (∀ p, inode_at p l' = inode_at p l) ∧ ∀ i, inode_bytes i l' = inode_bytes i l.

Class Lwext4Files (L : Type) `{!Lwext4 L} := {
  inode_at : string → L → option Z;
  inode_bytes : Z → L → option (list Z);
  room : Z → nat → list Z → L → Prop;
  size_law i l bs : inode_bytes i l = Some bs → Z.of_nat (length bs) < 2 ^ 63;
  fopen_law p m d l i bs : inode_at p l = Some i → inode_bytes i l = Some bs → m = "rb"%string ∨ m = "r+"%string →
    ∃ mp l', mp ≠ 0 ∧
      ext4_fopen d p m l =
        (0, (mkFd mp i (if bool_decide (m = "rb"%string) then O_RDONLY else O_RDWR) (Z.of_nat (length bs)) 0, l')) ∧
      same_files inode_at inode_bytes l l' ∧ ∀ j k buf, room j k buf l → room j k buf l';
  fread_law d l bs n : fd_mp d ≠ 0 → fd_flags d = O_RDONLY ∨ fd_flags d = O_RDWR → inode_bytes (fd_inode d) l = Some bs →
    0 ≤ fd_fpos d ≤ Z.of_nat (length bs) →
    ∃ d' l', ext4_fread d n l = (0, take n (drop (Z.to_nat (fd_fpos d)) bs), (d', l')) ∧
      same_files inode_at inode_bytes l l';
  fwrite_law d l bs buf : fd_mp d ≠ 0 → fd_flags d = O_RDWR → inode_bytes (fd_inode d) l = Some bs →
    0 ≤ fd_fpos d ≤ Z.of_nat (length bs) → room (fd_inode d) (Z.to_nat (fd_fpos d)) buf l →
    ∃ d' l', ext4_fwrite d buf l = (0, Z.of_nat (length buf), (d', l')) ∧
      inode_bytes (fd_inode d) l' = Some (splice (Z.to_nat (fd_fpos d)) buf bs) ∧
      (∀ p, inode_at p l' = inode_at p l) ∧ ∀ j, j ≠ fd_inode d → inode_bytes j l' = inode_bytes j l
}.

Lemma as_i64_small x : 0 ≤ x < 2 ^ 63 → as_i64 x = x.
Proof. intros Hx. unfold as_i64. by rewrite (proj2 (Z.ltb_lt _ _)) by lia. Qed.

Section files.
Context {L : Type} `{!Lwext4 L} `{!Lwext4Files L}.

(** The file is open on inode [i] with contents [bs], at position [pos]. *)
Definition opened (i flags : Z) (bs : list Z) (pos : nat) (f : Ext4File) : Prop :=
  ∃ mp, mp ≠ 0 ∧ file_desc f = mkFd mp i flags (Z.of_nat (length bs)) (Z.of_nat pos).

Lemma file_open_spec path flags f (l : L) i bs :
  has_nul path = false → flags = O_RDONLY ∨ flags = O_RDWR → inode_at path l = Some i → inode_bytes i l = Some bs →
  ∃ f' l', file_open path flags (f, l) = Val (inl 0, (f', l')) ∧ opened i flags bs 0 f' ∧ file_path f' = file_path f ∧
    same_files inode_at inode_bytes l l' ∧ ∀ j k buf, room j k buf l → room j k buf l'.
Proof.
  intros Hn Hfl Hi Hbs. unfold file_open, cstring_new. rewrite Hn. cbn [mbind outcome_bind].
  destruct (fopen_law path (flags_to_cstring flags) (file_desc f) l i bs Hi Hbs) as (mp & l' & Hmp & -> & Hs & Hr);
    [destruct Hfl as [->| ->]; [by left|by right]|].
  do 2 eexists. split; [done|]. split_and!; [|done..]. exists mp. split; [done|]. by destruct Hfl as [->| ->].
Qed.

(** Seeking stops at the end of the file. *)
Lemma file_seek_spec f (l : L) i flags bs pos off :
  opened i flags bs pos f → Z.of_nat (length bs) < 2 ^ 63 → 0 ≤ off →
  ∃ f', file_seek off 0 (f, l) = Val (inl 0, (f', l)) ∧ opened i flags bs (Nat.min (Z.to_nat off) (length bs)) f' ∧
    file_path f' = file_path f.
Proof.
  intros (mp & Hmp & Hd) Hlen Hoff. unfold file_seek, file_size, ext4_fsize. rewrite Hd. cbn [fd_fsize].
  rewrite as_i64_small by lia. unfold ext4_fseek. cbn [Z.eqb fd_mp fd_inode fd_flags fd_fsize fd_fpos].
  assert ((if Z.of_nat (length bs) <? off then Z.of_nat (length bs) else off) =
    Z.of_nat (Nat.min (Z.to_nat off) (length bs))) as -> by (destruct (Z.ltb_spec (Z.of_nat (length bs)) off); lia).
  rewrite (proj2 (Z.ltb_ge _ 0)), (proj2 (Z.ltb_ge _ _)) by lia. cbn [orb].
  eexists. split; [done|]. split; [|done]. exists mp. split; [done|]. cbn. f_equal. apply Z.mod_small. unfold MAX64. lia.
Qed.

Lemma file_read_spec f (l : L) i flags bs pos n :
  opened i flags bs pos f → flags = O_RDONLY ∨ flags = O_RDWR → inode_bytes i l = Some bs → (pos ≤ length bs)%nat →
  ∃ f' l', file_read n (f, l) = Val (inl (take n (drop pos bs)), (f', l')) ∧ file_path f' = file_path f ∧
    same_files inode_at inode_bytes l l'.
Proof.
  intros (mp & Hmp & Hd) Hfl Hbs Hpos. unfold file_read. rewrite Hd.
  destruct (fread_law (mkFd mp i flags (Z.of_nat (length bs)) (Z.of_nat pos)) l bs n) as (d' & l' & -> & Hs);
    [done..|cbn; lia|]. cbn [fd_fpos]. rewrite Nat2Z.id. by do 2 eexists.
Qed.

Lemma file_write_spec f (l : L) i bs pos buf :
  opened i O_RDWR bs pos f → inode_bytes i l = Some bs → (pos ≤ length bs)%nat → room i pos buf l →
  ∃ f' l', file_write buf (f, l) = Val (inl (Z.of_nat (length buf)), (f', l')) ∧ file_path f' = file_path f ∧
    inode_bytes i l' = Some (splice pos buf bs) ∧
    (∀ p, inode_at p l' = inode_at p l) ∧ ∀ j, j ≠ i → inode_bytes j l' = inode_bytes j l.
Proof.
  intros (mp & Hmp & Hd) Hbs Hpos Hr. unfold file_write. rewrite Hd.
  destruct (fwrite_law (mkFd mp i O_RDWR (Z.of_nat (length bs)) (Z.of_nat pos)) l bs buf) as (d' & l' & -> & Hb & Hp & Hj);
    [done..|cbn; lia|cbn; by rewrite Nat2Z.id|]. cbn [fd_fpos fd_inode] in *. rewrite Nat2Z.id in Hb. by do 2 eexists.
Qed.

Lemma file_close_spec f (l : L) : ∃ f', file_close (f, l) = Val (inl 0, (f', l)) ∧ file_path f' = file_path f.
Proof. unfold file_close. eexists. split; [done|]. by destruct (negb _). Qed.

Lemma same_files_trans (l1 l2 l3 : L) :
  same_files inode_at inode_bytes l1 l2 → same_files inode_at inode_bytes l2 l3 → same_files inode_at inode_bytes l1 l3.
Proof. intros [H1 H2] [H3 H4]. split; intros x; [by rewrite H3|by rewrite H4]. Qed.
End files.

(** ** Directories *)
Section dirs.
Context {L : Type} `{!Lwext4 L}.

(** The entries the library finds from a directory on, until it finds no more. *)
Inductive entries_from : ext4_dir → L → list ext4_direntry → Prop :=
  | entries_end d l s : ext4_dir_entry_next d l = (None, s) → entries_from d l []
  | entries_next d l e d' l' es : ext4_dir_entry_next d l = (Some e, (d', l')) → entries_from d' l' es →
      entries_from d l (e :: es).

Lemma dir_loop_spec d l es : entries_from d l es → ∀ fuel, (length es < fuel)%nat →
  ∃ r, dir_loop fuel d l = Some r ∧
    (Forall (λ e, de_name_length e < 255) es → ∃ s, r =
      Val ((λ e, take (Z.to_nat (de_name_length e)) (de_name e) ++ [0]) <$> es, inode_from ∘ de_inode_type <$> es, s)) ∧
    (Exists (λ e, 255 ≤ de_name_length e) es → r = Panic).
Proof.
  induction 1 as [d l [d' l'] E|d l e d' l' es E _ IH]; intros [|fuel] Hf; cbn [length] in Hf; try lia; cbn [dir_loop]; rewrite E.
  { eexists. split; [done|]. split; [intros _; by eexists|]. intros H. inversion H. }
  destruct (IH fuel) as (r & -> & Hok & Hbad); [lia|]. cbn [mbind option_bind]. unfold entry_name.
  destruct (255 <? _)%nat eqn:E1; [|destruct (_ =? 255)%nat eqn:E2].
  1, 2: eexists; split; [done|]; split; [|done]; intros H; inversion H; subst;
    rewrite ?Nat.ltb_lt, ?Nat.eqb_eq in *; lia.
  apply Nat.ltb_ge in E1. apply Nat.eqb_neq in E2. eexists. split; [done|]. split.
  - intros H. inversion H; subst. destruct Hok as [s ->]; [done|]. by eexists.
  - intros H. inversion H; subst; [lia|]. by rewrite Hbad.
Qed.

(** Listing a directory gives every entry the library finds, in its order,
    whatever opening it returned; but an entry with a name of 255 bytes, the
    longest name ext4 allows, stops the kernel. *)
Theorem dir_entries_listed f (l : L) rc d l1 es :
  this_type f = DE_DIR → ext4_dir_open ext4_dir_zeroed (file_path f) l = (rc, (d, l1)) → entries_from d l1 es →
  (length es ≤ ext4_dir_left d l1)%nat →
  (Forall (λ e, de_name_length e < 255) es → ∃ l', lwext4_dir_entries f l =
     Val (inl ((λ e, take (Z.to_nat (de_name_length e)) (de_name e) ++ [0]) <$> es, inode_from ∘ de_inode_type <$> es), l')) ∧
  (Exists (λ e, 255 ≤ de_name_length e) es → lwext4_dir_entries f l = Panic).
Proof.
  intros Ht Ho Hes Hlen. unfold lwext4_dir_entries. rewrite Ht, Ho. cbn [negb].
  rewrite bool_decide_eq_true_2 by done. cbn [negb].
  destruct (dir_loop_spec d l1 es Hes (S (ext4_dir_left d l1))) as (r & -> & Hok & Hbad); [lia|]. cbn [default].
  split; [intros H; destruct (Hok H) as [[d' l'] ->]; by eexists|]. intros H. by rewrite (Hbad H).
Qed.
End dirs.

(** ** A library over maps

    Paths of regular files to inodes, inodes to contents, paths of directories
    to entries. *)
Record DemoLib := mkDemoLib {
  dl_names : gmap string Z; dl_files : gmap Z (list Z); dl_dirs : gmap string (list ext4_direntry)
}.

Definition demo_bytes (i : Z) (l : DemoLib) : option (list Z) :=
  match dl_files l !! i with
  | Some bs => if Z.of_nat (length bs) <? 2 ^ 63 then Some bs else None
  | None => None
  end.
Definition demo_file_len (i : Z) (l : DemoLib) : Z := Z.of_nat (length (default [] (dl_files l !! i))).

#[export] Instance demo_lwext4 : Lwext4 DemoLib := {
  ext4_dir := list ext4_direntry;
  ext4_fopen d p m l :=
    match dl_names l !! p with
    | Some i => (0, (mkFd 1 i (if bool_decide (m = "rb"%string) then O_RDONLY else O_RDWR) (demo_file_len i l) 0, l))
    | None => (2, (mkFd 0 (fd_inode d) (fd_flags d) (fd_fsize d) (fd_fpos d), l))
    end;
  ext4_fread d n l := (0, take n (drop (Z.to_nat (fd_fpos d)) (default [] (dl_files l !! fd_inode d))), (d, l));
  ext4_fwrite d buf l :=
    (0, Z.of_nat (length buf),
      (d, mkDemoLib (dl_names l)
            (<[fd_inode d := splice (Z.to_nat (fd_fpos d)) buf (default [] (dl_files l !! fd_inode d))]> (dl_files l)) (dl_dirs l)));
  ext4_ftruncate d size l :=
    (0, (d, mkDemoLib (dl_names l) (alter (take (Z.to_nat size)) (fd_inode d) (dl_files l)) (dl_dirs l)));
  ext4_inode_exist p ty l := if bool_decide (ty = 1 ∧ is_Some (dl_names l !! p)) then 0 else 2;
  ext4_frename _ _ l := (2, l);
  ext4_fremove p l := (0, mkDemoLib (delete p (dl_names l)) (dl_files l) (dl_dirs l));
  ext4_cache_flush _ l := (0, l); ext4_mode_get _ _ _ := (0, 0x81ff); ext4_mode_set _ _ l := (0, l);
  ext4_dir_mk _ l := (28, l); ext4_dir_mv _ _ l := (2, l); ext4_dir_rm _ l := (2, l);
  ext4_dir_zeroed := [];
  ext4_dir_open d p l := match dl_dirs l !! p with Some es => (0, (es, l)) | None => (2, (d, l)) end;
  ext4_dir_entry_next d l := match d with e :: d => (Some e, (d, l)) | [] => (None, ([], l)) end;
  ext4_dir_close _ l := l;
  ext4_dir_left d _ := length d;
  ext4_fsymlink _ _ l := (2, l); ext4_readlink _ _ _ := (2, []); ext4_raw_inode_fill p l := dl_names l !! p
}.

#[export] Program Instance demo_lwext4_files : Lwext4Files DemoLib := {
  inode_at p l := dl_names l !! p;
  inode_bytes := demo_bytes;
  room i pos buf l := Z.of_nat (pos + length buf) < 2 ^ 63
}.
Next Obligation. intros i l bs. unfold demo_bytes. destruct (dl_files l !! i); [|done]. case (Z.ltb_spec (Z.of_nat (length l0)) (2 ^ 63)); [|done]. by intros ? [= <-]. Qed.
Next Obligation.
  intros p m d l i bs Hi Hb _. exists 1, l. split; [done|]. cbn. rewrite Hi. unfold demo_file_len, demo_bytes in *.
  destruct (dl_files l !! i) as [bs'|]; [|done]. destruct (_ <? _); [|done]. injection Hb as ->. by repeat split.
Qed.
Next Obligation.
  intros d l bs n _ _ Hb _. exists d, l. cbn. unfold demo_bytes in Hb. destruct (dl_files l !! _) as [bs'|]; [|done].
  destruct (_ <? _); [|done]. injection Hb as ->. by repeat split.
Qed.
Next Obligation.
  intros d l bs buf _ _ Hb Hpos Hr. do 2 eexists. split; [done|]. unfold demo_bytes in *. cbn.
  destruct (dl_files l !! fd_inode d) as [bs'|]; [|done]. destruct (Z.ltb_spec (Z.of_nat (length bs')) (2 ^ 63)); [|done].
  injection Hb as ->. rewrite lookup_insert_eq. cbn [default]. split; [|split; [done|]].
  - rewrite (proj2 (Z.ltb_lt _ _)); [done|].
    unfold splice. rewrite !length_app, length_take, length_drop. unfold id. lia.
  - intros j Hj. by rewrite lookup_insert_ne.
Qed.
