(* ===== verification/Ext4.v ===== *)
(** * The root file system ([filesystem/fs/src/ext4_shim.rs])

    The adapter that makes inodes of the files of [Lwext4.v]: paths, error
    numbers, types, and the order in which the files' methods are called.  The C
    library below them is an instance of [Lwext4]. *)

From Stdlib Require Import Ascii.
From S2P Require Import Prelude Bytes Path Vfs File Devices Lwext4.
Local Open Scope Z_scope.

(** ** Errors, types, strings *)
(** [Errno::new] *)
Definition errno_of (code : Z) : Errno :=
  match code with
  | 1 => EPERM | 2 => ENOENT | 3 => ESRCH | 4 => EINTR | 7 => E2BIG | 9 => EBADF | 10 => ECHILD | 11 => EAGAIN
  | 12 => ENOMEM | 14 => EFAULT | 17 => EEXIST | 19 => ENODEV | 20 => ENOTDIR | 21 => EISDIR | 22 => EINVAL
  | 23 => ENFILE | 24 => EMFILE | 25 => ENOTTY | 29 => ESPIPE | 38 => ENOSYS | 39 => ENOTEMPTY | 42 => ENOMSG
  | 97 => EAFNOSUPPORT | 110 => ETIMEDOUT | 114 => EALREADY
  | _ => ERRNO code
  end.
Definition map_ext4_err {A} (r : XRes A) : result A := match r with inl a => Ok a | inr e => Err (errno_of e) end.

(** [Errno::from_ret] of a C return value. *)
Definition from_ret (value : Z) : result Z :=
  if (-4096 <? value) && (value <? 0) then Err (errno_of (- value)) else Ok (wrap value).

Definition map_ext4_type (value : InodeTypes) : outcome FileType :=
  match value with
  | DE_UNKNOWN | DE_REG_FILE => Val FT_File
  | DE_DIR => Val FT_Directory
  | DE_CHRDEV | DE_BLKDEV | DE_FIFO => Val FT_Device
  | DE_SOCK => Val FT_Socket
  | DE_SYMLINK => Val FT_Link
  | _ => Panic
  end.

Definition in_range (lo hi x : Z) : bool := (lo <=? x) && (x <=? hi).
Definition is_cont (x : Z) : bool := in_range 0x80 0xBF x.

(** The range of the second byte of a sequence of three or four bytes. *)
Definition second_ok (a b : Z) : bool :=
  if a =? 0xE0 then in_range 0xA0 0xBF b else if a =? 0xED then in_range 0x80 0x9F b
  else if a =? 0xF0 then in_range 0x90 0xBF b else if a =? 0xF4 then in_range 0x80 0x8F b else is_cont b.

(** The first UTF-8 sequence of a byte string: whether it is valid and its
    length, of an invalid one the part that is replaced as a whole. *)
Definition utf8_step (l : list Z) : bool * nat :=
  match l with
  | [] => (true, 0%nat)
  | a :: l =>
      if in_range 0 0x7F a then (true, 1%nat)
      else if in_range 0xC2 0xDF a then
        match l with b :: _ => if is_cont b then (true, 2%nat) else (false, 1%nat) | [] => (false, 1%nat) end
      else if in_range 0xE0 0xEF a then
        match l with
        | b :: l => if second_ok a b then
                      match l with c :: _ => if is_cont c then (true, 3%nat) else (false, 2%nat) | [] => (false, 2%nat) end
                    else (false, 1%nat)
        | [] => (false, 1%nat)
        end
      else if in_range 0xF0 0xF4 a then
        match l with
        | b :: l => if second_ok a b then
                      match l with
                      | c :: l => if is_cont c then
                                    match l with d :: _ => if is_cont d then (true, 4%nat) else (false, 3%nat) | [] => (false, 3%nat) end
                                  else (false, 2%nat)
                      | [] => (false, 2%nat)
                      end
                    else (false, 1%nat)
        | [] => (false, 1%nat)
        end
      else (false, 1%nat)
  end.

Fixpoint utf8_chunks (fuel : nat) (l : list Z) : list (bool * list Z) :=
  match fuel with
  | O => []
  | S fuel => match l with
              | [] => []
              | _ => let '(ok, n) := utf8_step l in (ok, take n l) :: utf8_chunks fuel (drop n l)
              end
  end.

Definition bytes_string (l : list Z) : string := foldr (λ b s, String (ascii_of_nat (Z.to_nat b)) s) EmptyString l.

(** [CStr::to_str], and [String::from_utf8_lossy]: U+FFFD for each invalid part *)
Definition from_utf8 (l : list Z) : option string :=
  if forallb fst (utf8_chunks (length l) l) then Some (bytes_string l) else None.
Definition from_utf8_lossy (l : list Z) : string :=
  bytes_string (concat ((λ x : bool * list Z, if x.1 then x.2 else [0xEF; 0xBF; 0xBD]) <$> utf8_chunks (length l) l)).

(** [CString::from_vec_with_nul]: one zero byte, at the end *)
Definition from_vec_with_nul (l : list Z) : option (list Z) :=
  let body := take (length l - 1) l in
  if bool_decide (last l = Some 0) && bool_decide (Forall (λ b, b ≠ 0) body) then Some body else None.

(** ** Names ([path_deal_with]) *)
Definition is_slash (c : ascii) : bool := bool_decide (c = slash).

Fixpoint trim_start (s : string) : string :=
  match s with String c t => if is_slash c then trim_start t else s | EmptyString => EmptyString end.
Fixpoint trim_end (s : string) : string :=
  match s with
  | EmptyString => EmptyString
  | String c s => let t := trim_end s in if is_slash c && bool_decide (t = EmptyString) then EmptyString else String c t
  end.
Definition trim_matches (s : string) : string := trim_end (trim_start s).

(** [strip_prefix("./")] *)
Definition strip_dot_slash (s : string) : option string :=
  match s with
  | String a (String b t) => if bool_decide (a = "."%char) && is_slash b then Some t else None
  | _ => None
  end.

(** [replace("//", "/")] *)
Fixpoint replace_slashes (s : string) : string :=
  match s with
  | String a (String b t as u) => if is_slash a && is_slash b then String a (replace_slashes t) else String a (replace_slashes u)
  | _ => s
  end.

(** The recursion takes the fuel; [None] when it runs out. *)
Fixpoint deal_with (fuel : nat) (dir path : string) : option string :=
  match fuel with
  | O => None
  | S fuel =>
      let p := trim_matches path in
      if bool_decide (p = EmptyString) || bool_decide (p = "."%string) then Some EmptyString
      else match strip_dot_slash p with
           | Some rest => deal_with fuel dir rest
           | None =>
               let rest_p := replace_slashes p in
               if bool_decide (p = rest_p) then Some (trim_end dir +:+ "/" +:+ p)%string else deal_with fuel dir rest_p
           end
  end.
Definition path_deal_with (dir path : string) : string := default EmptyString (deal_with (S (String.length path)) dir path).

(** ** The adapter *)
Section ext4.
Context {L : Type} `{!Lwext4 L}.

Record Ext4FileWrapper := mkWrapper { xf_file_type : FileType; xf_inner : Ext4File }.

(** The library and the wrappers, by [Arc]. *)
Record Ext4Store := mkExt4 { xs_lib : L; xs_nodes : gmap Z Ext4FileWrapper }.

Definition wrapper_new (path : string) (types : InodeTypes) : outcome Ext4FileWrapper :=
  file ← Ext4File_new path types;
  file_type ← map_ext4_type (this_type file);
  Val (mkWrapper file_type file).

(** [?] on the methods of a file, and [let _ = file.file_close();] *)
Definition f_bind {A B} (m : fcall (L := L) A) (f : A → fcall B) : fcall B := λ s,
  '(r, s) ← m s; match r with inl a => f a s | inr e => Val (inr e, s) end.
Definition f_ret {A} (a : A) : fcall (L := L) A := λ s, Val (inl a, s).
Definition close_quietly : fcall (L := L) unit := λ s, '(_, s) ← file_close s; Val (inl tt, s).

(** The methods a call makes on the file of wrapper [id], under its lock. *)
Definition on_wrapper {A} (id : Z) (m : Ext4File → fcall (L := L) A) : vfs Ext4Store A := λ s,
  w ← unwrap (xs_nodes s !! id);
  '(r, (f, l)) ← m (xf_inner w) (xf_inner w, xs_lib s);
  Val (map_ext4_err r, mkExt4 l (<[id := mkWrapper (xf_file_type w) f]> (xs_nodes s))).

Definition MAX_RETRIES : nat := 3.

(** One attempt of [readat]: the file is closed again unless the open failed. *)
Definition read_once (path : string) (offset : Z) (n : nat) : fcall (list Z) :=
  f_bind (file_open path O_RDONLY) (λ _ s,
    '(r, s) ← f_bind (file_seek (as_i64 offset) 0) (λ _, file_read n) s;
    '(_, s) ← close_quietly s;
    Val (r, s)).

Fixpoint read_attempts (k : nat) (path : string) (offset : Z) (n : nat) : fcall (list Z) := λ s,
  match k with
  | O => Val (inr 5, s)
  | S k =>
      '(r, s) ← read_once path offset n s;
      match r with
      | inl bs => Val (inl bs, s)
      | inr e => if (k =? 0)%nat then Val (inr e, s) else read_attempts k path offset n s
      end
  end.

Definition ext4_readat (id offset : Z) (n : nat) : vfs Ext4Store (list Z) :=
  on_wrapper id (λ file, read_attempts MAX_RETRIES (file_path file) offset n).

Definition ext4_writeat (id offset : Z) (buffer : list Z) : vfs Ext4Store Z :=
  on_wrapper id (λ file,
    f_bind (file_open (file_path file) O_RDWR) (λ _,
    f_bind (file_seek (as_i64 offset) 0) (λ _,
    f_bind (file_write buffer) (λ wsize,
    f_bind close_quietly (λ _, f_ret wsize))))).

Definition ext4_truncate (id size : Z) : vfs Ext4Store unit :=
  on_wrapper id (λ file,
    f_bind (file_open (file_path file) O_RDWR) (λ _,
    f_bind (file_truncate size) (λ _, close_quietly))).

(** [self.path_deal_with(name)] *)
Definition full_path (id : Z) (name : string) : ST Ext4Store string := λ s,
  w ← unwrap (xs_nodes s !! id); Val (path_deal_with (file_path (xf_inner w)) name, s).

Definition ext4_mkdir (id : Z) (name : string) : vfs Ext4Store unit := λ s,
  '(fpath, s) ← full_path id name s; on_wrapper id (λ _, f_bind (dir_mk fpath) (λ _, f_ret tt)) s.

Definition ext4_unlink (id : Z) (name : string) : vfs Ext4Store unit := λ s,
  '(fpath, s) ← full_path id name s;
  is_dir ← check_inode_exist fpath DE_DIR (xs_lib s);
  on_wrapper id (λ _, f_bind (if is_dir : bool then dir_rm fpath else file_remove fpath) (λ _, f_ret tt)) s.

Definition ext4_symlink (id : Z) (name src : string) : vfs Ext4Store unit := λ s,
  '(fpath, s) ← full_path id name s;
  if bool_decide (fpath = EmptyString) then Val (Ok tt, s)
  else
    exists_ ← check_inode_exist fpath DE_SYMLINK (xs_lib s);
    if exists_ : bool then Val (Err EEXIST, s)
    else
      c_src ← cstring_new src;
      let '(r, l) := ext4_fsymlink c_src fpath (xs_lib s) in
      Val ((λ _, tt) <$> from_ret r, mkExt4 l (xs_nodes s)).

Definition ext4_resolve_link (id : Z) : vfs Ext4Store string := λ s,
  w ← unwrap (xs_nodes s !! id);
  let '(r, bytes) := ext4_readlink (file_path (xf_inner w)) 100 (xs_lib s) in
  Val ((λ _, from_utf8_lossy bytes) <$> from_ret r, s).

(** The entries, until one whose name is not a C string in UTF-8. *)
Fixpoint ext4_entries (l : list (list Z * InodeTypes)) : outcome (result (list DirEntry)) :=
  match l with
  | [] => Val (Ok [])
  | (name, ty) :: l =>
      match from_vec_with_nul name ≫= from_utf8 with
      | None => Val (Err EINVAL)
      | Some filename =>
          file_type ← map_ext4_type ty;
          r ← ext4_entries l;
          Val (match r with Ok ans => Ok (mkDirEntry filename 0 file_type :: ans) | Err e => Err e end)
      end
  end.

Definition ext4_read_dir (id : Z) : vfs Ext4Store (list DirEntry) := λ s,
  w ← unwrap (xs_nodes s !! id);
  '(iters, l) ← lwext4_dir_entries (xf_inner w) (xs_lib s);
  let s := mkExt4 l (xs_nodes s) in
  match map_ext4_err iters with
  | Ok (names, types) => r ← ext4_entries (zip names types); Val (r, s)
  | Err e => Val (Err e, s)
  end.

(** [Arc::new] of a wrapper. *)
Definition add_wrapper (path : string) (types : InodeTypes) : vfs Ext4Store Z := λ s,
  w ← wrapper_new path types;
  let id := fresh (dom (xs_nodes s)) in Val (Ok id, mkExt4 (xs_lib s) (<[id := w]> (xs_nodes s))).

Definition ext4_lookup (id : Z) (name : string) : vfs Ext4Store Z := λ s,
  '(fpath, s) ← full_path id name s;
  if bool_decide (fpath = EmptyString) then add_wrapper "/" DE_DIR s
  else
    is_dir ← check_inode_exist fpath DE_DIR (xs_lib s);
    if is_dir : bool then add_wrapper fpath DE_DIR s
    else
      is_file ← check_inode_exist fpath DE_REG_FILE (xs_lib s);
      if is_file : bool then add_wrapper fpath DE_REG_FILE s
      else
        is_link ← check_inode_exist fpath DE_SYMLINK (xs_lib s);
        if is_link : bool then add_wrapper fpath DE_SYMLINK s else Val (Err ENOENT, s).

(** [O_WRONLY | O_CREAT | O_TRUNC] *)
Definition CREATE_FLAGS : Z := Z.lor (Z.lor O_WRONLY O_CREAT) O_TRUNC.

Definition ext4_create (id : Z) (name : string) (ty : FileType) : vfs Ext4Store unit := λ s,
  ext4_type ← match ty with FT_Directory => Val DE_DIR | FT_File => Val DE_REG_FILE | _ => Panic end;
  '(fpath, s) ← full_path id name s;
  if bool_decide (fpath = EmptyString) then Val (Ok tt, s)
  else
    exists_ ← check_inode_exist fpath ext4_type (xs_lib s);
    if exists_ : bool then Val (Ok tt, s)
    else if bool_decide (ext4_type = DE_DIR) then on_wrapper id (λ _, f_bind (dir_mk fpath) (λ _, f_ret tt)) s
    else on_wrapper id (λ _, f_bind (file_open fpath CREATE_FLAGS) (λ _, f_bind file_close (λ _, f_ret tt))) s.

Definition stat_mode (ty : InodeTypes) : outcome Z :=
  match ty with
  | DE_REG_FILE => Val FILE | DE_DIR => Val DIR | DE_BLKDEV => Val BLOCK | DE_SOCK => Val SOCKET | DE_SYMLINK => Val LINK
  | _ => Panic
  end.

(** [stat]; a failed open leaves [stat] as it was. *)
Definition ext4_stat (id : Z) (stat : Stat) : vfs Ext4Store Stat := λ s,
  w ← unwrap (xs_nodes s !! id);
  let is_file := bool_decide (xf_file_type w = FT_File) in
  '(r, s1) ← (if is_file then on_wrapper id (λ file, file_open (file_path file) O_RDONLY) s else Val (Ok 0, s));
  match r with
  | Err e => Val (Err e, s1)
  | Ok _ =>
      w1 ← unwrap (xs_nodes s1 !! id);
      let file := xf_inner w1 in
      let ino := if is_file then default 1 (ext4_raw_inode_fill (file_path file) (xs_lib s1)) else 1 in
      mode ← stat_mode (this_type file);
      let st := mkStat (st_dev stat) ino mode 1 0 0 0 (st_pad stat) (file_size file) 512 (st_pad2 stat) 0
                  timespec_default timespec_default timespec_default in
      '(_, s2) ← (if is_file then on_wrapper id (λ _, close_quietly) s1 else Val (Ok tt, s1));
      Val (Ok st, s2)
  end.

Definition ext4_statfs (statfs : StatFS) : vfs Ext4Store StatFS := vfs_ok (mkStatFS 32 512 80 40 0 32 0 32 20).

Definition ext4_ops : INodeOps Ext4Store Z :=
  let d := inode_default Ext4Store Z in {|
  io_readat := ext4_readat; io_writeat := ext4_writeat; io_create := ext4_create; io_mkdir := ext4_mkdir;
  io_rmdir := ext4_unlink; io_remove := ext4_unlink; io_read_dir := ext4_read_dir; io_lookup := ext4_lookup;
  io_truncate := ext4_truncate; io_link := io_link d; io_unlink := ext4_unlink; io_stat := ext4_stat;
  io_utimes _ _ _ := vfs_ok tt; io_poll := io_poll d; io_ioctl := io_ioctl d; io_flush := io_flush d;
  io_resolve_link := ext4_resolve_link; io_symlink := ext4_symlink;
  io_mount := io_mount d; io_umount := io_umount d; io_statfs _ st := ext4_statfs st
|}.
End ext4.

(** ** Names *)
Lemma length_trim_start s : (String.length (trim_start s) ≤ String.length s)%nat.
Proof. induction s as [|c s IH]; simpl; [done|]. destruct (is_slash c); simpl; lia. Qed.

Lemma length_trim_end s : (String.length (trim_end s) ≤ String.length s)%nat.
Proof. induction s as [|c s IH]; simpl; [done|]. destruct (_ && _); simpl; lia. Qed.

Lemma length_trim_matches s : (String.length (trim_matches s) ≤ String.length s)%nat.
Proof. unfold trim_matches. pose proof (length_trim_end (trim_start s)). pose proof (length_trim_start s). lia. Qed.

Lemma length_strip s t : strip_dot_slash s = Some t → (String.length t < String.length s)%nat.
Proof.
  destruct s as [|a [|b u]]; simpl; try done. destruct (_ && _); [|done]. intros [= ->]. lia.
Qed.

Lemma replace_eq a b t : replace_slashes (String a (String b t)) =
  if is_slash a && is_slash b then String a (replace_slashes t) else String a (replace_slashes (String b t)).
Proof. done. Qed.

(** A replacement either shortens the string or changes nothing. *)
Lemma length_replace s : replace_slashes s = s ∨ (String.length (replace_slashes s) < String.length s)%nat.
Proof.
  assert (∀ n s, (String.length s ≤ n)%nat →
    replace_slashes s = s ∨ (String.length (replace_slashes s) < String.length s)%nat) as H; [|by eapply H].
  clear s. induction n as [|n IH]; intros s Hs; [destruct s; simpl in *; [by left|lia]|].
  destruct s as [|a [|b t]]; [by left..|]. rewrite replace_eq. cbn [String.length] in Hs. destruct (_ && _).
  - right. cbn [String.length]. destruct (IH t) as [->|?]; lia.
  - destruct (IH (String b t)) as [->|?]; [simpl; lia|by left|right; cbn [String.length] in *; lia].
Qed.

Lemma deal_with_enough dir : ∀ fuel path, (String.length path < fuel)%nat →
  deal_with fuel dir path = deal_with (S (String.length path)) dir path ∧ is_Some (deal_with fuel dir path).
Proof.
  assert (∀ n path, (String.length path < n)%nat → ∀ f1 f2, (String.length path < f1)%nat → (String.length path < f2)%nat →
    deal_with f1 dir path = deal_with f2 dir path ∧ is_Some (deal_with f1 dir path)) as H.
  { induction n as [|n IH]; intros path Hn f1 f2 H1 H2; [lia|]. destruct f1 as [|f1], f2 as [|f2]; try lia.
    cbn [deal_with]. pose proof (length_trim_matches path) as Ht. destruct (_ || _); [by eauto|].
    destruct (strip_dot_slash (trim_matches path)) as [rest|] eqn:Es; [apply length_strip in Es; apply IH; lia|].
    case_bool_decide as Er; [by eauto|].
    destruct (length_replace (trim_matches path)) as [E|Hlt]; [congruence|]. apply IH; lia. }
  intros fuel path Hf. by apply (H (S (String.length path))); lia.
Qed.

Lemma trim_end_idem s : trim_end (trim_end s) = trim_end s.
Proof.
  induction s as [|c s IH]; [done|]. cbn [trim_end].
  destruct (is_slash c && bool_decide (trim_end s = EmptyString)) eqn:E; [done|]. cbn [trim_end]. by rewrite IH, E.
Qed.

Lemma trim_start_trim_end s : trim_start (trim_end (trim_start s)) = trim_end (trim_start s).
Proof.
  induction s as [|c s IH]; [done|]. cbn [trim_start]. destruct (is_slash c) eqn:E; [exact IH|].
  cbn [trim_end]. rewrite E. cbn [andb trim_start]. by rewrite E.
Qed.

Lemma trim_matches_idem s : trim_matches (trim_matches s) = trim_matches s.
Proof. unfold trim_matches. by rewrite trim_start_trim_end, trim_end_idem. Qed.

(** ** What a name resolves to

    The components of a path, as [str::split] finds them, less the empty ones. *)
Definition components (path : string) : list string := filter (λ x, x ≠ EmptyString) (split_slash path).

(** Leading [.] components are dropped; those after another name stay. *)
Fixpoint drop_dots (l : list string) : list string :=
  match l with
  | [] => []
  | x :: l' => if bool_decide (x = "."%string) then drop_dots l' else l
  end.

Definition resolved (dir path : string) : string :=
  match drop_dots (components path) with
  | [] => EmptyString
  | names => (trim_end dir +:+ "/" +:+ join_slash names)%string
  end.

Lemma split_slash_cons c s :
  split_slash (String c s) =
    if is_slash c then EmptyString :: split_slash s
    else match split_slash s with x :: xs => String c x :: xs | [] => [String c EmptyString] end.
Proof. done. Qed.

(** Two strings with the same first component and the same others, empty ones
    aside. *)
Definition same_split (s t : string) : Prop :=
  ∃ h r r', split_slash s = h :: r ∧ split_slash t = h :: r' ∧
    filter (λ x, x ≠ EmptyString) r = filter (λ x, x ≠ EmptyString) r'.

Lemma same_split_components s t : same_split s t → components s = components t.
Proof. intros (h & r & r' & E & E' & H). unfold components. rewrite E, E', !filter_cons. by destruct (decide _); rewrite H. Qed.

Lemma same_split_refl s : same_split s s.
Proof. destruct (split_slash s) as [|h r] eqn:E; [by apply split_slash_nonempty in E|]. by exists h, r, r. Qed.

Lemma same_split_cons c s t : same_split s t → same_split (String c s) (String c t).
Proof.
  intros (h & r & r' & E & E' & H). unfold same_split. rewrite !split_slash_cons, E, E'. destruct (is_slash c).
  - do 3 eexists. split_and!; [done..|]. rewrite !filter_cons. by destruct (decide _); rewrite H.
  - by do 3 eexists.
Qed.

Lemma components_slash c s : is_slash c = true → components (String c s) = components s.
Proof. intros Hc. unfold components. rewrite split_slash_cons, Hc. cbv iota. by rewrite filter_cons_False by (intros []; done). Qed.

Lemma components_trim_start s : components (trim_start s) = components s.
Proof.
  induction s as [|c s IH]; [done|]. cbn [trim_start]. destruct (is_slash c) eqn:E; [|done]. by rewrite components_slash.
Qed.

Lemma same_split_trim_end s : same_split s (trim_end s).
Proof.
  induction s as [|c s IH]; [apply same_split_refl|]. cbn [trim_end].
  destruct (is_slash c) eqn:Ec; cbn [andb]; [|by apply same_split_cons].
  case_bool_decide as Et; [|by apply same_split_cons]. destruct IH as (h & r & r' & E & E' & H). rewrite Et in E'.
  injection E' as <- <-. unfold same_split. rewrite split_slash_cons, Ec, E. do 3 eexists. split_and!; [done..|].
  by rewrite filter_cons_False, H by (intros []; done).
Qed.

Lemma components_trim s : components (trim_matches s) = components s.
Proof. unfold trim_matches. rewrite <- (same_split_components _ _ (same_split_trim_end _)). apply components_trim_start. Qed.

Lemma same_split_replace s : same_split s (replace_slashes s).
Proof.
  assert (∀ n s, (String.length s ≤ n)%nat → same_split s (replace_slashes s)) as H; [|by eapply H].
  clear s. induction n as [|n IH]; intros s Hs; [destruct s; simpl in *; [apply same_split_refl|lia]|].
  destruct s as [|a [|b t]]; [apply same_split_refl..|]. rewrite replace_eq. cbn [String.length] in Hs.
  destruct (is_slash a && is_slash b) eqn:E; [|apply same_split_cons, IH; cbn [String.length]; lia].
  apply andb_true_iff in E as [Ea Eb]. destruct (IH t) as (h & r & r' & E & E' & H); [lia|].
  unfold same_split. rewrite !split_slash_cons, Ea, Eb, E, E'. do 3 eexists. split_and!; [done..|].
  rewrite filter_cons_False by (intros []; done). rewrite !filter_cons. by destruct (decide _); rewrite H.
Qed.

Lemma components_strip p t : strip_dot_slash p = Some t → components p = "."%string :: components t.
Proof.
  destruct p as [|a [|b u]]; cbn [strip_dot_slash]; try done. case_bool_decide as Ea; cbn [andb]; [|done].
  destruct (is_slash b) eqn:Eb; [|done]. intros [= <-]. subst a. unfold components.
  rewrite !split_slash_cons, Eb. change (is_slash ".") with false. cbv iota. by rewrite filter_cons_True.
Qed.

Lemma join_split s : join_slash (split_slash s) = s.
Proof.
  induction s as [|c s IH]; [done|]. rewrite split_slash_cons. pose proof (split_slash_nonempty s).
  destruct (split_slash s) as [|x xs] eqn:E; [done|]. unfold is_slash. case_bool_decide as Ec.
  - cbn [join_slash]. cbn [join_slash] in IH. rewrite IH. by rewrite Ec.
  - destruct xs as [|y xs]; cbn [join_slash] in *; [by rewrite IH|]. cbn. by rewrite <- IH.
Qed.

(** In a trimmed name without double slashes no component is empty. *)
Lemma clean_components s :
  trim_end s = s → replace_slashes s = s → s ≠ EmptyString →
  ∃ x xs, split_slash s = x :: xs ∧ Forall (λ x, x ≠ EmptyString) xs ∧ (trim_start s = s → x ≠ EmptyString).
Proof.
  induction s as [|a u IH]; [done|]. intros Ht Hr _. cbn [trim_end] in Ht.
  destruct (is_slash a && bool_decide (trim_end u = EmptyString)) eqn:E; [done|]. injection Ht as Htu.
  destruct u as [|b t].
  { rewrite split_slash_cons. destruct (is_slash a) eqn:Ea; [by cbn in E|]. by exists (String a ""), []. }
  rewrite replace_eq in Hr. destruct (is_slash a && is_slash b) eqn:Eab.
  { injection Hr as Hr. destruct (length_replace t) as [El|El]; rewrite Hr in El;
      [apply (f_equal String.length) in El|]; cbn [String.length] in El; lia. }
  injection Hr as Hr. destruct (IH Htu Hr) as (x & xs & Ex & Hxs & Hx); [done|]. rewrite split_slash_cons, Ex.
  destruct (is_slash a) eqn:Ea; cbn [andb] in Eab; [|by exists (String a x), xs].
  exists EmptyString, (x :: xs). split_and!; [done| |].
  - constructor; [|done]. apply Hx. cbn [trim_start]. by rewrite Eab.
  - change (trim_start (String a (String b t))) with (if is_slash a then trim_start (String b t) else String a (String b t)).
    rewrite Ea. intros El. pose proof (length_trim_start (String b t)) as Hl. rewrite El in Hl. cbn [String.length] in Hl. lia.
Qed.

Lemma clean_resolved dir p :
  trim_matches p = p → replace_slashes p = p → strip_dot_slash p = None → p ≠ EmptyString → p ≠ "."%string →
  resolved dir p = (trim_end dir +:+ "/" +:+ p)%string.
Proof.
  intros Ht Hr Hs H0 H1. assert (trim_start p = p) as Hts.
  { rewrite <- Ht at 1. unfold trim_matches. rewrite trim_start_trim_end. exact Ht. }
  assert (trim_end p = p) as Hte by (rewrite <- Hts at 1; exact Ht).
  destruct (clean_components p Hte Hr H0) as (x & xs & E & Hxs & Hx). specialize (Hx Hts).
  assert (components p = x :: xs) as Ec.
  { unfold components. rewrite E. apply filter_all. apply Forall_forall. by constructor. }
  unfold resolved. rewrite Ec. cbn [drop_dots]. rewrite bool_decide_eq_false_2; [by rewrite <- E, join_split|].
  intros ->. destruct p as [|a p]; [done|]. rewrite split_slash_cons in E. destruct (is_slash a); [by injection E|].
  destruct (split_slash p) as [|y ys] eqn:Ep; [by apply split_slash_nonempty in Ep|]. injection E as -> -> ->.
  destruct p as [|b t]; [done|]. rewrite split_slash_cons in Ep. cbn [strip_dot_slash] in Hs.
  destruct (is_slash b); [done|]. by destruct (split_slash t).
Qed.

Lemma deal_with_resolved fuel dir path r : deal_with fuel dir path = Some r → r = resolved dir path.
Proof.
  revert path. induction fuel as [|fuel IH]; intros path; cbn [deal_with]; [done|].
  assert (resolved dir path = resolved dir (trim_matches path)) as -> by (unfold resolved; by rewrite components_trim).
  pose proof (trim_matches_idem path) as Hidem. revert Hidem. generalize (trim_matches path) as p. intros p Hidem.
  case_bool_decide as E1; cbn [orb]; [by intros [= <-]; rewrite E1|].
  case_bool_decide as E2; [by intros [= <-]; rewrite E2|].
  destruct (strip_dot_slash p) as [rest|] eqn:Es.
  - intros H. apply IH in H. rewrite H. unfold resolved. by rewrite (components_strip p rest Es).
  - case_bool_decide as Er; [intros [= <-]; by rewrite clean_resolved|]. intros H. apply IH in H. rewrite H.
    unfold resolved. by rewrite <- (same_split_components _ _ (same_split_replace p)).
Qed.

(** C38: Resolving a name against a directory ends for every name, and answers
    the directory's path without slashes at its end followed by the names of
    the path between its slashes, empty ones and leading [.]s left out, with
    one slash before each; when no name is left (the empty path, [.], slashes
    only) it answers the empty path.  A [.] after a name, and every [..], are
    kept. *)
Theorem path_deal_with_spec dir path :
  deal_with (S (String.length path)) dir path = Some (path_deal_with dir path) ∧
  path_deal_with dir path = resolved dir path.
Proof.
  destruct (deal_with_enough dir (S (String.length path)) path) as [_ [r Hr]]; [lia|].
  unfold path_deal_with. rewrite Hr. split; [done|]. by eapply deal_with_resolved.
Qed.

Example path_deal_with_ex :
  path_deal_with "/usr/" ".//./a//./b/" = "/usr/a/./b"%string ∧ path_deal_with "/" "a/../b" = "/a/../b"%string ∧
  path_deal_with "/usr" "./." = EmptyString.
Proof. vm_compute. done. Qed.

(** ** Regular files *)
Section files.
Context {L : Type} `{!Lwext4 L} `{!Lwext4Files L}.
Notation St := (Ext4Store (L := L)).
Notation same := (same_files inode_at inode_bytes).

(** Wrapper [id] is of a path that leads to the regular file [i] (a path is a
    [CString], so it holds no zero byte). *)
Definition file_of (i id : Z) (s : St) : Prop :=
  ∃ w, xs_nodes s !! id = Some w ∧ has_nul (file_path (xf_inner w)) = false ∧
    inode_at (file_path (xf_inner w)) (xs_lib s) = Some i.

(** Every wrapper keeps its path. *)
Definition paths_kept (s s' : St) : Prop :=
  ∀ id w, xs_nodes s !! id = Some w → ∃ w', xs_nodes s' !! id = Some w' ∧ file_path (xf_inner w') = file_path (xf_inner w).

Lemma file_of_kept i id (s s' : St) :
  paths_kept s s' → (∀ p, inode_at p (xs_lib s') = inode_at p (xs_lib s)) → file_of i id s → file_of i id s'.
Proof.
  intros Hk Hp (w & Hw & Hn & Hi). destruct (Hk id w Hw) as (w' & Hw' & E). exists w'. rewrite E, Hp. done.
Qed.

Lemma paths_kept_insert (s : St) l' id w f :
  xs_nodes s !! id = Some w → file_path f = file_path (xf_inner w) →
  paths_kept s (mkExt4 l' (<[id := mkWrapper (xf_file_type w) f]> (xs_nodes s))).
Proof.
  intros Hw Hf id' w' Hw'. cbn. destruct (decide (id = id')) as [<-|Hne].
  - rewrite lookup_insert_eq. eexists. split; [done|]. cbn. rewrite Hf. congruence.
  - rewrite lookup_insert_ne by done. by eexists.
Qed.

Lemma drop_min {A} off (l : list A) : drop (Nat.min off (length l)) l = drop off l.
Proof. destruct (decide (off ≤ length l)%nat); [by rewrite Nat.min_l|]. by rewrite Nat.min_r, !drop_ge by lia. Qed.

Lemma read_once_spec p f (l : L) i bs off n :
  has_nul p = false → inode_at p l = Some i → inode_bytes i l = Some bs → 0 ≤ off < 2 ^ 63 →
  ∃ f' l', read_once p off n (f, l) = Val (inl (take n (drop (Z.to_nat off) bs)), (f', l')) ∧
    file_path f' = file_path f ∧ same l l'.
Proof.
  intros Hn Hi Hb Hoff. pose proof (size_law i l bs Hb) as Hlen. unfold read_once, f_bind at 1.
  destruct (file_open_spec p O_RDONLY f l i bs Hn (or_introl eq_refl) Hi Hb) as (f1 & l1 & -> & Ho1 & P1 & S1 & _).
  cbn [mbind outcome_bind]. unfold f_bind. rewrite as_i64_small by done.
  destruct (file_seek_spec f1 l1 i O_RDONLY bs 0 off Ho1 Hlen) as (f2 & -> & Ho2 & P2); [lia|]. cbn [mbind outcome_bind].
  destruct (file_read_spec f2 l1 i O_RDONLY bs (Nat.min (Z.to_nat off) (length bs)) n Ho2 (or_introl eq_refl))
    as (f3 & l3 & -> & P3 & S3); [by rewrite (proj2 S1)|lia|]. cbn [mbind outcome_bind].
  unfold close_quietly. destruct (file_close_spec f3 l3) as (f4 & -> & P4). cbn [mbind outcome_bind].
  exists f4, l3. split; [by rewrite drop_min|]. split; [congruence|]. by eapply same_files_trans.
Qed.

Lemma ext4_readat_spec (s : St) i id bs off n :
  file_of i id s → inode_bytes i (xs_lib s) = Some bs → 0 ≤ off < 2 ^ 63 →
  ∃ s', ext4_readat id off n s = Val (Ok (take n (drop (Z.to_nat off) bs)), s') ∧
    same (xs_lib s) (xs_lib s') ∧ paths_kept s s'.
Proof.
  intros (w & Hw & Hn & Hi) Hb Hoff. unfold ext4_readat, on_wrapper. rewrite Hw.
  cbn [unwrap mbind outcome_bind MAX_RETRIES read_attempts].
  destruct (read_once_spec (file_path (xf_inner w)) (xf_inner w) (xs_lib s) i bs off n Hn Hi Hb Hoff) as (f' & l' & -> & Hp & Hs).
  cbn [mbind outcome_bind]. eexists. split; [done|]. split; [done|]. by apply paths_kept_insert.
Qed.

Lemma ext4_writeat_spec (s : St) i id bs off buf :
  file_of i id s → inode_bytes i (xs_lib s) = Some bs → 0 ≤ off < 2 ^ 63 →
  let pos := Nat.min (Z.to_nat off) (length bs) in
  room i pos buf (xs_lib s) →
  ∃ s', ext4_writeat id off buf s = Val (Ok (Z.of_nat (length buf)), s') ∧
    inode_bytes i (xs_lib s') = Some (splice pos buf bs) ∧
    (∀ j, j ≠ i → inode_bytes j (xs_lib s') = inode_bytes j (xs_lib s)) ∧
    (∀ p, inode_at p (xs_lib s') = inode_at p (xs_lib s)) ∧ paths_kept s s'.
Proof.
  intros (w & Hw & Hn & Hi) Hb Hoff pos Hr. pose proof (size_law i _ bs Hb) as Hlen. unfold ext4_writeat, on_wrapper. rewrite Hw.
  cbn [unwrap mbind outcome_bind]. unfold f_bind at 1.
  destruct (file_open_spec (file_path (xf_inner w)) O_RDWR (xf_inner w) (xs_lib s) i bs Hn (or_intror eq_refl) Hi Hb)
    as (f1 & l1 & -> & Ho1 & P1 & [S1p S1b] & R1).
  cbn [mbind outcome_bind]. unfold f_bind at 1. rewrite as_i64_small by done.
  destruct (file_seek_spec f1 l1 i O_RDWR bs 0 off Ho1 Hlen) as (f2 & -> & Ho2 & P2); [lia|].
  cbn [mbind outcome_bind]. unfold f_bind at 1.
  destruct (file_write_spec f2 l1 i bs pos buf Ho2) as (f3 & l3 & -> & P3 & B3 & S3p & S3b);
    [by rewrite S1b|unfold pos; lia|by apply R1|].
  cbn [mbind outcome_bind]. unfold f_bind, close_quietly. destruct (file_close_spec f3 l3) as (f4 & -> & P4).
  cbn [mbind outcome_bind]. eexists. split; [done|]. cbn [xs_lib].
  split_and!; [done|intros j Hj; by rewrite S3b, S1b|intros p; by rewrite S3p, S1p|].
  apply paths_kept_insert; [done|congruence].
Qed.

(** C29: On a regular file of the root file system, whatever descriptors the
    wrappers hold, writing returns the length of the buffer and leaves the
    buffer at the offset in the file, or at the end of the file when the offset
    lies beyond it ([file_seek] moves the offset back to the end, so no hole is
    made), changing no other file; a read at any offset through any wrapper of
    the file, under the same or another path, then returns the bytes of the new
    contents there, none beyond the end.  The C library has room for the write
    and opens, reads and writes at a descriptor's position ([Lwext4Files]);
    offsets are below 2^63. *)
Theorem ext4_write_read (s : St) i id bs off buf :
  file_of i id s → inode_bytes i (xs_lib s) = Some bs → 0 ≤ off < 2 ^ 63 →
  let pos := Nat.min (Z.to_nat off) (length bs) in
  let new := take pos bs ++ buf ++ drop (pos + length buf) bs in
  room i pos buf (xs_lib s) →
  ∃ s', io_writeat ext4_ops id off buf s = Val (Ok (Z.of_nat (length buf)), s') ∧
    inode_bytes i (xs_lib s') = Some new ∧ (∀ j, j ≠ i → inode_bytes j (xs_lib s') = inode_bytes j (xs_lib s)) ∧
    ∀ id' roff n, file_of i id' s → 0 ≤ roff < 2 ^ 63 →
      ∃ s2, io_readat ext4_ops id' roff n s' = Val (Ok (take n (drop (Z.to_nat roff) new)), s2) ∧
        same (xs_lib s') (xs_lib s2).
Proof.
  intros Hf Hb Hoff pos new Hr. cbn [io_writeat io_readat ext4_ops].
  destruct (ext4_writeat_spec s i id bs off buf Hf Hb Hoff Hr) as (s' & E & Hnew & Hj & Hp & Hk).
  exists s'. split_and!; [done..|]. intros id' roff n Hf' Hro.
  destruct (ext4_readat_spec s' i id' new roff n) as (s2 & E2 & Hs & _); [by eapply file_of_kept|done|done|]. by exists s2.
Qed.

(** A link the library refuses to make, or cannot read, is reported as a
    success: the library's error numbers are positive, and [from_ret] takes
    only negative values for errors. *)
Theorem ext4_symlink_hides_errors (s : St) id w name src code l :
  xs_nodes s !! id = Some w → path_deal_with (file_path (xf_inner w)) name ≠ EmptyString →
  check_inode_exist (path_deal_with (file_path (xf_inner w)) name) DE_SYMLINK (xs_lib s) = Val false →
  has_nul src = false →
  ext4_fsymlink src (path_deal_with (file_path (xf_inner w)) name) (xs_lib s) = (code, l) → 0 ≤ code →
  io_symlink ext4_ops id name src s = Val (Ok tt, mkExt4 l (xs_nodes s)).
Proof.
  intros Hw Hp Hx Hn Hl Hc. cbn [io_symlink ext4_ops]. unfold ext4_symlink, full_path. rewrite Hw.
  cbn [unwrap mbind outcome_bind]. rewrite bool_decide_eq_false_2 by done. rewrite Hx. cbn [mbind outcome_bind].
  unfold cstring_new. rewrite Hn. cbn [mbind outcome_bind]. rewrite Hl. unfold from_ret.
  by rewrite (proj2 (Z.ltb_ge code 0)), andb_false_r by lia.
Qed.
End files.

(** ** Directories *)
Section listing.
Context {L : Type} `{!Lwext4 L}.
Notation St := (Ext4Store (L := L)).




End listing.

(** ** An example: a file of three bytes under two names *)
Definition demo_wrapper (p : string) : Ext4FileWrapper := mkWrapper FT_File (mkExt4File (mkFd 0 0 0 0 0) p DE_REG_FILE).
Definition demo_ext4_store : Ext4Store (L := DemoLib) :=
  mkExt4 (mkDemoLib {[ "/f"%string := 12; "/g"%string := 12 ]} {[ 12 := [1; 2; 3] ]} ∅)
    {[ 1 := demo_wrapper "/f"; 2 := demo_wrapper "/g" ]}.

(** Three bytes written at offset 10 of the file land at its end, and are read
    under the other name. *)
Lemma ext4_write_read_witness :
  ∃ s' s2, io_writeat ext4_ops 1 10 [7; 8; 9] demo_ext4_store = Val (Ok 3, s') ∧
    io_readat ext4_ops 2 2 3 s' = Val (Ok [3; 7; 8], s2).
Proof.
  destruct (ext4_write_read demo_ext4_store 12 1 [1; 2; 3] 10 [7; 8; 9]) as (s' & E & _ & _ & Hr);
    [exists (demo_wrapper "/f"); repeat split|reflexivity|lia|vm_compute; reflexivity|].
  destruct (Hr 2 2 3%nat) as (s2 & E2 & _); [exists (demo_wrapper "/g"); repeat split|lia|].
  exists s', s2. split; [exact E|exact E2].
Defined.


