(* ===== verification/Fat.v ===== *)
(** * The FAT adapter ([filesystem/fs/src/fatfs_shim.rs])

    The cursor through which the [fatfs] library reaches a block device, and
    files and directories as inodes over that library.  The library is an
    instance of [FatFiles] and [FatDirs]; what the adapter relies on are the
    laws of [FatFileLaws]. *)

From S2P Require Import Prelude Bytes Vfs Devices.
Local Open Scope Z_scope.

(** ** [DiskCursor] *)
Section cursor.
Context {D : Type} `{!BlkDriver D}.

Record DiskCursor := mkCursor { dc_sector : Z; dc_offset : Z; dc_device_id : Z }.
Definition CursorSt : Type := DiskCursor * list D.

(** [Fat32FileSystem::new] starts at the beginning of a device. *)
Definition cursor_new (device_id : Z) : DiskCursor := mkCursor 0 0 device_id.

Definition get_position (c : DiskCursor) : Z := dc_sector c *w 0x200 +w dc_offset c.
Definition cursor_at (position : Z) (c : DiskCursor) : DiskCursor :=
  mkCursor (position / 0x200) (position mod 0x200) (dc_device_id c).
Definition move_cursor (amount : Z) (c : DiskCursor) : DiskCursor := cursor_at (get_position c +w amount) c.

(** [fatfs::Read]: what is written into the buffer of [n] bytes, and the count. *)
Definition cursor_read (n : nat) : ST CursorSt (list Z * Z) := λ '(c, devs),
  d ← blk_at (dc_device_id c) devs;
  '(bs, read_size) ←
    (if negb (dc_offset c =? 0) || (Z.of_nat n <? 512) then
       data ← read_blocks (dc_sector c) 512 d;
       let start := dc_offset c in
       let end_ := Z.min (start + Z.of_nat n) 512 in
       Val (take (Z.to_nat (end_ - start)) (drop (Z.to_nat start) data), end_ - start)
     else
       bs ← read_blocks (dc_sector c) n d;
       Val (bs, Z.of_nat n / 512 * 512));
  Val ((bs, read_size), (move_cursor read_size c, devs)).

(** [fatfs::Write]: at most one sector. *)
Definition cursor_write (buf : list Z) : ST CursorSt Z := λ '(c, devs),
  d ← blk_at (dc_device_id c) devs;
  '(d, write_size) ←
    (if negb (dc_offset c =? 0) || (Z.of_nat (length buf) <? 512) then
       data ← read_blocks (dc_sector c) 512 d;
       let start := dc_offset c in
       let end_ := Z.min (start + Z.of_nat (length buf)) 512 in
       d ← write_blocks (dc_sector c) (splice (Z.to_nat start) (take (Z.to_nat (end_ - start)) buf) data) d;
       Val (d, end_ - start)
     else
       d ← write_blocks (dc_sector c) (take 512 buf) d;
       Val (d, 512));
  Val (write_size, (move_cursor write_size c, <[Z.to_nat (dc_device_id c) := d]> devs)).

(** [fatfs::Seek] *)
Inductive FatSeek := SeekStart (i : Z) | SeekEnd (i : Z) | SeekCurrent (i : Z).
Definition cursor_seek (pos : FatSeek) : ST CursorSt Z := λ '(c, devs),
  match pos with
  | SeekStart i => Val (i, (cursor_at i c, devs))
  | SeekEnd _ => Panic
  | SeekCurrent i => let new_pos := wrap (get_position c + i) in Val (new_pos, (cursor_at new_pos c, devs))
  end.

(** Writing a buffer piece by piece, each call going on where the last one
    stopped. *)
Inductive writes : list Z → CursorSt → CursorSt → Prop :=
  | writes_nil st : writes [] st st
  | writes_step buf st n st1 st2 :
      buf ≠ [] → cursor_write buf st = Val (n, st1) → writes (drop (Z.to_nat n) buf) st1 st2 → writes buf st st2.
End cursor.
Arguments CursorSt : clear implicits.

(** ** Errors *)
Inductive FatError :=
  | F_AlreadyExists | F_CorruptedFileSystem | F_DirectoryIsNotEmpty | F_InvalidInput | F_InvalidFileNameLength
  | F_UnsupportedFileNameCharacter | F_NotEnoughSpace | F_NotFound | F_UnexpectedEof | F_WriteZero | F_Io.
Inductive VfsError :=
  | V_AlreadyExists | V_InvalidData | V_DirectoryNotEmpty | V_InvalidInput | V_StorageFull | V_FileNotFound
  | V_UnexpectedEof | V_WriteZero | V_Io.

Definition as_vfs_err (err : FatError) : VfsError :=
  match err with
  | F_AlreadyExists => V_AlreadyExists
  | F_CorruptedFileSystem => V_InvalidData
  | F_DirectoryIsNotEmpty => V_DirectoryNotEmpty
  | F_InvalidInput | F_InvalidFileNameLength | F_UnsupportedFileNameCharacter => V_InvalidInput
  | F_NotEnoughSpace => V_StorageFull
  | F_NotFound => V_FileNotFound
  | F_UnexpectedEof => V_UnexpectedEof
  | F_WriteZero => V_WriteZero
  | F_Io => V_Io
  end.

Record Metadata := mkMetadata { md_filename : string; md_inode : Z; md_file_type : FileType; md_size : Z; md_childrens : Z }.

(** ** Files *)
(** The library's file: calls return an error or a value, and the file. *)
Class FatFiles (F : Type) := {
  f_seek : Z → F → (FatError + Z) * F;
  f_read_exact : nat → F → (FatError + list Z) * F;
  f_write : list Z → F → (FatError + Z) * F;
  f_write_all : list Z → F → (FatError + unit) * F;
  f_truncate : F → (FatError + unit) * F;
  f_flush : F → (FatError + unit) * F
}.

Section fat_file.
Context {F : Type} `{!FatFiles F}.

(** [FatFileInner] *)
Record FatFile := mkFatFile { ff_inner : F; ff_size : Z }.

(** Calls on the file with [map_err(as_vfs_err)?]. *)
Definition FM (A : Type) : Type := FatFile → (VfsError + A) * FatFile.
Definition fm_ret {A} (a : A) : FM A := λ f, (inr a, f).
Definition fm_bind {A B} (m : FM A) (k : A → FM B) : FM B := λ f,
  match m f with (inr a, f) => k a f | (inl e, f) => (inl e, f) end.
Definition fm_call {A} (g : F → (FatError + A) * F) : FM A := λ f,
  let '(r, i) := g (ff_inner f) in
  (match r with inl e => inl (as_vfs_err e) | inr a => inr a end, mkFatFile i (ff_size f)).
Definition fm_size (g : Z → Z) : FM unit := λ f, (inr tt, mkFatFile (ff_inner f) (g (ff_size f))).

Definition fat_readat (offset : Z) (n : nat) : FM (list Z) := λ f,
  if ff_size f <=? offset then (inr [], f)
  else
    (fm_bind (fm_call (f_seek offset)) (λ _,
     fm_bind (fm_call (f_seek offset)) (λ _ f,
     let rlen := Z.min (Z.of_nat n) (ff_size f -w offset) in
     fm_call (f_read_exact (Z.to_nat rlen)) f))) f.

(** The loop that fills the gap in front of [offset]; [None] while it is still
    running after [fuel] rounds. *)
Fixpoint fill_gap (fuel : nat) (offset : Z) (f : FatFile) : option ((VfsError + unit) * FatFile) :=
  match fuel with
  | O => None
  | S fuel =>
      let wlen := Z.min (offset -w ff_size f) 512 in
      if wlen =? 0 then Some (inr tt, f)
      else match fm_call (f_write (replicate 512 0)) f with
           | (inr real_wlen, f) => fill_gap fuel offset (mkFatFile (ff_inner f) (ff_size f +w real_wlen))
           | (inl e, f) => Some (inl e, f)
           end
  end.

(** The part of [writeat] after the gap. *)
Definition write_rest (offset : Z) (buffer : list Z) : FM Z :=
  let len := Z.of_nat (length buffer) in
  fm_bind (fm_call (f_write_all buffer)) (λ _,
  fm_bind (fm_size (λ size, if size <? offset +w len then offset +w len else size)) (λ _,
  fm_ret len)).

Definition fat_writeat (fuel : nat) (offset : Z) (buffer : list Z) (f : FatFile) : option ((VfsError + Z) * FatFile) :=
  match fm_call (f_seek offset) f with
  | (inl e, f) => Some (inl e, f)
  | (inr curr_off, f) =>
      match (if negb (offset =? curr_off) then fill_gap fuel offset f else Some (inr tt, f)) with
      | None => None
      | Some (inl e, f) => Some (inl e, f)
      | Some (inr _, f) => Some (write_rest offset buffer f)
      end
  end.

Definition fat_truncate (size : Z) : FM unit :=
  fm_bind (fm_call (f_seek size)) (λ _, fm_call f_truncate).
Definition fat_flush : FM unit := fm_call f_flush.

Definition fat_file_metadata (filename : string) (f : FatFile) : Metadata :=
  mkMetadata filename usize_max FT_File (ff_size f) usize_max.
Definition fat_file_stat (stat : Stat) (f : FatFile) : Stat :=
  mkStat (st_dev stat) 1 FILE 1 0 0 0 (st_pad stat) (md_size (fat_file_metadata EmptyString f)) 512 (st_pad2 stat)
    (md_size (fat_file_metadata EmptyString f) / 512)
    timespec_default timespec_default timespec_default.
End fat_file.
Arguments FatFile : clear implicits.

(** ** Directories *)
Record FatEntry (F Dir : Type) := mkFatEntry {
  fe_name : string; fe_len : Z; fe_is_file : bool; fe_is_dir : bool; fe_file : F; fe_dir : Dir
}.
Arguments fe_name {_ _} _. Arguments fe_len {_ _} _. Arguments fe_is_file {_ _} _.
Arguments fe_is_dir {_ _} _. Arguments fe_file {_ _} _. Arguments fe_dir {_ _} _.

(** The library's directory; [L] is the state of the file system. *)
Class FatDirs (L F Dir : Type) := {
  d_create_dir : Dir → string → L → (FatError + Dir) * L;
  d_create_file : Dir → string → L → (FatError + F) * L;
  d_iter : Dir → L → list (FatError + FatEntry F Dir);
  d_remove : Dir → string → L → (FatError + unit) * L
}.

Section fat_dir.
Context {L F Dir : Type} `{!FatDirs L F Dir}.

(** A new inode: a file or a directory with its name. *)
Inductive FatNode := NodeFile (filename : string) (f : FatFile F) | NodeDir (filename : string) (d : Dir).

Definition map_vfs {A B} (g : A → B) (r : (FatError + A) * L) : (VfsError + B) * L :=
  (match r.1 with inl e => inl (as_vfs_err e) | inr a => inr (g a) end, r.2).

Definition fat_mkdir (dir : Dir) (name : string) (l : L) : (VfsError + FatNode) * L :=
  map_vfs (NodeDir name) (d_create_dir dir name l).
Definition fat_touch (dir : Dir) (name : string) (l : L) : (VfsError + FatNode) * L :=
  map_vfs (λ file, NodeFile name (mkFatFile file 0)) (d_create_file dir name l).

(** [iter().find(..)]: an entry that cannot be read before the one wanted is
    unwrapped. *)
Fixpoint fat_find (name : string) (l : list (FatError + FatEntry F Dir)) : outcome (option (FatEntry F Dir)) :=
  match l with
  | [] => Val None
  | inl _ :: _ => Panic
  | inr e :: l => if String.eqb (fe_name e) name then Val (Some e) else fat_find name l
  end.

Definition fat_open (dir : Dir) (name : string) (l : L) : outcome (VfsError + FatNode) :=
  file ← fat_find name (d_iter dir l);
  match file with
  | None => Val (inl V_FileNotFound)
  | Some e =>
      if fe_is_dir e then Val (inr (NodeDir name (fe_dir e)))
      else if fe_is_file e then Val (inr (NodeFile name (mkFatFile (fe_file e) (fe_len e))))
      else Panic
  end.

Definition fat_remove (dir : Dir) (name : string) (l : L) : (VfsError + unit) * L := map_vfs id (d_remove dir name l).

Fixpoint fat_entries (l : list (FatError + FatEntry F Dir)) : outcome (list DirEntry) :=
  match l with
  | [] => Val []
  | inl _ :: _ => Panic
  | inr e :: l =>
      if String.eqb (fe_name e) "." || String.eqb (fe_name e) ".." then fat_entries l
      else
        ty ← (if fe_is_file e then Val FT_File else if fe_is_dir e then Val FT_Directory else Panic);
        rest ← fat_entries l;
        Val (mkDirEntry (fe_name e) (fe_len e) ty :: rest)
  end.
Definition fat_read_dir (dir : Dir) (l : L) : outcome (list DirEntry) := fat_entries (d_iter dir l).

Definition fat_dir_metadata (filename : string) (dir : Dir) (l : L) : Metadata :=
  mkMetadata filename usize_max FT_Directory 0 (Z.of_nat (length (d_iter dir l))).
Definition fat_dir_stat (stat : Stat) : Stat :=
  mkStat (st_dev stat) 1 DIR 1 0 0 0 (st_pad stat) 0 512 (st_pad2 stat) 0 timespec_default timespec_default timespec_default.
(** [todo!()] and [unimplemented!()] *)
Definition fat_lookup (dir : Dir) (name : string) : outcome FatNode := Panic.
Definition fat_link (dir : Dir) (name : string) (src : FatNode) : outcome unit := Panic.
Definition fat_statfs : StatFS := mkStatFS 32 512 80 40 0 32 0 32 20.
End fat_dir.

(** ** The cursor as a byte string *)
Section cursor_props.
Context {D : Type} `{!BlkDriver D} `{!DiskLaws D}.

(** The cursor stands at [pos] of device [d]. *)
Record cursor_ok (pos : Z) (c : DiskCursor) (devs : list D) (d : D) : Prop := {
  co_at : dc_sector c = pos / 512 ∧ dc_offset c = pos mod 512;
  co_dev : 0 ≤ dc_device_id c ∧ devs !! Z.to_nat (dc_device_id c) = Some d;
  co_disk : disk_ok d;
  co_pos : 0 ≤ pos
}.

Lemma cursor_position pos c devs d : cursor_ok pos c devs d → pos < 2 ^ 63 → get_position c = pos.
Proof.
  intros [[Es Eo] _ _ Hp] Hlt. unfold get_position. rewrite Es, Eo. pose proof (Z.div_mod pos 512 ltac:(lia)).
  pose proof (Z.mod_pos_bound pos 512 ltac:(lia)). assert (0 ≤ pos / 512) by (apply Z.div_pos; lia). no_wrap. lia.
Qed.

Lemma cursor_moved pos c devs d n d' :
  cursor_ok pos c devs d → 0 ≤ n → pos + n < 2 ^ 63 → disk_ok d' →
  cursor_ok (pos + n) (move_cursor n c) (<[Z.to_nat (dc_device_id c) := d']> devs) d'.
Proof.
  intros Hc Hn Hlt Hd. pose proof Hc as [_ [Hi Hdev] _ Hp]. unfold move_cursor. rewrite (cursor_position pos c devs d Hc) by lia.
  rewrite wadd_small by word_lia. split; [done| |done|lia]. split; [done|].
  apply list_lookup_insert_eq. by eapply lookup_lt_Some.
Qed.

(** A piece of a sector. *)
Lemma splice_in_sector (im bs : list Z) pos :
  (pos mod 512 + length bs ≤ 512)%nat → (pos / 512 * 512 + 512 ≤ length im)%nat →
  splice (pos / 512 * 512) (splice (pos mod 512) bs (take 512 (drop (pos / 512 * 512) im))) im = splice pos bs im.
Proof.
  intros Hb Hl. pose proof (Nat.div_mod_eq pos 512) as E. revert E Hb Hl.
  generalize (pos / 512)%nat as q, (pos mod 512)%nat as o. intros q o -> Hb Hl. rewrite (Nat.mul_comm 512 q).
  generalize dependent (q * 512)%nat. intros b Hl.
  set (sec := take 512 (drop b im)). assert (length sec = 512%nat) as Hs by (unfold sec; rewrite length_take, length_drop; lia).
  assert (splice o bs (drop b im) = splice o bs sec ++ drop (b + 512) im) as E1.
  { rewrite <- (take_drop 512 (drop b im)). fold sec. rewrite splice_app_r by lia. by rewrite drop_drop. }
  pose proof (splice_app_l o bs (take b im) (drop b im)) as E2.
  rewrite take_drop, length_take, Nat.min_l in E2 by lia. rewrite E2, E1. unfold splice at 1.
  rewrite length_splice by lia. by rewrite Hs.
Qed.

Lemma cursor_write_piece pos c devs d buf :
  cursor_ok pos c devs d → buf ≠ [] → pos + Z.of_nat (length buf) + 511 < Z.of_nat (length (image d)) →
  ∃ n d', cursor_write buf (c, devs) = Val (Z.of_nat n, (move_cursor (Z.of_nat n) c, <[Z.to_nat (dc_device_id c) := d']> devs)) ∧
    (0 < n ≤ length buf)%nat ∧ disk_ok d' ∧ image d' = splice (Z.to_nat pos) (take n buf) (image d).
Proof.
  intros Hc Hb Hr. pose proof Hc as [[Es Eo] [Hi Hdev] Hok Hp]. pose proof (disk_small d Hok).
  pose proof (Z.mod_pos_bound pos 512 ltac:(lia)) as Hm. pose proof (Z.div_mod pos 512 ltac:(lia)) as Hdm.
  assert (0 ≤ pos / 512) by (apply Z.div_pos; lia). assert (0 < length buf)%nat by (destruct buf; [done|simpl; lia]).
  assert (Z.to_nat (pos mod 512) = Z.to_nat pos mod 512)%nat as Em by (by rewrite Z2Nat.inj_mod by lia).
  assert (Z.to_nat (pos / 512 * 512) = Z.to_nat pos / 512 * 512)%nat as Ed by (rewrite Z2Nat.inj_mul, Z2Nat.inj_div by lia; done).
  unfold cursor_write. rewrite (blk_at_spec _ _ d) by done. cbn [mbind outcome_bind]. rewrite Es, Eo.
  destruct (negb (pos mod 512 =? 0) || (Z.of_nat (length buf) <? 512)) eqn:Eb.
  - rewrite read_law by (first [done|by exists 1|lia]). cbn [mbind outcome_bind].
    set (n := Nat.min (length buf) (512 - Z.to_nat (pos mod 512))).
    assert (Z.min (pos mod 512 + Z.of_nat (length buf)) 512 - pos mod 512 = Z.of_nat n) as -> by (unfold n; lia).
    rewrite Nat2Z.id. set (data := splice _ _ _).
    assert (length (take 512 (drop (Z.to_nat (pos / 512 * 512)) (image d))) = 512%nat) as Hl by (rewrite length_take, length_drop; lia).
    assert (length data = 512%nat) as Hld by (unfold data; rewrite length_splice; [done|rewrite Hl, length_take; unfold n; lia]).
    destruct (write_law d (pos / 512) data Hok) as (d' & Ew & Hok' & Him); [lia|rewrite Hld; by exists 1|rewrite Hld; lia|].
    rewrite Ew. cbn [mbind outcome_bind]. exists n, d'. split; [done|]. split; [unfold n; lia|]. split; [done|].
    rewrite Him. unfold data. rewrite Em, Ed. apply splice_in_sector; [rewrite length_take; unfold n; lia|lia].
  - apply orb_false_iff in Eb as [Eo' El]. apply negb_false_iff, Z.eqb_eq in Eo'. apply Z.ltb_ge in El.
    assert (length (take 512 buf) = 512%nat) as Hl by (rewrite length_take; lia).
    destruct (write_law d (pos / 512) (take 512 buf) Hok) as (d' & Ew & Hok' & Him); [lia|rewrite Hl; by exists 1|rewrite Hl; lia|].
    rewrite Ew. cbn [mbind outcome_bind]. exists 512%nat, d'. split; [done|]. split; [lia|]. split; [done|].
    rewrite Him. do 2 f_equal. lia.
Qed.

Lemma writes_splice buf : ∀ pos c devs d,
  cursor_ok pos c devs d → pos + Z.of_nat (length buf) + 511 < Z.of_nat (length (image d)) →
  ∃ c' d', writes buf (c, devs) (c', <[Z.to_nat (dc_device_id c) := d']> devs) ∧
    cursor_ok (pos + Z.of_nat (length buf)) c' (<[Z.to_nat (dc_device_id c) := d']> devs) d' ∧
    dc_device_id c' = dc_device_id c ∧ image d' = splice (Z.to_nat pos) buf (image d).
Proof.
  induction buf as [buf IH] using (induction_ltof1 _ length). unfold ltof in IH. intros pos c devs d Hc Hr.
  destruct (decide (buf = [])) as [->|Hb].
  { exists c, d. pose proof (co_dev _ _ _ _ Hc) as [_ Hdev]. rewrite list_insert_id by done. split; [constructor|].
    split; [by rewrite Z.add_0_r|]. split; [done|]. by rewrite splice_nil. }
  destruct (cursor_write_piece pos c devs d buf Hc Hb Hr) as (n & d1 & E & Hn & Hok & Him). pose proof (disk_small d (co_disk _ _ _ _ Hc)).
  pose proof (cursor_moved pos c devs d (Z.of_nat n) d1 Hc ltac:(lia) ltac:(lia) Hok) as Hc1. pose proof (co_pos _ _ _ _ Hc).
  assert (length (image d1) = length (image d)) as Hlen by (rewrite Him, length_splice; [done|rewrite length_take; lia]).
  destruct (IH (drop n buf)) with (pos := pos + Z.of_nat n) (c := move_cursor (Z.of_nat n) c)
    (devs := <[Z.to_nat (dc_device_id c) := d1]> devs) (d := d1) as (c' & d' & Hw & Hc' & Ei & Him');
    [rewrite length_drop; lia|done|rewrite length_drop, Hlen; lia|].
  cbn [dc_device_id move_cursor cursor_at] in Hw, Hc', Ei. rewrite list_insert_insert_eq in Hw, Hc'.
  exists c', d'. split; [|split; [|split]].
  - eapply writes_step; [done|exact E|]. by rewrite Nat2Z.id.
  - rewrite length_drop in Hc'. by replace (pos + Z.of_nat (length buf)) with (pos + Z.of_nat n + Z.of_nat (length buf - n)) by lia.
  - done.
  - rewrite Him', Him. replace (Z.to_nat (pos + Z.of_nat n)) with (Z.to_nat pos + length (take n buf))%nat by (rewrite length_take; lia).
    rewrite splice_splice by (rewrite length_take, length_drop; lia). by rewrite take_drop.
Qed.

Lemma cursor_read_piece pos c devs d (n : nat) :
  cursor_ok pos c devs d → (0 < n)%nat → pos + Z.of_nat n + 511 < Z.of_nat (length (image d)) →
  (n < 512)%nat ∨ pos mod 512 ≠ 0 ∨ (512 | Z.of_nat n) →
  ∃ k, cursor_read n (c, devs) = Val ((take k (drop (Z.to_nat pos) (image d)), Z.of_nat k), (move_cursor (Z.of_nat k) c, devs)) ∧
    (0 < k ≤ n)%nat.
Proof.
  intros Hc H0 Hr Hn. pose proof Hc as [[Es Eo] [Hi Hdev] Hok Hp]. pose proof (disk_small d Hok).
  pose proof (Z.mod_pos_bound pos 512 ltac:(lia)) as Hm. pose proof (Z.div_mod pos 512 ltac:(lia)) as Hdm.
  assert (0 ≤ pos / 512) by (apply Z.div_pos; lia).
  unfold cursor_read. rewrite (blk_at_spec _ _ d) by done. cbn [mbind outcome_bind]. rewrite Es, Eo.
  destruct (negb (pos mod 512 =? 0) || (Z.of_nat n <? 512)) eqn:Eb.
  - rewrite read_law by (first [done|by exists 1|lia]). cbn [mbind outcome_bind].
    set (k := Nat.min n (512 - Z.to_nat (pos mod 512))).
    assert (Z.min (pos mod 512 + Z.of_nat n) 512 - pos mod 512 = Z.of_nat k) as -> by (unfold k; lia).
    exists k. split; [|unfold k; lia]. rewrite Nat2Z.id. do 3 f_equal.
    rewrite skipn_firstn_comm, take_take, drop_drop, Nat.min_l by (unfold k; lia). do 2 f_equal. lia.
  - apply orb_false_iff in Eb as [Eo' El]. apply negb_false_iff, Z.eqb_eq in Eo'. apply Z.ltb_ge in El.
    destruct Hn as [Hn|[Hn|[j Hj]]]; [lia|lia|].
    rewrite read_law by (first [done|by exists j|lia]). cbn [mbind outcome_bind].
    exists n. replace (Z.of_nat n / 512 * 512) with (Z.of_nat n) by (rewrite Hj, Z.div_mul; lia).
    split; [|lia]. replace (pos / 512 * 512) with pos by lia. done.
Qed.

(** C37: Through the cursor the FAT library is given, the disk is a byte string
    at any position, not only at sector boundaries: a buffer written piece by
    piece replaces exactly its range of the disk, sectors that are only
    partly covered keep their other bytes, and reads at any position return
    the disk's bytes there and make progress. *)
Theorem fat_cursor_bytes pos c devs d buf :
  cursor_ok pos c devs d → pos + Z.of_nat (length buf) + 511 < Z.of_nat (length (image d)) →
  (∃ c' d', writes buf (c, devs) (c', <[Z.to_nat (dc_device_id c) := d']> devs) ∧
     get_position c' = pos + Z.of_nat (length buf) ∧ image d' = splice (Z.to_nat pos) buf (image d)) ∧
  (∀ n, (0 < n)%nat → pos + Z.of_nat n + 511 < Z.of_nat (length (image d)) → (n < 512)%nat ∨ pos mod 512 ≠ 0 ∨ (512 | Z.of_nat n) →
   ∃ k, cursor_read n (c, devs) = Val ((take k (drop (Z.to_nat pos) (image d)), Z.of_nat k), (move_cursor (Z.of_nat k) c, devs)) ∧
     (0 < k ≤ n)%nat).
Proof.
  intros Hc Hr. split.
  - destruct (writes_splice buf pos c devs d Hc Hr) as (c' & d' & Hw & Hc' & _ & Him). exists c', d'. split; [done|]. split; [|done].
    eapply cursor_position; [exact Hc'|]. pose proof (disk_small d (co_disk _ _ _ _ Hc)). lia.
  - intros n H0 Hn Hs. by apply cursor_read_piece.
Qed.
End cursor_props.

(** A read at a sector boundary into a buffer of at least a sector passes the
    whole buffer to the driver, not the whole sectors it counts: the RAM disk
    panics unless the length is a multiple of the sector size. *)
Theorem cursor_read_unaligned_panics (c : DiskCursor) (devs : list RamDiskBlock) n :
  dc_offset c = 0 → (512 ≤ n)%nat → Z.of_nat n mod 512 ≠ 0 → cursor_read n (c, devs) = Panic.
Proof.
  intros Eo Hn Hm. unfold cursor_read. rewrite Eo, (proj2 (Z.ltb_ge (Z.of_nat n) 512)) by lia. cbn [Z.eqb negb orb].
  destruct (blk_at _ _) as [d|]; [|done]. cbn [mbind outcome_bind read_blocks ramdisk_driver]. unfold ramdisk_read, ramdisk_check.
  by rewrite (proj2 (Z.eqb_neq (Z.of_nat n mod 0x200) 0)).
Qed.

(** ** Files over the library *)
(** What the library documents of a file on a healthy medium: its contents
    and position; seeking stops at the end of the file; [read_exact] returns
    all or fails; [write_all] replaces and extends; a write of a sector at a
    sector boundary is complete when it succeeds. *)
Class FatFileLaws (F : Type) `{!FatFiles F} := {
  f_data : F → list Z;
  f_pos : F → Z;
  f_room : F → nat → Prop;
  seek_law f o : 0 ≤ o → ∃ f', f_seek o f = (inr (Z.min o (Z.of_nat (length (f_data f)))), f') ∧ f_data f' = f_data f ∧
    f_pos f' = Z.min o (Z.of_nat (length (f_data f))) ∧ (∀ n, f_room f n → f_room f' n);
  read_exact_law f n : f_pos f + Z.of_nat n ≤ Z.of_nat (length (f_data f)) →
    ∃ f', f_read_exact n f = (inr (take n (drop (Z.to_nat (f_pos f)) (f_data f))), f') ∧ f_data f' = f_data f;
  read_short_law f n : Z.of_nat (length (f_data f)) < f_pos f + Z.of_nat n → ∃ f', f_read_exact n f = (inl F_UnexpectedEof, f');
  write_all_law f bs : f_room f (length bs) → f_pos f ≤ Z.of_nat (length (f_data f)) →
    ∃ f', f_write_all bs f = (inr tt, f') ∧ f_data f' = write_spec (Z.to_nat (f_pos f)) bs (f_data f);
  write_sector_law f bs n f' : f_pos f mod 512 = 0 → length bs = 512%nat → f_write bs f = (inr n, f') →
    n = 512 ∧ f_pos f' = f_pos f + 512;
  truncate_law f : ∃ f', f_truncate f = (inr tt, f') ∧ f_data f' = take (Z.to_nat (f_pos f)) (f_data f)
}.

Section fat_props.
Context {F : Type} `{!FatFiles F} `{!FatFileLaws F}.

(** The cached size is the size. *)
Definition fat_ok (f : FatFile F) : Prop := ff_size f = Z.of_nat (length (f_data (ff_inner f))) ∧ ff_size f < 2 ^ 63.

Lemma fat_readat_data f off n :
  fat_ok f → 0 ≤ off →
  ∃ f', fat_readat off n f = (inr (take n (drop (Z.to_nat off) (f_data (ff_inner f)))), f') ∧
    f_data (ff_inner f') = f_data (ff_inner f) ∧ ff_size f' = ff_size f.
Proof.
  intros [Es Hb] Ho. unfold fat_readat. destruct (Z.leb_spec (ff_size f) off).
  { exists f. split; [|done]. by rewrite drop_ge, take_nil by lia. }
  unfold fm_bind, fm_call. destruct (seek_law (ff_inner f) off Ho) as (f1 & -> & D1 & P1 & _). cbn [ff_inner ff_size].
  destruct (seek_law f1 off Ho) as (f2 & -> & D2 & P2 & _). cbn [ff_inner ff_size]. rewrite wsub_small by word_lia.
  destruct (read_exact_law f2 (Z.to_nat (Z.min (Z.of_nat n) (ff_size f - off)))) as (f3 & -> & D3); [rewrite P2, D2, D1; lia|].
  exists (mkFatFile f3 (ff_size f)). split; [|split; [cbn [ff_inner]; congruence|done]]. do 2 f_equal. rewrite P2, D2, D1, (Z.min_l off) by lia.
  destruct (decide (Z.of_nat n ≤ ff_size f - off)).
  - f_equal. lia.
  - rewrite !take_ge by (rewrite length_drop; lia). done.
Qed.

(** A write that starts inside the file (or at its end) is complete and reads
    back; everything else is unchanged. *)
Theorem fat_write_read fuel f off buf :
  fat_ok f → 0 ≤ off ≤ ff_size f → off + Z.of_nat (length buf) < 2 ^ 63 → f_room (ff_inner f) (length buf) →
  ∃ f', fat_writeat fuel off buf f = Some (inr (Z.of_nat (length buf)), f') ∧ fat_ok f' ∧
    f_data (ff_inner f') = write_spec (Z.to_nat off) buf (f_data (ff_inner f)) ∧
    ∀ o n, 0 ≤ o → ∃ f'', fat_readat o n f' = (inr (take n (drop (Z.to_nat o) (write_spec (Z.to_nat off) buf (f_data (ff_inner f))))), f'').
Proof.
  intros [Es Hb] Ho Hl Hroom. unfold fat_writeat, fm_call at 1.
  destruct (seek_law (ff_inner f) off) as (f1 & -> & D1 & P1 & R1); [lia|]. rewrite Z.min_l by lia. rewrite Z.eqb_refl. cbn [negb].
  unfold write_rest, fm_bind, fm_call, fm_size, fm_ret. cbn [ff_inner ff_size].
  destruct (write_all_law f1 buf) as (f2 & -> & D2); [by apply R1|rewrite P1, D1; lia|]. rewrite P1, D1, Z.min_l in D2 by lia.
  rewrite wadd_small by word_lia. cbn [ff_inner ff_size]. set (f' := mkFatFile _ _).
  assert (fat_ok f') as Hok.
  { unfold fat_ok, f'. cbn [ff_inner ff_size]. rewrite D2, length_write_spec.
    destruct (Z.ltb_spec (ff_size f) (off + Z.of_nat (length buf))); lia. }
  exists f'. split; [done|]. split; [done|]. split; [done|]. intros o n Hn.
  destruct (fat_readat_data f' o n Hok Hn) as (f'' & E & _). exists f''. rewrite E. do 4 f_equal. exact D2.
Qed.

(** The gap loop writes whole sectors: it passes an offset that is not a
    multiple of the sector size, the difference wraps around and the loop goes
    on until the library fails.  A write behind the end of such a file at such
    an offset never succeeds. *)
Lemma fill_gap_never_ok fuel off : ∀ f r f',
  off mod 512 ≠ 0 → ff_size f mod 512 = 0 → f_pos (ff_inner f) mod 512 = 0 →
  fill_gap fuel off f = Some (r, f') → ∃ e, r = inl e.
Proof.
  induction fuel as [|fuel IH]; intros f r f' Ho Hs Hp; [done|]. cbn [fill_gap].
  assert ((off -w ff_size f) mod 512 ≠ 0) as Hg.
  { unfold wsub, wrap, MAX64. rewrite <- Znumtheory.Zmod_div_mod by (try lia; by exists (2 ^ 55)).
    rewrite Zminus_mod, Hs, Z.sub_0_r, Z.mod_mod by lia. done. }
  assert (Z.min (off -w ff_size f) 512 =? 0 = false) as ->.
  { apply Z.eqb_neq. intros E. assert (off -w ff_size f = 0) as E0; [|by rewrite E0 in Hg].
    pose proof (Z.mod_pos_bound (off - ff_size f) MAX64 ltac:(unfold MAX64; lia)). unfold wsub, wrap in *. lia. }
  unfold fm_call. destruct (f_write (replicate 512 0) (ff_inner f)) as [[e|n] i] eqn:Ew; [intros [= <- <-]; eauto|].
  cbn [ff_inner ff_size]. destruct (write_sector_law _ _ _ _ Hp (length_replicate 512 0) Ew) as [-> Ep].
  apply IH; [done| |cbn [ff_inner]; rewrite Ep].
  - cbn [ff_size]. unfold wadd, wrap, MAX64. rewrite <- Znumtheory.Zmod_div_mod by (try lia; by exists (2 ^ 55)).
    by rewrite Zplus_mod, Hs.
  - by rewrite Zplus_mod, Hp.
Qed.

Theorem fat_gap_write_fails fuel f off buf r f' :
  fat_ok f → ff_size f < off → off mod 512 ≠ 0 → ff_size f mod 512 = 0 →
  fat_writeat fuel off buf f = Some (r, f') → ∃ e, r = inl e.
Proof.
  intros [Es Hb] Hlt Ho Hs. unfold fat_writeat, fm_call at 1.
  destruct (seek_law (ff_inner f) off) as (f1 & -> & D1 & P1 & R1); [lia|]. rewrite Z.min_r in * by lia.
  rewrite (proj2 (Z.eqb_neq off _)) by lia. cbn [negb].
  destruct (fill_gap fuel off (mkFatFile f1 (ff_size f))) as [[[e|[]] f2]|] eqn:E; [intros [= <- <-]; eauto| |done].
  destruct (fill_gap_never_ok fuel off (mkFatFile f1 (ff_size f)) _ _ Ho Hs ltac:(cbn [ff_inner]; by rewrite P1, <- Es) E) as [e [=]].
Qed.

(** [truncate] shortens the file but not the cached size: a later read in the
    part that is gone fails with an error instead of reporting the end. *)
Theorem fat_truncate_stale f size off n :
  fat_ok f → 0 ≤ size → size ≤ off < ff_size f → (0 < n)%nat →
  ∃ f1 f2, fat_truncate size f = (inr tt, f1) ∧ f_data (ff_inner f1) = take (Z.to_nat size) (f_data (ff_inner f)) ∧
    fat_readat off n f1 = (inl V_UnexpectedEof, f2).
Proof.
  intros [Es Hb] Hz Ho Hn. unfold fat_truncate, fm_bind, fm_call at 1.
  destruct (seek_law (ff_inner f) size Hz) as (i1 & -> & D1 & P1 & _). unfold fm_call at 1. cbn [ff_inner ff_size].
  destruct (truncate_law i1) as (i2 & -> & D2). cbn [ff_size]. rewrite P1, D1, Z.min_l in D2 by lia.
  assert (length (f_data i2) = Z.to_nat size) as Hl by (rewrite D2, length_take; lia).
  enough (∃ f2, fat_readat off n (mkFatFile i2 (ff_size f)) = (inl V_UnexpectedEof, f2)) as [f2 E] by (by exists (mkFatFile i2 (ff_size f)), f2).
  unfold fat_readat. cbn [ff_inner ff_size].
  rewrite (proj2 (Z.leb_gt (ff_size f) off)) by lia. unfold fm_bind, fm_call. cbn [ff_inner ff_size].
  destruct (seek_law i2 off) as (i3 & -> & D3 & P3 & _); [lia|]. cbn [ff_inner ff_size].
  destruct (seek_law i3 off) as (i4 & -> & D4 & P4 & _); [lia|]. cbn [ff_inner ff_size]. rewrite wsub_small by word_lia.
  destruct (read_short_law i4 (Z.to_nat (Z.min (Z.of_nat n) (ff_size f - off)))) as (i5 & ->).
  { rewrite P4, D4, D3, Hl. lia. }
  by eexists.
Qed.
End fat_props.

(** ** A file in memory, on a medium of four sectors *)
Definition MemFile : Type := list Z * Z.
Definition mem_write (bs : list Z) (f : MemFile) : option MemFile :=
  if 2048 <? f.2 + Z.of_nat (length bs) then None
  else Some (write_spec (Z.to_nat f.2) bs f.1, f.2 + Z.of_nat (length bs)).
#[export] Instance mem_files : FatFiles MemFile := {
  f_seek o f := let p := Z.min o (Z.of_nat (length f.1)) in (inr p, (f.1, p));
  f_read_exact n f :=
    if Z.of_nat (length f.1) <? f.2 + Z.of_nat n then (inl F_UnexpectedEof, f)
    else (inr (take n (drop (Z.to_nat f.2) f.1)), (f.1, f.2 + Z.of_nat n));
  f_write bs f := match mem_write bs f with Some f => (inr (Z.of_nat (length bs)), f) | None => (inl F_NotEnoughSpace, f) end;
  f_write_all bs f := match mem_write bs f with Some f => (inr tt, f) | None => (inl F_NotEnoughSpace, f) end;
  f_truncate f := (inr tt, (take (Z.to_nat f.2) f.1, f.2));
  f_flush f := (inr tt, f)
}.

#[export] Program Instance mem_file_laws : FatFileLaws MemFile := {
  f_data := fst; f_pos := snd; f_room f n := Z.of_nat (length f.1) + Z.of_nat n ≤ 2048
}.
Next Obligation. intros [d p] o Ho. by eexists. Qed.
Next Obligation. intros [d p] n Hn. simpl in *. rewrite (proj2 (Z.ltb_ge _ _)) by lia. by eexists. Qed.
Next Obligation. intros [d p] n Hn. simpl in *. rewrite (proj2 (Z.ltb_lt _ _)) by lia. by eexists. Qed.
Next Obligation.
  intros [d p] bs Hr Hp. simpl in *. unfold mem_write. cbn [fst snd]. rewrite (proj2 (Z.ltb_ge _ _)) by lia. by eexists.
Qed.
Next Obligation.
  intros [d p] bs n f' Hp Hl. simpl in *. unfold mem_write. cbn [fst snd]. destruct (_ <? _); [done|].
  intros [= <- <-]. cbn [fst snd]. by rewrite Hl.
Qed.
Next Obligation. intros [d p]. by eexists. Qed.

Lemma fat_write_read_witness :
  ∃ f', fat_writeat 0 2 [7; 8] (mkFatFile (([1; 2; 3], 0) : MemFile) 3) = Some (inr 2, f') ∧ (ff_inner f').1 = [1; 2; 7; 8].
Proof.
  destruct (fat_write_read (F := MemFile) 0 (mkFatFile ([1; 2; 3], 0) 3) 2 [7; 8]) as (f' & E & _ & Hd & _).
  - split; [reflexivity|simpl; lia].
  - simpl. lia.
  - simpl. lia.
  - simpl. lia.
  - exists f'. split; [exact E|exact Hd].
Defined.

(** An empty file, written at offset 1: the medium is filled with zeros and
    the write fails. *)
Lemma fat_gap_write_fails_witness :
  ∃ r f' e, fat_writeat 9 1 [9] (mkFatFile (([], 0) : MemFile) 0) = Some (r, f') ∧ r = inl e ∧ e = V_StorageFull ∧ ff_size f' = 2048.
Proof.
  assert (∃ f', fat_writeat 9 1 [9] (mkFatFile (([], 0) : MemFile) 0) = Some (inl V_StorageFull, f') ∧ ff_size f' = 2048) as (f' & E & Hz).
  { eexists. split; [vm_compute; reflexivity|reflexivity]. }
  destruct (fat_gap_write_fails (F := MemFile) 9 (mkFatFile ([], 0) 0) 1 [9] (inl V_StorageFull) f') as [e Er].
  - split; [reflexivity|simpl; lia].
  - simpl. lia.
  - discriminate.
  - reflexivity.
  - exact E.
  - exists (inl V_StorageFull), f', e. split; [exact E|]. split; [exact Er|]. split; [congruence|exact Hz].
Defined.

(** Seven bytes across the boundary between the first two sectors. *)
Lemma fat_cursor_bytes_witness :
  ∃ c' d', writes [1; 2; 3; 4; 5; 6; 7] (cursor_at 510 (cursor_new 0), [demo_disk]) (c', [d']) ∧ get_position c' = 517 ∧
    image d' = splice 510 [1; 2; 3; 4; 5; 6; 7] (image demo_disk).
Proof.
  destruct (fat_cursor_bytes 510 (cursor_at 510 (cursor_new 0)) [demo_disk] demo_disk [1; 2; 3; 4; 5; 6; 7])
    as [(c' & d' & Hw & Hp & Hi) _].
  - split; [done|by split| |lia]. split_and!; simpl; unfold MAX64; lia.
  - vm_compute. reflexivity.
  - exists c', d'. split; [exact Hw|]. split; [exact Hp|exact Hi].
Defined.
