(* ===== verification/Ext4Rs.v ===== *)
(** * The ext4_rs adapter ([filesystem/fs/src/ext4_rs_shim.rs])

    Inodes over the [ext4_rs] library, an instance of [Ext4Rs]; the disk below
    it is in [Devices].  Several methods are not written yet: they panic. *)

From S2P Require Import Prelude Vfs.
Local Open Scope Z_scope.

(** [InodeFileType] *)
Inductive InodeFileType := S_IFREG | S_IFDIR | S_IFBLK | S_IFSOCK | S_IFLNK | S_IFCHR | S_IFIFO | S_IFOTHER.
Definition S_IFDIR_BITS : Z := 0x4000.

(** What the adapter calls: errors are the library's numbers. *)
Class Ext4Rs (L : Type) := {
  generic_open : string → Z → L → Z + Z;
  rs_create : Z → string → Z → L → (Z + Z) * L;
  read_at : Z → Z → nat → L → Z + list Z;
  inode_type : Z → L → InodeFileType;
  inode_size : Z → L → Z
}.

Section ext4_rs.
Context {L : Type} `{!Ext4Rs L}.

Definition rs_result {A} (r : Z + A) : result A := match r with inl e => Err (ERRNO e) | inr a => Ok a end.

(** [Ext4FileWrapper] is an inode number. *)
Definition load_root : Z := 2.

Definition rs_lookup (inode : Z) (name : string) : vfs L Z := λ l, Val (rs_result (generic_open name inode l), l).

Definition rs_mkdir (inode : Z) (path : string) : vfs L unit := λ l,
  let '(r, l) := rs_create inode path S_IFDIR_BITS l in
  Val (match r with inl e => Err (ERRNO e) | inr _ => Ok tt end, l).

Definition rs_readat (inode offset : Z) (n : nat) : vfs L (list Z) := λ l, Val (rs_result (read_at inode offset n l), l).

Definition rs_mode (ty : InodeFileType) : outcome Z :=
  match ty with
  | S_IFREG => Val FILE | S_IFDIR => Val DIR | S_IFBLK => Val BLOCK | S_IFSOCK => Val SOCKET | S_IFLNK => Val LINK
  | S_IFCHR => Val CHAR | S_IFIFO => Val FIFO | S_IFOTHER => Panic
  end.

Definition rs_stat (inode : Z) (stat : Stat) : vfs L Stat := λ l,
  mode ← rs_mode (inode_type inode l);
  Val (Ok (mkStat (st_dev stat) 1 mode 1 0 0 0 (st_pad stat) (inode_size inode l) 4096 (st_pad2 stat) 0
             timespec_default timespec_default timespec_default), l).

Definition rs_statfs : vfs L StatFS := vfs_ok (mkStatFS 32 4096 80 40 0 32 0 32 20).

(** [todo!()] and [panic!()] *)
Definition unwritten {A} : vfs L A := λ _, Panic.

Definition ext4_rs_ops : INodeOps L Z :=
  let d := inode_default L Z in {|
  io_readat := rs_readat; io_writeat _ _ _ := unwritten; io_create _ _ _ := unwritten; io_mkdir := rs_mkdir;
  io_rmdir _ _ := unwritten; io_remove _ _ := unwritten; io_read_dir _ := unwritten; io_lookup := rs_lookup;
  io_truncate _ _ := vfs_ok tt; io_link _ _ _ := vfs_err EPERM; io_unlink _ _ := vfs_ok tt; io_stat := rs_stat;
  io_utimes _ _ _ := vfs_ok tt; io_poll := io_poll d; io_ioctl := io_ioctl d; io_flush := io_flush d;
  io_resolve_link _ := vfs_err EPERM; io_symlink _ _ _ := vfs_err EPERM; io_mount := io_mount d; io_umount := io_umount d;
  io_statfs _ _ := rs_statfs
|}.

(** ** What can change *)
(** An operation of the inode interface on some inode. *)
Inductive inode_op :=
  | OpRead (off : Z) (n : nat) | OpWrite (off : Z) (bs : list Z) | OpCreate (name : string) (ty : FileType) | OpMkdir (name : string)
  | OpRmdir (name : string) | OpRemove (name : string) | OpReadDir | OpLookup (name : string) | OpTruncate (size : Z)
  | OpUnlink (name : string) | OpStat (st : Stat).

Definition run_op (op : inode_op) (h : Z) (l : L) : outcome L :=
  let fin {A} (r : outcome (result A * L)) : outcome L := match r with Val (_, l) => Val l | Panic => Panic end in
  match op with
  | OpRead off n => fin (io_readat ext4_rs_ops h off n l)
  | OpWrite off bs => fin (io_writeat ext4_rs_ops h off bs l)
  | OpCreate name ty => fin (io_create ext4_rs_ops h name ty l)
  | OpMkdir name => fin (io_mkdir ext4_rs_ops h name l)
  | OpRmdir name => fin (io_rmdir ext4_rs_ops h name l)
  | OpRemove name => fin (io_remove ext4_rs_ops h name l)
  | OpReadDir => fin (io_read_dir ext4_rs_ops h l)
  | OpLookup name => fin (io_lookup ext4_rs_ops h name l)
  | OpTruncate size => fin (io_truncate ext4_rs_ops h size l)
  | OpUnlink name => fin (io_unlink ext4_rs_ops h name l)
  | OpStat st => fin (io_stat ext4_rs_ops h st l)
  end.

(** Through this adapter a file system can only grow directories: every other
    operation leaves the library as it is or panics; writing, creating and
    removing files and listing a directory always panic, while truncating and
    unlinking report success without doing anything. *)
Theorem ext4_rs_only_mkdir_changes op h l l' :
  run_op op h l = Val l' → l' = l ∨ ∃ name r, op = OpMkdir name ∧ rs_create h name S_IFDIR_BITS l = (r, l').
Proof.
  destruct op; cbn; try (by intros [= <-]; left); try done.
  - unfold rs_mkdir. destruct (rs_create h name S_IFDIR_BITS l) as [r l1] eqn:E. intros [= <-]. right. by exists name, r.
  - unfold rs_stat. destruct (rs_mode _); [|done]. cbn. intros [= <-]. by left.
Qed.
End ext4_rs.
