(* ===== verification/Time.v ===== *)
(** * Time values, sleeping and the interval timer

    [syscall/types/time.rs], [utils/time.rs], [syscall/time.rs] and
    [check_timer] of [user/entry.rs].  The clock is the parameter [ns], the
    nanoseconds [Time::now] reports at the call. *)

From S2P Require Import Prelude Vfs Signal.
Local Open Scope Z_scope.

Record TimeVal := mkTimeVal { tv_sec : Z; tv_usec : Z }.

Definition timeval_default : TimeVal := mkTimeVal 0 0.

(** [Add for TimeVal] *)
Definition timeval_add (self rhs : TimeVal) : TimeVal :=
  let nsec := tv_usec self +w tv_usec rhs in
  mkTimeVal (tv_sec self +w tv_sec rhs +w nsec / 1000000000) (nsec mod 1000000000).

(** [PartialOrd for TimeVal] *)
Definition timeval_cmp (self other : TimeVal) : comparison :=
  if tv_sec other <? tv_sec self then Gt
  else if tv_sec self <? tv_sec other then Lt
  else if tv_usec other <? tv_usec self then Gt
  else if tv_usec self <? tv_usec other then Lt
  else Eq.

Definition timeval_gt (a b : TimeVal) : bool := match timeval_cmp a b with Gt => true | _ => false end.
Definition timeval_ge (a b : TimeVal) : bool := match timeval_cmp a b with Lt => false | _ => true end.

Record ITimerVal := mkITimerVal { it_interval : TimeVal; it_value : TimeVal }.

Record ProcessTimer := mkProcessTimer { pt_timer : ITimerVal; pt_next : TimeVal; pt_last : TimeVal }.

Definition current_timeval (ns : Z) : TimeVal :=
  mkTimeVal (ns / 1000000000) (ns mod 1000000000 / 1000).

Definition current_timespec (ns : Z) : TimeSpec :=
  mkTimeSpec (ns / 1000000000) (ns mod 1000000000 / 1000).

(** ** System calls *)
Definition sys_clock_gettime (clock_id ns : Z) : result TimeSpec :=
  t ← match clock_id with
      | 0 => Ok ns
      | 1 => Ok ns
      | 2 => Ok 0
      | 3 => Ok 0
      | _ => Err EINVAL
      end;
  Ok (mkTimeSpec (t / 1000000000) (t mod 1000000000)).

(** [sys_setitimer] on [pcb.timer[0]]: [times] is the new value when the
    pointer is not null; the old value is reported when [old] is set. *)
Definition sys_setitimer (which : Z) (times : option ITimerVal) (old : bool) (ns : Z)
    (timer : ProcessTimer) : result Z * option ITimerVal * ProcessTimer :=
  if which =? 0 then
    let reported := if old then Some (pt_timer timer) else None in
    let timer := match times with
      | Some new_timer =>
          let next := timeval_add (current_timeval ns) (it_value new_timer) in
          if (tv_sec (it_value new_timer) =? 0) && (tv_usec (it_value new_timer) =? 0)
          then mkProcessTimer new_timer timeval_default timeval_default
          else mkProcessTimer new_timer next (pt_last timer)
      | None => timer
      end in
    (Ok 0, reported, timer)
  else (Err EPERM, None, timer).

(** [WaitUntilsec::poll] and the deadline [sys_nanosleep] computes. *)
Definition wait_until_poll (deadline ns : Z) : Poll unit :=
  if deadline <? ns then Ready tt else Pending.

Definition nanosleep_deadline (ns : Z) (req : TimeSpec) : Z :=
  ns +w ts_sec req *w 1000000000 +w ts_nsec req.

(** [select(WaitHandleAbleSignal, WaitUntilsec)] as [sys_nanosleep] polls it. *)
Definition nanosleep_poll (t : ThreadControlBlock) (deadline ns : Z) : Poll (result Z) :=
  if has_signal (signal_list_mask (tcb_signal t) (tcb_sigmask t)) then Ready (Err EINTR)
  else match wait_until_poll deadline ns with Ready _ => Ready (Ok 0) | Pending => Pending end.

(** ** [check_timer] *)
Definition check_timer (ns : Z) (timer : ProcessTimer) (t : ThreadControlBlock)
  : ProcessTimer * ThreadControlBlock :=
  if timeval_gt (pt_next timer) (pt_last timer) then
    let now := current_timeval ns in
    if timeval_ge now (pt_next timer) then
      (mkProcessTimer (pt_timer timer) (pt_next timer) (pt_next timer), tcb_add_signal SIGALRM t)
    else (timer, t)
  else (timer, t).

(** Checks at the times [clock], in order. *)
Fixpoint check_timers (clock : list Z) (timer : ProcessTimer) (t : ThreadControlBlock)
  : list bool * ProcessTimer :=
  match clock with
  | [] => ([], timer)
  | ns :: clock =>
      let '(timer', t') := check_timer ns timer t in
      let fired := timeval_gt (pt_next timer) (pt_last timer) &&
                   timeval_ge (current_timeval ns) (pt_next timer) in
      let '(log, timer'') := check_timers clock timer' t' in
      (fired :: log, timer'')
  end.

(** ** Order *)
(** A value within the documented range of its fields. *)
Definition timeval_norm (t : TimeVal) : Prop := 0 ≤ tv_sec t ∧ 0 ≤ tv_usec t < 1000000.

Definition to_usec (t : TimeVal) : Z := tv_sec t * 1000000 + tv_usec t.

Lemma timeval_cmp_usec a b :
  timeval_norm a → timeval_norm b → timeval_cmp a b = (to_usec a ?= to_usec b).
Proof.
  intros [_ Ha] [_ Hb]. unfold timeval_cmp, to_usec.
  repeat match goal with |- context [?x <? ?y] => destruct (Z.ltb_spec x y) end;
    symmetry; first [rewrite Z.compare_gt_iff|rewrite Z.compare_lt_iff|rewrite Z.compare_eq_iff]; try lia.
Qed.

Lemma timeval_ge_usec a b :
  timeval_norm a → timeval_norm b → timeval_ge a b = bool_decide (to_usec b ≤ to_usec a).
Proof.
  intros Ha Hb. unfold timeval_ge. rewrite timeval_cmp_usec by done.
  destruct (Z.compare_spec (to_usec a) (to_usec b)); case_bool_decide; lia || done.
Qed.

Lemma timeval_gt_usec a b :
  timeval_norm a → timeval_norm b → timeval_gt a b = bool_decide (to_usec b < to_usec a).
Proof.
  intros Ha Hb. unfold timeval_gt. rewrite timeval_cmp_usec by done.
  destruct (Z.compare_spec (to_usec a) (to_usec b)); case_bool_decide; lia || done.
Qed.

Lemma current_timeval_norm ns : 0 ≤ ns → timeval_norm (current_timeval ns).
Proof. intros. unfold timeval_norm, current_timeval. simpl. Z.to_euclidean_division_equations. lia. Qed.

Lemma current_timeval_usec ns : 0 ≤ ns → to_usec (current_timeval ns) = ns / 1000.
Proof.
  intros. unfold to_usec, current_timeval. simpl. Z.to_euclidean_division_equations. lia.
Qed.

(** The log of a timer that is due [limit] microseconds after the epoch and
    has not fired: it fires at the first check at or after the limit. *)
Fixpoint fires_once (limit : Z) (clock : list Z) : list bool :=
  match clock with
  | [] => []
  | ns :: clock => if bool_decide (limit ≤ ns / 1000) then true :: ((λ _, false) <$> clock)
                   else false :: fires_once limit clock
  end.

Lemma check_timers_idle clock : ∀ timer t,
  timeval_gt (pt_next timer) (pt_last timer) = false →
  check_timers clock timer t = ((λ _, false) <$> clock, timer).
Proof.
  induction clock as [|ns clock IH]; intros timer t Hidle; [done|]. simpl.
  unfold check_timer. rewrite Hidle. rewrite IH by done. done.
Qed.

Lemma timeval_gt_irrefl a : timeval_gt a a = false.
Proof. unfold timeval_gt, timeval_cmp. by rewrite !Z.ltb_irrefl. Qed.

(** A timer armed at time [ns0] for a positive delay whose microseconds do
    not carry raises SIGALRM exactly once, at the first check whose clock has
    reached the deadline, and never again until it is armed again, whatever
    the sequence of checks. *)
Theorem itimer_fires_once ns0 v timer clock t :
  0 ≤ ns0 < MAX64 → Forall (λ ns, 0 ≤ ns < MAX64) clock →
  timeval_norm (it_value v) → 0 < to_usec (it_value v) →
  tv_usec (current_timeval ns0) + tv_usec (it_value v) < 1000000 →
  tv_sec (current_timeval ns0) + tv_sec (it_value v) < MAX64 →
  timeval_norm (pt_last timer) → to_usec (pt_last timer) ≤ ns0 / 1000 →
  ∃ timer1, sys_setitimer 0 (Some v) false ns0 timer = (Ok 0, None, timer1) ∧
    (check_timers clock timer1 t).1 = fires_once (ns0 / 1000 + to_usec (it_value v)) clock.
Proof.
  intros Hns0 Hclock [Hs Hu] Hpos Hcarry Hsec Hlast Hlast0.
  pose proof (current_timeval_norm ns0 ltac:(lia)) as [Hs0 Hu0].
  set (next := mkTimeVal (tv_sec (current_timeval ns0) + tv_sec (it_value v))
                         (tv_usec (current_timeval ns0) + tv_usec (it_value v))).
  assert (timeval_add (current_timeval ns0) (it_value v) = next) as Hadd.
  { unfold timeval_add. rewrite (wadd_small (tv_usec _)) by word_lia.
    rewrite Z.div_small, Z.mod_small by lia. rewrite (wadd_small (tv_sec _)) by word_lia.
    rewrite wadd_small by (rewrite Z.add_0_r; word_lia). by rewrite Z.add_0_r. }
  assert (to_usec next = ns0 / 1000 + to_usec (it_value v)) as Hnext.
  { rewrite <- current_timeval_usec by lia. unfold to_usec, next. cbn [tv_sec tv_usec]. lia. }
  assert (timeval_norm next) as Hnn by (unfold timeval_norm, next; cbn [tv_sec tv_usec]; lia).
  unfold sys_setitimer. change (0 =? 0) with true. cbv iota zeta. rewrite Hadd.
  assert ((tv_sec (it_value v) =? 0) && (tv_usec (it_value v) =? 0) = false) as ->.
  { unfold to_usec in Hpos. destruct (Z.eqb_spec (tv_sec (it_value v)) 0), (Z.eqb_spec (tv_usec (it_value v)) 0); simpl; lia || done. }
  eexists. split; [done|]. rewrite <- Hnext. set (timer1 := mkProcessTimer _ _ _).
  assert (timeval_gt next (pt_last timer) = true) as Hgt
    by (rewrite timeval_gt_usec, bool_decide_eq_true_2 by (done || lia); done).
  revert t. induction Hclock as [|ns clock Hns _ IH]; intros t; [done|].
  cbn [check_timers fires_once]. unfold check_timer. simpl pt_next. simpl pt_last.
  rewrite Hgt. rewrite timeval_ge_usec, current_timeval_usec by (done || lia || apply current_timeval_norm; lia).
  case_bool_decide; cbn [andb].
  - rewrite check_timers_idle by apply timeval_gt_irrefl. done.
  - specialize (IH t). destruct (check_timers clock timer1 t) as [log tm] eqn:E. simpl in IH. by rewrite <- IH.
Qed.

Definition demo_itimer : ITimerVal := mkITimerVal timeval_default (mkTimeVal 0 200000).
Definition demo_timer : ProcessTimer :=
  mkProcessTimer (mkITimerVal timeval_default timeval_default) timeval_default timeval_default.

(** Armed at 0.5 s for 0.2 s, checked at 0.6 s, 0.7 s, 0.8 s. *)
Lemma itimer_fires_once_witness :
  ∃ timer1, sys_setitimer 0 (Some demo_itimer) false 500000000 demo_timer = (Ok 0, None, timer1) ∧
    (check_timers [600000000; 700000000; 800000000] timer1 demo_tcb).1 = [false; true; false].
Proof.
  destruct (itimer_fires_once 500000000 demo_itimer demo_timer [600000000; 700000000; 800000000] demo_tcb)
    as (timer1 & H1 & H2).
  - unfold MAX64. lia.
  - repeat constructor; unfold MAX64; lia.
  - unfold timeval_norm. simpl. lia.
  - vm_compute. reflexivity.
  - vm_compute. reflexivity.
  - vm_compute. reflexivity.
  - unfold timeval_norm. simpl. lia.
  - vm_compute. congruence.
  - exists timer1. split; [exact H1|]. rewrite H2. vm_compute. reflexivity.
Defined.

(** Addition of time values carries microseconds into seconds at 10^9
    instead of 10^6.  A timer armed at 0.9 s for 0.2 s therefore gets the
    out-of-range deadline (0 s, 1100000 us) and, since seconds are compared
    first, already fires at 1.0 s instead of 1.1 s. *)
Theorem itimer_fires_early :
  timeval_add (mkTimeVal 0 900000) (mkTimeVal 0 200000) = mkTimeVal 0 1100000 ∧
  ∃ timer1, sys_setitimer 0 (Some demo_itimer) false 900000000 demo_timer = (Ok 0, None, timer1) ∧
    (check_timers [1000000000] timer1 demo_tcb).1 = [true] ∧
    1000000000 / 1000 < 900000000 / 1000 + to_usec (it_value demo_itimer).
Proof. split; [reflexivity|]. eexists. split; [reflexivity|]. split; vm_compute; reflexivity. Qed.
