(* ===== verification/Futex.v ===== *)
(** * Futexes ([tasks/async_ops.rs], [sys_futex] of [syscall/task.rs])

    The futex table of a process maps an address to the queue of the task ids
    waiting there.  [futex_wake] drops ids from the front of a queue; a waiting
    task notices at its next poll that it is in no queue any more. *)

From stdpp Require Import sorting.
From S2P Require Import Prelude Vfs Signal Time.
Local Open Scope Z_scope.

(** [BTreeMap<usize, Vec<usize>>] *)
Notation FutexTable := (gmap Z (list Z)).

(** [BTreeMap::values] visits the queues in the order of the addresses. *)
Definition key_le (a b : Z * list Z) : Prop := a.1 ≤ b.1.
#[export] Instance key_le_dec a b : Decision (key_le a b).
Proof. unfold key_le. apply _. Defined.

Definition ft_queues (t : FutexTable) : list (Z * list Z) := merge_sort key_le (map_to_list t).

Definition in_futex (t : FutexTable) (task_id : Z) : bool :=
  bool_decide (is_Some (list_find (λ x, task_id ∈ x.2) (ft_queues t))).

(** ** Futures *)
(** [WaitFutex::poll]; [signal] is the pending list of the current task. *)
Definition wait_futex_poll (t : FutexTable) (task_id : Z) (signal : SignalList)
  : Poll (result Z) * FutexTable :=
  if in_futex t task_id then
    if has_signal signal then
      match list_find (λ x, task_id ∈ x.2) (ft_queues t) with
      | Some (_, (k, q)) => (Ready (Err EINTR), <[k := filter (λ x, x ≠ task_id) q]> t)
      | None => (Ready (Err EINTR), t)
      end
    else (Pending, t)
  else (Ready (Ok 0), t).

(** [NextTick::poll], [WaitSignal::poll] and [WaitHandleAbleSignal::poll]. *)
Definition next_tick_poll (deadline curr : Z) : Poll unit :=
  if curr <? deadline then Pending else Ready tt.
Definition wait_signal_poll (t : ThreadControlBlock) : Poll unit :=
  if has_signal (tcb_signal t) then Ready tt else Pending.
Definition wait_handleable_poll (t : ThreadControlBlock) : Poll unit :=
  if has_signal (signal_list_mask (tcb_signal t) (tcb_sigmask t)) then Ready tt else Pending.

(** ** Waking and requeueing *)
(** [Vec::drain(..n)]: panics when [n] exceeds the length. *)
Definition drain {A} (n : Z) (l : list A) : outcome (list A * list A) :=
  if n <=? Z.of_nat (length l) then Val (take (Z.to_nat n) l, drop (Z.to_nat n) l) else Panic.

Definition futex_wake (t : FutexTable) (uaddr wake_count : Z) : outcome (Z * FutexTable) :=
  let que_size := Z.of_nat (length (default [] (t !! uaddr))) in
  if que_size =? 0 then Val (0, t)
  else match t !! uaddr with
       | Some q => '(woken, rest) ← drain (Z.min wake_count que_size) q;
                   Val (Z.of_nat (length woken), <[uaddr := rest]> t)
       | None => Val (0, t)
       end.

Definition futex_requeue (t : FutexTable) (uaddr wake_count uaddr2 reque_count : Z)
  : outcome (Z * FutexTable) :=
  match t !! uaddr with
  | None => Val (0, t)
  | Some q =>
      '(woken, q1) ← drain wake_count q;
      '(reque, q2) ← drain reque_count q1;
      let t := <[uaddr := q2]> t in
      let t := match t !! uaddr2 with Some _ => t | None => <[uaddr2 := []]> t end in
      let t := <[uaddr2 := default [] (t !! uaddr2) ++ reque]> t in
      Val (Z.of_nat (length woken), t)
  end.

(** ** [sys_futex] *)
Inductive FutexFlags := FWait | FWake | FRequeue.

Definition futex_flags (op : Z) : result FutexFlags :=
  let op := if 0x80 <=? op then op - 0x80 else op in
  match op with
  | 0 => Ok FWait
  | 1 => Ok FWake
  | 3 => Ok FRequeue
  | _ => if op <=? 10 then Ok FWake else Err ENOSYS
  end.

Definition as_i32 (x : Z) : Z :=
  let y := x mod 2 ^ 32 in if y <? 2 ^ 31 then y else y - 2 ^ 32.

(** The call either returns or blocks in [WaitFutex] with an optional
    deadline. *)
Inductive FutexReply := FReturn (r : result Z) | FBlock (deadline : option Z).

(** [uval] is the word at [uaddr]; [timeout] the value at [value2] when that
    pointer is not null; [ns] the clock. *)
Definition sys_futex (t : FutexTable) (tid uaddr uval op value value2 uaddr2 : Z)
    (timeout : option TimeSpec) (ns : Z) : outcome (FutexReply * FutexTable) :=
  if uaddr =? 0 then Val (FReturn (Err EFAULT), t)
  else match futex_flags op with
  | Err e => Val (FReturn (Err e), t)
  | Ok FWait =>
      if uval =? as_i32 value then
        let t := match t !! uaddr with
                 | Some q => <[uaddr := q ++ [tid]]> t
                 | None => <[uaddr := [tid]]> t
                 end in
        Val (FBlock ((λ ts, ns +w timespec_to_nsec ts) <$> timeout), t)
      else Val (FReturn (Err EAGAIN), t)
  | Ok FWake =>
      '(count, t) ← futex_wake t uaddr value;
      Val (FReturn (Ok count), t)
  | Ok FRequeue =>
      '(count, t) ← futex_requeue t uaddr value uaddr2 value2;
      Val (FReturn (Ok count), t)
  end.

(** One poll of a blocked call: the waiter first, then the deadline. *)
Definition blocked_poll (t : FutexTable) (tid : Z) (signal : SignalList) (deadline : option Z) (ns : Z)
  : Poll (result Z) * FutexTable :=
  match wait_futex_poll t tid signal with
  | (Ready r, t) => (Ready r, t)
  | (Pending, t) =>
      match deadline with
      | Some d => match wait_until_poll d ns with
                  | Ready _ => (Ready (Err ETIMEDOUT), t)
                  | Pending => (Pending, t)
                  end
      | None => (Pending, t)
      end
  end.

(** ** Where an id is queued *)
Definition queued_at (t : FutexTable) (k x : Z) : Prop := ∃ q, t !! k = Some q ∧ x ∈ q.

Lemma elem_of_ft_queues t k q : (k, q) ∈ ft_queues t ↔ t !! k = Some q.
Proof. unfold ft_queues. rewrite merge_sort_Permutation. apply elem_of_map_to_list. Qed.

Lemma in_futex_spec t x : in_futex t x = true ↔ ∃ k, queued_at t k x.
Proof.
  unfold in_futex. rewrite bool_decide_eq_true. split.
  - intros [[i [k q]] (Hi & Hx & _)%list_find_Some]. exists k, q. simpl in Hx. split; [|done].
    by eapply elem_of_ft_queues, list_elem_of_lookup_2.
  - intros (k & q & Hk & Hx). apply (list_find_elem_of _ _ (k, q)); [by apply elem_of_ft_queues|done].
Qed.

(** Ids sit in one place, and only blocked tasks are queued. *)
Record futex_inv (t : FutexTable) (blocked : gset Z) : Prop := {
  fx_nodup : ∀ k q, t !! k = Some q → NoDup q;
  fx_once : ∀ k1 k2 x, queued_at t k1 x → queued_at t k2 x → k1 = k2;
  fx_blocked : ∀ k x, queued_at t k x → x ∈ blocked
}.

Lemma queued_insert t k q k' x :
  queued_at (<[k := q]> t) k' x ↔ (k' = k ∧ x ∈ q) ∨ (k' ≠ k ∧ queued_at t k' x).
Proof.
  unfold queued_at. destruct (decide (k' = k)) as [->|Hne].
  - setoid_rewrite lookup_insert_eq. naive_solver.
  - setoid_rewrite lookup_insert_ne; [|done]. naive_solver.
Qed.

(** Shrinking one queue to a sublist keeps the invariant. *)
Lemma futex_inv_shrink t blocked k q q' :
  futex_inv t blocked → t !! k = Some q → NoDup q' → q' ⊆ q → futex_inv (<[k := q']> t) blocked.
Proof.
  intros [H1 H2 H3] Hk Hnd Hsub.
  assert (∀ k' x, queued_at (<[k := q']> t) k' x → queued_at t k' x) as Hq.
  { intros k' x [[-> Hx]|[_ Hx]]%queued_insert; [exists q; auto|done]. }
  split; [|eauto..]. intros k' q0. rewrite lookup_insert_Some. intros [[<- <-]|[_ ?]]; eauto.
Qed.

Lemma futex_inv_enqueue t blocked uaddr tid :
  futex_inv t blocked → tid ∉ blocked →
  futex_inv (<[uaddr := default [] (t !! uaddr) ++ [tid]]> t) ({[tid]} ∪ blocked).
Proof.
  intros [H1 H2 H3] Hfresh.
  assert (∀ k, ¬ queued_at t k tid) as Hnq by (intros k Hq; by apply Hfresh, (H3 k)).
  assert (∀ k x, queued_at (<[uaddr := default [] (t !! uaddr) ++ [tid]]> t) k x →
            queued_at t k x ∨ (k = uaddr ∧ x = tid)) as Hq.
  { intros k x [[-> Hx]|[_ Hx]]%queued_insert; [|by left].
    apply elem_of_app in Hx as [Hx| ->%list_elem_of_singleton]; [left|by right].
    destruct (t !! uaddr) as [q|] eqn:E; simpl in Hx; [by exists q|by apply elem_of_nil in Hx]. }
  split.
  - intros k q. rewrite lookup_insert_Some. intros [[<- <-]|[_ ?]]; [|by eapply H1].
    apply NoDup_app. split_and!; [|intros x Hx ->%list_elem_of_singleton|apply NoDup_singleton].
    + destruct (t !! uaddr) as [q|] eqn:E; simpl; [by eapply H1|constructor].
    + destruct (t !! uaddr) as [q|] eqn:E; simpl in Hx; [|by apply elem_of_nil in Hx].
      apply (Hnq uaddr). by exists q.
  - intros k1 k2 x [Hx1|[-> ->]]%Hq [Hx2|[-> ?]]%Hq; try done.
    + by eapply H2.
    + subst. by destruct (Hnq k1).
    + by destruct (Hnq k2).
  - intros k x [Hx|[-> ->]]%Hq; [|set_solver]. specialize (H3 k x Hx). set_solver.
Qed.

(** ** Histories without deadlines *)
Inductive futex_step : FutexTable * gset Z → FutexTable * gset Z → Prop :=
  | fstep_wait t blocked tid uaddr uval op value ns t' :
      tid ∉ blocked →
      sys_futex t tid uaddr uval op value 0 0 None ns = Val (FBlock None, t') →
      futex_step (t, blocked) (t', {[tid]} ∪ blocked)
  | fstep_wake t blocked tid uaddr uval op value ns r t' :
      futex_flags op = Ok FWake → 0 ≤ value →
      sys_futex t tid uaddr uval op value 0 0 None ns = Val (FReturn r, t') →
      futex_step (t, blocked) (t', blocked)
  | fstep_return t blocked tid signal ns r t' :
      tid ∈ blocked → blocked_poll t tid signal None ns = (Ready r, t') →
      futex_step (t, blocked) (t', blocked ∖ {[tid]}).

Lemma futex_wake_spec t uaddr n :
  0 ≤ n →
  let q := default [] (t !! uaddr) in
  futex_wake t uaddr n =
    Val (Z.min n (Z.of_nat (length q)),
         if bool_decide (q = []) then t else <[uaddr := drop (Z.to_nat n) q]> t).
Proof.
  intros Hn. cbv zeta. unfold futex_wake. destruct (t !! uaddr) as [q|] eqn:E; simpl.
  2: { by rewrite Z.min_r by lia. }
  destruct (Z.eqb_spec (Z.of_nat (length q)) 0) as [Hz|Hz].
  - destruct q; [|simpl in Hz; lia]. simpl. by rewrite Z.min_r by lia.
  - rewrite bool_decide_eq_false_2 by (by intros ->).
    unfold drain. rewrite (proj2 (Z.leb_le _ _)) by lia. cbn [mbind outcome_bind].
    rewrite length_take. do 2 f_equal; [lia|]. f_equal.
    destruct (decide (n ≤ Z.of_nat (length q))) as [Hle|Hgt]; [by rewrite Z.min_l|].
    rewrite Z.min_r, !drop_ge by lia. done.
Qed.

Lemma wait_enqueues t tid uaddr uval op value ns t' :
  sys_futex t tid uaddr uval op value 0 0 None ns = Val (FBlock None, t') →
  t' = <[uaddr := default [] (t !! uaddr) ++ [tid]]> t.
Proof.
  unfold sys_futex. destruct (uaddr =? 0); [done|].
  destruct (futex_flags op) as [[]|]; [|by destruct (futex_wake _ _ _) as [[]|]
    |by destruct (futex_requeue _ _ _ _ _) as [[]|]|done].
  destruct (_ =? _); [|done]. intros [= <-]. by destruct (t !! uaddr).
Qed.

Lemma return_poll t blocked tid signal ns r t' :
  futex_inv t blocked → blocked_poll t tid signal None ns = (Ready r, t') →
  futex_inv t' (blocked ∖ {[tid]}) ∧ (∀ k x, x ≠ tid → queued_at t' k x ↔ queued_at t k x).
Proof.
  intros Hinv. pose proof Hinv as [H1 H2 H3]. unfold blocked_poll, wait_futex_poll.
  destruct (in_futex t tid) eqn:Ein.
  - destruct (has_signal signal); [|done].
    destruct (list_find _ _) as [[i [k q]]|] eqn:E.
    2: { exfalso. unfold in_futex in Ein. rewrite E in Ein. by apply bool_decide_eq_true, is_Some_None in Ein. }
    intros [= <- <-]. apply list_find_Some in E as (Hi & Hx & _). simpl in Hx.
    assert (t !! k = Some q) as Hk by (by eapply elem_of_ft_queues, list_elem_of_lookup_2).
    assert (∀ k' x, x ≠ tid → queued_at (<[k := filter (λ y, y ≠ tid) q]> t) k' x ↔ queued_at t k' x) as Hq.
    { intros k' x Hne. rewrite queued_insert, list_elem_of_filter. split.
      - intros [[-> [_ Hin]]|[_ ?]]; [by exists q|done].
      - intros (q' & Hk' & Hin). destruct (decide (k' = k)) as [->|]; [left|right; split; [done|by exists q']].
        by simplify_eq. }
    split; [|done]. destruct (futex_inv_shrink t blocked k q (filter (λ y, y ≠ tid) q)) as [I1 I2 I3];
      [done|done|by apply NoDup_filter, (H1 k)|intros y [_ Hy]%list_elem_of_filter; done|].
    split; [done|done|]. intros k' x Hqx. apply elem_of_difference. split; [by eapply I3|].
    intros ->%elem_of_singleton. apply queued_insert in Hqx as [[-> [? _]%list_elem_of_filter]|[Hne Hq']]; [done|].
    apply Hne. eapply H2; [exact Hq'|by exists q].
  - intros [= <- <-]. split; [|done]. split; [done|done|]. intros k x Hqx.
    apply elem_of_difference. split; [by eapply H3|]. intros ->%elem_of_singleton.
    assert (in_futex t tid = true) by (apply in_futex_spec; by exists k). congruence.
Qed.

Lemma futex_step_inv st st' : futex_step st st' → futex_inv st.1 st.2 → futex_inv st'.1 st'.2.
Proof.
  destruct 1 as [t b tid uaddr uval op value ns t' Hf E|t b tid uaddr uval op value ns r t' Hop Hv E
    |t b tid signal ns r t' Hb E]; intros Hinv; simpl in *.
  - rewrite (wait_enqueues _ _ _ _ _ _ _ _ E). by apply futex_inv_enqueue.
  - unfold sys_futex in E. destruct (uaddr =? 0); [by simplify_eq|]. rewrite Hop in E.
    rewrite futex_wake_spec in E by done. cbn [mbind outcome_bind] in E. injection E as _ <-.
    case_bool_decide as Hq; [done|]. destruct (t !! uaddr) as [q|] eqn:Ek; [|done].
    eapply futex_inv_shrink; [done|done|..]; simpl.
    + eapply sublist_NoDup; [by apply (fx_nodup _ _ Hinv uaddr)|apply sublist_drop].
    + intros x. apply subseteq_drop.
  - by eapply return_poll.
Qed.

Lemma futex_reachable_inv st : rtc futex_step (∅, ∅) st → futex_inv st.1 st.2.
Proof.
  intros Hrtc. revert st Hrtc. apply (rtc_ind_r (λ st, futex_inv st.1 st.2)).
  - split; simpl; [by intros k q [=]|by intros k1 k2 x (q & [=] & _)|by intros k x (q & [=] & _)].
  - intros st1 st2 _ Hstep. by apply futex_step_inv.
Qed.

(** C33: In every state reachable by waits without a deadline, wakes and
    returns, a wake of up to [n] tasks at an address reports the number of
    tasks it releases, which are the first [n] to have waited there, all of
    them really blocked; each of them returns 0 at its next poll, signal or
    not, and no other task is released or moved. *)
Theorem futex_wake_releases t blocked tid uaddr uval n ns :
  rtc futex_step (∅, ∅) (t, blocked) → uaddr ≠ 0 → 0 ≤ n →
  let q := default [] (t !! uaddr) in
  ∃ t', sys_futex t tid uaddr uval 1 n 0 0 None ns
        = Val (FReturn (Ok (Z.min n (Z.of_nat (length q)))), t') ∧
    (∀ x, x ∈ take (Z.to_nat n) q →
       x ∈ blocked ∧ ∀ signal ns', blocked_poll t' x signal None ns' = (Ready (Ok 0), t')) ∧
    (∀ k x, x ∉ take (Z.to_nat n) q → queued_at t' k x ↔ queued_at t k x).
Proof.
  intros Hr Hu Hn q. apply futex_reachable_inv in Hr as [H1 H2 H3]. simpl in *.
  unfold sys_futex. rewrite (proj2 (Z.eqb_neq uaddr 0)) by done.
  change (futex_flags 1) with (Ok FWake). cbv iota. rewrite futex_wake_spec by done.
  cbn [mbind outcome_bind]. fold q. set (t' := if _ : bool then _ else _).
  exists t'. split; [done|].
  assert (∀ x, x ∈ q → queued_at t uaddr x) as Hq.
  { intros x Hx. unfold q in Hx. destruct (t !! uaddr) as [q0|] eqn:E; [by exists q0|by apply elem_of_nil in Hx]. }
  assert (NoDup q) as Hnd.
  { unfold q. destruct (t !! uaddr) as [q0|] eqn:E; simpl; [by eapply H1|constructor]. }
  assert (∀ k x, queued_at t' k x ↔ (k = uaddr ∧ x ∈ drop (Z.to_nat n) q) ∨ (k ≠ uaddr ∧ queued_at t k x)) as Ht'.
  { intros k x. unfold t'. case_bool_decide as Hqe; [|apply queued_insert].
    rewrite Hqe, drop_nil. split; [|by intros [[_ Hx%elem_of_nil]|[_ ?]]]. intros Hqx.
    destruct (decide (k = uaddr)) as [->|]; [|by right]. destruct Hqx as (q0 & Hk & Hx).
    unfold q in Hqe. rewrite Hk in Hqe. simpl in Hqe.
    rewrite Hqe in Hx. by apply elem_of_nil in Hx. }
  rewrite <- (take_drop (Z.to_nat n) q) in Hnd. apply NoDup_app in Hnd as (_ & Hdisj & _).
  split.
  - intros x Hx. assert (x ∈ q) as Hxq by (rewrite <- (take_drop (Z.to_nat n) q); set_solver).
    split; [apply (H3 uaddr), Hq; done|]. intros signal ns'. unfold blocked_poll, wait_futex_poll.
    assert (in_futex t' x = false) as ->; [|done].
    apply not_true_is_false. intros (k & [[-> Hd]|[Hne Hk]]%Ht')%in_futex_spec.
    + by apply (Hdisj x).
    + apply Hne, (H2 k uaddr x Hk), Hq. done.
  - intros k x Hx. rewrite Ht'. split.
    + intros [[-> Hd]|[_ ?]]; [|done]. apply Hq. rewrite <- (take_drop (Z.to_nat n) q). set_solver.
    + intros Hk. destruct (decide (k = uaddr)) as [->|]; [left|by right]. split; [done|].
      destruct Hk as (q0 & Hk & Hin).
      assert (q = q0) as Eq by (unfold q; by rewrite Hk).
      rewrite <- Eq, <- (take_drop (Z.to_nat n) q) in Hin. apply elem_of_app in Hin as [?|?]; [by destruct Hx|done].
Qed.

(** Tasks 7 and 8 wait at address 64 in that order. *)
Lemma futex_wake_releases_witness :
  ∃ t', sys_futex {[ 64 := [7; 8] ]} 9 64 0 1 1 0 0 None 0 = Val (FReturn (Ok 1), t') ∧
    (∀ x, x ∈ [7] → x ∈ ({[8]} ∪ ({[7]} ∪ ∅) : gset Z) ∧
       ∀ signal ns', blocked_poll t' x signal None ns' = (Ready (Ok 0), t')).
Proof.
  destruct (futex_wake_releases {[ 64 := [7; 8] ]} ({[8]} ∪ ({[7]} ∪ ∅)) 9 64 0 1 0) as (t' & H1 & H2 & _).
  - eapply rtc_l; [apply (fstep_wait ∅ ∅ 7 64 5 0 5 0 {[ 64 := [7] ]}); [set_solver|reflexivity]|].
    eapply rtc_l; [apply (fstep_wait _ _ 8 64 5 0 5 0 {[ 64 := [7; 8] ]}); [set_solver|reflexivity]|].
    apply rtc_refl.
  - lia.
  - lia.
  - exists t'. split; [exact H1|exact H2].
Defined.

(** A wait that ends by its deadline leaves the task's id in the queue.
    When task 1 times out and task 2 then waits at the same address, waking
    one task reports success but releases the stale entry, and task 2 stays
    blocked: the wake-up is lost. *)
Theorem futex_timeout_loses_wakeup uaddr :
  uaddr ≠ 0 →
  ∃ t1 t2 t3,
    sys_futex ∅ 1 uaddr 0 0 0 0 0 (Some (mkTimeSpec 0 5)) 100 = Val (FBlock (Some 105), t1) ∧
    blocked_poll t1 1 signal_list_new (Some 105) 106 = (Ready (Err ETIMEDOUT), t1) ∧
    sys_futex t1 2 uaddr 0 0 0 0 0 None 107 = Val (FBlock None, t2) ∧
    sys_futex t2 3 uaddr 0 1 1 0 0 None 108 = Val (FReturn (Ok 1), t3) ∧
    blocked_poll t3 2 signal_list_new None 109 = (Pending, t3).
Proof.
  intros Hu. exists {[uaddr := [1]]}, {[uaddr := [1; 2]]}, {[uaddr := [2]]}.
  assert (∀ x q, x ∈ q → in_futex {[uaddr := q]} x = true) as Hin.
  { intros x q Hx. apply in_futex_spec. exists uaddr, q. by rewrite lookup_singleton_eq. }
  unfold sys_futex. rewrite (proj2 (Z.eqb_neq uaddr 0)) by done.
  change (futex_flags 0) with (Ok FWait). change (futex_flags 1) with (Ok FWake). cbv iota.
  split_and!.
  - by rewrite lookup_empty.
  - unfold blocked_poll, wait_futex_poll. by rewrite Hin by set_solver.
  - rewrite lookup_singleton_eq. change (0 =? as_i32 0) with true. cbv iota.
    by rewrite insert_singleton_eq.
  - rewrite futex_wake_spec by lia. rewrite lookup_singleton_eq. simpl.
    by rewrite insert_singleton_eq.
  - unfold blocked_poll, wait_futex_poll. by rewrite Hin by set_solver.
Qed.

Lemma futex_timeout_loses_wakeup_witness :
  ∃ t2 t3, sys_futex t2 3 64 0 1 1 0 0 None 108 = Val (FReturn (Ok 1), t3) ∧
    blocked_poll t3 2 signal_list_new None 109 = (Pending, t3).
Proof.
  destruct (futex_timeout_loses_wakeup 64) as (t1 & t2 & t3 & _ & _ & _ & H1 & H2); [lia|].
  by exists t2, t3.
Defined.

(** Requeueing wakes the first [w] waiters and moves the next [r] to the
    end of the other queue when that many are waiting; if fewer wait than the
    two counts ask for (the usual "all of them" request), the kernel panics. *)
Theorem futex_requeue_spec t uaddr uaddr2 q w r :
  t !! uaddr = Some q → uaddr ≠ uaddr2 → 0 ≤ w → 0 ≤ r →
  if bool_decide (w + r ≤ Z.of_nat (length q)) then
    futex_requeue t uaddr w uaddr2 r =
      Val (w, <[uaddr2 := default [] (t !! uaddr2) ++ take (Z.to_nat r) (drop (Z.to_nat w) q)]>
              (<[uaddr := drop (Z.to_nat (w + r)) q]> t))
  else futex_requeue t uaddr w uaddr2 r = Panic.
Proof.
  intros Hq Hne Hw Hr. unfold futex_requeue, drain. rewrite Hq. case_bool_decide as Hc.
  - rewrite (proj2 (Z.leb_le w _)) by lia. cbn [mbind outcome_bind].
    rewrite (proj2 (Z.leb_le r _)) by (rewrite length_drop; lia). cbn [mbind outcome_bind].
    rewrite length_take, drop_drop. rewrite lookup_insert_ne by done.
    replace (Z.to_nat w + Z.to_nat r)%nat with (Z.to_nat (w + r)) by lia.
    replace (Z.of_nat (Z.to_nat w `min` length q)) with w by lia.
    destruct (t !! uaddr2) as [q2|] eqn:E2; simpl.
    + by rewrite lookup_insert_ne, E2 by done.
    + by rewrite lookup_insert_eq, insert_insert_eq.
  - destruct (Z.leb_spec w (Z.of_nat (length q))); [|done]. cbn [mbind outcome_bind].
    by rewrite (proj2 (Z.leb_gt r _)) by (rewrite length_drop; lia).
Qed.

(** A broadcast on a condition variable with one waiter: wake 1, move all. *)
Lemma futex_requeue_spec_witness :
  futex_requeue {[ 64 := [7] ]} 64 1 128 0x7fffffff = Panic.
Proof.
  apply (futex_requeue_spec {[ 64 := [7] ]} 64 128 [7] 1 0x7fffffff); [reflexivity|lia..].
Defined.
