(* ===== verification/Ipc.v ===== *)
(** * System V semaphores and message queues ([kernel/src/syscall/shm.rs])

    The global tables [SEMAPHORES] and [MESSAGE_QUEUES] and the calls on them.
    A message the caller passes is its type and bytes, [None] for a null
    pointer.  Shared memory segments are with the memory of processes. *)

From S2P Require Import Prelude Bytes Vfs File Futex.
Local Open Scope Z_scope.

(** ** Data *)
Record Semaphore := mkSem { sem_key : Z; sem_nsems : Z; sem_values : list Z }.
Definition sem_new (key nsems : Z) : Semaphore := mkSem key nsems (replicate (Z.to_nat nsems) 0).

Record Message := mkMsg { msg_mtype : Z; msg_mtext : list Z }.

Record MessageQueue := mkMq {
  mq_key : Z; mq_messages : list Message; mq_max_bytes : Z; mq_current_bytes : Z; mq_max_messages : Z
}.
Definition mq_new (key : Z) : MessageQueue := mkMq key [] 16384 0 40.

(** ** Queue operations *)
Definition mq_can_send (q : MessageQueue) (msg_size : Z) : bool :=
  (Z.of_nat (length (mq_messages q)) <? mq_max_messages q) &&
  (mq_current_bytes q +w msg_size <=? mq_max_bytes q).

Definition mq_send_message (q : MessageQueue) (mtype : Z) (data : list Z) : bool * MessageQueue :=
  let n := Z.of_nat (length data) in
  if mq_can_send q n
  then (true, mkMq (mq_key q) (mq_messages q ++ [mkMsg mtype data]) (mq_max_bytes q)
                (mq_current_bytes q +w n) (mq_max_messages q))
  else (false, q).

(** [iter().enumerate().filter(P).min_by_key(mtype)]: the first of the least
    type. *)
Definition min_step (best : option (nat * Message)) (x : nat * Message) : option (nat * Message) :=
  match best with
  | Some b => if msg_mtype x.2 <? msg_mtype b.2 then Some x else best
  | None => Some x
  end.

Definition first_min (bound : Z) (l : list Message) : option nat :=
  fst <$> foldl min_step None (filter (λ x : nat * Message, msg_mtype x.2 ≤ bound) (imap pair l)).

Definition mq_position (q : MessageQueue) (mtype : Z) (except : bool) : option nat :=
  let l := mq_messages q in
  if mtype =? 0 then (match l with [] => None | _ => Some 0%nat end)
  else if 0 <? mtype then
    fst <$> list_find (λ m, xorb except (msg_mtype m =? mtype) = true) l
  else first_min (as_isize (wrap (- mtype))) l.

Definition mq_receive_message (q : MessageQueue) (mtype : Z) (except : bool) : option Message * MessageQueue :=
  match mq_position q mtype except ≫= λ i, (λ m, (i, m)) <$> mq_messages q !! i with
  | None => (None, q)
  | Some (index, msg) =>
      (Some msg, mkMq (mq_key q) (delete index (mq_messages q)) (mq_max_bytes q)
                   (mq_current_bytes q -w Z.of_nat (length (msg_mtext msg))) (mq_max_messages q))
  end.

(** ** Syscalls *)
Record Ipc := mkIpc { ipc_sems : gmap Z Semaphore; ipc_queues : gmap Z MessageQueue }.
Definition set_sems (m : gmap Z Semaphore) (s : Ipc) : Ipc := mkIpc m (ipc_queues s).
Definition set_queues (m : gmap Z MessageQueue) (s : Ipc) : Ipc := mkIpc (ipc_sems s) m.

(** [m.keys().cloned().max().unwrap_or(d)] *)
Definition max_key {A} (d : Z) (m : gmap Z A) : Z :=
  match (map_to_list m).*1 with [] => d | k :: ks => foldr Z.max k ks end.

Definition IPC_CREAT : Z := 0x200.

Definition sys_semget (key nsems semflg : Z) (s : Ipc) : result Z * Ipc :=
  let actual_key := if key =? 0 then max_key 0 (ipc_sems s) +w 1 else key in
  match ipc_sems s !! actual_key with
  | Some _ => (Ok actual_key, s)
  | None =>
      if negb (Z.land semflg IPC_CREAT =? 0)
      then (Ok actual_key, set_sems (<[actual_key := sem_new actual_key nsems]> (ipc_sems s)) s)
      else (Err ENOENT, s)
  end.

Definition sys_semctl (semid semnum cmd arg : Z) : vfs Ipc Z := λ s,
  match ipc_sems s !! semid with
  | None => Val (Err EINVAL, s)
  | Some sem =>
      if cmd =? 16 then
        if semnum <? sem_nsems sem then
          _ ← unwrap (sem_values sem !! Z.to_nat semnum);
          Val (Ok 0, set_sems (<[semid := mkSem (sem_key sem) (sem_nsems sem)
                 (<[Z.to_nat semnum := as_i32 arg]> (sem_values sem))]> (ipc_sems s)) s)
        else Val (Err EINVAL, s)
      else if cmd =? 12 then
        if semnum <? sem_nsems sem then
          v ← unwrap (sem_values sem !! Z.to_nat semnum); Val (Ok (as_usize v), s)
        else Val (Err EINVAL, s)
      else if cmd =? 0 then Val (Ok 0, set_sems (delete semid (ipc_sems s)) s)
      else Val (Ok 0, s)
  end.

(** The operations are not looked at. *)
Definition sys_semop (semid : Z) (s : Ipc) : result Z * Ipc :=
  (if bool_decide (is_Some (ipc_sems s !! semid)) then Ok 0 else Err EINVAL, s).

Definition sys_msgget (key msgflg : Z) (s : Ipc) : result Z * Ipc :=
  let actual_key := if key =? 0 then max_key 1000 (ipc_queues s) +w 1 else key in
  match ipc_queues s !! actual_key with
  | Some _ => (Ok actual_key, s)
  | None =>
      if negb (Z.land msgflg IPC_CREAT =? 0)
      then (Ok actual_key, set_queues (<[actual_key := mq_new actual_key]> (ipc_queues s)) s)
      else (Err ENOENT, s)
  end.

Definition sys_msgctl (msqid cmd : Z) (s : Ipc) : result Z * Ipc :=
  match ipc_queues s !! msqid with
  | None => (Err EINVAL, s)
  | Some _ => if cmd =? 0 then (Ok 0, set_queues (delete msqid (ipc_queues s)) s) else (Ok 0, s)
  end.

Definition sys_msgsnd (msqid : Z) (msgp : option (Z * list Z)) (msgflg : Z) (s : Ipc) : result Z * Ipc :=
  match ipc_queues s !! msqid with
  | None => (Err EINVAL, s)
  | Some queue =>
      match msgp with
      | None => (Err EFAULT, s)
      | Some (mtype, msg_data) =>
          if mq_can_send queue (Z.of_nat (length msg_data)) then
            (Ok 0, set_queues (<[msqid := (mq_send_message queue mtype msg_data).2]> (ipc_queues s)) s)
          else if negb (Z.land msgflg 0x800 =? 0) then (Err EAGAIN, s)
          else (Ok 0, s)
      end
  end.

(** What the call writes to the caller's buffer and its result. *)
Definition sys_msgrcv (msqid : Z) (valid : bool) (msgsz msgtyp msgflg : Z) (s : Ipc)
  : result Z * option (Z * list Z) * Ipc :=
  match ipc_queues s !! msqid with
  | None => (Err EINVAL, None, s)
  | Some queue =>
      let except := negb (Z.land msgflg 0x2000 =? 0) in
      let '(r, queue) := mq_receive_message queue msgtyp except in
      let s := set_queues (<[msqid := queue]> (ipc_queues s)) s in
      match r with
      | None => (Err ENOMSG, None, s)
      | Some message =>
          if negb valid then (Err EFAULT, None, s)
          else
            let len := Z.of_nat (length (msg_mtext message)) in
            let data_len := Z.min len msgsz in
            let out := Some (msg_mtype message, take (Z.to_nat data_len) (msg_mtext message)) in
            if (msgsz <? len) && (Z.land msgflg 0x1000 =? 0) then (Err E2BIG, out, s)
            else (Ok data_len, out, s)
      end
  end.

(** ** Queue invariant *)
Definition total_bytes (l : list Message) : Z := foldr (λ m n, Z.of_nat (length (msg_mtext m)) + n) 0 l.

(** The counter is the number of queued bytes and the limits hold. *)
Record mq_wf (q : MessageQueue) : Prop := {
  mw_bytes : mq_current_bytes q = total_bytes (mq_messages q);
  mw_max : mq_current_bytes q ≤ mq_max_bytes q;
  mw_len : Z.of_nat (length (mq_messages q)) ≤ mq_max_messages q;
  mw_word : mq_max_bytes q < 2 ^ 32
}.

Lemma total_bytes_app l k : total_bytes (l ++ k) = total_bytes l + total_bytes k.
Proof. induction l as [|m l IH]; simpl; [done|]. rewrite IH. lia. Qed.

Lemma total_bytes_nonneg l : 0 ≤ total_bytes l.
Proof. induction l; simpl; lia. Qed.

Lemma mq_new_wf key : mq_wf (mq_new key).
Proof. split; simpl; lia. Qed.

(** *** Which message is taken *)
Lemma min_step_spec l : ∀ a, ∃ b, foldl min_step (Some a) l = Some b ∧
  ((b = a ∧ ∀ x, x ∈ l → msg_mtype a.2 ≤ msg_mtype x.2) ∨
   (msg_mtype b.2 < msg_mtype a.2 ∧ ∃ l1 l2, l = l1 ++ b :: l2 ∧
      (∀ x, x ∈ l1 → msg_mtype b.2 < msg_mtype x.2) ∧ (∀ x, x ∈ l2 → msg_mtype b.2 ≤ msg_mtype x.2))).
Proof.
  induction l as [|y l IH]; intros a.
  { exists a. split; [done|]. left. split; [done|]. intros x Hx%elem_of_nil. done. }
  cbn [foldl min_step]. destruct (Z.ltb_spec (msg_mtype y.2) (msg_mtype a.2)) as [Hlt|Hge].
  - destruct (IH y) as (b & E & Hb). exists b. split; [exact E|]. right. destruct Hb as [[-> Hy]|(Hlt' & l1 & l2 & -> & H1 & H2)].
    + split; [done|]. exists [], l. split_and!; [done|by intros x ?%elem_of_nil|done].
    + split; [lia|]. exists (y :: l1), l2. split_and!; [done| |done].
      intros x [->|Hx]%elem_of_cons; [lia|by apply H1].
  - destruct (IH a) as (b & E & Hb). exists b. split; [exact E|]. destruct Hb as [[-> Hy]|(Hlt' & l1 & l2 & -> & H1 & H2)].
    + left. split; [done|]. intros x [->|Hx]%elem_of_cons; [lia|by apply Hy].
    + right. split; [done|]. exists (y :: l1), l2. split_and!; [done| |done].
      intros x [->|Hx]%elem_of_cons; [lia|by apply H1].
Qed.

Lemma min_fold_spec l b :
  foldl min_step None l = Some b → ∃ l1 l2, l = l1 ++ b :: l2 ∧
    (∀ x, x ∈ l1 → msg_mtype b.2 < msg_mtype x.2) ∧ (∀ x, x ∈ l2 → msg_mtype b.2 ≤ msg_mtype x.2).
Proof.
  destruct l as [|a l]; [done|]. cbn [foldl min_step]. destruct (min_step_spec l a) as (b' & -> & Hb).
  intros [= ->]. destruct Hb as [[-> Ha]|(Hlt & l1 & l2 & -> & H1 & H2)].
  - exists [], l. split_and!; [done|by intros x ?%elem_of_nil|done].
  - exists (a :: l1), l2. split_and!; [done| |done]. intros x [->|Hx]%elem_of_cons; [lia|by apply H1].
Qed.

Lemma imap_pairwise {A} (l : list A) : ∀ k,
  pairwise (λ x y : nat * A, (x.1 < y.1)%nat) (imap (λ i x, ((k + i)%nat, x)) l) ∧
  Forall (λ x : nat * A, (k ≤ x.1)%nat) (imap (λ i x, ((k + i)%nat, x)) l).
Proof.
  induction l as [|y l IH]; intros k; [split; constructor|]. rewrite imap_cons.
  destruct (IH (S k)) as [Hp Hf].
  assert (imap ((λ i x, ((k + i)%nat, x)) ∘ S) l = imap (λ i x, ((S k + i)%nat, x)) l) as E.
  { apply imap_ext. intros i x _. simpl. f_equal. lia. }
  rewrite E. split; constructor; simpl; try done; [..|lia|].
  - eapply Forall_impl; [exact Hf|]. simpl. lia.
  - eapply Forall_impl; [exact Hf|]. simpl. lia.
Qed.

Lemma pairwise_app_r {A} (R : A → A → Prop) l1 x l2 y : pairwise R (l1 ++ x :: l2) → y ∈ l2 → R x y.
Proof.
  induction l1 as [|z l1 IH]; simpl; intros Hp Hy; inversion_clear Hp as [|? ? Hf Hp']; [|by apply IH].
  rewrite Forall_forall in Hf. by apply Hf.
Qed.

Lemma first_min_spec bound l :
  match first_min bound l with
  | None => ∀ m, m ∈ l → bound < msg_mtype m
  | Some i => ∃ m, l !! i = Some m ∧ msg_mtype m ≤ bound ∧ ∀ j m', l !! j = Some m' → msg_mtype m' ≤ bound →
      msg_mtype m ≤ msg_mtype m' ∧ ((j < i)%nat → msg_mtype m < msg_mtype m')
  end.
Proof.
  unfold first_min. set (cands := filter _ _).
  assert (∀ i m, (i, m) ∈ cands ↔ l !! i = Some m ∧ msg_mtype m ≤ bound) as Hin.
  { intros i m. unfold cands. rewrite list_elem_of_filter. simpl.
    assert ((i, m) ∈ imap pair l ↔ l !! i = Some m) as ->; [|tauto].
    rewrite list_elem_of_lookup. setoid_rewrite list_lookup_imap. split.
    - intros [k Hk]. destruct (l !! k) eqn:E; simpl in Hk; congruence.
    - intros Hi. exists i. by rewrite Hi. }
  destruct (foldl min_step None cands) as [[i m]|] eqn:E; cbn [fmap option_fmap option_map fst].
  - apply min_fold_spec in E as (l1 & l2 & Ec & H1 & H2). cbn [snd] in *.
    destruct (proj1 (Hin i m)) as [Hi Hb]; [rewrite Ec; set_solver|].
    exists m. split_and!; [done|done|]. intros j m' Hj Hb'.
    assert ((j, m') ∈ cands) as Hc by (by apply Hin). rewrite Ec, elem_of_app, elem_of_cons in Hc.
    destruct Hc as [Hc|[Hc|Hc]].
    + apply H1 in Hc. simpl in Hc. lia.
    + simplify_eq. split; [lia|]. lia.
    + pose proof (H2 _ Hc) as Hle. simpl in Hle. split; [done|]. intros Hji. exfalso.
      assert (pairwise (λ x y : nat * Message, (x.1 < y.1)%nat) cands) as Hpw.
      { apply (pairwise_sublist _ _ (imap pair l)); [apply sublist_filter|]. apply (imap_pairwise l 0). }
      rewrite Ec in Hpw. apply (pairwise_app_r _ _ _ _ _ Hpw) in Hc. simpl in Hc. lia.
  - intros m Hm. apply list_elem_of_lookup in Hm as [i Hi].
    destruct (decide (msg_mtype m ≤ bound)) as [Hb|]; [|lia]. exfalso.
    assert ((i, m) ∈ cands) as Hc by (by apply Hin). destruct cands as [|c cs]; [set_solver|].
    simpl in E. destruct (min_step_spec cs c) as (b & Eb & _). simpl in E. rewrite Eb in E. done.
Qed.

(** The messages a receiver may be given. *)
Definition mq_matches (mtype : Z) (except : bool) (m : Message) : Prop :=
  if decide (mtype = 0) then True
  else if decide (0 < mtype) then (if except then msg_mtype m ≠ mtype else msg_mtype m = mtype)
  else msg_mtype m ≤ - mtype.

(** The message [m] at the head of [l1] .. [l2] is the right one to take. *)
Record mq_choice (mtype : Z) (except : bool) (l1 : list Message) (m : Message) (l2 : list Message) : Prop := {
  mc_match : mq_matches mtype except m;
  mc_first : ∀ m', m' ∈ l1 → msg_mtype m' ≠ msg_mtype m;
  mc_nonneg : 0 ≤ mtype → ∀ m', m' ∈ l1 → ¬ mq_matches mtype except m';
  mc_least : mtype < 0 → ∀ m', m' ∈ l1 ++ l2 → mq_matches mtype except m' → msg_mtype m ≤ msg_mtype m'
}.

Lemma xorb_matches mtype except m :
  0 < mtype → xorb except (msg_mtype m =? mtype) = true ↔ mq_matches mtype except m.
Proof.
  intros Ht. unfold mq_matches. rewrite decide_False by lia. rewrite decide_True by done.
  destruct (Z.eqb_spec (msg_mtype m) mtype), except; simpl; naive_solver.
Qed.

Lemma mq_position_spec q mtype except :
  - 2 ^ 63 < mtype < 2 ^ 63 →
  match mq_position q mtype except with
  | None => ∀ m, m ∈ mq_messages q → ¬ mq_matches mtype except m
  | Some i => ∃ m, mq_messages q !! i = Some m ∧
      mq_choice mtype except (take i (mq_messages q)) m (drop (S i) (mq_messages q))
  end.
Proof.
  intros Hr. unfold mq_position. destruct (Z.eqb_spec mtype 0) as [->|Hne].
  { destruct (mq_messages q) as [|m l]; [by intros m ?%elem_of_nil|]. exists m. split; [done|].
    split; [done|by intros m' ?%elem_of_nil|by intros _ m' ?%elem_of_nil|lia]. }
  destruct (Z.ltb_spec 0 mtype) as [Hpos|Hneg].
  - destruct (list_find _ _) as [[i m]|] eqn:E; cbn [fmap option_fmap option_map fst].
    + apply list_find_Some in E as (Hi & Hm & Hb). exists m. split; [done|].
      assert (∀ m', m' ∈ take i (mq_messages q) → ¬ mq_matches mtype except m') as Hb'.
      { intros m' [j Hj]%list_elem_of_lookup Hm'. apply lookup_take_Some in Hj as [Hj Hji].
        apply (Hb j m'); [done|lia|]. by apply xorb_matches. }
      split; [by apply xorb_matches| |done|lia]. intros m' Hm' E'. apply (Hb' m' Hm').
      apply xorb_matches in Hm; [|done]. unfold mq_matches in *. by rewrite E'.
    + apply list_find_None in E. rewrite Forall_forall in E. intros m Hm Hmm.
      apply (E m Hm). by apply xorb_matches.
  - assert (as_isize (wrap (- mtype)) = - mtype) as ->.
    { unfold as_isize. rewrite wrap_small by word_lia. destruct (Z.ltb_spec (- mtype) (2 ^ 63)); lia. }
    pose proof (first_min_spec (- mtype) (mq_messages q)) as Hf.
    assert (∀ m, mq_matches mtype except m ↔ msg_mtype m ≤ - mtype) as Hmm.
    { intros m. unfold mq_matches. rewrite !decide_False by lia. done. }
    destruct (first_min _ _) as [i|].
    + destruct Hf as (m & Hi & Hb & Hl). exists m. split; [done|].
      split; [by apply Hmm| |lia|].
      * intros m' [j Hj]%list_elem_of_lookup E. apply lookup_take_Some in Hj as [Hj Hji].
        destruct (Hl j m' Hj) as [_ ?]; lia.
      * intros _ m' Hm' Hb'. apply Hmm in Hb'. rewrite elem_of_app in Hm'.
        destruct Hm' as [[j Hj]%list_elem_of_lookup|[j Hj]%list_elem_of_lookup].
        -- apply lookup_take_Some in Hj as [Hj _]. by apply (Hl j m').
        -- rewrite lookup_drop in Hj. by apply (Hl (S i + j)%nat m').
    + intros m Hm Hb%Hmm. specialize (Hf m Hm). lia.
Qed.

(** Receiving with the counter. *)
Lemma mq_receive_spec q mtype except :
  mq_wf q → - 2 ^ 63 < mtype < 2 ^ 63 →
  match mq_receive_message q mtype except with
  | (None, q') => q' = q ∧ ∀ m, m ∈ mq_messages q → ¬ mq_matches mtype except m
  | (Some m, q') => mq_wf q' ∧ ∃ l1 l2, mq_messages q = l1 ++ m :: l2 ∧ mq_messages q' = l1 ++ l2 ∧
      mq_choice mtype except l1 m l2
  end.
Proof.
  intros [Hb Hm Hl Hw] Hr. unfold mq_receive_message. pose proof (mq_position_spec q mtype except Hr) as Hp.
  destruct (mq_position q mtype except) as [i|]; [|done]. destruct Hp as (m & Hi & Hc). simpl. rewrite Hi. simpl.
  pose proof (take_drop_middle _ _ _ Hi) as Hs. rewrite delete_take_drop.
  pose proof (total_bytes_nonneg (take i (mq_messages q))). pose proof (total_bytes_nonneg (drop (S i) (mq_messages q))).
  assert (total_bytes (mq_messages q) = total_bytes (take i (mq_messages q)) +
    (Z.of_nat (length (msg_mtext m)) + total_bytes (drop (S i) (mq_messages q)))) as Ht.
  { rewrite <- Hs at 1. by rewrite total_bytes_app. }
  assert (length (mq_messages q) = S (length (take i (mq_messages q) ++ drop (S i) (mq_messages q)))) as Hlen.
  { rewrite <- Hs at 1. rewrite !length_app. simpl. lia. }
  split; [|exists (take i (mq_messages q)), (drop (S i) (mq_messages q)); by split_and!].
  assert (mq_current_bytes q -w Z.of_nat (length (msg_mtext m)) =
    total_bytes (take i (mq_messages q) ++ drop (S i) (mq_messages q))) as E.
  { rewrite Hb, Ht, total_bytes_app, wsub_small by word_lia. lia. }
  split; simpl; rewrite ?E, ?total_bytes_app; [done|lia|lia|done].
Qed.

Lemma mq_send_spec q mtype data :
  mq_wf q → Z.of_nat (length data) < 2 ^ 32 →
  match mq_send_message q mtype data with
  | (true, q') => mq_wf q' ∧ mq_messages q' = mq_messages q ++ [mkMsg mtype data]
  | (false, q') => q' = q ∧ (mq_max_messages q ≤ Z.of_nat (length (mq_messages q)) ∨
      mq_max_bytes q < total_bytes (mq_messages q) + Z.of_nat (length data))
  end.
Proof.
  intros [Hb Hm Hl Hw] Hd. unfold mq_send_message, mq_can_send.
  pose proof (total_bytes_nonneg (mq_messages q)). rewrite !wadd_small by word_lia.
  destruct (Z.ltb_spec (Z.of_nat (length (mq_messages q))) (mq_max_messages q)); simpl;
    [destruct (Z.leb_spec (mq_current_bytes q + Z.of_nat (length data)) (mq_max_bytes q)); simpl|].
  - split; [|done]. split; simpl; rewrite ?total_bytes_app, ?length_app; simpl; lia.
  - split; [done|]. lia.
  - split; [done|]. lia.
Qed.

(** ** Histories of one queue *)
Inductive mq_event := MSend (mtype : Z) (data : list Z) | MRecv (mtype : Z) (except : bool).

Definition mq_event_ok (e : mq_event) : Prop :=
  match e with
  | MSend _ data => Z.of_nat (length data) < 2 ^ 32
  | MRecv mtype _ => - 2 ^ 63 < mtype < 2 ^ 63
  end.

(** The messages accepted, the messages delivered, and the queue. *)
Fixpoint mq_run (evs : list mq_event) (q : MessageQueue) : list Message * list Message * MessageQueue :=
  match evs with
  | [] => ([], [], q)
  | MSend t d :: evs =>
      let '(ok, q) := mq_send_message q t d in
      let '(sent, got, q) := mq_run evs q in
      ((if ok then mkMsg t d :: sent else sent), got, q)
  | MRecv t ex :: evs =>
      let '(r, q) := mq_receive_message q t ex in
      let '(sent, got, q) := mq_run evs q in
      (sent, match r with Some m => m :: got | None => got end, q)
  end.

Definition of_type (t : Z) (l : list Message) : list Message := filter (λ m, msg_mtype m = t) l.

Lemma mq_run_spec evs : ∀ q,
  mq_wf q → Forall mq_event_ok evs →
  let '(sent, got, q') := mq_run evs q in
  mq_wf q' ∧ ∀ t, of_type t got ++ of_type t (mq_messages q') = of_type t (mq_messages q) ++ of_type t sent.
Proof.
  induction evs as [|[t0 d|t0 ex] evs IH]; intros q Hq Hev.
  { split; [done|]. intros t. simpl. by rewrite app_nil_r. }
  - apply Forall_cons in Hev as [He Hev]. simpl. pose proof (mq_send_spec q t0 d Hq He) as Hs.
    destruct (mq_send_message q t0 d) as [[] q1].
    + destruct Hs as [Hq1 E]. specialize (IH q1 Hq1 Hev). destruct (mq_run evs q1) as [[sent got] q'].
      destruct IH as [Hq' Hf]. split; [done|]. intros t. rewrite Hf, E. unfold of_type.
      rewrite filter_app, <- app_assoc. f_equal. by rewrite <- filter_app.
    + destruct Hs as [-> _]. specialize (IH q Hq Hev). by destruct (mq_run evs q) as [[sent got] q'].
  - apply Forall_cons in Hev as [He Hev]. simpl. pose proof (mq_receive_spec q t0 ex Hq He) as Hs.
    destruct (mq_receive_message q t0 ex) as [[m|] q1].
    + destruct Hs as (Hq1 & l1 & l2 & E & E1 & Hc). specialize (IH q1 Hq1 Hev).
      destruct (mq_run evs q1) as [[sent got] q']. destruct IH as [Hq' Hf]. split; [done|]. intros t.
      unfold of_type in *. specialize (Hf t). rewrite E. rewrite E1, filter_app in Hf.
      rewrite filter_app, !filter_cons. destruct (decide (msg_mtype m = t)) as [<-|]; simpl; rewrite ?Hf; [|done].
      rewrite (filter_none _ l1); [done|]. apply (mc_first _ _ _ _ _ Hc).
    + destruct Hs as [-> _]. specialize (IH q Hq Hev). by destruct (mq_run evs q) as [[sent got] q'].
Qed.

(** C24: A message queue keeps the order of each type: after any history of
    sends and receives on a new queue, whatever selection the receivers ask
    for, the messages of a type that were delivered, followed by those still
    queued, are exactly the accepted messages of that type in the order they
    were sent; the byte counter is the number of queued bytes and both limits
    hold. *)
Theorem mq_fifo_per_type key evs :
  Forall mq_event_ok evs →
  let '(sent, got, q) := mq_run evs (mq_new key) in
  mq_wf q ∧ ∀ t, of_type t got ++ of_type t (mq_messages q) = of_type t sent.
Proof. intros Hev. exact (mq_run_spec evs (mq_new key) (mq_new_wf key) Hev). Qed.

Lemma mq_fifo_per_type_witness :
  let evs := [MSend 2 [1]; MSend 1 [2]; MSend 2 [3]; MRecv (-5) false; MRecv 2 false] in
  let '(sent, got, q) := mq_run evs (mq_new 7) in
  of_type 2 got ++ of_type 2 (mq_messages q) = of_type 2 sent ∧ of_type 2 got = [mkMsg 2 [1]].
Proof.
  pose proof (mq_fifo_per_type 7 [MSend 2 [1]; MSend 1 [2]; MSend 2 [3]; MRecv (-5) false; MRecv 2 false]) as Hf.
  split; [|reflexivity]. refine (proj2 (Hf _) 2). repeat constructor; simpl; lia.
Defined.

(** Two ways a message is lost: a blocking [msgsnd] to a full queue
    reports success without queueing the message, and a [msgrcv] whose buffer
    is too small removes the message from the queue although it reports
    E2BIG. *)
Theorem msg_calls_lose_messages s msqid q mtype data flag msgsz m q' :
  ipc_queues s !! msqid = Some q →
  (mq_can_send q (Z.of_nat (length data)) = false → Z.land flag 0x800 = 0 →
     sys_msgsnd msqid (Some (mtype, data)) flag s = (Ok 0, s)) ∧
  (mq_receive_message q mtype false = (Some m, q') → msgsz < Z.of_nat (length (msg_mtext m)) →
     ∃ out, sys_msgrcv msqid true msgsz mtype 0 s = (Err E2BIG, out, set_queues (<[msqid := q']> (ipc_queues s)) s)).
Proof.
  intros Hq. split.
  - intros Hc Hf. unfold sys_msgsnd. by rewrite Hq, Hc, Hf.
  - intros Hr Hm. unfold sys_msgrcv. rewrite Hq. change (negb (Z.land 0 0x2000 =? 0)) with false. rewrite Hr.
    eexists. cbv beta iota zeta. rewrite (proj2 (Z.ltb_lt _ _) Hm). done.
Qed.

Definition full_queue : MessageQueue := mkMq 5 (replicate 40 (mkMsg 1 [0; 0])) 16384 80 40.

Lemma msg_calls_lose_messages_witness :
  let s := mkIpc ∅ {[ 5 := full_queue ]} in
  sys_msgsnd 5 (Some (1, [9])) 0 s = (Ok 0, s) ∧ ∃ out s', sys_msgrcv 5 true 1 0 0 s = (Err E2BIG, out, s').
Proof.
  destruct (msg_calls_lose_messages (mkIpc ∅ {[ 5 := full_queue ]}) 5 full_queue 1 [9] 0 1 (mkMsg 1 [0; 0])
    (mkMq 5 (replicate 39 (mkMsg 1 [0; 0])) 16384 78 40)) as [H1 _]; [reflexivity|].
  destruct (msg_calls_lose_messages (mkIpc ∅ {[ 5 := full_queue ]}) 5 full_queue 0 [9] 0 1 (mkMsg 1 [0; 0])
    (mkMq 5 (replicate 39 (mkMsg 1 [0; 0])) 16384 78 40)) as [_ H2]; [reflexivity|].
  split; [by apply H1|]. destruct H2 as [out E]; [reflexivity|simpl; lia|]. eauto.
Defined.
