(* ===== verification/Executor.v ===== *)
(** * The executor ([crates/executor])

    Tasks are futures in a FIFO queue.  One round of a core takes the front
    task, polls it once and puts it back at the end unless it finished.  A
    future is an abstract state machine with a [poll] step that may change the
    rest of the kernel and may spawn tasks. *)

From S2P Require Import Prelude Vfs.
Local Open Scope Z_scope.

Section executor.
Context {W Fut : Type}.
(** [Future::poll]: the new kernel state, the tasks spawned while polling (with
    their ids) and the future again unless it is done. *)
Context (poll : Z → Fut → W → W * list (Z * Fut) * option Fut).

(** [AsyncTask::before_run] of the task. *)
Context (before_run : Z → W → W).

Record Exec := mkExec {
  ex_queue : list (Z * Fut);        (* TASK_QUEUE *)
  ex_map : gset Z;                  (* ids in TASK_MAP *)
  ex_next : Z;                      (* TASK_ID *)
  ex_cores : list (option Z)        (* the task each core runs *)
}.

(** [Executor::init] *)
Definition exec_init (cores : nat) : Exec := mkExec [] ∅ 0 (replicate cores None).

(** [task_id_alloc] *)
Definition task_id_alloc (e : Exec) : Z * Exec :=
  (ex_next e +w 1, mkExec (ex_queue e) (ex_map e) (ex_next e +w 1) (ex_cores e)).

(** [thread::spawn]: register the task and queue it at the end. *)
Definition spawn (id : Z) (f : Fut) (e : Exec) : Exec :=
  mkExec (ex_queue e ++ [(id, f)]) ({[id]} ∪ ex_map e) (ex_next e) (ex_cores e).

(** [thread::spawn_blank] *)
Definition spawn_blank (f : Fut) (e : Exec) : Exec :=
  let '(id, e) := task_id_alloc e in spawn id f e.

Definition release_task (tid : Z) (e : Exec) : Exec :=
  mkExec (ex_queue e) (ex_map e ∖ {[tid]}) (ex_next e) (ex_cores e).

(** [current_task]: [unwrap] of the core's slot. *)
Definition current_task (hart : nat) (e : Exec) : outcome Z :=
  match ex_cores e !! hart with
  | Some (Some id) => Val id
  | _ => Panic
  end.

(** [Executor::run_ready_task] on core [hart]; the id of the task that ran is
    returned. *)
Definition run_ready_task (hart : nat) (e : Exec) (w : W) : option Z * Exec * W :=
  match ex_queue e with
  | [] => (None, e, w)
  | (id, future) :: queue =>
      let w := before_run id w in
      let e := mkExec queue (ex_map e) (ex_next e) (<[hart := Some id]> (ex_cores e)) in
      let '(w, spawned, res) := poll id future w in
      let e := foldl (λ e x, spawn x.1 x.2 e) e spawned in
      match res with
      | None => (Some id, e, w)
      | Some future =>
          (Some id, mkExec (ex_queue e ++ [(id, future)]) (ex_map e) (ex_next e) (ex_cores e), w)
      end
  end.

(** [n] rounds of [Executor::run]; the ids of the tasks run, in order. *)
Fixpoint run (hart : nat) (n : nat) (e : Exec) (w : W) : list Z * Exec * W :=
  match n with
  | O => ([], e, w)
  | S n =>
      let '(id, e, w) := run_ready_task hart e w in
      let '(log, e, w) := run hart n e w in
      ((match id with Some id => id :: log | None => log end), e, w)
  end.

Lemma spawn_all_queue spawned : ∀ e,
  ex_queue (foldl (λ e x, spawn x.1 x.2 e) e spawned) = ex_queue e ++ spawned.
Proof.
  induction spawned as [|[id f] l IH]; intros e; simpl; [by rewrite app_nil_r|].
  rewrite IH. simpl. by rewrite <- app_assoc.
Qed.

(** A round moves the queue forward by one. *)
Lemma run_ready_task_queue hart e w id fut queue :
  ex_queue e = (id, fut) :: queue →
  ∃ e' w' new, run_ready_task hart e w = (Some id, e', w') ∧ ex_queue e' = queue ++ new.
Proof.
  intros Hq. unfold run_ready_task. rewrite Hq.
  destruct (poll id fut (before_run id w)) as [[w' spawned] [fut'|]]; eexists _, _, _; (split; [done|]); simpl;
    rewrite spawn_all_queue; [by rewrite <- app_assoc|done].
Qed.

(** C34: No ready task starves: a task at position [k] of the queue is polled in
    round [k + 1], after exactly the tasks that were queued before it, in
    order, no matter what those tasks do or spawn. *)
Theorem executor_fair hart k : ∀ e w id fut,
  ex_queue e !! k = Some (id, fut) →
  (run hart (S k) e w).1.1 = (take k (ex_queue e)).*1 ++ [id].
Proof.
  induction k as [|k IH]; intros e w id fut Hk.
  - destruct (ex_queue e) as [|[id0 f0] q] eqn:Hq; [done|]. injection Hk as -> ->.
    destruct (run_ready_task_queue hart e w id fut q Hq) as (e' & w' & new & E & _).
    simpl. by rewrite E.
  - destruct (ex_queue e) as [|[id0 f0] q] eqn:Hq; [done|]. simpl in Hk.
    destruct (run_ready_task_queue hart e w id0 f0 q Hq) as (e' & w' & new & E & Hq').
    assert (ex_queue e' !! k = Some (id, fut)) as Hk' by (rewrite Hq'; by apply lookup_app_l_Some).
    specialize (IH e' w' id fut Hk'). change (run hart (S (S k)) e w) with
      (let '(i, e, w) := run_ready_task hart e w in let '(log, e, w) := run hart (S k) e w in
       ((match i with Some i => i :: log | None => log end), e, w)).
    rewrite E. destruct (run hart (S k) e' w') as [[log e2] w2]. simpl in *. rewrite IH. f_equal.
    rewrite Hq', take_app_le; [done|]. apply lookup_lt_Some in Hk. lia.
Qed.
End executor.

(** ** [yield_now] and [select] *)
(** [Yield::poll] *)
Definition yield_poll (polled : bool) : bool * Poll unit :=
  if polled then (polled, Ready tt) else (true, Pending).

Inductive Either (A B : Type) := Left (a : A) | Right (b : B).
Arguments Left {A B} a.
Arguments Right {A B} b.

(** [Select::poll]: the first future has priority; polling after completion
    panics ([inner] is taken). *)
Definition select_poll {A B S} (pa : S → Poll A * S) (pb : S → Poll B * S)
    (inner : bool) (s : S) : outcome (Poll (Either A B) * bool * S) :=
  if negb inner then Panic
  else match pa s with
       | (Ready a, s) => Val (Ready (Left a), false, s)
       | (Pending, s) =>
           match pb s with
           | (Ready b, s) => Val (Ready (Right b), false, s)
           | (Pending, s) => Val (Pending, true, s)
           end
       end.

(** Three tasks: the first finishes at once, the second spawns one each time
    it runs. *)
Definition demo_poll (id : Z) (f : unit) (w : Z) : Z * list (Z * unit) * option unit :=
  if id =? 1 then (w, [], None)
  else if id =? 2 then (w + 1, [(w + 10, tt)], Some tt) else (w, [], Some tt).

Lemma executor_fair_witness :
  (run demo_poll (λ _ w, w) 0 3 (mkExec [(1, tt); (2, tt); (3, tt)] ∅ 3 [None]) 0).1.1 = [1; 2; 3].
Proof. exact (executor_fair demo_poll (λ _ w, w) 0 2 (mkExec [(1, tt); (2, tt); (3, tt)] ∅ 3 [None]) 0 3 tt eq_refl). Defined.
