(* ===== verification/PageTable.v ===== *)
(** * Page tables ([vendor/polyhal/src/pagetable], RISC-V Sv39)

    A page table is a tree of 512-entry tables in physical frames.  The
    operations read and write the entries in RAM and take the frames of new
    tables from the frame allocator ([PageAllocImpl] in [kernel/src/main.rs]).
    The abstract view is the walk the MMU performs: a partial map from virtual
    pages to entries, of which [map_page] is an insertion and [unmap_page] a
    deletion. *)

From S2P Require Import Prelude Frame Bytes.
Local Open Scope Z_scope.

Notation PT := (ST Phys).

(** ** Mapping flags *)
Definition MF_P : Z := 1.
Definition MF_U : Z := 2.
Definition MF_R : Z := 4.
Definition MF_W : Z := 8.
Definition MF_X : Z := 16.
Definition MF_A : Z := 32.
Definition MF_D : Z := 64.
Definition MF_URW : Z := 14.
Definition MF_URX : Z := 22.
Definition MF_URWX : Z := 30.

Definition PTE_V : Z := 1.
Definition PTE_R : Z := 2.
Definition PTE_W : Z := 4.
Definition PTE_X : Z := 8.
Definition PTE_U : Z := 16.
Definition PTE_A : Z := 64.
Definition PTE_D : Z := 128.

(** [bits |= flag if self.contains(..)] *)
Definition or_if (b : bool) (flag bits : Z) : Z := if b then Z.lor bits flag else bits.

(** [From<MappingFlags> for PTEFlags] *)
Definition pte_flags_of (flags : Z) : Z :=
  if flags =? 0 then 0
  else or_if (contains flags MF_U) PTE_U
      (or_if (contains flags MF_X) PTE_X
      (or_if (contains flags MF_W) (Z.lor PTE_W PTE_D)
      (or_if (contains flags MF_R) (Z.lor PTE_R PTE_A) PTE_V))).

(** [From<PTEFlags> for MappingFlags] *)
Definition mapping_flags_of (v : Z) : Z :=
  or_if (contains v PTE_D) MF_D
  (or_if (contains v PTE_A) MF_A
  (or_if (contains v PTE_U) MF_U
  (or_if (contains v PTE_X) MF_X
  (or_if (contains v PTE_W) MF_W
  (or_if (contains v PTE_R) MF_R
  (or_if (contains v PTE_V) MF_P 0)))))).

(** ** Entries *)
Definition pte_flags (pte : Z) : Z := Z.land pte 0xff.

Definition pte_is_valid (pte : Z) : bool := contains (pte_flags pte) PTE_V && (255 <? pte).

Definition pte_is_table (pte : Z) : bool :=
  contains (pte_flags pte) PTE_V &&
  negb (contains (pte_flags pte) PTE_R || contains (pte_flags pte) PTE_W || contains (pte_flags pte) PTE_X).

Definition pte_new_table (paddr : Z) : Z := Z.lor (Z.shiftr paddr 2) PTE_V.
Definition pte_new_page (paddr flags : Z) : Z := Z.lor (Z.shiftr paddr 2) flags.
Definition pte_address (pte : Z) : Z := Z.land (wrap (Z.shiftl pte 2)) 0xFFFFFFFFF000.

Definition pn_index (vaddr n : Z) : Z := Z.land (Z.shiftr vaddr (12 + 9 * n)) 0x1ff.
Definition pn_offset (vaddr n : Z) : Z := vaddr mod Z.shiftl 1 (12 + 9 * n).

(** ** Tables in RAM: [get_pte_list] and its elements *)
Definition word_of (page : list Z) (i : Z) : Z := le_value (take 8 (drop (8 * Z.to_nat i) page)).

Definition get_pte (table i : Z) : PT Z := λ ph,
  page ← unwrap (ph_ram ph !! table); Val (word_of page i, ph).

Definition set_pte (table i pte : Z) : PT unit := λ ph,
  page ← unwrap (ph_ram ph !! table);
  Val (tt, mkPhys (ph_alloc ph) (<[table := splice (8 * Z.to_nat i) (le_bytes 8 pte) page]> (ph_ram ph))).

(** [PageAllocImpl::alloc] and [PageAllocImpl::dealloc] *)
Definition page_alloc : PT Z := λ ph,
  '(res, ph) ← frame_alloc_persist ph;
  p ← unwrap res; Val (p, ph).

Definition page_dealloc (paddr : Z) : PT unit := λ ph,
  ph ← frame_unalloc ph paddr; Val (tt, tracker_clear paddr ph).

(** ** [PageTable] *)
(** One level of [map_page]: the next table, created when missing. *)
Definition map_level (table i : Z) : PT Z :=
  pte ← get_pte table i;
  if negb (pte_is_valid pte) then
    p ← page_alloc;
    _ ← set_pte table i (pte_new_table p);
    mret (pte_address (pte_new_table p))
  else mret (pte_address pte).

Definition pt_map_page (root vaddr paddr flags : Z) : PT unit :=
  t1 ← map_level root (pn_index vaddr 2);
  t0 ← map_level t1 (pn_index vaddr 1);
  set_pte t0 (pn_index vaddr 0) (pte_new_page paddr (pte_flags_of flags)).

Definition pt_unmap_page (root vaddr : Z) : PT unit :=
  pte ← get_pte root (pn_index vaddr 2);
  if negb (pte_is_table pte) then mret tt
  else
    let t1 := pte_address pte in
    pte ← get_pte t1 (pn_index vaddr 1);
    if negb (pte_is_table pte) then mret tt
    else set_pte (pte_address pte) (pn_index vaddr 0) 0.

Definition pt_translate (root vaddr : Z) : PT (option (Z * Z)) :=
  pte ← get_pte root (pn_index vaddr 2);
  if negb (pte_is_table pte) then mret None
  else
    let t1 := pte_address pte in
    pte ← get_pte t1 (pn_index vaddr 1);
    if negb (pte_is_table pte) then mret None
    else
      pte ← get_pte (pte_address pte) (pn_index vaddr 0);
      mret (Some (pte_address pte +w pn_offset vaddr 0, mapping_flags_of (pte_flags pte))).

Definition indices (n : nat) : list Z := Z.of_nat <$> seq 0 n.

Definition release_l2 (table : Z) : PT unit :=
  st_iter (λ i, pte ← get_pte table i;
    if pte_is_table pte then page_dealloc (pte_address pte) else mret tt) (indices 512).

(** [PageTable::release]: the tables of the user half are returned. *)
Definition pt_release (root : Z) : PT unit :=
  _ ← st_iter (λ i, pte ← get_pte root i;
        if pte_is_table pte
        then _ ← release_l2 (pte_address pte); page_dealloc (pte_address pte)
        else mret tt) (indices 256);
  st_iter (λ i, set_pte root i 0) (indices 256).

(** [PageTable::restore] with the boot table [kernel]. *)
Definition pt_restore (root kernel : Z) : PT unit :=
  _ ← pt_release root;
  _ ← st_iter (λ i, pte ← get_pte kernel (256 + i); set_pte root (256 + i) pte) (indices 256);
  st_iter (λ i, set_pte root i 0) (indices 256).

(** [PageTableWrapper::alloc] and its [Drop] *)
Definition pt_alloc (kernel : Z) : PT Z :=
  root ← page_alloc; _ ← pt_restore root kernel; mret root.

Definition pt_drop (root : Z) : PT unit :=
  _ ← pt_release root; page_dealloc root.

(** ** Encoding of entries *)
(** A frame a table entry can name. *)
Definition frame_ok (p : Z) : Prop := 0 < p < 2 ^ 48 ∧ p mod PAGE_SIZE = 0.

Lemma lor_low a fl n : 0 ≤ n → 0 ≤ fl < 2 ^ n → Z.lor (a * 2 ^ n) fl = a * 2 ^ n + fl.
Proof.
  intros Hn Hf. assert (Z.land (a * 2 ^ n) fl = 0) as H0; [|pose proof (Z.add_lor_land (a * 2 ^ n) fl); lia].
  apply Z.bits_inj'. intros k Hk. rewrite Z.land_spec, Z.bits_0.
  destruct (decide (k < n)).
  - by rewrite Z.mul_pow2_bits_low by lia.
  - replace (Z.testbit fl k) with false; [by rewrite andb_false_r|]. symmetry.
    destruct (decide (fl = 0)) as [->|]; [apply Z.bits_0|].
    apply Z.bits_above_log2; [lia|]. apply Z.log2_lt_pow2; [lia|].
    apply Z.lt_le_trans with (2 ^ n); [lia|]. apply Z.pow_le_mono_r; lia.
Qed.

Lemma pte_new_page_eq p fl :
  frame_ok p → 0 ≤ fl < 256 → pte_new_page p fl = p / 4096 * 1024 + fl.
Proof.
  intros [Hp Hm] Hf. unfold pte_new_page, PAGE_SIZE in *.
  assert (Z.shiftr p 2 = p / 4096 * 2 ^ 10) as ->.
  { rewrite Z.shiftr_div_pow2 by lia. pose proof (Z.div_mod p 4096). symmetry. apply Z.div_unique with 0; lia. }
  apply (lor_low (p / 4096) fl 10); lia.
Qed.

Lemma land_shifted_mask x m n : 0 ≤ n → Z.land x (Z.shiftl m n) = Z.shiftl (Z.land (Z.shiftr x n) m) n.
Proof.
  intros Hn. apply Z.bits_inj'. intros k Hk. rewrite Z.land_spec, !Z.shiftl_spec, Z.land_spec by lia.
  destruct (decide (k < n)).
  - rewrite !(Z.testbit_neg_r _ (k - n)) by lia. by rewrite andb_false_r.
  - rewrite Z.shiftr_spec by lia. by replace (k - n + n) with k by lia.
Qed.

Lemma pte_address_new_page p fl :
  frame_ok p → 0 ≤ fl < 256 → pte_address (pte_new_page p fl) = p.
Proof.
  intros Hp Hf. rewrite pte_new_page_eq by done. destruct Hp as [Hp Hm]. unfold pte_address, PAGE_SIZE in *.
  pose proof (Z.div_mod p 4096 ltac:(lia)) as Hd. rewrite Z.shiftl_mul_pow2 by lia.
  rewrite wrap_small by word_lia.
  change 0xFFFFFFFFF000 with (Z.shiftl (Z.ones 36) 12). rewrite land_shifted_mask by lia.
  rewrite Z.land_ones, Z.shiftr_div_pow2, Z.shiftl_mul_pow2 by lia.
  assert ((p / 4096 * 1024 + fl) * 2 ^ 2 / 2 ^ 12 = p / 4096) as ->.
  { symmetry. apply Z.div_unique with (4 * fl); lia. }
  rewrite Z.mod_small; [lia|]. split; [lia|]. apply Z.div_lt_upper_bound; lia.
Qed.

Lemma pte_flags_new_page p fl :
  frame_ok p → 0 ≤ fl < 256 → pte_flags (pte_new_page p fl) = fl.
Proof.
  intros Hp Hf. rewrite pte_new_page_eq by done. unfold pte_flags.
  change 0xff with (Z.ones 8). rewrite Z.land_ones by lia.
  replace (p / 4096 * 1024 + fl) with (fl + p / 4096 * 4 * 2 ^ 8) by lia.
  rewrite Z.mod_add by lia. by rewrite Z.mod_small.
Qed.

Lemma pte_new_page_word p fl : frame_ok p → 0 ≤ fl < 256 → word64 (pte_new_page p fl).
Proof.
  intros Hp Hf. rewrite pte_new_page_eq by done. destruct Hp as [Hp _].
  assert (0 ≤ p / 4096 < 2 ^ 36) by (split; [apply Z.div_pos; lia|apply Z.div_lt_upper_bound; lia]). word_lia.
Qed.

Lemma frame_ok_page p : frame_ok p → 1 ≤ p / 4096.
Proof. intros [Hp Hm]. unfold PAGE_SIZE in Hm. pose proof (Z.div_mod p 4096). lia. Qed.

Lemma new_table_valid p : frame_ok p → pte_is_valid (pte_new_table p) = true.
Proof.
  intros Hp. unfold pte_is_valid. change (pte_new_table p) with (pte_new_page p 1).
  rewrite pte_flags_new_page, pte_new_page_eq by (done || lia). apply frame_ok_page in Hp. simpl. lia.
Qed.

Lemma new_table_is_table p : frame_ok p → pte_is_table (pte_new_table p) = true.
Proof.
  intros Hp. unfold pte_is_table. change (pte_new_table p) with (pte_new_page p 1).
  by rewrite pte_flags_new_page by (done || lia).
Qed.

Lemma new_table_address p : frame_ok p → pte_address (pte_new_table p) = p.
Proof. intros Hp. apply (pte_address_new_page p 1); [done|lia]. Qed.

Lemma pte_flags_of_range fl : 0 ≤ pte_flags_of fl < 256.
Proof.
  unfold pte_flags_of, or_if. destruct (fl =? 0); [lia|].
  destruct (contains fl MF_U), (contains fl MF_X), (contains fl MF_W), (contains fl MF_R); vm_compute; split; congruence.
Qed.

Lemma pn_index_range v n : 0 ≤ pn_index v n < 512.
Proof.
  unfold pn_index. change 0x1ff with (Z.ones 9). rewrite Z.land_ones by lia. apply Z.mod_pos_bound. lia.
Qed.

(** ** Reading and writing entries *)
Definition pte_at (ph : Phys) (table i : Z) : Z :=
  match ph_ram ph !! table with Some page => word_of page i | None => 0 end.

Definition table_in (ph : Phys) (table : Z) : Prop :=
  ∃ page, ph_ram ph !! table = Some page ∧ length page = Z.to_nat PAGE_SIZE.

Lemma get_pte_spec ph table i : table_in ph table → get_pte table i ph = Val (pte_at ph table i, ph).
Proof. intros (page & E & _). unfold get_pte, pte_at. by rewrite E. Qed.

Lemma set_pte_wrap ph table i w :
  table_in ph table → 0 ≤ i < 512 →
  ∃ ph', set_pte table i w ph = Val (tt, ph') ∧ ph_alloc ph' = ph_alloc ph ∧
    (∀ t, table_in ph t → table_in ph' t) ∧
    (∀ t, t ≠ table → ph_ram ph' !! t = ph_ram ph !! t) ∧
    ∀ t j, 0 ≤ j < 512 → pte_at ph' t j = if bool_decide (t = table ∧ j = i) then wrap w else pte_at ph t j.
Proof.
  intros (page & E & Hlen) Hi. unfold set_pte. rewrite E. eexists. split; [done|]. cbn [ph_alloc ph_ram].
  assert (length page = 4096%nat) as Hl by (rewrite Hlen; vm_compute; done). clear Hlen.
  split_and!; [done| | |].
  - intros t (pg & Et & Hpg). destruct (decide (t = table)) as [->|Hne].
    + eexists. cbn [ph_alloc ph_ram]. rewrite lookup_insert_eq. split; [done|].
      rewrite length_splice; [rewrite Hl; by vm_compute|]. rewrite length_le_bytes. lia.
    + exists pg. cbn [ph_alloc ph_ram]. by rewrite lookup_insert_ne by done.
  - intros t Hne. by rewrite lookup_insert_ne by done.
  - intros t j Hj. unfold pte_at. cbn [ph_alloc ph_ram]. destruct (decide (t = table)) as [->|Hne].
    2: { rewrite lookup_insert_ne by done. by rewrite bool_decide_eq_false_2 by naive_solver. }
    rewrite lookup_insert_eq, E. unfold word_of.
    rewrite read_word_splice by (rewrite ?length_le_bytes; lia).
    destruct (decide (j = i)) as [->|Hne].
    + rewrite !bool_decide_eq_true_2 by done. by rewrite le_value_bytes.
    + rewrite !bool_decide_eq_false_2; [done|naive_solver|lia].
Qed.

Lemma set_pte_spec ph table i w :
  table_in ph table → 0 ≤ i < 512 → word64 w →
  ∃ ph', set_pte table i w ph = Val (tt, ph') ∧ ph_alloc ph' = ph_alloc ph ∧
    (∀ t, table_in ph t → table_in ph' t) ∧
    (∀ t, t ≠ table → ph_ram ph' !! t = ph_ram ph !! t) ∧
    ∀ t j, 0 ≤ j < 512 → pte_at ph' t j = if bool_decide (t = table ∧ j = i) then w else pte_at ph t j.
Proof.
  intros Ht Hi Hw. destruct (set_pte_wrap ph table i w Ht Hi) as (ph' & ? & ? & ? & ? & Hp). exists ph'.
  split_and!; try done. intros t j Hj. rewrite Hp by done. by rewrite wrap_small.
Qed.

Lemma zero_page_words i : word_of zero_page i = 0.
Proof.
  unfold word_of, zero_page. rewrite drop_replicate, take_replicate. apply le_value_zero.
Qed.

(** ** The tree of a process's user half

    [T] gives the frame of the table at each path from the root ([] is the
    root, [i] the table at root entry [i], [i; j] a leaf table). *)
Notation Tree := (gmap (list Z) Z).

Definition idx_ok (q : list Z) (i : Z) : Prop := 0 ≤ i < (match q with [] => 256 | _ => 512 end).

Definition link (T : Tree) (q : list Z) : Z :=
  match T !! q with Some g => pte_new_table g | None => 0 end.

Record pt_inv (root : Z) (T : Tree) (ph : Phys) : Prop := {
  pi_wf : fa_wf (ph_alloc ph);
  pi_zero : ∀ p, p ∈ fa_free (ph_alloc ph) → ph_ram ph !! p = Some zero_page;
  pi_frames : ∀ p, p ∈ fa_all (ph_alloc ph) → frame_ok p;
  pi_root : T !! [] = Some root;
  pi_tab : ∀ q f, T !! q = Some f →
    f ∈ fa_all (ph_alloc ph) ∧ f ∉ fa_free (ph_alloc ph) ∧ table_in ph f;
  pi_inj : ∀ q q' f, T !! q = Some f → T !! q' = Some f → q = q';
  pi_path : ∀ q i, is_Some (T !! (q ++ [i])) → idx_ok q i ∧ is_Some (T !! q) ∧ (length q < 2)%nat;
  pi_link : ∀ q f i, T !! q = Some f → (length q < 2)%nat → idx_ok q i →
    pte_at ph f i = link T (q ++ [i])
}.

(** The walk of the MMU: the leaf entry of the page of [v], if its V bit is
    set.  What the entry permits is in its flags; an entry with V and none of R,
    W and X permits nothing, and [map_page] writes one only for a request
    without permissions. *)
Definition mmu_walk (ph : Phys) (root v : Z) : option Z :=
  let e2 := pte_at ph root (pn_index v 2) in
  if pte_is_table e2 then
    let e1 := pte_at ph (pte_address e2) (pn_index v 1) in
    if pte_is_table e1 then
      let e0 := pte_at ph (pte_address e1) (pn_index v 0) in
      if contains e0 PTE_V then Some e0 else None
    else None
  else None.

(** Addresses of the user half, and pages. *)
Definition user_addr (v : Z) : Prop := 0 ≤ v < 2 ^ 38.
Definition path_of (v : Z) : list Z := [pn_index v 2; pn_index v 1].
Definition same_page (v v' : Z) : Prop := v / PAGE_SIZE = v' / PAGE_SIZE.
#[export] Instance same_page_dec v v' : Decision (same_page v v').
Proof. unfold same_page. apply _. Defined.

Lemma pn_index_div v n : 0 ≤ n → pn_index v n = v / 2 ^ (12 + 9 * n) mod 512.
Proof.
  intros Hn. unfold pn_index. change 0x1ff with (Z.ones 9).
  by rewrite Z.land_ones, Z.shiftr_div_pow2 by lia.
Qed.

Lemma user_root_index v : user_addr v → 0 ≤ pn_index v 2 < 256.
Proof.
  intros Hv. rewrite pn_index_div by lia. unfold user_addr in Hv. change (12 + 9 * 2) with 30.
  assert (0 ≤ v / 2 ^ 30 < 256) by (split; [apply Z.div_pos; lia|apply Z.div_lt_upper_bound; lia]).
  rewrite Z.mod_small; lia.
Qed.

(** The three indices identify the page. *)
Lemma same_page_indices v v' :
  user_addr v → user_addr v' →
  same_page v v' ↔ pn_index v 2 = pn_index v' 2 ∧ pn_index v 1 = pn_index v' 1 ∧ pn_index v 0 = pn_index v' 0.
Proof.
  unfold user_addr, same_page, PAGE_SIZE. intros Hv Hv'. rewrite !pn_index_div by lia.
  change (12 + 9 * 2) with (12 + 18). change (12 + 9 * 1) with (12 + 9). change (12 + 9 * 0) with 12.
  rewrite !Z.pow_add_r, <- !Z.div_div by lia. change (2 ^ 12) with 4096.
  assert (0 ≤ v / 4096 < 2 ^ 26) as H1 by (split; [apply Z.div_pos; lia|apply Z.div_lt_upper_bound; lia]).
  assert (0 ≤ v' / 4096 < 2 ^ 26) as H2 by (split; [apply Z.div_pos; lia|apply Z.div_lt_upper_bound; lia]).
  split; [by intros ->|]. intros (E2 & E1 & E0).
  set (a := v / 4096) in *. set (b := v' / 4096) in *.
  rewrite (Z.div_mod a 512), (Z.div_mod b 512) by lia.
  enough (a / 512 = b / 512) by lia. clear E0.
  change (2 ^ 18) with (512 * 512) in E2. change (2 ^ 9) with 512 in E1.
  rewrite <- !Z.div_div in E2 by lia.
  assert (0 ≤ a / 512 / 512 < 512) by (split; [apply Z.div_pos; [apply Z.div_pos|]; lia|
    apply Z.div_lt_upper_bound; [|apply Z.div_lt_upper_bound]; lia]).
  assert (0 ≤ b / 512 / 512 < 512) by (split; [apply Z.div_pos; [apply Z.div_pos|]; lia|
    apply Z.div_lt_upper_bound; [|apply Z.div_lt_upper_bound]; lia]).
  rewrite !(Z.mod_small (_ / 512 / 512)) in E2 by lia.
  rewrite (Z.div_mod (a / 512) 512), (Z.div_mod (b / 512) 512) by lia. lia.
Qed.

(** The leaf entry, through the tree. *)
Definition leaf (T : Tree) (ph : Phys) (v : Z) : Z :=
  match T !! path_of v with Some f => pte_at ph f (pn_index v 0) | None => 0 end.

Lemma pt_inv_frame root T ph q f : pt_inv root T ph → T !! q = Some f → frame_ok f.
Proof. intros Hi Hq. destruct (pi_tab _ _ _ Hi q f Hq) as [? _]. by apply (pi_frames _ _ _ Hi). Qed.

Lemma link_None T q : T !! q = None → link T q = 0.
Proof. unfold link. by intros ->. Qed.

(** A step of a walk from the table at [q]. *)
Lemma walk_step root T ph q f i :
  pt_inv root T ph → T !! q = Some f → (length q < 2)%nat → idx_ok q i →
  get_pte f i ph = Val (link T (q ++ [i]), ph) ∧
  pte_at ph f i = link T (q ++ [i]) ∧
  pte_is_table (link T (q ++ [i])) = bool_decide (is_Some (T !! (q ++ [i]))) ∧
  pte_is_valid (link T (q ++ [i])) = bool_decide (is_Some (T !! (q ++ [i]))) ∧
  ∀ g, T !! (q ++ [i]) = Some g → pte_address (link T (q ++ [i])) = g.
Proof.
  intros Hi Hq Hl Hok. pose proof (pi_link _ _ _ Hi q f i Hq Hl Hok) as E.
  destruct (pi_tab _ _ _ Hi q f Hq) as (_ & _ & Ht).
  split; [rewrite get_pte_spec by done; by rewrite E|]. split; [done|]. unfold link.
  destruct (T !! (q ++ [i])) as [g|] eqn:Eg; [|done].
  pose proof (pt_inv_frame _ _ _ _ _ Hi Eg) as Hg.
  rewrite new_table_is_table, new_table_valid, bool_decide_eq_true_2 by done.
  split_and!; [done..|]. intros g' [= <-]. by apply new_table_address.
Qed.

Lemma mmu_walk_leaf root T ph v :
  pt_inv root T ph → user_addr v →
  mmu_walk ph root v = if contains (leaf T ph v) PTE_V then Some (leaf T ph v) else None.
Proof.
  intros Hi Hv. unfold mmu_walk, leaf, path_of. pose proof (user_root_index v Hv) as Hr.
  destruct (walk_step root T ph [] root (pn_index v 2)) as (_ & E2 & Et2 & _ & Ea2);
    [done|apply Hi|simpl; lia|done|]. cbn [app] in *. rewrite E2, Et2.
  destruct (T !! [pn_index v 2]) as [t1|] eqn:E1; cbn [bool_decide].
  2: { rewrite bool_decide_eq_false_2 by (by intros [? ?]).
       destruct (T !! [pn_index v 2; pn_index v 1]) eqn:E; [|done].
       destruct (pi_path _ _ _ Hi [pn_index v 2] (pn_index v 1)) as (_ & [? ?] & _); [cbn [app]; by rewrite E|congruence]. }
  rewrite bool_decide_eq_true_2, (Ea2 t1) by done.
  destruct (walk_step root T ph [pn_index v 2] t1 (pn_index v 1)) as (_ & E1' & Et1 & _ & Ea1);
    [done|done|simpl; lia|apply pn_index_range|]. cbn [app] in *. rewrite E1', Et1.
  destruct (T !! [pn_index v 2; pn_index v 1]) as [t0|] eqn:E0.
  - rewrite bool_decide_eq_true_2 by done. by rewrite (Ea1 t0).
  - by rewrite bool_decide_eq_false_2 by (by intros [? ?]).
Qed.

(** RAM outside the tables and the free frames is left alone. *)
Definition ram_kept (T : Tree) (ph ph' : Phys) : Prop :=
  ∀ t, t ∉ fa_free (ph_alloc ph) → (∀ q, T !! q ≠ Some t) → ph_ram ph' !! t = ph_ram ph !! t.

(** Adding a fresh table at a missing path. *)
Lemma add_table_inv root T ph q f i p fa' :
  pt_inv root T ph → T !! q = Some f → (length q < 2)%nat → idx_ok q i →
  T !! (q ++ [i]) = None →
  p ∈ fa_free (ph_alloc ph) → fa_wf fa' → Forall2 same_region (ph_alloc ph) fa' →
  fa_free fa' = fa_free (ph_alloc ph) ∖ {[p]} →
  ∃ ph', set_pte f i (pte_new_table p) (mkPhys fa' (ph_ram ph)) = Val (tt, ph') ∧
    ph_alloc ph' = fa' ∧ pt_inv root (<[q ++ [i] := p]> T) ph' ∧
    (∀ v, leaf (<[q ++ [i] := p]> T) ph' v = leaf T ph v) ∧ ram_kept T ph ph'.
Proof.
  intros Hi Hq Hl Hok Hnone Hp Hwf' Hs Hfree.
  destruct (pi_tab _ _ _ Hi q f Hq) as (Hfa & Hff & Hft).
  pose proof (fa_free_all _ (pi_wf _ _ _ Hi)) as Hsub.
  assert (frame_ok p) as Hpok by (apply (pi_frames _ _ _ Hi); set_solver).
  assert (0 ≤ i < 512) as Hi512 by (unfold idx_ok in Hok; destruct q; lia).
  destruct (set_pte_spec (mkPhys fa' (ph_ram ph)) f i (pte_new_table p)) as (ph' & E & Ea & Ht & Hr & Hpte);
    [done|done|by apply (pte_new_page_word p 1)|].
  cbn [ph_alloc ph_ram] in *.
  assert (∀ q' g, T !! q' = Some g → g ≠ p) as Hfresh.
  { intros q' g Hg ->. by destruct (pi_tab _ _ _ Hi q' p Hg) as (_ & ? & _). }
  assert (ph_ram ph' !! p = Some zero_page) as Hpz.
  { rewrite Hr; [by apply (pi_zero _ _ _ Hi)|]. intros ->. done. }
  assert (∀ j, pte_at ph' p j = 0) as Hp0 by (intros j; unfold pte_at; rewrite Hpz; apply zero_page_words).
  assert (∀ j, T !! ((q ++ [i]) ++ [j]) = None) as Hnochild.
  { intros j. destruct (T !! ((q ++ [i]) ++ [j])) eqn:Ej; [|done].
    destruct (pi_path _ _ _ Hi (q ++ [i]) j) as (_ & [? ?] & _); [by rewrite Ej|congruence]. }
  exists ph'. split_and!; [done|done| | |].
  - split; rewrite ?Ea, ?(fa_all_same _ _ Hs), ?Hfree; [done| |exact (pi_frames _ _ _ Hi)| | | | |].
    + intros p' Hp'. rewrite Hr by set_solver. apply (pi_zero _ _ _ Hi). set_solver.
    + rewrite lookup_insert_ne by (by destruct q). apply Hi.
    + intros q' g. rewrite lookup_insert_Some. intros [[<- <-]|[_ Hg]].
      * split_and!; [set_solver|set_solver|]. exists zero_page. split; [done|].
        unfold zero_page. by rewrite length_replicate.
      * destruct (pi_tab _ _ _ Hi q' g Hg) as (? & ? & ?). split_and!; [done|set_solver|by apply Ht].
    + intros q1 q2 g. rewrite !lookup_insert_Some. intros [[<- <-]|[_ H1]] [[<- H2]|[_ H2]]; try done.
      * by destruct (Hfresh q2 p).
      * subst g. by destruct (Hfresh q1 p).
      * by apply (pi_inj _ _ _ Hi) with g.
    + intros q' j Hj. destruct (decide (q' ++ [j] = q ++ [i])) as [[-> ->]%app_inj_tail|Hne].
      * split; [done|]. split; [|done]. rewrite lookup_insert_ne, Hq; [done|].
        intros HH. apply (f_equal length) in HH. rewrite length_app in HH. simpl in HH. lia.
      * rewrite lookup_insert_ne in Hj by done. destruct (pi_path _ _ _ Hi q' j Hj) as (? & ? & ?).
        split; [done|]. split; [|done]. by apply lookup_insert_is_Some'; right.
    + intros q' g j. rewrite lookup_insert_Some. intros [[<- <-]|[Hne Hg]] Hlq Hjok.
      * rewrite Hp0. symmetry. apply link_None. rewrite lookup_insert_ne; [apply Hnochild|].
        intros HH. apply (f_equal length) in HH. rewrite !length_app in HH. simpl in HH. lia.
      * assert (0 ≤ j < 512) by (unfold idx_ok in Hjok; destruct q'; lia).
        rewrite Hpte by done. case_bool_decide as Hd.
        -- destruct Hd as [-> ->]. assert (q' = q) as -> by (by apply (pi_inj _ _ _ Hi) with f).
           unfold link. by rewrite lookup_insert_eq.
        -- change (pte_at (mkPhys fa' (ph_ram ph)) g j) with (pte_at ph g j).
           rewrite (pi_link _ _ _ Hi q' g j) by done. unfold link. rewrite lookup_insert_ne; [done|].
           intros [-> ->]%app_inj_tail. apply Hd. split; congruence.
  - intros v. unfold leaf. destruct (decide (path_of v = q ++ [i])) as [->|Hne].
    + by rewrite lookup_insert_eq, Hnone.
    + rewrite lookup_insert_ne by congruence. destruct (T !! path_of v) as [g|] eqn:Eg; [|done].
      rewrite Hpte by apply pn_index_range. rewrite bool_decide_eq_false_2; [done|]. intros [-> _].
      assert (path_of v = q) as <- by (by apply (pi_inj _ _ _ Hi) with f). simpl in Hl. lia.
  - intros t Htf Htab. apply Hr. intros ->. by apply (Htab q).
Qed.

(** One level of [map_page]. *)
Lemma map_level_spec root T ph q f i :
  pt_inv root T ph → T !! q = Some f → (length q < 2)%nat → idx_ok q i →
  fa_free (ph_alloc ph) ≠ ∅ →
  ∃ g T' ph', map_level f i ph = Val (g, ph') ∧ pt_inv root T' ph' ∧ T' !! (q ++ [i]) = Some g ∧ T ⊆ T' ∧
    (∀ v, leaf T' ph' v = leaf T ph v) ∧ ram_kept T ph ph' ∧
    (∀ q' t, T' !! q' = Some t → T !! q' = Some t ∨ t ∈ fa_free (ph_alloc ph)) ∧
    fa_free (ph_alloc ph') ⊆ fa_free (ph_alloc ph) ∧ fa_all (ph_alloc ph') = fa_all (ph_alloc ph) ∧
    (size (fa_free (ph_alloc ph)) ≤ size (fa_free (ph_alloc ph')) + 1)%nat.
Proof.
  intros Hi Hq Hl Hok Hne. destruct (walk_step root T ph q f i Hi Hq Hl Hok) as (Eg & _ & _ & Hv & Ha).
  unfold map_level, mbind, st_bind. rewrite Eg, Hv.
  destruct (T !! (q ++ [i])) as [g|] eqn:Et.
  - rewrite bool_decide_eq_true_2 by done. cbn [negb]. exists g, T, ph. rewrite (Ha g) by done.
    split_and!; try done; [intros; by left|lia].
  - rewrite bool_decide_eq_false_2 by (by intros [? ?]). cbn [negb].
    destruct (fa_alloc_spec _ (pi_wf _ _ _ Hi)) as (res & fa' & Ef & Hwf' & Hs & Hpost).
    destruct res as [p|]; [|by destruct Hpost as [_ ?]]. destruct Hpost as [Hp Hfree].
    destruct (add_table_inv root T ph q f i p fa') as (ph' & Es & Ea & Hi' & Hleaf & Hram); [done..|].
    unfold page_alloc, frame_alloc_persist. rewrite Ef. simpl. rewrite Es.
    assert (frame_ok p) as Hpok.
    { apply (pi_frames _ _ _ Hi). pose proof (fa_free_all _ (pi_wf _ _ _ Hi)). set_solver. }
    rewrite new_table_address by done. exists p, (<[q ++ [i] := p]> T), ph'.
    split_and!; try done.
    + by rewrite lookup_insert_eq.
    + by apply insert_subseteq.
    + intros q' t. rewrite lookup_insert_Some. naive_solver.
    + rewrite Ea, Hfree. set_solver.
    + rewrite Ea. by apply fa_all_same.
    + rewrite Ea, Hfree, size_difference, size_singleton; [lia|]. set_solver.
Qed.

(** Writing an entry of a leaf table. *)
Lemma leaf_write_inv root T ph v f w :
  pt_inv root T ph → T !! path_of v = Some f → word64 w → user_addr v →
  ∃ ph', set_pte f (pn_index v 0) w ph = Val (tt, ph') ∧ pt_inv root T ph' ∧
    ph_alloc ph' = ph_alloc ph ∧ ram_kept T ph ph' ∧
    ∀ v', user_addr v' → leaf T ph' v' = if bool_decide (same_page v' v) then w else leaf T ph v'.
Proof.
  intros Hi Hf Hw Huv. destruct (pi_tab _ _ _ Hi _ f Hf) as (_ & Hff & Hft).
  destruct (set_pte_spec ph f (pn_index v 0) w) as (ph' & E & Ea & Ht & Hr & Hpte);
    [done|apply pn_index_range|done|].
  exists ph'. split_and!; [done| |done| |].
  - split; rewrite ?Ea; [apply Hi| |exact (pi_frames _ _ _ Hi)|apply Hi| |exact (pi_inj _ _ _ Hi)|
      exact (pi_path _ _ _ Hi)|].
    + intros p Hp. rewrite Hr by set_solver. by apply (pi_zero _ _ _ Hi).
    + intros q g Hg. destruct (pi_tab _ _ _ Hi q g Hg) as (? & ? & ?). split_and!; [done..|by apply Ht].
    + intros q g j Hg Hl Hj. rewrite Hpte by (unfold idx_ok in Hj; destruct q; lia).
      rewrite bool_decide_eq_false_2; [by apply Hi|]. intros [-> _].
      assert (q = path_of v) as -> by (by apply (pi_inj _ _ _ Hi) with f). simpl in Hl. lia.
  - intros t _ Htab. apply Hr. intros ->. by apply (Htab (path_of v)).
  - intros v' Huv'. unfold leaf. destruct (T !! path_of v') as [g|] eqn:Eg.
    + rewrite Hpte by apply pn_index_range. apply if_decide_ext.
      rewrite (same_page_indices v' v Huv' Huv). split.
      * intros [-> E0]. assert (path_of v' = path_of v) as [= -> ->] by (by apply (pi_inj _ _ _ Hi) with f). done.
      * intros (E2 & E1 & E0). split; [|done]. unfold path_of in *. rewrite E2, E1 in Eg. congruence.
    + rewrite bool_decide_eq_false_2; [done|]. intros (E2 & E1 & _)%same_page_indices; [|done..].
      unfold path_of in *. rewrite E2, E1 in Eg. congruence.
Qed.

Lemma pt_map_page_inv root T ph v p flags :
  pt_inv root T ph → user_addr v → frame_ok p → (2 ≤ size (fa_free (ph_alloc ph)))%nat →
  ∃ T' ph', pt_map_page root v p flags ph = Val (tt, ph') ∧ pt_inv root T' ph' ∧ is_Some (T' !! path_of v) ∧
    (∀ v', user_addr v' → leaf T' ph' v' =
       if bool_decide (same_page v' v) then pte_new_page p (pte_flags_of flags) else leaf T ph v') ∧
    fa_free (ph_alloc ph') ⊆ fa_free (ph_alloc ph) ∧ ram_kept T ph ph' ∧
    fa_all (ph_alloc ph') = fa_all (ph_alloc ph) ∧
    (∀ q t, T' !! q = Some t → T !! q = Some t ∨ t ∈ fa_free (ph_alloc ph)) ∧
    (size (fa_free (ph_alloc ph)) ≤ size (fa_free (ph_alloc ph')) + 2)%nat.
Proof.
  intros Hi Hv Hp Hfree. pose proof (user_root_index v Hv) as Hr.
  destruct (map_level_spec root T ph [] root (pn_index v 2))
    as (t1 & T1 & ph1 & E1 & Hi1 & Ht1 & Hsub1 & Hl1 & Hk1 & Hn1 & Hf1 & Ha1 & Hs1);
    [done|apply Hi|simpl; lia|done|intros E; rewrite E, size_empty in Hfree; lia|].
  destruct (map_level_spec root T1 ph1 [pn_index v 2] t1 (pn_index v 1))
    as (t0 & T2 & ph2 & E2 & Hi2 & Ht2 & Hsub2 & Hl2 & Hk2 & Hn2 & Hf2 & Ha2 & Hs2);
    [done|done|simpl; lia|apply pn_index_range|intros E; rewrite E, size_empty in Hs1; lia|].
  destruct (leaf_write_inv root T2 ph2 v t0 (pte_new_page p (pte_flags_of flags)))
    as (ph' & E3 & Hi3 & Ea3 & Hk3 & Hl3); [done|done|apply pte_new_page_word; [done|apply pte_flags_of_range]|done|].
  exists T2, ph'. split; [unfold pt_map_page, mbind, st_bind; by rewrite E1, E2, E3|].
  split; [done|]. split; [by exists t0|].
  assert (∀ q t, T2 !! q = Some t → T !! q = Some t ∨ t ∈ fa_free (ph_alloc ph)) as Hn.
  { intros q t [Hq|Hq]%Hn2; [by apply (Hn1 q)|]. right. set_solver. }
  rewrite Ea3. split_and!; [| | |congruence|done|lia].
  - intros v' Hv'. rewrite Hl3, Hl2, Hl1 by done. done.
  - set_solver.
  - intros t Ht Htab.
    assert (∀ q, T1 !! q ≠ Some t) as Htab1 by (intros q Hq; apply Hn1 in Hq as [Hq|Hq]; [by apply (Htab q)|done]).
    assert (t ∉ fa_free (ph_alloc ph1)) as Ht1' by set_solver.
    rewrite Hk3, Hk2, Hk1; try done; [set_solver|].
    intros q Hq. apply Hn2 in Hq as [Hq|Hq]; [by apply (Htab1 q)|done].
Qed.

(** Follow a step of a computation whose result is known. *)
Ltac st_run H := rewrite H; cbv beta iota zeta; cbn [negb].

Lemma pt_walk_spec root T ph v :
  pt_inv root T ph → user_addr v →
  (∃ t1 t0, get_pte root (pn_index v 2) ph = Val (pte_new_table t1, ph) ∧ pte_is_table (pte_new_table t1) = true ∧
     pte_address (pte_new_table t1) = t1 ∧ get_pte t1 (pn_index v 1) ph = Val (pte_new_table t0, ph) ∧
     pte_is_table (pte_new_table t0) = true ∧ pte_address (pte_new_table t0) = t0 ∧ T !! path_of v = Some t0) ∨
  (T !! path_of v = None ∧
   ((get_pte root (pn_index v 2) ph = Val (0, ph)) ∨
    ∃ t1, get_pte root (pn_index v 2) ph = Val (pte_new_table t1, ph) ∧ pte_is_table (pte_new_table t1) = true ∧
      pte_address (pte_new_table t1) = t1 ∧ get_pte t1 (pn_index v 1) ph = Val (0, ph))).
Proof.
  intros Hi Hv. pose proof (user_root_index v Hv) as Hr.
  destruct (walk_step root T ph [] root (pn_index v 2)) as (E2 & _); [done|apply Hi|simpl; lia|done|].
  cbn [app] in E2. unfold link in E2.
  destruct (T !! [pn_index v 2]) as [t1|] eqn:Et1.
  2: { right. split; [|by left]. unfold path_of. destruct (T !! [pn_index v 2; pn_index v 1]) eqn:E; [|done].
       destruct (pi_path _ _ _ Hi [pn_index v 2] (pn_index v 1)) as (_ & [? ?] & _);
         [cbn [app]; by rewrite E|congruence]. }
  pose proof (pt_inv_frame _ _ _ _ _ Hi Et1) as Hk1.
  destruct (walk_step root T ph [pn_index v 2] t1 (pn_index v 1)) as (E1 & _);
    [done|done|simpl; lia|apply pn_index_range|].
  cbn [app] in E1. unfold link in E1. fold (path_of v) in E1.
  destruct (T !! path_of v) as [t0|] eqn:Et0.
  - pose proof (pt_inv_frame _ _ _ _ _ Hi Et0) as Hk0.
    left. exists t1, t0. split_and!; eauto using new_table_is_table, new_table_address.
  - right. split; [done|]. right. exists t1. split_and!; eauto using new_table_is_table, new_table_address.
Qed.

Lemma contains_V w : contains w PTE_V = contains (pte_flags w) PTE_V.
Proof. unfold contains, pte_flags. by rewrite <- Z.land_assoc. Qed.

Lemma new_page_V p flags :
  frame_ok p → flags ≠ 0 → contains (pte_new_page p (pte_flags_of flags)) PTE_V = true.
Proof.
  intros Hp Hf. rewrite contains_V, pte_flags_new_page by (done || apply pte_flags_of_range).
  unfold pte_flags_of, or_if. rewrite (proj2 (Z.eqb_neq _ _) Hf).
  by destruct (contains flags MF_U), (contains flags MF_X), (contains flags MF_W), (contains flags MF_R).
Qed.

Lemma pt_translate_leaf root T ph v :
  pt_inv root T ph → user_addr v →
  pt_translate root v ph =
    Val (match T !! path_of v with
         | Some _ => Some (pte_address (leaf T ph v) +w pn_offset v 0, mapping_flags_of (pte_flags (leaf T ph v)))
         | None => None
         end, ph).
Proof.
  intros Hi Hv. unfold pt_translate, mbind, st_bind, leaf.
  destruct (pt_walk_spec root T ph v Hi Hv) as
    [(t1 & t0 & E2 & Et2 & Ea2 & E1 & Et1 & Ea1 & E)|(-> & [->|(t1 & E2 & Et2 & Ea2 & E1)])]; [|done|].
  2: { st_run E2. st_run Et2. rewrite Ea2. st_run E1. done. }
  st_run E2. st_run Et2. rewrite Ea2. st_run E1. st_run Et1. rewrite Ea1, E. destruct (pi_tab _ _ _ Hi _ _ E) as (_ & _ & Ht).
  by rewrite get_pte_spec.
Qed.

Lemma pn_offset_0 v : pn_offset v 0 = v mod PAGE_SIZE.
Proof. done. Qed.

(** C8: Mapping a page: with two frames left for tables [map_page] does not
    fail, afterwards the MMU finds exactly the new entry for every address of
    that page and what it found before for every other user address, and
    [translate] returns the frame's address with the offset in the page and the
    permissions; frames that are not tables or free keep their contents. *)
Theorem pt_map_page_correct root T ph v p flags :
  pt_inv root T ph → user_addr v → frame_ok p → flags ≠ 0 → (2 ≤ size (fa_free (ph_alloc ph)))%nat →
  ∃ T' ph', pt_map_page root v p flags ph = Val (tt, ph') ∧ pt_inv root T' ph' ∧
    (∀ v', user_addr v' → mmu_walk ph' root v' =
       if bool_decide (same_page v' v) then Some (pte_new_page p (pte_flags_of flags)) else mmu_walk ph root v') ∧
    pt_translate root v ph' = Val (Some (p + v mod PAGE_SIZE, mapping_flags_of (pte_flags_of flags)), ph') ∧
    ram_kept T ph ph'.
Proof.
  intros Hi Hv Hp Hf Hfree.
  destruct (pt_map_page_inv root T ph v p flags) as (T' & ph' & E & Hi' & [t0 Ht0] & Hl & _ & Hk & _); [done..|].
  exists T', ph'. split_and!; [done|done| | |done].
  - intros v' Hv'. rewrite (mmu_walk_leaf root T'), (mmu_walk_leaf root T), Hl by done.
    case_bool_decide; [|done]. by rewrite new_page_V.
  - rewrite (pt_translate_leaf root T'), Ht0, Hl, bool_decide_eq_true_2 by done.
    rewrite pte_address_new_page, pte_flags_new_page by (done || apply pte_flags_of_range).
    rewrite pn_offset_0. do 4 f_equal. destruct Hp as [Hp _].
    pose proof (Z.mod_pos_bound v PAGE_SIZE ltac:(done)). unfold PAGE_SIZE in *. apply wadd_small. word_lia.
Qed.

(** *** Frames that are not tables *)
Lemma pte_at_ram ph ph' t i : ph_ram ph' !! t = ph_ram ph !! t → pte_at ph' t i = pte_at ph t i.
Proof. unfold pte_at. by intros ->. Qed.

(** A change of the allocator and of frames that are no tables keeps the tree. *)
Lemma pt_inv_other root T ph ph' :
  pt_inv root T ph → fa_wf (ph_alloc ph') → fa_all (ph_alloc ph') = fa_all (ph_alloc ph) →
  (∀ p, p ∈ fa_free (ph_alloc ph') → ph_ram ph' !! p = Some zero_page) →
  (∀ q f, T !! q = Some f → f ∉ fa_free (ph_alloc ph') ∧ ph_ram ph' !! f = ph_ram ph !! f) →
  pt_inv root T ph' ∧ ∀ v, leaf T ph' v = leaf T ph v.
Proof.
  intros Hi Hwf Hall Hz Htab. split.
  - split; rewrite ?Hall; [done|done|exact (pi_frames _ _ _ Hi)|apply Hi| |exact (pi_inj _ _ _ Hi)|
      exact (pi_path _ _ _ Hi)|].
    + intros q f Hf. destruct (pi_tab _ _ _ Hi q f Hf) as (? & _ & (page & ? & ?)).
      destruct (Htab q f Hf) as [? E]. split_and!; [done|done|]. exists page. by rewrite E.
    + intros q f i Hf Hl Hok. destruct (Htab q f Hf) as [_ E]. rewrite (pte_at_ram ph) by done. by apply Hi.
  - intros v. unfold leaf. destruct (T !! path_of v) as [f|] eqn:Ef; [|done].
    apply pte_at_ram. by apply (Htab _ _ Ef).
Qed.

Lemma pt_inv_tracker_drop root T ph p :
  pt_inv root T ph → p ∈ fa_all (ph_alloc ph) → (∀ q, T !! q ≠ Some p) →
  ∃ ph', tracker_drop p ph = Val ph' ∧ pt_inv root T ph' ∧ (∀ v, leaf T ph' v = leaf T ph v) ∧
    fa_all (ph_alloc ph') = fa_all (ph_alloc ph) ∧
    fa_free (ph_alloc ph') = {[p]} ∪ fa_free (ph_alloc ph) ∧
    ∀ t, t ≠ p → ph_ram ph' !! t = ph_ram ph !! t.
Proof.
  intros Hi Hp Hn. destruct (fa_dealloc_spec (ph_alloc ph) p (pi_wf _ _ _ Hi) Hp) as (fa' & E & Hwf & Hs & Hfree).
  unfold tracker_drop. simpl. rewrite E. eexists. split; [done|].
  destruct (pt_inv_other root T ph (mkPhys fa' (ph_ram (tracker_clear p ph)))) as [Hi' Hl]; simpl.
  - done.
  - done.
  - by apply fa_all_same.
  - rewrite Hfree. intros q Hq. destruct (decide (q = p)) as [->|]; [by rewrite lookup_insert_eq|].
    rewrite lookup_insert_ne by done. apply (pi_zero _ _ _ Hi). set_solver.
  - intros q f Hf. destruct (pi_tab _ _ _ Hi q f Hf) as (_ & ? & _). specialize (Hn q).
    split; [rewrite Hfree; set_solver|]. apply lookup_insert_ne. congruence.
  - split; [exact Hi'|]. split; [exact Hl|]. split; [by apply fa_all_same|]. split; [done|].
    intros t Ht. by apply lookup_insert_ne.
Qed.

(** [unmap_page] with the tree: what stays of the memory. *)
Lemma pt_unmap_page_inv root T ph v :
  pt_inv root T ph → user_addr v →
  ∃ ph', pt_unmap_page root v ph = Val (tt, ph') ∧ pt_inv root T ph' ∧ ph_alloc ph' = ph_alloc ph ∧
    ram_kept T ph ph' ∧
    ∀ v', user_addr v' → leaf T ph' v' = if bool_decide (same_page v' v) then 0 else leaf T ph v'.
Proof.
  intros Hi Hv. unfold pt_unmap_page, mbind, st_bind.
  destruct (pt_walk_spec root T ph v Hi Hv) as
    [(t1 & t0 & E2 & Et2 & Ea2 & E1 & Et1 & Ea1 & E)|(E & Hnone)].
  - st_run E2. st_run Et2. rewrite Ea2. st_run E1. st_run Et1. rewrite Ea1.
    destruct (leaf_write_inv root T ph v t0 0) as (ph' & Es & Hi' & Ha & Hk & Hl); [done|done|word_lia|done|].
    by exists ph'.
  - exists ph. split.
    { destruct Hnone as [->|(t1 & E2 & Et2 & Ea2 & E1)]; [done|].
      st_run E2. st_run Et2. rewrite Ea2. st_run E1. done. }
    split_and!; [done|done|done|]. intros v' Hv'. case_bool_decide as Hs; [|done].
    apply (same_page_indices v' v Hv' Hv) in Hs as (Hs2 & Hs1 & _).
    unfold leaf, path_of in *. by rewrite Hs2, Hs1, E.
Qed.

(** C9: Unmapping a page always succeeds and removes exactly that page from
    what the MMU finds; no table is freed.  [translate] of the unmapped page
    answers [None] only when the page has no leaf table: its last level is not
    checked, so once a leaf table exists it answers an address in frame 0 with no
    permissions, against its doc comment ("Return None if the vaddr isn't
    mapped"). *)
Theorem pt_unmap_page_correct root T ph v :
  pt_inv root T ph → user_addr v →
  ∃ ph', pt_unmap_page root v ph = Val (tt, ph') ∧ pt_inv root T ph' ∧
    (∀ v', user_addr v' →
       mmu_walk ph' root v' = if bool_decide (same_page v' v) then None else mmu_walk ph root v') ∧
    pt_translate root v ph' =
      Val ((if bool_decide (is_Some (T !! path_of v)) then Some (v mod PAGE_SIZE, 0) else None), ph').
Proof.
  intros Hi Hv. destruct (pt_unmap_page_inv root T ph v Hi Hv) as (ph' & E & Hi' & _ & _ & Hl).
  exists ph'. split; [done|]. split; [done|]. split.
  - intros v' Hv'. rewrite !(mmu_walk_leaf root T), Hl by done. by case_bool_decide.
  - rewrite (pt_translate_leaf root T), Hl, (bool_decide_eq_true_2 (same_page v v)) by done.
    rewrite pn_offset_0. change (pte_address 0) with 0.
    pose proof (Z.mod_pos_bound v PAGE_SIZE ltac:(done)).
    destruct (T !! path_of v); case_bool_decide as Hs; try done; [|by destruct Hs].
    do 4 f_equal. unfold PAGE_SIZE in *. apply wadd_small. word_lia.
Qed.

(** ** A new page table *)
Lemma st_iter_inv {X A} (P : X → Prop) (f : A → ST X unit) l : ∀ s,
  P s → (∀ x s, x ∈ l → P s → ∃ s', f x s = Val (tt, s') ∧ P s') → ∃ s', st_iter f l s = Val (tt, s') ∧ P s'.
Proof.
  induction l as [|x l IH]; intros s Hs Hf; [by exists s|].
  destruct (Hf x s) as (s1 & E1 & H1); [set_solver|done|].
  destruct (IH s1 H1) as (s' & E & H'); [intros y s0 Hy; apply Hf; set_solver|].
  exists s'. split; [|done]. cbn [st_iter]. unfold mbind, st_bind. by rewrite E1.
Qed.

(** The root has an empty user half; nothing else changed since [ph0]. *)
Record empty_root (root : Z) (ph0 ph : Phys) : Prop := {
  er_alloc : ph_alloc ph = ph_alloc ph0;
  er_ram : ∀ t, t ≠ root → ph_ram ph !! t = ph_ram ph0 !! t;
  er_table : table_in ph root;
  er_zero : ∀ i, 0 ≤ i < 256 → pte_at ph root i = 0
}.

Lemma elem_of_indices n i : i ∈ indices n → 0 ≤ i < Z.of_nat n.
Proof. unfold indices. intros (k & -> & Hk%elem_of_seq)%list_elem_of_fmap. lia. Qed.

(** Writing zero anywhere or anything in the kernel half. *)
Lemma empty_root_write root ph0 ph i w :
  empty_root root ph0 ph → 0 ≤ i < 512 → w = 0 ∨ 256 ≤ i →
  ∃ ph', set_pte root i w ph = Val (tt, ph') ∧ empty_root root ph0 ph'.
Proof.
  intros [Ha Hr Ht Hz] Hi Hw. destruct (set_pte_wrap ph root i w Ht Hi) as (ph' & E & Ea & Htab & Hram & Hp).
  exists ph'. split; [done|]. split; [congruence|intros t Hne; rewrite Hram, Hr by done; done|by apply Htab|].
  intros j Hj. rewrite Hp by lia. rewrite Hz by done. case_bool_decide as Hd; [|done]. destruct Hd as [_ ->].
  destruct Hw as [->|]; [done|lia].
Qed.

Lemma pt_restore_spec root kernel ph0 ph :
  empty_root root ph0 ph → kernel ≠ root → table_in ph0 kernel →
  ∃ ph', pt_restore root kernel ph = Val (tt, ph') ∧ empty_root root ph0 ph'.
Proof.
  intros He Hne Hk. unfold pt_restore, pt_release.
  destruct (st_iter_inv (empty_root root ph0) (λ i, pte ← get_pte root i;
        if pte_is_table pte then _ ← release_l2 (pte_address pte); page_dealloc (pte_address pte) else mret tt) (indices 256) ph)
    as (ph1 & E1 & He1); [done| |].
  { intros i s Hi%elem_of_indices Hs. exists s. split; [|done]. unfold mbind at 1, st_bind at 1.
    rewrite get_pte_spec by apply Hs. rewrite (er_zero _ _ _ Hs) by lia. done. }
  destruct (st_iter_inv (empty_root root ph0) (λ i, set_pte root i 0) (indices 256) ph1) as (ph2 & E2 & He2); [done| |].
  { intros i s Hi%elem_of_indices Hs. apply empty_root_write; [done|lia|by left]. }
  destruct (st_iter_inv (empty_root root ph0) (λ i, pte ← get_pte kernel (256 + i); set_pte root (256 + i) pte) (indices 256) ph2)
    as (ph3 & E3 & He3); [done| |].
  { intros i s Hi%elem_of_indices Hs. unfold mbind, st_bind. rewrite get_pte_spec.
    - apply empty_root_write; [done|lia|right; lia].
    - destruct Hk as (page & Hpg & Hl). exists page. split; [|done]. by rewrite (er_ram _ _ _ Hs). }
  destruct (st_iter_inv (empty_root root ph0) (λ i, set_pte root i 0) (indices 256) ph3) as (ph4 & E4 & He4); [done| |].
  { intros i s Hi%elem_of_indices Hs. apply empty_root_write; [done|lia|by left]. }
  exists ph4. split; [|done]. unfold mbind at 1, st_bind at 1. unfold mbind at 1, st_bind at 1.
  rewrite E1, E2. unfold mbind at 1, st_bind at 1. by rewrite E3.
Qed.

(** A new page table: an empty user half in a frame that was free. *)
Lemma pt_alloc_spec r T ph kernel :
  pt_inv r T ph → table_in ph kernel → kernel ∉ fa_free (ph_alloc ph) → fa_free (ph_alloc ph) ≠ ∅ →
  ∃ root ph', pt_alloc kernel ph = Val (root, ph') ∧ root ∈ fa_free (ph_alloc ph) ∧
    fa_free (ph_alloc ph') = fa_free (ph_alloc ph) ∖ {[root]} ∧ fa_all (ph_alloc ph') = fa_all (ph_alloc ph) ∧
    (∀ t, t ≠ root → ph_ram ph' !! t = ph_ram ph !! t) ∧
    pt_inv root {[ [] := root ]} ph' ∧ pt_inv r T ph' ∧ (∀ v, leaf T ph' v = leaf T ph v).
Proof.
  intros Hi Hk Hkf Hne. pose proof (fa_free_all _ (pi_wf _ _ _ Hi)) as Hsub.
  destruct (fa_alloc_spec _ (pi_wf _ _ _ Hi)) as (res & fa' & Ef & Hwf' & Hs & Hpost).
  destruct res as [root|]; [|by destruct Hpost]. destruct Hpost as [Hin Hfree].
  pose proof (pi_zero _ _ _ Hi root Hin) as Hz.
  destruct (pt_restore_spec root kernel (mkPhys fa' (ph_ram ph)) (mkPhys fa' (ph_ram ph))) as (ph' & E & He).
  { split; simpl; [done|done| |].
    - exists zero_page. split; [done|]. unfold zero_page. by rewrite length_replicate.
    - intros i _. unfold pte_at. simpl. rewrite Hz. apply zero_page_words. }
  { intros ->. done. }
  { exact Hk. }
  destruct He as [Ea Hr Ht Hz']. cbn [ph_alloc ph_ram] in *. pose proof (fa_all_same _ _ Hs) as Hall.
  exists root, ph'. split.
  { unfold pt_alloc, mbind, st_bind. unfold page_alloc, frame_alloc_persist. rewrite Ef. simpl. by rewrite E. }
  assert (∀ p, p ∈ fa_free fa' → ph_ram ph' !! p = Some zero_page) as Hzero.
  { intros p Hp. rewrite Hr by set_solver. apply (pi_zero _ _ _ Hi). set_solver. }
  rewrite Ea. split_and!; [done|done|done|done| |..].
  - split; rewrite ?Ea, ?Hall; [done|done|exact (pi_frames _ _ _ Hi)|by apply lookup_singleton_Some| | | |].
    + intros q f [<- <-]%lookup_singleton_Some. split_and!; [set_solver|set_solver|done].
    + intros q q' f [<- _]%lookup_singleton_Some [<- _]%lookup_singleton_Some. done.
    + intros q i [f Hf]. apply lookup_singleton_Some in Hf as [Hf _]. by destruct q.
    + intros q f i [<- <-]%lookup_singleton_Some _ Hok. rewrite Hz' by exact Hok. symmetry. by apply link_None, lookup_singleton_ne.
  - apply (pt_inv_other r T ph ph'); rewrite ?Ea; [done|done|done|done|].
    intros q f Hq. destruct (pi_tab _ _ _ Hi q f Hq) as (_ & Hnf & _). split; [set_solver|]. apply Hr. by intros ->.
  - apply (pt_inv_other r T ph ph'); rewrite ?Ea; [done|done|done|done|].
    intros q f Hq. destruct (pi_tab _ _ _ Hi q f Hq) as (_ & Hnf & _). split; [set_solver|]. apply Hr. by intros ->.
Qed.

(** An empty root table in zeroed memory. *)
Lemma fresh_table_inv root ph :
  fa_wf (ph_alloc ph) → (∀ p, p ∈ fa_all (ph_alloc ph) → ph_ram ph !! p = Some zero_page) →
  (∀ p, p ∈ fa_all (ph_alloc ph) → frame_ok p) → root ∈ fa_all (ph_alloc ph) → root ∉ fa_free (ph_alloc ph) →
  pt_inv root {[ [] := root ]} ph.
Proof.
  intros Hwf Hz Hok Hin Hnf. assert (∀ i, pte_at ph root i = 0) as H0.
  { intros i. unfold pte_at. rewrite Hz by done. apply zero_page_words. }
  split.
  - done.
  - intros p Hp. apply Hz. by apply (fa_free_all _ Hwf).
  - done.
  - by rewrite lookup_singleton_eq.
  - intros q f. rewrite lookup_singleton_Some. intros [<- <-]. split; [done|]. split; [done|].
    exists zero_page. split; [by apply Hz|]. unfold zero_page. by rewrite length_replicate.
  - intros q q' f. rewrite !lookup_singleton_Some. intros [<- _] [<- _]. done.
  - intros q i. rewrite lookup_singleton_ne by (by destruct q). by intros [? ?].
  - intros q f i. rewrite lookup_singleton_Some. intros [<- <-] _ _. rewrite H0.
    symmetry. apply link_None. by rewrite lookup_singleton_ne.
Qed.

(** ** A fresh table in the 16-page memory *)
Definition demo_pt_phys : Phys := mkPhys [mkFrm [Z.lor (Z.shiftl (Z.ones 48) 16) 1] 0x80000000 0x80010000] (ph_ram demo_phys).

Lemma demo_pt_fa : fa_wf (ph_alloc demo_pt_phys) ∧ fa_all (ph_alloc demo_pt_phys) = fa_all demo_fa.
Proof.
  destruct (fa_alloc_spec demo_fa demo_fa_wf) as (res & fa' & E & Hwf & Hs & _).
  vm_compute in E. injection E as _ <-. split; [exact Hwf|exact (fa_all_same _ _ Hs)].
Qed.

Lemma demo_frames_ok p : p ∈ fa_all demo_fa → frame_ok p.
Proof.
  intros Hp. simpl in Hp. rewrite elem_of_union, elem_of_empty in Hp. destruct Hp as [Hp|[]].
  apply elem_of_frm_all in Hp as (i & -> & Hi).
  change (frm_pages demo_region) with 16 in Hi.
  unfold frm_addr, demo_region, frm_paddr, frame_ok, PAGE_SIZE. split; [lia|].
  replace (0x80000000 + i * 4096) with ((0x80000 + i) * 4096) by lia. by rewrite Z.mod_mul.
Qed.

Lemma demo_pt_inv : pt_inv 0x80000000 {[ [] := 0x80000000 ]} demo_pt_phys.
Proof.
  destruct demo_pt_fa as [Hwf Hall]. apply fresh_table_inv; [done| | | |by vm_compute]; rewrite Hall.
  - intros p Hp. by apply demo_ram_zero.
  - apply demo_frames_ok.
  - by vm_compute.
Qed.

Lemma pt_map_page_correct_witness :
  ∃ ph', pt_map_page 0x80000000 0x10123 0x8000f000 MF_URW demo_pt_phys = Val (tt, ph') ∧
    pt_translate 0x80000000 0x10123 ph' = Val (Some (0x8000f123, 111), ph').
Proof.
  destruct (pt_map_page_correct 0x80000000 {[ [] := 0x80000000 ]} demo_pt_phys 0x10123 0x8000f000 MF_URW)
    as (T' & ph' & E & _ & _ & Et & _);
    [apply demo_pt_inv|split; lia|split; [lia|done]|done|vm_compute; lia|].
  exists ph'. split; [exact E|exact Et].
Defined.

(** A page that was mapped first: the MMU finds it before and not after. *)
Lemma pt_unmap_page_correct_witness :
  ∃ ph1 ph2, pt_map_page 0x80000000 0x10123 0x8000f000 MF_URW demo_pt_phys = Val (tt, ph1) ∧
    mmu_walk ph1 0x80000000 0x10fff = Some (pte_new_page 0x8000f000 (pte_flags_of MF_URW)) ∧
    pt_unmap_page 0x80000000 0x10123 ph1 = Val (tt, ph2) ∧
    mmu_walk ph2 0x80000000 0x10fff = None ∧
    pt_translate 0x80000000 0x10123 ph2 = Val (Some (0x123, 0), ph2).
Proof.
  destruct (pt_map_page_inv 0x80000000 {[ [] := 0x80000000 ]} demo_pt_phys 0x10123 0x8000f000 MF_URW)
    as (T1 & ph1 & E1 & Hi1 & Ht1 & Hl1 & _);
    [apply demo_pt_inv|split; lia|split; [lia|done]|vm_compute; lia|].
  destruct (pt_unmap_page_correct 0x80000000 T1 ph1 0x10123) as (ph2 & E2 & _ & Hw & Et); [exact Hi1|split; lia|].
  exists ph1, ph2. split; [exact E1|]. split.
  { rewrite (mmu_walk_leaf _ T1), Hl1 by (exact Hi1 || (split; lia)).
    rewrite bool_decide_eq_true_2 by reflexivity. 
    assert (contains (pte_new_page 0x8000f000 (pte_flags_of MF_URW)) PTE_V = true) as -> by (vm_compute; reflexivity).
    reflexivity. }
  split; [exact E2|]. split.
  - rewrite Hw by (split; lia). rewrite bool_decide_eq_true_2 by reflexivity. reflexivity.
  - rewrite bool_decide_eq_true_2 in Et by exact Ht1. exact Et.
Defined.
