(* ===== verification/MemSet.v ===== *)
(** * Memory areas of a process ([kernel/src/tasks/memset.rs])

    A process's address space is a list of areas; an area knows the frames
    mapped in it ([MapTrack]), and a frame is shared by reference counting
    ([Arc<FrameTracker>]): when the last reference goes, the frame is cleared
    and returned to the allocator.  The state the operations work on is the
    physical memory (which holds the page tables too), the reference counts,
    the root of the process's page table and the file system. *)

From S2P Require Import Prelude Frame PageTable Vfs.
Local Open Scope Z_scope.

Inductive MemType := CodeSection | Stack | Mmap | Shared | ShareFile.
#[export] Instance MemType_eq_dec : EqDecision MemType.
Proof. solve_decision. Defined.

(** [MapTrack]: the frame is the address its tracker owns. *)
Record MapTrack := mkMapTrack { mt_vaddr : Z; mt_tracker : Z; mt_rwx : Z }.

Record MemArea (F : Type) := mkMemArea {
  ma_mtype : MemType;
  ma_mtrackers : list MapTrack;
  ma_file : option F;
  ma_offset : Z;
  ma_start : Z;
  ma_len : Z
}.
Arguments mkMemArea {F}. Arguments ma_mtype {F}. Arguments ma_mtrackers {F}.
Arguments ma_file {F}. Arguments ma_offset {F}. Arguments ma_start {F}. Arguments ma_len {F}.

Record World (S : Type) := mkWorld {
  w_phys : Phys;
  w_rc : gmap Z nat;                 (* strong counts of the frame trackers *)
  w_root : Z;                        (* root of the page table *)
  w_fs : S
}.
Arguments mkWorld {S}. Arguments w_phys {S}. Arguments w_rc {S}. Arguments w_root {S}. Arguments w_fs {S}.

Section memset.
Context {S F : Type} (ops : INodeOps S F).
Notation M := (ST (World S)).

Definition set_phys (ph : Phys) (w : World S) : World S := mkWorld ph (w_rc w) (w_root w) (w_fs w).
Definition set_rc (rc : gmap Z nat) (w : World S) : World S := mkWorld (w_phys w) rc (w_root w) (w_fs w).
Definition set_fs (s : S) (w : World S) : World S := mkWorld (w_phys w) (w_rc w) (w_root w) s.

(** A computation on the physical memory. *)
Definition lift_phys {A} (m : PT A) : M A := λ w,
  '(a, ph) ← m (w_phys w); Val (a, set_phys ph w).

(** ** Reference counts *)
Definition strong_count (p : Z) (w : World S) : nat := default 0%nat (w_rc w !! p).

Definition arc_new (p : Z) : M unit := st_modify (λ w, set_rc (<[p := 1%nat]> (w_rc w)) w).

Definition arc_clone (p : Z) : M unit :=
  st_modify (λ w, set_rc (<[p := Datatypes.S (strong_count p w)]> (w_rc w)) w).

(** [frame_alloc_much(n)] with each tracker put into an [Arc]. *)
Definition alloc_frames (n : Z) : M (option (list Z)) := λ w,
  '(res, ph) ← frame_alloc_much (w_phys w) n;
  match res with
  | None => Val (None, set_phys ph w)
  | Some ps => '(_, w) ← st_iter arc_new ps (set_phys ph w); Val (Some ps, w)
  end.

(** Dropping the last reference drops the tracker. *)
Definition arc_drop (p : Z) : M unit := λ w,
  match w_rc w !! p with
  | Some (Datatypes.S (Datatypes.S n)) => Val (tt, set_rc (<[p := Datatypes.S n]> (w_rc w)) w)
  | _ => ph ← tracker_drop p (w_phys w); Val (tt, set_phys ph (set_rc (delete p (w_rc w)) w))
  end.

Definition drop_trackers (l : list MapTrack) : M unit := st_iter (λ x, arc_drop (mt_tracker x)) l.

(** ** Page table *)
Definition floor_page (v : Z) : Z := v / PAGE_SIZE * PAGE_SIZE.

Definition unmap_page (vaddr : Z) : M unit := λ w, lift_phys (pt_unmap_page (w_root w) vaddr) w.
Definition map_page (vaddr paddr flags : Z) : M unit := λ w,
  lift_phys (pt_map_page (w_root w) vaddr paddr flags) w.
Definition translate (v : Z) : M (option (Z * Z)) := λ w, lift_phys (pt_translate (w_root w) v) w.

(** What the MMU finds for an address of the process. *)
Definition mmu (w : World S) (v : Z) : option Z := mmu_walk (w_phys w) (w_root w) v.

(** ** [MemArea] *)
Definition range_contains (a b x : Z) : bool := (a <=? x) && (x <? b).

Definition ma_end (area : MemArea F) : Z := ma_start area +w ma_len area.

Definition ma_overlapping (self : MemArea F) (start end_ : Z) : bool :=
  let self_end := ma_end self in
  negb (((start <=? ma_start self) && (end_ <=? ma_start self))
        || ((self_end <=? start) && (self_end <=? end_))).

Definition ma_contains (self : MemArea F) (addr : Z) : bool :=
  (ma_start self <=? addr) && (addr <? ma_end self).

(** [file.writeat(offset, page[..len]).expect(..)] *)
Definition write_back (file : F) (offset : Z) (frame : Z) (len : Z) : M unit := λ w,
  let page := take (Z.to_nat len) (default [] (ph_ram (w_phys w) !! frame)) in
  match io_writeat ops file offset page (w_fs w) with
  | Val (Ok _, s) => Val (tt, set_fs s w)
  | _ => Panic
  end.

Definition write_page (self : MemArea F) (mtracker : MapTrack) : M unit :=
  match ma_file self with
  | None => st_lift Panic
  | Some file =>
      let offset := mt_vaddr mtracker +w ma_offset self -w ma_start self in
      write_back file offset (mt_tracker mtracker) PAGE_SIZE
  end.

Definition in_range (a b : Z) (x : MapTrack) : Prop := range_contains a b (mt_vaddr x) = true.
#[export] Instance in_range_dec a b x : Decision (in_range a b x).
Proof. unfold in_range. apply _. Defined.

(** The write-back of the pages in the removed range, for file areas. *)
Definition write_range (self : MemArea F) (start end_ : Z) : M unit :=
  match ma_file self with
  | Some _ => st_iter (write_page self) (filter (in_range start end_) (ma_mtrackers self))
  | None => mret tt
  end.

Definition set_trackers (l : list MapTrack) (a : MemArea F) : MemArea F :=
  mkMemArea (ma_mtype a) l (ma_file a) (ma_offset a) (ma_start a) (ma_len a).
Definition set_bounds (start len : Z) (a : MemArea F) : MemArea F :=
  mkMemArea (ma_mtype a) (ma_mtrackers a) (ma_file a) (ma_offset a) start len.

Definition unmap_and_drop (x : MapTrack) : M unit :=
  unmap_page (mt_vaddr x) ≫= λ _, arc_drop (mt_tracker x).

(** [MemArea::sub]: the area afterwards and the second half of a split. *)
Definition ma_sub (self : MemArea F) (start end_ : Z) : M (MemArea F * option (MemArea F)) :=
  if negb (ma_overlapping self start end_) then mret (self, None)
  else
    let r0 := ma_start self in
    let r1 := ma_end self in
    if range_contains r0 r1 start && range_contains r0 r1 end_ then
      let area := set_bounds r0 (start -w r0) self in
      _ ← write_range area start end_;
      let upper := in_range end_ r1 in
      _ ← drop_trackers (filter upper (ma_mtrackers area));
      let area := set_trackers (filter (λ x, ¬ upper x) (ma_mtrackers area)) area in
      let new_trackers := filter upper (ma_mtrackers area) in
      mret (set_trackers (filter (λ x, ¬ upper x) (ma_mtrackers area)) area,
            Some (mkMemArea (ma_mtype self) new_trackers (ma_file self) (end_ -w r0) end_
                    (Z.max 0 (r1 - end_))))
    else if range_contains start end_ r0 && range_contains start end_ r1 then
      let area := set_bounds r0 0 self in
      _ ← write_range area start end_;
      _ ← st_iter unmap_and_drop (ma_mtrackers area);
      mret (set_trackers [] area, None)
    else
      let area :=
        if range_contains r0 r1 start then set_bounds r0 (start -w r0) self
        else if range_contains start end_ r0 then set_bounds end_ (r1 -w end_) self
        else self in
      _ ← write_range area start end_;
      let keep := in_range (ma_start area) (ma_end area) in
      _ ← st_iter unmap_and_drop (filter (λ x, ¬ keep x) (ma_mtrackers area));
      mret (set_trackers (filter keep (ma_mtrackers area)) area, None).

(** [Drop for MemArea]: a shared file mapping writes its pages back, then the
    trackers are dropped. *)
Definition ma_drop_one (self : MemArea F) (mapfile : F) (tracker : MapTrack) : M unit := λ w,
  if bool_decide (1 < strong_count (mt_tracker tracker) w)%nat then Val (tt, w)
  else
    let offset := mt_vaddr tracker -w ma_start self in
    let wlen := Z.min (ma_len self -w offset) PAGE_SIZE in
    write_back mapfile offset (mt_tracker tracker) wlen w.

Definition ma_drop (self : MemArea F) : M unit :=
  _ ← match ma_mtype self with
      | ShareFile =>
          match ma_file self with
          | Some mapfile => st_iter (ma_drop_one self mapfile) (ma_mtrackers self)
          | None => st_lift Panic
          end
      | _ => mret tt
      end;
  drop_trackers (ma_mtrackers self).

(** ** [MemSet] *)
Definition MemSet := list (MemArea F).

Definition memset_overlapping (self : MemSet) (start end_ : Z) : bool :=
  existsb (λ x, ma_overlapping x start end_) self.

(** The [retain_mut] pass: areas that remain, and the areas split off. *)
Fixpoint sub_area_loop (areas : MemSet) (start end_ : Z) : M (MemSet * MemSet) :=
  match areas with
  | [] => mret ([], [])
  | area :: areas =>
      '(area', res) ← ma_sub area start end_;
      _ ← (if ma_len area' =? 0 then ma_drop area' else mret tt);
      '(kept, new_set) ← sub_area_loop areas start end_;
      mret ((if ma_len area' =? 0 then kept else area' :: kept),
            match res with Some new_area => new_area :: new_set | None => new_set end)
  end.

Definition memset_sub_area (self : MemSet) (start end_ : Z) : M MemSet :=
  '(kept, new_set) ← sub_area_loop self start end_;
  mret (kept ++ new_set).

(** [MemSet::clear] *)
Definition memset_clear (self : MemSet) : M MemSet :=
  _ ← st_iter ma_drop self; mret [].

(** ** Ownership of frames *)
(** The page table is a well-formed tree; counted frames are allocated and are
    no page tables. *)
Record world_ok (T : Tree) (w : World S) : Prop := {
  wo_pt : pt_inv (w_root w) T (w_phys w);
  wo_rc : ∀ p n, w_rc w !! p = Some n →
    (0 < n)%nat ∧ p ∈ fa_all (ph_alloc (w_phys w)) ∧ p ∉ fa_free (ph_alloc (w_phys w)) ∧
    ∀ q, T !! q ≠ Some p
}.

Lemma mmu_leaf T w v :
  world_ok T w → user_addr v →
  mmu w v = if contains (leaf T (w_phys w) v) PTE_V then Some (leaf T (w_phys w) v) else None.
Proof. intros [Hpt _] Hv. unfold mmu. by apply mmu_walk_leaf. Qed.

(** References a list of trackers holds to a frame. *)
Definition refs (l : list MapTrack) (p : Z) : nat := length (filter (λ x, mt_tracker x = p) l).

Definition owned (l : list MapTrack) (w : World S) : Prop := ∀ p, (refs l p ≤ strong_count p w)%nat.

Lemma refs_app l k p : refs (l ++ k) p = (refs l p + refs k p)%nat.
Proof. unfold refs. by rewrite filter_app, length_app. Qed.

Lemma refs_cons x l p :
  refs (x :: l) p = ((if bool_decide (mt_tracker x = p) then 1 else 0) + refs l p)%nat.
Proof. unfold refs. rewrite filter_cons. by case_decide; case_bool_decide. Qed.

Lemma refs_perm l k p : l ≡ₚ k → refs l p = refs k p.
Proof. intros H. unfold refs. by rewrite H. Qed.

Lemma arc_drop_spec T p w :
  world_ok T w → (0 < strong_count p w)%nat →
  ∃ w', arc_drop p w = Val (tt, w') ∧ world_ok T w' ∧ w_root w' = w_root w ∧ w_fs w' = w_fs w ∧
    (∀ v, leaf T (w_phys w') v = leaf T (w_phys w) v) ∧
    (∀ q, strong_count q w' = (strong_count q w - if bool_decide (p = q) then 1 else 0)%nat) ∧
    fa_free (ph_alloc (w_phys w)) ⊆ fa_free (ph_alloc (w_phys w')) ∧
    (strong_count p w = 1%nat → p ∈ fa_free (ph_alloc (w_phys w'))).
Proof.
  intros [Hpt Hrc] Hc. unfold arc_drop. unfold strong_count in *.
  destruct (w_rc w !! p) as [n|] eqn:E; simpl in Hc; [|lia].
  destruct (Hrc p n E) as (_ & Hall & Hnf & Hnt).
  destruct n as [|[|n]]; [lia|..].
  - destruct (pt_inv_tracker_drop (w_root w) T (w_phys w) p) as (ph' & Ed & Hpt' & Hl & Ha & Hfree & _); [done..|].
    rewrite Ed. simpl. eexists. split; [done|]. simpl. split_and!; try done.
    + split; simpl; [done|]. intros q m Hq. rewrite lookup_delete_Some in Hq. destruct Hq as [Hne Hq].
      destruct (Hrc q m Hq) as (? & ? & ? & ?). rewrite Ha, Hfree. split_and!; [done|done|set_solver|done].
    + intros q. case_bool_decide as Hpq; subst.
      * by rewrite lookup_delete_eq, E.
      * rewrite lookup_delete_ne by done. lia.
    + rewrite Hfree. set_solver.
    + intros _. rewrite Hfree. set_solver.
  - eexists. split; [done|]. simpl. split_and!; try done.
    + split; simpl; [done|]. intros q m. rewrite lookup_insert_Some. intros [[<- <-]|[_ Hq]]; [|by eapply Hrc].
      split; [lia|done].
    + intros q. case_bool_decide as Hpq; subst.
      * rewrite lookup_insert_eq, E. simpl. lia.
      * rewrite lookup_insert_ne by done. lia.
Qed.

Lemma unmap_page_spec T v w :
  world_ok T w → user_addr v →
  ∃ w', unmap_page v w = Val (tt, w') ∧ world_ok T w' ∧ w_root w' = w_root w ∧ w_fs w' = w_fs w ∧
    w_rc w' = w_rc w ∧ ph_alloc (w_phys w') = ph_alloc (w_phys w) ∧
    ∀ v', user_addr v' →
      leaf T (w_phys w') v' = if bool_decide (same_page v' v) then 0 else leaf T (w_phys w) v'.
Proof.
  intros [Hpt Hrc] Hv.
  destruct (pt_unmap_page_inv (w_root w) T (w_phys w) v Hpt Hv) as (ph' & E & Hpt' & Ha & _ & Hl).
  unfold unmap_page, lift_phys. rewrite E. eexists. split; [done|]. simpl. split_and!; try done.
  split; simpl; [done|]. by rewrite Ha.
Qed.

(** Dropping a list of trackers, unmapping their pages or not. *)
Lemma drop_list_spec (unmap : bool) T l : ∀ w,
  world_ok T w → owned l w → (unmap = true → Forall (λ x, user_addr (mt_vaddr x)) l) →
  ∃ w', st_iter (λ x, if unmap then unmap_and_drop x else arc_drop (mt_tracker x)) l w = Val (tt, w') ∧
    world_ok T w' ∧ w_root w' = w_root w ∧
    (∀ q, strong_count q w' = (strong_count q w - refs l q)%nat) ∧
    (∀ v, user_addr v → leaf T (w_phys w') v =
       if bool_decide (unmap = true ∧ Exists (λ x, same_page v (mt_vaddr x)) l) then 0 else leaf T (w_phys w) v) ∧
    fa_free (ph_alloc (w_phys w)) ⊆ fa_free (ph_alloc (w_phys w')) ∧
    (∀ q, (0 < strong_count q w)%nat → strong_count q w' = 0%nat → q ∈ fa_free (ph_alloc (w_phys w'))).
Proof.
  induction l as [|x l IH]; intros w Hw Ho Hu.
  { exists w. split; [done|]. split_and!; try done.
    - intros q. unfold refs. simpl. lia.
    - intros v _. rewrite bool_decide_eq_false_2; [done|]. intros [_ Hv]. by apply Exists_nil in Hv.
    - intros q ? ?. lia. }
  assert (∃ w0, (if unmap then unmap_page (mt_vaddr x) else mret tt) w = Val (tt, w0) ∧ world_ok T w0 ∧
    w_root w0 = w_root w ∧ w_rc w0 = w_rc w ∧ ph_alloc (w_phys w0) = ph_alloc (w_phys w) ∧
    ∀ v', user_addr v' → leaf T (w_phys w0) v' =
      if bool_decide (unmap = true ∧ same_page v' (mt_vaddr x)) then 0 else leaf T (w_phys w) v')
    as (w0 & E0 & Hw0 & Hr0 & Hc0 & Ha0 & Hl0).
  { destruct unmap.
    - destruct (unmap_page_spec T (mt_vaddr x) w Hw) as (w0 & E0 & ? & ? & _ & ? & ? & Hl).
      { specialize (Hu eq_refl). by apply Forall_cons in Hu as [? _]. }
      exists w0. split_and!; try done. intros v' Hv'. rewrite Hl by done. apply if_decide_ext. tauto.
    - exists w. by split_and!. }
  assert (∀ q, strong_count q w0 = strong_count q w) as Hs0 by (intros q; unfold strong_count; by rewrite Hc0).
  pose proof (Ho (mt_tracker x)) as Hx. rewrite refs_cons, bool_decide_eq_true_2 in Hx by done.
  destruct (arc_drop_spec T (mt_tracker x) w0 Hw0) as (w1 & E1 & Hw1 & Hr1 & _ & Hl1 & Hc1 & Hm1 & Hf1);
    [rewrite Hs0; lia|].
  destruct (IH w1 Hw1) as (w' & E2 & Hw' & Hr' & Hc' & Hl' & Hm' & Hf').
  { intros p. rewrite Hc1, Hs0. specialize (Ho p). rewrite refs_cons in Ho. lia. }
  { intros Hun. by apply Hu, Forall_cons in Hun as [_ ?]. }
  exists w'. split.
  { cbn [st_iter]. unfold mbind, st_bind.
    assert ((if unmap then unmap_and_drop x else arc_drop (mt_tracker x)) w = Val (tt, w1)) as ->; [|exact E2].
    destruct unmap; [unfold unmap_and_drop, mbind, st_bind; by rewrite E0|].
    injection E0 as <-. exact E1. }
  rewrite Ha0 in Hm1.
  split_and!; [done|congruence| | |set_solver|].
  - intros q. rewrite Hc', Hc1, Hs0, refs_cons. lia.
  - intros v Hv. rewrite Hl', Hl1, Hl0 by done.
    rewrite (bool_decide_ext (unmap = true ∧ Exists _ (x :: l)) ((unmap = true ∧ same_page v (mt_vaddr x)) ∨
      (unmap = true ∧ Exists (λ x, same_page v (mt_vaddr x)) l))) by (rewrite Exists_cons; tauto).
    rewrite bool_decide_or. do 2 case_bool_decide; done.
  - intros q Hq1 Hq2. destruct (decide (strong_count q w1 = 0%nat)) as [Hz|Hz]; [|apply Hf'; lia].
    apply Hm'. specialize (Hc1 q). rewrite Hs0, Hz in Hc1.
    case_bool_decide as Hpq; [subst q|lia]. apply Hf1. rewrite Hs0. lia.
Qed.

(** Mapping a page of an allocated frame. *)
Lemma map_page_spec T v p flags w :
  world_ok T w → user_addr v → frame_ok p → (2 ≤ size (fa_free (ph_alloc (w_phys w))))%nat →
  ∃ T' w', map_page v p flags w = Val (tt, w') ∧ world_ok T' w' ∧
    w_root w' = w_root w ∧ w_fs w' = w_fs w ∧ w_rc w' = w_rc w ∧
    (∀ v', user_addr v' → leaf T' (w_phys w') v' =
       if bool_decide (same_page v' v) then pte_new_page p (pte_flags_of flags) else leaf T (w_phys w) v') ∧
    (∀ q, (0 < strong_count q w)%nat → ph_ram (w_phys w') !! q = ph_ram (w_phys w) !! q) ∧
    fa_free (ph_alloc (w_phys w')) ⊆ fa_free (ph_alloc (w_phys w)) ∧
    fa_all (ph_alloc (w_phys w')) = fa_all (ph_alloc (w_phys w)) ∧
    (size (fa_free (ph_alloc (w_phys w))) ≤ size (fa_free (ph_alloc (w_phys w'))) + 2)%nat.
Proof.
  intros [Hpt Hrc] Hv Hp Hs.
  destruct (pt_map_page_inv (w_root w) T (w_phys w) v p flags)
    as (T' & ph' & E & Hi' & _ & Hl & Hf & Hk & Ha & Hn & Hs'); [done..|].
  exists T', (set_phys ph' w). unfold map_page, lift_phys. rewrite E.
  split; [done|]. simpl. split.
  { split; simpl; [done|]. intros q n Hq. destruct (Hrc q n Hq) as (? & ? & ? & Hnt). rewrite Ha.
    split_and!; [done|done|set_solver|]. intros q' [Hq'|Hq']%Hn; [by apply (Hnt q')|done]. }
  split_and!; try done. intros q Hq. unfold strong_count in Hq.
  destruct (w_rc w !! q) as [n|] eqn:Eq; [|simpl in Hq; lia]. destruct (Hrc q n Eq) as (_ & _ & Hnf & Hnt).
  by apply Hk.
Qed.

Lemma arc_new_list ps : ∀ w,
  ∃ w', st_iter arc_new ps w = Val (tt, w') ∧ w_phys w' = w_phys w ∧ w_root w' = w_root w ∧ w_fs w' = w_fs w ∧
    ∀ q, w_rc w' !! q = if bool_decide (q ∈ ps) then Some 1%nat else w_rc w !! q.
Proof.
  induction ps as [|p ps IH]; intros w.
  { exists w. by split_and!. }
  destruct (IH (set_rc (<[p := 1%nat]> (w_rc w)) w)) as (w' & E & ? & ? & ? & Hrc).
  exists w'. split; [exact E|]. split_and!; [done..|]. intros q. rewrite Hrc. simpl.
  destruct (decide (q = p)) as [->|Hne].
  - rewrite lookup_insert_eq. repeat case_bool_decide; set_solver.
  - rewrite lookup_insert_ne by done. apply if_decide_ext. set_solver.
Qed.

(** Fresh frames: disjoint from everything tracked, zeroed, counted once. *)
Lemma alloc_frames_spec T n w :
  world_ok T w → 0 < n →
  ∃ res w', alloc_frames n w = Val (res, w') ∧ world_ok T w' ∧ w_root w' = w_root w ∧ w_fs w' = w_fs w ∧
    fa_all (ph_alloc (w_phys w')) = fa_all (ph_alloc (w_phys w)) ∧ ph_ram (w_phys w') = ph_ram (w_phys w) ∧
    match res with
    | None => w_rc w' = w_rc w ∧ fa_free (ph_alloc (w_phys w')) = fa_free (ph_alloc (w_phys w))
    | Some ps => (∃ p, ps = page_run p n) ∧ list_to_set ps ⊆ fa_free (ph_alloc (w_phys w)) ∧
        fa_free (ph_alloc (w_phys w')) = fa_free (ph_alloc (w_phys w)) ∖ list_to_set ps ∧
        Forall frame_ok ps ∧
        ∀ q, w_rc w' !! q = if bool_decide (q ∈ ps) then Some 1%nat else w_rc w !! q
    end.
Proof.
  intros [Hpt Hrc] Hn. pose proof (pi_wf _ _ _ Hpt) as Hwf.
  destruct (fa_alloc_much_spec _ n Hwf Hn) as (res & fa' & E & Hwf' & Hs & Hpost).
  pose proof (fa_free_all _ Hwf) as Hsub.
  assert (fa_free fa' ⊆ fa_free (ph_alloc (w_phys w))) as Hless.
  { destruct res; [destruct Hpost as (? & _ & _ & ->); set_solver|by destruct Hpost as [-> _]]. }
  set (ph' := mkPhys fa' (ph_ram (w_phys w))).
  destruct (pt_inv_other (w_root w) T (w_phys w) ph') as [Hpt' _]; [done|done|by apply fa_all_same| | |].
  { intros p Hp. apply (pi_zero _ _ _ Hpt). set_solver. }
  { intros q f Hf. destruct (pi_tab _ _ _ Hpt q f Hf) as (_ & ? & _). set_solver. }
  unfold alloc_frames, frame_alloc_much. rewrite E. cbn [mbind outcome_bind]. fold ph'.
  destruct res as [ps|].
  - destruct Hpost as (p & Hps & Hin & Hfree).
    destruct (arc_new_list ps (set_phys ph' w)) as (w' & Ew & Eph & Er & Ef & Hc).
    rewrite Ew. exists (Some ps), w'. split; [done|]. rewrite Er, Ef, Eph. split_and!; try done.
    + split; rewrite ?Er, Eph; [done|]. intros q m. rewrite Hc. simpl. rewrite Hfree, (fa_all_same _ _ Hs).
      case_bool_decide as Hq.
      * intros [= <-]. split_and!; [lia|set_solver|set_solver|].
        intros q' Hq'. destruct (pi_tab _ _ _ Hpt _ _ Hq') as (_ & ? & _). set_solver.
      * intros Hm. destruct (Hrc q m Hm) as (? & ? & ? & ?). split_and!; [done|done|set_solver|done].
    + by apply fa_all_same.
    + by exists p.
    + apply Forall_forall. intros q Hq. apply (pi_frames _ _ _ Hpt). set_solver.
  - destruct Hpost as [-> _]. exists None, (set_phys ph' w). split; [done|]. by split_and!.
Qed.

(** ** Addresses covered *)
Record area_ok (a : MemArea F) : Prop := {
  ao_start : 0 ≤ ma_start a;
  ao_len : 0 ≤ ma_len a;
  ao_end : ma_start a + ma_len a < MAX64
}.

(** Pages are tracked at user addresses. *)
Definition tracked_user (a : MemArea F) : Prop := Forall (λ x, user_addr (mt_vaddr x)) (ma_mtrackers a).

(** Memory without a backing file. *)
Definition anonymous (a : MemArea F) : Prop := ma_file a = None ∧ ma_mtype a ≠ ShareFile.

Definition cover (a : MemArea F) (x : Z) : nat := if ma_contains a x then 1 else 0.
Definition cover_count (areas : MemSet) (x : Z) : nat := foldr (λ a n, cover a x + n)%nat 0%nat areas.
Definition trackers_of (areas : MemSet) : list MapTrack := concat (ma_mtrackers <$> areas).

Lemma ma_end_eq a : area_ok a → ma_end a = ma_start a + ma_len a.
Proof. intros [? ? ?]. unfold ma_end. apply wadd_small. word_lia. Qed.

Lemma ma_contains_spec a x :
  area_ok a → ma_contains a x = bool_decide (ma_start a ≤ x < ma_start a + ma_len a).
Proof.
  intros Ha. unfold ma_contains. rewrite ma_end_eq by done.
  destruct (Z.leb_spec (ma_start a) x), (Z.ltb_spec x (ma_start a + ma_len a)); simpl; case_bool_decide; lia || done.
Qed.

Lemma cover_spec a x :
  area_ok a → cover a x = if bool_decide (ma_start a ≤ x < ma_start a + ma_len a) then 1%nat else 0%nat.
Proof. intros Ha. unfold cover. by rewrite ma_contains_spec. Qed.

Lemma range_contains_spec a b x : range_contains a b x = bool_decide (a ≤ x < b).
Proof. unfold range_contains. destruct (Z.leb_spec a x), (Z.ltb_spec x b); simpl; case_bool_decide; lia || done. Qed.

Lemma ma_overlapping_spec a s e :
  area_ok a → s ≤ e →
  ma_overlapping a s e = bool_decide (¬ (e ≤ ma_start a ∨ ma_start a + ma_len a ≤ s)).
Proof.
  intros Ha Hse. unfold ma_overlapping. rewrite ma_end_eq by done.
  destruct (Z.leb_spec s (ma_start a)), (Z.leb_spec e (ma_start a)),
    (Z.leb_spec (ma_start a + ma_len a) s), (Z.leb_spec (ma_start a + ma_len a) e);
    simpl; case_bool_decide; lia || done || (exfalso; lia) || idtac.
Qed.

Lemma write_range_anonymous a s e w : anonymous a → write_range a s e w = Val (tt, w).
Proof. intros [Hf _]. unfold write_range. by rewrite Hf. Qed.

Lemma refs_filter_le (P : MapTrack → Prop) `{∀ x, Decision (P x)} l q : (refs (filter P l) q ≤ refs l q)%nat.
Proof.
  rewrite <- (refs_perm _ _ q (filter_app_complement P l)), refs_app. lia.
Qed.

Lemma Forall_filter_keep {A} (P Q : A → Prop) `{∀ x, Decision (Q x)} l : Forall P l → Forall P (filter Q l).
Proof. rewrite !Forall_forall. intros HP x Hx. apply list_elem_of_filter in Hx as [_ ?]. auto. Qed.

Lemma owned_app_l l k w : owned (l ++ k) w → owned l w.
Proof. intros Ho p. specialize (Ho p). rewrite refs_app in Ho. lia. Qed.

Lemma owned_filter (P : MapTrack → Prop) `{∀ x, Decision (P x)} l w : owned l w → owned (filter P l) w.
Proof. intros Ho p. specialize (Ho p). pose proof (refs_filter_le P l p). lia. Qed.

(** Pages are tracked in the area that contains them. *)
Definition trackers_in (a : MemArea F) : Prop := ∀ x, x ∈ ma_mtrackers a → ma_contains a (mt_vaddr x) = true.

(** Both ends of the range fall into the area. *)
Definition splits (s e : Z) (a : MemArea F) : Prop := ma_contains a s = true ∧ ma_contains a e = true.

Context (T : Tree).

(** The page table without the pages of [l] tracked in the range. *)
Definition pt_removed (s e : Z) (l : list MapTrack) (w w' : World S) : Prop := ∀ v, user_addr v →
  leaf T (w_phys w') v =
    if bool_decide (Exists (λ x, s ≤ mt_vaddr x < e ∧ same_page v (mt_vaddr x)) l) then 0
    else leaf T (w_phys w) v.

(** What [sub] leaves of an anonymous area. *)
Record sub_post (a : MemArea F) (s e : Z) (w : World S) (a' : MemArea F) (res : option (MemArea F))
    (w' : World S) : Prop := {
  sp_world : world_ok T w';
  sp_area : area_ok a' ∧ anonymous a' ∧ tracked_user a';
  sp_res : match res with Some n => area_ok n ∧ anonymous n ∧ ma_mtrackers n = [] | None => True end;
  sp_count : ∀ q, (strong_count q w' + refs (ma_mtrackers a) q =
                   strong_count q w + refs (ma_mtrackers a') q)%nat;
  sp_cover : ∀ x, (cover a' x + match res with Some n => cover n x | None => 0 end =
                   if bool_decide (s ≤ x < e)%Z then 0 else cover a x)%nat;
  sp_pt : trackers_in a → ¬ splits s e a → res = None ∧ pt_removed s e (ma_mtrackers a) w w'
}.

(** The trimming branch, for either side. *)
Lemma ma_trim_spec a s e area w :
  anonymous a → world_ok T w → owned (ma_mtrackers a) w → tracked_user a →
  ma_mtrackers area = ma_mtrackers a → ma_file area = ma_file a → ma_mtype area = ma_mtype a →
  area_ok area →
  (∀ x, cover area x = if bool_decide (s ≤ x < e) then 0%nat else cover a x) →
  ∃ a' res w',
    (_ ← write_range area s e;
     let keep := in_range (ma_start area) (ma_end area) in
     _ ← st_iter unmap_and_drop (filter (λ x, ¬ keep x) (ma_mtrackers area));
     mret (set_trackers (filter keep (ma_mtrackers area)) area, None)) w = Val ((a', res), w') ∧
    sub_post a s e w a' res w'.
Proof.
  intros [Hf Ht] Hw Ho Hus Etr Efi Ety Hok Hcov. cbv zeta. unfold mbind, st_bind.
  rewrite write_range_anonymous by (split; congruence).
  set (keep := in_range (ma_start area) (ma_end area)).
  match goal with |- context [st_iter unmap_and_drop ?l w] =>
    destruct (drop_list_spec true T l w) as (w' & E & Hw' & _ & Hc & Hpt & _) end;
    [done|rewrite Etr; by apply owned_filter|intros _; rewrite Etr; by apply Forall_filter_keep|].
  change (st_iter unmap_and_drop) with (st_iter (λ x, unmap_and_drop x)). cbv iota in E.
  rewrite E. eexists _, _, w'. split; [done|]. split; [done| |done| | |].
  - split; [by destruct Hok; split|]. split; [split; simpl; congruence|].
    unfold tracked_user. simpl. rewrite Etr. by apply Forall_filter_keep.
  - intros q. rewrite Hc, Etr. cbn [ma_mtrackers set_trackers].
    pose proof (refs_perm _ _ q (filter_app_complement keep (ma_mtrackers a))) as Hp.
    rewrite refs_app in Hp. specialize (Ho q). lia.
  - intros x. rewrite <- (Hcov x). unfold cover, ma_contains, ma_end. simpl. lia.
  - intros Hin _. split; [done|]. intros v Hv. rewrite Hpt, Etr by done. apply if_decide_ext.
    rewrite !Exists_exists. setoid_rewrite list_elem_of_filter.
    assert (∀ y, y ∈ ma_mtrackers a → keep y ↔ ¬ (s ≤ mt_vaddr y < e)) as Hk.
    { intros y Hy. specialize (Hcov (mt_vaddr y)). unfold cover in Hcov. rewrite (Hin y Hy) in Hcov.
      unfold keep, in_range, range_contains. fold (ma_contains area (mt_vaddr y)).
      destruct (ma_contains area (mt_vaddr y)); case_bool_decide; naive_solver. }
    split; [intros [_ (y & (Hnk & Hy) & Hp)]|intros (y & Hy & Hr & Hp)].
    + rewrite (Hk y Hy) in Hnk. exists y. split; [done|]. split; [|done].
      destruct (decide (s ≤ mt_vaddr y < e)); tauto.
    + split; [done|]. exists y. split; [|done]. split; [|done]. rewrite (Hk y Hy). tauto.
Qed.

(** The removed range covers the area. *)
Lemma ma_cut_spec a s e w :
  area_ok a → anonymous a → world_ok T w → owned (ma_mtrackers a) w → tracked_user a →
  s ≤ ma_start a ∧ ma_start a + ma_len a < e →
  ∃ a' res w',
    (let area := set_bounds (ma_start a) 0 a in
     _ ← write_range area s e;
     _ ← st_iter unmap_and_drop (ma_mtrackers area);
     mret (set_trackers [] area, None)) w = Val ((a', res), w') ∧
    sub_post a s e w a' res w'.
Proof.
  intros Ha Han Hw Ho Hus H3. pose proof Ha as [Hs0 Hl0 He0]. cbv zeta. unfold mbind, st_bind.
  rewrite write_range_anonymous by done.
  destruct (drop_list_spec true T (ma_mtrackers a) w) as (w' & E & Hw' & _ & Hc & Hpt & _); [done..|].
  cbn [set_bounds ma_mtrackers]. change (st_iter unmap_and_drop) with (st_iter (λ x, unmap_and_drop x)).
  cbv iota in E. rewrite E. eexists _, _, w'. split; [done|]. split; [done| |done| | |].
  - split; [split; simpl; lia|]. split; [done|by apply Forall_nil].
  - intros q. rewrite Hc. specialize (Ho q). cbn [ma_mtrackers set_trackers]. unfold refs at 3. simpl. lia.
  - intros x. rewrite !cover_spec by (split; simpl; lia). cbn [ma_start ma_len set_bounds set_trackers].
    repeat case_bool_decide; lia.
  - intros Hin _. split; [done|]. intros v Huv. rewrite Hpt by done. apply if_decide_ext.
    rewrite !Exists_exists. split; [|naive_solver]. intros [_ (y & Hy & Hp)]. exists y. split; [done|].
    split; [|done]. pose proof (Hin y Hy) as Hc2. rewrite ma_contains_spec in Hc2 by done.
    apply bool_decide_eq_true in Hc2. lia.
Qed.

Lemma ma_sub_spec a s e w :
  area_ok a → anonymous a → 0 ≤ s ≤ e → e < MAX64 → world_ok T w → owned (ma_mtrackers a) w → tracked_user a →
  ∃ a' res w', ma_sub a s e w = Val ((a', res), w') ∧ sub_post a s e w a' res w'.
Proof.
  intros Ha Han Hse He Hw Ho Hus. pose proof Ha as [Hs0 Hl0 He0]. unfold ma_sub.
  rewrite ma_overlapping_spec by (done || lia). rewrite !range_contains_spec, ma_end_eq by done.
  case_bool_decide as Hov; cbn [negb].
  2: { exists a, None, w. split; [done|]. split; try done.
       - intros x. rewrite cover_spec by done. repeat case_bool_decide; lia.
       - intros Hin _. split; [done|]. intros v _. rewrite bool_decide_eq_false_2; [done|].
         intros (y & Hy & Hv & _)%Exists_exists.
         pose proof (Hin y Hy) as Hc2. rewrite ma_contains_spec in Hc2 by done.
         apply bool_decide_eq_true in Hc2. lia. }
  assert (¬ (s ≤ ma_start a ∧ ma_start a + ma_len a < e) →
    bool_decide (s ≤ ma_start a < e) && bool_decide (s ≤ ma_start a + ma_len a < e) = false) as Hnotall.
  { intros. apply andb_false_iff. rewrite !bool_decide_eq_false. lia. }
  destruct (bool_decide_reflect (ma_start a ≤ s < ma_start a + ma_len a)) as [H1|H1];
    [destruct (bool_decide_reflect (ma_start a ≤ e < ma_start a + ma_len a)) as [H2|H2]|]; cbn [andb].
  - unfold mbind, st_bind. rewrite write_range_anonymous by done.
    destruct (drop_list_spec false T (filter (in_range e (ma_start a + ma_len a)) (ma_mtrackers a)) w)
      as (w' & E & Hw' & _ & Hc & _); [done|by apply owned_filter|done|].
    unfold drop_trackers. cbn [set_bounds ma_mtrackers]. rewrite E.
    eexists _, _, w'. split; [done|]. no_wrap. rewrite Z.max_r by lia.
    assert (area_ok (set_bounds (ma_start a) (s - ma_start a) a)) as Ha1 by (split; simpl; lia).
    split; [done| | | | |].
    5: { intros _ Hns. destruct Hns. split; rewrite ma_contains_spec by done; by apply bool_decide_eq_true. }
    + split; [split; simpl; lia|]. split; [done|]. unfold tracked_user. simpl. by do 2 apply Forall_filter_keep.
    + cbn [ma_mtrackers set_trackers]. split_and!; [split; simpl; lia|done|].
      apply filter_none. intros y Hy. by apply list_elem_of_filter in Hy as [? _].
    + intros q. rewrite Hc. cbn [ma_mtrackers set_trackers].
      rewrite (filter_all _ (filter _ _)) by (intros y Hy; by apply list_elem_of_filter in Hy as [? _]).
      pose proof (refs_perm _ _ q (filter_app_complement (in_range e (ma_start a + ma_len a)) (ma_mtrackers a))) as Hp.
      rewrite refs_app in Hp. specialize (Ho q). lia.
    + intros x. rewrite !cover_spec by (split; simpl; lia). cbn [ma_start ma_len set_trackers set_bounds].
      repeat case_bool_decide; lia.
  - destruct (decide (s ≤ ma_start a ∧ ma_start a + ma_len a < e)) as [H3|H3].
    { rewrite !bool_decide_eq_true_2 by lia. by apply ma_cut_spec. }
    rewrite (Hnotall H3).
    apply (ma_trim_spec a s e (set_bounds (ma_start a) (s -w ma_start a) a)); try done.
    + no_wrap. split; simpl; lia.
    + no_wrap. intros x. rewrite !cover_spec by (split; simpl; lia). cbn [ma_start ma_len set_bounds].
      repeat case_bool_decide; lia.
  - destruct (decide (s ≤ ma_start a ∧ ma_start a + ma_len a < e)) as [H3|H3].
    { rewrite !bool_decide_eq_true_2 by lia. by apply ma_cut_spec. }
    rewrite (Hnotall H3), bool_decide_eq_true_2 by lia.
    apply (ma_trim_spec a s e (set_bounds e (ma_start a + ma_len a -w e) a)); try done.
    + no_wrap. split; simpl; lia.
    + no_wrap. intros x. rewrite !cover_spec by (split; simpl; lia). cbn [ma_start ma_len set_bounds].
      repeat case_bool_decide; lia.
Qed.

(** *** The whole address space *)
Definition areas_ok (areas : MemSet) : Prop := Forall (λ a, area_ok a ∧ anonymous a ∧ tracked_user a) areas.

Lemma cover_count_app k l x : cover_count (k ++ l) x = (cover_count k x + cover_count l x)%nat.
Proof. induction k as [|a k IH]; simpl; lia. Qed.

Lemma cover_count_perm k l x : k ≡ₚ l → cover_count k x = cover_count l x.
Proof. induction 1; simpl; lia. Qed.

Lemma trackers_of_app k l : trackers_of (k ++ l) = trackers_of k ++ trackers_of l.
Proof. unfold trackers_of. by rewrite fmap_app, concat_app. Qed.

Lemma cover_len_0 a x : area_ok a → ma_len a = 0 → cover a x = 0%nat.
Proof. intros Ha Hl. rewrite cover_spec by done. case_bool_decide; lia. Qed.

Lemma ma_drop_anonymous a w :
  anonymous a → world_ok T w → owned (ma_mtrackers a) w →
  ∃ w', ma_drop a w = Val (tt, w') ∧ world_ok T w' ∧
    (∀ v, user_addr v → leaf T (w_phys w') v = leaf T (w_phys w) v) ∧
    (∀ q, strong_count q w' = (strong_count q w - refs (ma_mtrackers a) q)%nat) ∧
    fa_free (ph_alloc (w_phys w)) ⊆ fa_free (ph_alloc (w_phys w')) ∧
    (∀ q, (0 < strong_count q w)%nat → strong_count q w' = 0%nat → q ∈ fa_free (ph_alloc (w_phys w'))).
Proof.
  intros [_ Ht] Hw Ho. unfold ma_drop, mbind, st_bind.
  destruct (drop_list_spec false T (ma_mtrackers a) w) as (w' & E & Hw' & _ & Hc & Hpt & Hm & Hf); [done..|].
  exists w'. split; [destruct (ma_mtype a); done || exact E|]. split_and!; [done| |done|done|done].
  intros v Hv. rewrite Hpt by done. rewrite bool_decide_eq_false_2; [done|by intros [? _]].
Qed.

(** One area of the [retain_mut] pass, with the drop of an emptied one. *)
Lemma retain_step_spec a s e w :
  area_ok a → anonymous a → 0 ≤ s ≤ e → e < MAX64 → world_ok T w → owned (ma_mtrackers a) w → tracked_user a →
  ∃ a' res w1 w', ma_sub a s e w = Val ((a', res), w1) ∧
    (if ma_len a' =? 0 then ma_drop a' else mret tt) w1 = Val (tt, w') ∧ world_ok T w' ∧
    let out := (if ma_len a' =? 0 then [] else [a']) ++ option_list res in
    areas_ok out ∧
    (∀ q, strong_count q w' + refs (ma_mtrackers a) q = strong_count q w + refs (trackers_of out) q)%nat ∧
    (∀ x, cover_count out x = if bool_decide (s ≤ x < e) then 0%nat else cover a x) ∧
    (trackers_in a → ¬ splits s e a → res = None ∧ pt_removed s e (ma_mtrackers a) w w').
Proof.
  intros Ha Han Hse He Hw Ho Hus.
  destruct (ma_sub_spec a s e w) as (a' & res & w1 & E & [Hw1 (Ha' & Han' & Hus') Hres Hc Hcov Hpt]); [done..|].
  assert (areas_ok (option_list res) ∧ trackers_of (option_list res) = [] ∧
    ∀ x, cover_count (option_list res) x = match res with Some n => cover n x | None => 0%nat end) as (Hr1 & Hr2 & Hr3).
  { destruct res as [n|]; simpl; [|by split_and!; [constructor|..]]. destruct Hres as (? & ? & Hn).
    split_and!; [|unfold trackers_of; simpl; by rewrite Hn|intros; lia].
    apply Forall_singleton. split_and!; [done..|]. unfold tracked_user. rewrite Hn. by apply Forall_nil. }
  exists a', res, w1. cbv zeta. destruct (Z.eqb_spec (ma_len a') 0) as [Hl|Hl].
  - destruct (ma_drop_anonymous a' w1) as (w' & E2 & Hw' & Ept & Hc2 & _); [done|done| |].
    { intros q. specialize (Hc q). specialize (Ho q). lia. }
    exists w'. split_and!; try done.
    + intros q. rewrite app_nil_l, Hr2, Hc2. specialize (Hc q). specialize (Ho q). unfold refs at 3. simpl. lia.
    + intros x. simpl. rewrite Hr3. specialize (Hcov x). rewrite cover_len_0 in Hcov by done. exact Hcov.
    + intros Hti Hns. destruct (Hpt Hti Hns) as [? Hp]. split; [done|]. intros v Hv. rewrite Ept by done. by apply Hp.
  - exists w1. split_and!; try done.
    + by apply Forall_app_2; [apply Forall_singleton|].
    + intros q. rewrite trackers_of_app, Hr2, app_nil_r. unfold trackers_of. simpl. rewrite app_nil_r. apply Hc.
    + intros x. rewrite cover_count_app, Hr3. simpl. rewrite <- Hcov. lia.
Qed.

(** A drop gives a frame back but takes none out of memory. *)
Definition ram_stays (w w' : World S) : Prop := ∀ q, is_Some (ph_ram (w_phys w) !! q) → is_Some (ph_ram (w_phys w') !! q).

Lemma drop_trackers_ram l : ∀ w w', drop_trackers l w = Val (tt, w') → ram_stays w w'.
Proof.
  induction l as [|x l IH]; intros w w'; [intros [= <-] q Hq; exact Hq|].
  unfold drop_trackers in *. cbn [st_iter]. unfold mbind, st_bind. destruct (arc_drop (mt_tracker x) w) as [[[] w1]|] eqn:E; [|done].
  intros H%IH q Hq. apply H. clear H IH. unfold arc_drop in E.
  assert (∀ ph', tracker_drop (mt_tracker x) (w_phys w) = Val ph' → is_Some (ph_ram ph' !! q)) as Hd.
  { intros ph'. unfold tracker_drop, tracker_clear. destruct (fa_dealloc _ _); [|done]. intros [= <-]. simpl.
    rewrite lookup_insert_is_Some'. destruct (decide (mt_tracker x = q)); [by left|by right]. }
  destruct (w_rc w !! mt_tracker x) as [[|[|n]]|]; [| |by injection E as <-|];
    (destruct (tracker_drop _ _); [|done]); cbn [mbind outcome_bind] in E; injection E as <-; by apply Hd.
Qed.

(** [MemSet::clear] returns every frame no one else refers to; the page table
    keeps its entries. *)
Lemma memset_clear_spec areas : ∀ w,
  Forall anonymous areas → world_ok T w → owned (trackers_of areas) w →
  ∃ w', memset_clear areas w = Val ([], w') ∧ world_ok T w' ∧
    ((∀ v, user_addr v → leaf T (w_phys w') v = leaf T (w_phys w) v) ∧ ram_stays w w') ∧
    (∀ q, strong_count q w' = (strong_count q w - refs (trackers_of areas) q)%nat) ∧
    fa_free (ph_alloc (w_phys w)) ⊆ fa_free (ph_alloc (w_phys w')) ∧
    (∀ q, (0 < strong_count q w)%nat → strong_count q w' = 0%nat → q ∈ fa_free (ph_alloc (w_phys w'))).
Proof.
  unfold memset_clear, mbind, st_bind.
  induction areas as [|a areas IH]; intros w Han Hw Ho.
  { exists w. split; [done|]. split; [done|]. split; [split; [done|by intros q]|].
    split_and!; [|done|intros q ? ?; lia]. intros q. unfold refs. simpl. lia. }
  apply Forall_cons in Han as [Ha Han].
  change (trackers_of (a :: areas)) with (ma_mtrackers a ++ trackers_of areas) in *.
  destruct (ma_drop_anonymous a w) as (w1 & E1 & Hw1 & Hl1 & Hc1 & Hm1 & Hf1); [done|done|by eapply owned_app_l|].
  destruct (IH w1) as (w' & E & Hw' & [Hl Hr] & Hc & Hm & Hf); [done|done| |].
  { intros q. specialize (Ho q). rewrite refs_app in Ho. rewrite Hc1. lia. }
  exists w'. split; [cbn [st_iter]; unfold mbind, st_bind; by rewrite E1|]. split; [done|]. split.
  { split; [intros v Hv; by rewrite Hl, Hl1|]. intros q Hq. apply Hr. apply (drop_trackers_ram (ma_mtrackers a) w w1); [|done].
    destruct Ha as [_ Ha]. unfold ma_drop in E1. by destruct (ma_mtype a). }
  split_and!; [|set_solver|].
  - intros q. rewrite Hc, Hc1, refs_app. lia.
  - intros q Hq1 Hq2. destruct (decide (strong_count q w1 = 0%nat)); [|apply Hf; lia]. apply Hm, Hf1; done.
Qed.

Lemma sub_area_loop_spec s e areas : ∀ w,
  0 ≤ s ≤ e → e < MAX64 → areas_ok areas → world_ok T w → owned (trackers_of areas) w →
  ∃ kept new w', sub_area_loop areas s e w = Val ((kept, new), w') ∧ world_ok T w' ∧
    areas_ok (kept ++ new) ∧
    (∀ q, strong_count q w' + refs (trackers_of areas) q = strong_count q w + refs (trackers_of (kept ++ new)) q)%nat ∧
    (∀ x, cover_count (kept ++ new) x = if bool_decide (s ≤ x < e) then 0%nat else cover_count areas x) ∧
    (Forall (λ a, trackers_in a ∧ ¬ splits s e a) areas → pt_removed s e (trackers_of areas) w w').
Proof.
  induction areas as [|a areas IH]; intros w Hse He Hok Hw Ho.
  { exists [], [], w. split; [done|]. split_and!; try done; try by (intros; case_bool_decide). }
  apply Forall_cons in Hok as [(Ha & Han & Hus) Hok].
  change (trackers_of (a :: areas)) with (ma_mtrackers a ++ trackers_of areas) in *.
  destruct (retain_step_spec a s e w) as (a' & res & w1 & w2 & E1 & E2 & Hw2 & Hout & Hc2 & Hcov2 & Hpt2);
    [done..|by eapply owned_app_l|done|].
  destruct (IH w2) as (kept & new & w' & E3 & Hw' & Hok' & Hc' & Hcov' & Hpt'); [done..| |].
  { intros q. specialize (Ho q). specialize (Hc2 q). rewrite refs_app in Ho. lia. }
  set (out := (if ma_len a' =? 0 then [] else [a']) ++ option_list res) in *.
  set (kept' := if ma_len a' =? 0 then kept else a' :: kept).
  set (new' := match res with Some n => n :: new | None => new end).
  assert (kept' ++ new' ≡ₚ out ++ (kept ++ new)) as Hperm.
  { unfold kept', new', out. destruct (ma_len a' =? 0), res; simpl; rewrite ?app_nil_r; solve_Permutation. }
  exists kept', new', w'. split.
  { cbn [sub_area_loop]. unfold mbind, st_bind. rewrite E1, E2, E3. done. }
  split_and!; [done| | | |].
  - unfold areas_ok. rewrite Hperm. by apply Forall_app_2.
  - intros q. assert (refs (trackers_of (kept' ++ new')) q = refs (trackers_of (out ++ kept ++ new)) q) as ->.
    { apply refs_perm. unfold trackers_of. by rewrite Hperm. }
    rewrite trackers_of_app, !refs_app. specialize (Hc2 q). specialize (Hc' q). lia.
  - intros x. assert (cover_count (kept' ++ new') x = cover_count (out ++ kept ++ new) x) as ->.
    { by apply cover_count_perm. }
    rewrite cover_count_app, Hcov2, Hcov'. simpl. case_bool_decide; lia.
  - intros Hf. apply Forall_cons in Hf as [[Hti Hns] Hf]. destruct (Hpt2 Hti Hns) as [_ Hp1].
    specialize (Hpt' Hf). intros v Hv. rewrite Hpt', Hp1 by done.
    rewrite (bool_decide_ext (Exists _ (ma_mtrackers a ++ _)) _ (Exists_app _ _ _)), bool_decide_or.
    do 2 case_bool_decide; done.
Qed.

(** [sub_area], the core of [munmap], on an address space of anonymous
    areas that hold references to their frames: it always completes, the
    address range is covered by no area afterwards, every other address is
    covered by as many areas as before, the areas are still well formed, and
    they still hold a reference for every frame they track (each frame given up
    is counted down exactly once). *)
Theorem munmap_removes_range areas s e w :
  0 ≤ s ≤ e → e < MAX64 → areas_ok areas → world_ok T w → owned (trackers_of areas) w →
  ∃ areas' w', memset_sub_area areas s e w = Val (areas', w') ∧ world_ok T w' ∧ areas_ok areas' ∧
    owned (trackers_of areas') w' ∧
    (∀ q, strong_count q w' + refs (trackers_of areas) q = strong_count q w + refs (trackers_of areas') q)%nat ∧
    ∀ x, cover_count areas' x = if bool_decide (s ≤ x < e) then 0%nat else cover_count areas x.
Proof.
  intros Hse He Hok Hw Ho.
  destruct (sub_area_loop_spec s e areas w) as (kept & new & w' & E & Hw' & Hok' & Hc & Hcov & _); [done..|].
  exists (kept ++ new), w'. split; [unfold memset_sub_area, mbind, st_bind; by rewrite E|].
  split_and!; try done. intros q. specialize (Hc q). specialize (Ho q). lia.
Qed.

(** C10: When no area contains both ends of the range, [sub_area] removes from
    the page table exactly the tracked pages of the range. *)
Theorem munmap_unmaps_pages areas s e w :
  0 ≤ s ≤ e → e < MAX64 → areas_ok areas → world_ok T w → owned (trackers_of areas) w →
  Forall (λ a, trackers_in a ∧ ¬ splits s e a) areas →
  ∃ areas' w', memset_sub_area areas s e w = Val (areas', w') ∧
    ∀ v, user_addr v → mmu w' v =
      if bool_decide (Exists (λ x, s ≤ mt_vaddr x < e ∧ same_page v (mt_vaddr x)) (trackers_of areas)) then None
      else mmu w v.
Proof.
  intros Hse He Hok Hw Ho Hf.
  destruct (sub_area_loop_spec s e areas w) as (kept & new & w' & E & Hw' & _ & _ & _ & Hpt); [done..|].
  exists (kept ++ new), w'. split; [unfold memset_sub_area, mbind, st_bind; by rewrite E|].
  intros v Hv. rewrite !(mmu_leaf T), (Hpt Hf) by done. by case_bool_decide.
Qed.

(** C11: A [munmap] in the middle of an area frees frames that stay mapped: the
    pages above the range lose their trackers (the second half starts with
    none) while the page table still translates them, so the process keeps
    access to a frame the allocator will hand out again. *)
Theorem munmap_split_frees_mapped_frames a s e w x pte :
  area_ok a → anonymous a → 0 ≤ s < e → splits s e a → world_ok T w → owned (ma_mtrackers a) w → tracked_user a →
  x ∈ ma_mtrackers a → in_range e (ma_end a) x → strong_count (mt_tracker x) w = 1%nat →
  mmu w (mt_vaddr x) = Some pte → pte_address pte = mt_tracker x →
  ∃ a' n w', ma_sub a s e w = Val ((a', Some n), w') ∧
    ma_contains n (mt_vaddr x) = true ∧ ma_mtrackers n = [] ∧
    mt_tracker x ∈ fa_free (ph_alloc (w_phys w')) ∧
    mmu w' (mt_vaddr x) = Some pte.
Proof.
  intros Ha Han Hse [Hs He] Hw Ho Hus Hx Hr Hc1 Hpt _. pose proof Ha as [Hs0 Hl0 He0]. unfold ma_sub.
  rewrite ma_contains_spec in Hs, He by done. apply bool_decide_eq_true in Hs, He.
  rewrite ma_overlapping_spec by (done || lia). rewrite bool_decide_eq_true_2 by lia. cbn [negb].
  unfold in_range in Hr. rewrite range_contains_spec, ma_end_eq in Hr by done.
  rewrite !range_contains_spec, ma_end_eq by done.
  apply bool_decide_eq_true in Hr.
  rewrite (bool_decide_eq_true_2 (ma_start a ≤ s < _)), (bool_decide_eq_true_2 (ma_start a ≤ e < _)) by lia.
  cbn [andb].
  unfold mbind, st_bind. rewrite write_range_anonymous by done.
  set (upper := in_range e (ma_start a + ma_len a)).
  destruct (drop_list_spec false T (filter upper (ma_mtrackers a)) w)
    as (w' & E & Hw' & _ & Hc & Hpt' & _ & Hfree); [done|by apply owned_filter|done|].
  unfold drop_trackers. cbn [set_bounds ma_mtrackers]. rewrite E.
  assert (x ∈ filter upper (ma_mtrackers a)) as Hxf.
  { apply list_elem_of_filter. split; [|done]. unfold upper, in_range. rewrite range_contains_spec.
    by apply bool_decide_eq_true. }
  eexists _, _, w'. split; [done|]. rewrite Z.max_r by lia. split_and!.
  - rewrite ma_contains_spec by (split; simpl; lia). apply bool_decide_eq_true. simpl. lia.
  - apply filter_none. intros y Hy. by apply list_elem_of_filter in Hy as [? _].
  - apply Hfree; [lia|]. rewrite Hc, Hc1. unfold refs.
    assert (x ∈ filter (λ y, mt_tracker y = mt_tracker x) (filter upper (ma_mtrackers a))) as Hin
      by (by apply list_elem_of_filter).
    destruct (filter _ (filter upper _)); [by apply elem_of_nil in Hin|simpl; lia].
  - assert (user_addr (mt_vaddr x)) by (unfold tracked_user in Hus; rewrite Forall_forall in Hus; auto).
    rewrite (mmu_leaf T) in Hpt |- * by done. rewrite Hpt' by done.
    rewrite bool_decide_eq_false_2 by (by intros [? _]). done.
Qed.
End memset.
Arguments MemSet : clear implicits.


(** ** A concrete address space: three pages at 0x10000, one frame each *)
Definition demo_world0 : World unit := mkWorld demo_pt_phys ∅ 0x80000000 tt.
Definition demo_frames : list Z := [0x80001000; 0x80002000; 0x80003000].
Definition demo_pages : list Z := [0x10000; 0x11000; 0x12000].
Definition demo_trackers : list MapTrack := zip_with (λ v p, mkMapTrack v p 0) demo_pages demo_frames.
Definition demo_area : MemArea unit := mkMemArea Mmap demo_trackers None 0 0x10000 0x3000.

Definition demo_build : ST (World unit) unit :=
  _ ← alloc_frames 3;
  st_iter (λ x, map_page (mt_vaddr x) (mt_tracker x) MF_URWX) demo_trackers.
Definition demo_world : World unit :=
  match demo_build demo_world0 with Val (_, w) => w | Panic => demo_world0 end.

Lemma demo_world0_ok : world_ok {[ [] := 0x80000000 ]} demo_world0.
Proof. split; [apply demo_pt_inv|done]. Qed.

Lemma demo_map_ok l : ∀ T (w : World unit),
  world_ok T w → Forall (λ x, user_addr (mt_vaddr x) ∧ frame_ok (mt_tracker x)) l →
  (2 * length l ≤ size (fa_free (ph_alloc (w_phys w))))%nat →
  ∃ T' w', st_iter (λ x, map_page (mt_vaddr x) (mt_tracker x) MF_URWX) l w = Val (tt, w') ∧
    world_ok T' w' ∧ w_rc w' = w_rc w.
Proof.
  induction l as [|x l IH]; intros T w Hw Hl Hs; [by exists T, w|].
  apply Forall_cons in Hl as [[Hv Hp] Hl]. cbn [length] in Hs.
  destruct (map_page_spec T (mt_vaddr x) (mt_tracker x) MF_URWX w)
    as (T1 & w1 & E1 & Hw1 & _ & _ & Hrc1 & _ & _ & _ & _ & Hs1); [done..|lia|].
  destruct (IH T1 w1) as (T' & w' & E & Hw' & Hrc'); [done|done|lia|].
  exists T', w'. split; [|split; [done|congruence]].
  cbn [st_iter]. unfold mbind, st_bind. rewrite E1. exact E.
Qed.

Lemma demo_world_ok :
  (∃ T, world_ok T demo_world) ∧
  ∀ q, w_rc demo_world !! q = if bool_decide (q ∈ demo_frames) then Some 1%nat else None.
Proof.
  destruct (alloc_frames_spec _ 3 demo_world0 demo_world0_ok) as (res & w1 & E1 & Hw1 & _ & _ & _ & _ & Hres); [done|].
  destruct res as [ps|]; [|exfalso; vm_compute in E1; discriminate].
  assert (ps = demo_frames) as ->.
  { apply (f_equal (λ o, match o with Val (Some l, _) => l | _ => [] end)) in E1. by vm_compute in E1. }
  destruct Hres as (_ & Hin & Hfree & Hok & Hrc).
  destruct (demo_map_ok demo_trackers _ w1 Hw1) as (T' & w' & E2 & Hw' & Hrc').
  - apply Forall_forall. intros x Hx. unfold demo_trackers, demo_pages, demo_frames in Hx. simpl in Hx.
    rewrite !elem_of_cons, elem_of_nil in Hx. destruct Hx as [->|[->|[->|[]]]];
      (split; [split; simpl; lia|split; [simpl; lia|done]]).
  - rewrite Hfree. by vm_compute; lia.
  - assert (demo_world = w') as ->.
    { unfold demo_world, demo_build, mbind, st_bind. rewrite E1. by rewrite E2. }
    split; [eauto|]. intros q. rewrite Hrc', Hrc. done.
Qed.

Lemma demo_area_ok : areas_ok [demo_area].
Proof.
  apply Forall_singleton. split_and!; [split; simpl; word_lia|by split|].
  unfold tracked_user, demo_area, demo_trackers, demo_pages, demo_frames. simpl.
  repeat constructor; simpl; lia.
Qed.

Lemma demo_owned : owned (trackers_of [demo_area]) demo_world.
Proof.
  destruct demo_world_ok as [_ Hrc]. intros p. unfold strong_count. rewrite Hrc. clear Hrc.
  change (trackers_of [demo_area]) with (demo_trackers ++ []).
  rewrite app_nil_r. unfold demo_trackers, demo_frames, demo_pages. cbn [zip_with].
  rewrite !refs_cons. cbn [mt_tracker]. change (refs [] p) with 0%nat.
  destruct (decide (p = 0x80001000)) as [->|H1]; [done|].
  destruct (decide (p = 0x80002000)) as [->|H2]; [done|].
  destruct (decide (p = 0x80003000)) as [->|H3]; [done|].
  rewrite !(bool_decide_eq_false_2 (_ = p)) by done. simpl. lia.
Qed.

#[local] Opaque demo_world.

Definition demo_ops : INodeOps unit unit := inode_default unit unit.

Lemma munmap_removes_range_witness :
  ∃ areas' w', memset_sub_area demo_ops [demo_area] 0x11000 0x13000 demo_world = Val (areas', w') ∧
    cover_count areas' 0x10000 = 1%nat ∧ cover_count areas' 0x12000 = 0%nat.
Proof.
  destruct demo_world_ok as [[T HT] _].
  destruct (munmap_removes_range demo_ops T [demo_area] 0x11000 0x13000 demo_world)
    as (areas' & w' & E & _ & _ & _ & _ & Hc);
    [lia|word_lia|apply demo_area_ok|exact HT|apply demo_owned|].
  exists areas', w'. split; [exact E|]. clear E HT. rewrite !Hc. split; reflexivity.
Defined.

Lemma munmap_unmaps_pages_witness :
  ∃ areas' w', memset_sub_area demo_ops [demo_area] 0x11000 0x13000 demo_world = Val (areas', w') ∧
    mmu w' 0x12345 = None.
Proof.
  destruct demo_world_ok as [[T HT] _].
  destruct (munmap_unmaps_pages demo_ops T [demo_area] 0x11000 0x13000 demo_world)
    as (areas' & w' & E & Hpt);
    [lia|word_lia|apply demo_area_ok|exact HT|apply demo_owned| |].
  { apply Forall_singleton. split; [|by intros [_ ?]]. intros x Hx.
    unfold demo_area, demo_trackers, demo_pages, demo_frames in Hx. simpl in Hx.
    rewrite !elem_of_cons, elem_of_nil in Hx. by destruct Hx as [->|[->|[->|[]]]]. }
  exists areas', w'. split; [exact E|]. clear E HT. rewrite Hpt by (split; lia). reflexivity.
Defined.

Lemma munmap_split_frees_mapped_frames_witness :
  ∃ a' n w', ma_sub demo_ops demo_area 0x11000 0x12000 demo_world = Val ((a', Some n), w') ∧
    0x80003000 ∈ fa_free (ph_alloc (w_phys w')) ∧
    mmu w' 0x12000 = Some (pte_new_page 0x80003000 (pte_flags_of MF_URWX)).
Proof.
  destruct demo_world_ok as [[T HT] Hrc].
  destruct (munmap_split_frees_mapped_frames demo_ops T demo_area 0x11000 0x12000 demo_world
    (mkMapTrack 0x12000 0x80003000 0) (pte_new_page 0x80003000 (pte_flags_of MF_URWX)))
    as (a' & n & w' & E & _ & _ & Hf & Hpt);
    [split; simpl; word_lia|by split|lia|by split|exact HT| | |by do 2 right; left|done| | |done|].
  - pose proof demo_owned as Ho. unfold trackers_of in Ho. simpl in Ho. exact Ho.
  - pose proof demo_area_ok as Ha. apply Forall_singleton in Ha as (_ & _ & ?). done.
  - unfold strong_count. rewrite Hrc. reflexivity.
  - vm_compute. reflexivity.
  - exists a', n, w'. split; [exact E|]. split; [exact Hf|exact Hpt].
Defined.
