(* ===== verification/Process.v ===== *)
(** * Processes and threads ([kernel/src/tasks/task.rs], [filetable.rs], [shm.rs])

    The state of the kernel as one task sees it: physical memory, page table
    and file system ([World]), the mount table, the open file objects (shared
    by [Arc], so descriptors hold their ids), the process control block its
    threads share, its own thread control block and, while the parent lives,
    the parent's.  The methods of [UserTask] that need no memory mapping are
    here. *)

From S2P Require Import Prelude Bytes Frame PageTable Signal Path Vfs File Time Futex MemSet.
Local Open Scope Z_scope.

(** ** Data *)
Record MapedSharedMemory := mkMshm { ms_key : Z; ms_mem : Z; ms_start : Z; ms_size : Z }.

(** [SharedMemory]; a segment is shared by [Arc], so it has an id and a strong
    count. *)
Record SharedMemory := mkShm { shm_trackers : list Z; shm_deleted : bool }.

(** Global state: the table [SHARED_MEMORY] from keys to segments, the
    segments with their counts, the statics [LAST_TLS_ADDR] and [TLS_COUNT] of
    the page-fault handler and the root of the boot page table. *)
Record Kern := mkKern {
  kn_shared : gmap Z Z;
  kn_segments : gmap Z (nat * SharedMemory);
  kn_last_tls_addr : Z;
  kn_tls_count : Z;
  kn_boot_root : Z
}.
Definition kern_new : Kern := mkKern ∅ ∅ 0 0 0.

Record TMS := mkTMS { tms_utime : Z; tms_stime : Z; tms_cutime : Z; tms_cstime : Z }.
Definition tms_default : TMS := mkTMS 0 0 0 0.

Definition FILE_MAX : Z := 255.
Definition AT_CWD : Z := -100.

Section process.
Context {S H : Type} (ops : INodeOps S H).

(** A thread in [threads]: its id and whether the weak reference still
    upgrades. *)
Record ProcessControlBlock := mkPcb {
  pcb_memset : MemSet H;
  pcb_fd_table : list (option Z);
  pcb_curr_dir : Z;
  pcb_heap : Z;
  pcb_entry : Z;
  pcb_children : list Z;
  pcb_tms : TMS;
  pcb_rlimits : list Z;
  pcb_sigaction : list SigAction;
  pcb_futex_table : FutexTable;
  pcb_shms : list MapedSharedMemory;
  pcb_timer : list ProcessTimer;
  pcb_threads : list (Z * bool);
  pcb_exit_code : option Z;
  pcb_exit_signal : option Z;
  pcb_core_dumped : bool;
  pcb_umask : Z
}.

Record Proc := mkProc {
  p_world : World S;
  p_mounted : MOUNTED_FS H;
  p_files : gmap Z (File H);           (* open files, by [Arc] *)
  p_pcb : ProcessControlBlock;
  p_tcb : ThreadControlBlock;
  p_tid : Z;
  p_pid : Z;
  p_parent : option ThreadControlBlock; (* the parent, while it upgrades *)
  p_kern : Kern
}.

(** *** Field updates *)
Definition with_memset (v : MemSet H) (p : ProcessControlBlock) : ProcessControlBlock :=
  let '(mkPcb _ b c d e f g h i j k l m n o q r) := p in mkPcb v b c d e f g h i j k l m n o q r.
Definition with_fd_table (v : list (option Z)) (p : ProcessControlBlock) : ProcessControlBlock :=
  let '(mkPcb a _ c d e f g h i j k l m n o q r) := p in mkPcb a v c d e f g h i j k l m n o q r.
Definition with_heap (v : Z) (p : ProcessControlBlock) : ProcessControlBlock :=
  let '(mkPcb a b c _ e f g h i j k l m n o q r) := p in mkPcb a b c v e f g h i j k l m n o q r.
Definition with_children (v : list Z) (p : ProcessControlBlock) : ProcessControlBlock :=
  let '(mkPcb a b c d e _ g h i j k l m n o q r) := p in mkPcb a b c d e v g h i j k l m n o q r.
Definition with_rlimits (v : list Z) (p : ProcessControlBlock) : ProcessControlBlock :=
  let '(mkPcb a b c d e f g _ i j k l m n o q r) := p in mkPcb a b c d e f g v i j k l m n o q r.
Definition with_futex_table (v : FutexTable) (p : ProcessControlBlock) : ProcessControlBlock :=
  let '(mkPcb a b c d e f g h i _ k l m n o q r) := p in mkPcb a b c d e f g h i v k l m n o q r.
Definition with_shms (v : list MapedSharedMemory) (p : ProcessControlBlock) : ProcessControlBlock :=
  let '(mkPcb a b c d e f g h i j _ l m n o q r) := p in mkPcb a b c d e f g h i j v l m n o q r.
Definition with_threads (v : list (Z * bool)) (p : ProcessControlBlock) : ProcessControlBlock :=
  let '(mkPcb a b c d e f g h i j k l _ n o q r) := p in mkPcb a b c d e f g h i j k l v n o q r.
Definition with_exit_code (v : option Z) (p : ProcessControlBlock) : ProcessControlBlock :=
  let '(mkPcb a b c d e f g h i j k l m _ o q r) := p in mkPcb a b c d e f g h i j k l m v o q r.
Definition with_exit_signal (s : option Z) (dump : bool) (p : ProcessControlBlock) : ProcessControlBlock :=
  let '(mkPcb a b c d e f g h i j k l m n _ _ r) := p in mkPcb a b c d e f g h i j k l m n s dump r.
Definition with_umask (v : Z) (p : ProcessControlBlock) : ProcessControlBlock :=
  let '(mkPcb a b c d e f g h i j k l m n o q _) := p in mkPcb a b c d e f g h i j k l m n o q v.
Definition with_curr_dir (v : Z) (p : ProcessControlBlock) : ProcessControlBlock :=
  let '(mkPcb a b _ d e f g h i j k l m n o q r) := p in mkPcb a b v d e f g h i j k l m n o q r.

Definition set_world (w : World S) (p : Proc) : Proc :=
  mkProc w (p_mounted p) (p_files p) (p_pcb p) (p_tcb p) (p_tid p) (p_pid p) (p_parent p) (p_kern p).
Definition set_mounted (m : MOUNTED_FS H) (p : Proc) : Proc :=
  mkProc (p_world p) m (p_files p) (p_pcb p) (p_tcb p) (p_tid p) (p_pid p) (p_parent p) (p_kern p).
Definition set_files (fs : gmap Z (File H)) (p : Proc) : Proc :=
  mkProc (p_world p) (p_mounted p) fs (p_pcb p) (p_tcb p) (p_tid p) (p_pid p) (p_parent p) (p_kern p).
Definition set_pcb (b : ProcessControlBlock) (p : Proc) : Proc :=
  mkProc (p_world p) (p_mounted p) (p_files p) b (p_tcb p) (p_tid p) (p_pid p) (p_parent p) (p_kern p).
Definition set_tcb (t : ThreadControlBlock) (p : Proc) : Proc :=
  mkProc (p_world p) (p_mounted p) (p_files p) (p_pcb p) t (p_tid p) (p_pid p) (p_parent p) (p_kern p).
Definition set_parent (t : option ThreadControlBlock) (p : Proc) : Proc :=
  mkProc (p_world p) (p_mounted p) (p_files p) (p_pcb p) (p_tcb p) (p_tid p) (p_pid p) t (p_kern p).
Definition set_kern (k : Kern) (p : Proc) : Proc :=
  mkProc (p_world p) (p_mounted p) (p_files p) (p_pcb p) (p_tcb p) (p_tid p) (p_pid p) (p_parent p) k.

Definition map_pcb (f : ProcessControlBlock → ProcessControlBlock) (p : Proc) : Proc := set_pcb (f (p_pcb p)) p.

(** Computations of a syscall: [K] can fail with an errno, [M] cannot. *)
Definition K (A : Type) : Type := vfs Proc A.
Notation M := (ST Proc).

Definition k_of {A} (m : M A) : K A := λ p, '(a, p) ← m p; Val (Ok a, p).
Definition k_ret {A} (r : result A) : K A := λ p, Val (r, p).
Definition k_world {A} (m : ST (World S) A) : M A := λ p, '(a, w) ← m (p_world p); Val (a, set_world w p).

(** A file-system operation. *)
Definition k_fs {A} (m : vfs S A) : K A := λ p,
  '(r, s) ← m (w_fs (p_world p)); Val (r, set_world (set_fs s (p_world p)) p).

(** An operation on an open file object. *)
Definition on_open {R} (id : Z) (f : File H → S → outcome (R * File H * S)) : M R := λ p,
  file ← unwrap (p_files p !! id);
  '(r, file, s) ← f file (w_fs (p_world p));
  Val (r, set_files (<[id := file]> (p_files p)) (set_world (set_fs s (p_world p)) p)).

(** [Arc::new(file)]: a new open file object. *)
Definition new_file (f : File H) : M Z := λ p,
  let id := fresh (dom (p_files p)) in Val (id, set_files (<[id := f]> (p_files p)) p).

(** ** [filetable.rs] *)
Definition rlimits_new : list Z := <[4%nat := usize_max]> (<[7%nat := FILE_MAX]> (replicate 8 0)).

Definition file_table_new (tty : Z) : list (option Z) :=
  replicate 3 (Some tty) ++ replicate (Z.to_nat FILE_MAX - 3) None.

(** ** Descriptors *)
(** [rlimits[7]] *)
Definition nofile (p : Proc) : outcome Z := unwrap (pcb_rlimits (p_pcb p) !! 7%nat).

(** [get_fd]: the index is checked against the limit, not the table. *)
Definition get_fd (index : Z) : M (option Z) := λ p,
  limit ← nofile p;
  if limit <=? index then Val (None, p)
  else e ← unwrap (pcb_fd_table (p_pcb p) !! Z.to_nat index); Val (e, p).

Definition set_fd (index value : Z) : M unit := λ p,
  limit ← nofile p;
  if limit <=? index then Val (tt, p)
  else
    _ ← unwrap (pcb_fd_table (p_pcb p) !! Z.to_nat index);
    Val (tt, map_pcb (with_fd_table (<[Z.to_nat index := Some value]> (pcb_fd_table (p_pcb p)))) p).

Definition clear_fd (index : Z) : M unit := λ p,
  let t := pcb_fd_table (p_pcb p) in
  if Z.of_nat (length t) <=? index then Val (tt, p)
  else Val (tt, map_pcb (with_fd_table (<[Z.to_nat index := None]> t)) p).

Definition alloc_fd : M (option Z) := λ p,
  limit ← nofile p;
  let t := pcb_fd_table (p_pcb p) in
  let index := (λ x, Z.of_nat x.1) <$> list_find (λ x : nat * option Z, x.2 = None ∧ Z.of_nat x.1 < limit)
                 (imap (λ i e, (i, e)) t) in
  match index with
  | None =>
      if Z.of_nat (length t) <? limit
      then Val (Some (Z.of_nat (length t)), map_pcb (with_fd_table (t ++ [None])) p)
      else Val (None, p)
  | Some i => Val (Some i, p)
  end.

(** [filename.starts_with("/")] *)
Definition starts_with_slash (s : string) : bool :=
  match s with String c _ => bool_decide (c = slash) | EmptyString => false end.

Definition fd_resolve (fd : Z) (filename : string) : K PathBuf := λ p,
  if starts_with_slash filename then Val (Ok (pb_from filename), p)
  else
    let parent :=
      if fd =? AT_CWD then Some (pcb_curr_dir (p_pcb p))
      else pcb_fd_table (p_pcb p) !! Z.to_nat (as_usize fd) ≫= id in
    match parent with
    | None => Val (Err EBADF, p)
    | Some id =>
        file ← unwrap (p_files p !! id);
        Val (Ok (pb_join (f_path_buf file) filename), p)
    end.

Definition fd_open (fd : Z) (filename : string) (flags : Z) : K (File H) :=
  path ←? fd_resolve fd filename;
  λ p, k_fs (file_open ops (p_mounted p) path flags) p.
(** ** Physical memory *)
(** Bytes written from physical address [a] on. *)
Fixpoint phys_store (bs : list Z) (a : Z) : PT unit :=
  match bs with
  | [] => mret tt
  | b :: bs => λ ph,
      let page_addr := floor_page a in
      page ← unwrap (ph_ram ph !! page_addr);
      phys_store bs (a + 1)
        (mkPhys (ph_alloc ph) (<[page_addr := <[Z.to_nat (a mod PAGE_SIZE) := b]> page]> (ph_ram ph)))
  end.

(** ** Leaving *)
(** The [clear_child_tid] protocol: clear the word and wake one waiter. *)
Definition notify_exit : M unit := λ p,
  let uaddr := tcb_clear_child_tid (p_tcb p) in
  if uaddr =? 0 then Val (tt, p)
  else
    '(res, p) ← k_world (translate uaddr) p;
    match res with
    | None => Val (tt, p)
    | Some (addr, _) =>
        '(_, p) ← k_world (lift_phys (phys_store (le_bytes 4 0) addr)) p;
        '(_, t) ← futex_wake (pcb_futex_table (p_pcb p)) uaddr 1;
        Val (tt, map_pcb (with_futex_table t) p)
    end.

(** [threads.retain(..)]: the live threads but this one. *)
Definition other_threads (p : Proc) : list (Z * bool) :=
  filter (λ x : Z * bool, x.2 = true ∧ x.1 ≠ p_tid p) (pcb_threads (p_pcb p)).

(** [memset.clear()] of the process. *)
Definition clear_memset : M unit := λ p,
  '(areas, w) ← memset_clear ops (pcb_memset (p_pcb p)) (p_world p);
  Val (tt, map_pcb (with_memset areas) (set_world w p)).

Definition signal_parent (exit_signal : Z) (p : Proc) : Proc :=
  set_parent (tcb_add_signal (if negb (exit_signal =? 0) then from_num exit_signal else SIGCHLD) <$> p_parent p) p.

(** The last thread of a process leaves: release everything and tell the
    parent. *)
Definition cleanup_process (exit_code exit_signal : Z) : M unit := λ p,
  '(_, p) ← clear_memset p;
  let p := map_pcb (with_exit_code (Some exit_code) ∘ with_children [] ∘ with_fd_table []) p in
  Val (tt, signal_parent exit_signal p).

Definition leave (exit_code exit_signal : Z) : M unit := λ p,
  let p := map_pcb (with_threads (other_threads p)) p in
  if (p_tid p =? p_pid p) && bool_decide (pcb_threads (p_pcb p) = [])
  then cleanup_process exit_code exit_signal p
  else Val (tt, p).

(** [UserTask::exit] *)
Definition exit_ (exit_code : Z) : M unit := λ p,
  '(_, p) ← notify_exit p;
  let exit_signal := tcb_exit_signal (p_tcb p) in
  leave exit_code exit_signal (map_pcb (with_exit_code (Some exit_code)) p).

(** [UserTask::thread_exit] *)
Definition thread_exit (exit_code : Z) : M unit := λ p,
  '(_, p) ← notify_exit p;
  let p := set_tcb (set_thread_exit_code (Some (exit_code mod 2 ^ 32)) (p_tcb p)) p in
  let exit_signal := tcb_exit_signal (p_tcb p) in
  leave exit_code exit_signal p.

(** [UserTask::exit_with_signal] *)
Definition should_dump_core (signal : Z) : bool := bool_decide (signal ∈ [3; 4; 5; 6; 8; 10; 11]).

Definition exit_with_signal (signal : Z) : M unit := λ p,
  exit_ 0 (map_pcb (with_exit_code (Some 0) ∘ with_exit_signal (Some signal) (should_dump_core signal)) p).

(** [UserTask::release]: the task must have ended. *)
Definition release (p : Proc) : outcome unit :=
  assert_ (bool_decide (is_Some (pcb_exit_code (p_pcb p))) || bool_decide (is_Some (tcb_thread_exit_code (p_tcb p)))).

(** [UserTaskContainer::check_thread_exit] *)
Definition check_thread_exit (p : Proc) : option Z :=
  match pcb_exit_code (p_pcb p) with
  | Some c => Some c
  | None => tcb_thread_exit_code (p_tcb p)
  end.

(** [UserTask::simple_cleanup]: close every descriptor. *)
Definition simple_cleanup (p : Proc) : Proc :=
  map_pcb (with_fd_table (replicate (length (pcb_fd_table (p_pcb p))) None)) p.

(** ** Threads *)
(** [UserTask::thread_clone]: the new thread's control block and the process
    with the thread registered. *)
Definition thread_clone (task_id : Z) (p : Proc) : ThreadControlBlock * Proc :=
  let t := p_tcb p in
  let tcb := mkTcb (tf_set (tcb_cx t) RET 0) (tcb_sigmask t) 0 0 signal_list_new
               (replicate (Z.to_nat REAL_TIME_SIGNAL_NUM) 0) 0 None 0 0 in
  (tcb, map_pcb (with_threads (filter (λ x : Z * bool, x.2 = true) (pcb_threads (p_pcb p)) ++ [(task_id, true)])) p).
(** ** Properties *)
Definition fd_limit (p : Proc) (n : Z) : Prop := pcb_rlimits (p_pcb p) !! 7%nat = Some n.

Lemma nofile_spec p n : fd_limit p n → nofile p = Val n.
Proof. unfold nofile, fd_limit. by intros ->. Qed.

(** Looking for a free slot in the enumerated table. *)
Lemma find_free_spec (t : list (option Z)) limit :
  match list_find (λ x : nat * option Z, x.2 = None ∧ Z.of_nat x.1 < limit) (imap (λ i e, (i, e)) t) with
  | Some (i, _) => t !! i = Some None ∧ Z.of_nat i < limit ∧ ∀ j e, (j < i)%nat → t !! j = Some e → is_Some e
  | None => ∀ j e, t !! j = Some e → Z.of_nat j < limit → is_Some e
  end.
Proof.
  destruct (list_find _ _) as [[i [i' e]]|] eqn:E.
  - apply list_find_Some in E as (Hi & [He Hl] & Hb). rewrite list_lookup_imap in Hi.
    destruct (t !! i) as [e0|] eqn:Et; simplify_eq/=. split_and!; [done|done|].
    intros j e Hj Hte. destruct e as [x|]; [by eexists|]. exfalso.
    apply (Hb j (j, None)); [|done|split; simpl; [done|lia]].
    by rewrite list_lookup_imap, Hte.
  - apply list_find_None in E. rewrite Forall_forall in E. intros j e Hte Hj.
    destruct e as [x|]; [by eexists|]. exfalso. apply (E (j, None)); [|by split].
    apply list_elem_of_lookup. exists j. by rewrite list_lookup_imap, Hte.
Qed.

Lemma with_fd_table_table t (b : ProcessControlBlock) : pcb_fd_table (with_fd_table t b) = t.
Proof. by destruct b. Qed.
Lemma with_fd_table_rlimits t (b : ProcessControlBlock) : pcb_rlimits (with_fd_table t b) = pcb_rlimits b.
Proof. by destruct b. Qed.

Lemma table_of_map t p : pcb_fd_table (p_pcb (map_pcb (with_fd_table t) p)) = t.
Proof. apply with_fd_table_table. Qed.

(** [alloc_fd] finds the lowest free descriptor below the limit, growing the
    table by one when the table is full. *)
Lemma alloc_fd_spec p limit :
  fd_limit p limit →
  let t := pcb_fd_table (p_pcb p) in
  ∃ res p', alloc_fd p = Val (res, p') ∧ p' = map_pcb (with_fd_table (pcb_fd_table (p_pcb p'))) p ∧
    match res with
    | Some i => 0 ≤ i < limit ∧ pcb_fd_table (p_pcb p') !! Z.to_nat i = Some None ∧
        (∀ j, (j < Z.to_nat i)%nat → ∃ f, t !! j = Some (Some f)) ∧
        (∀ j, t !! j ≠ None → pcb_fd_table (p_pcb p') !! j = t !! j)
    | None => p' = p ∧ limit ≤ Z.of_nat (length t) ∧ ∀ j e, t !! j = Some e → Z.of_nat j < limit → is_Some e
    end.
Proof.
  intros Hl t. unfold alloc_fd. rewrite (nofile_spec p limit) by done. cbn [mbind outcome_bind].
  fold t. pose proof (find_free_spec t limit) as Hf.
  destruct (list_find _ _) as [[i x]|]; cbn [fmap option_fmap option_map fst].
  - exists (Some (Z.of_nat i)), p. split; [done|].
    split; [destruct p as [? ? ? b]; unfold map_pcb, set_pcb; simpl; by destruct b|].
    destruct Hf as (Ht & Hil & Hb). rewrite Nat2Z.id. split_and!; [lia|lia|done| |done].
    intros j Hj. assert (is_Some (t !! j)) as [e He].
    { apply lookup_lt_is_Some. apply lookup_lt_Some in Ht. lia. }
    destruct (Hb j e Hj He) as [f ->]. eauto.
  - destruct (Z.ltb_spec (Z.of_nat (length t)) limit) as [Hlt|Hge].
    + eexists _, _. split; [done|]. rewrite table_of_map. split; [done|]. rewrite Nat2Z.id. split_and!; [lia|lia|by rewrite lookup_app_r, Nat.sub_diag by lia| |].
      * intros j Hj. destruct (lookup_lt_is_Some_2 t j Hj) as [e He].
        destruct (Hf j e He) as [f ->]; [lia|]. eauto.
      * intros j Hj. apply lookup_app_l. by apply lookup_lt_is_Some, not_eq_None_Some.
    + exists None, p. split; [done|].
      split; [destruct p as [? ? ? b]; unfold map_pcb, set_pcb; simpl; by destruct b|]. done.
Qed.

(** *** Bytes of one frame *)
Definition set_frame (f : Z) (page : list Z) (ph : Phys) : Phys := mkPhys (ph_alloc ph) (<[f := page]> (ph_ram ph)).

Lemma phys_store_frame ph f o b page :
  f mod PAGE_SIZE = 0 → 0 ≤ o < PAGE_SIZE → ph_ram ph !! f = Some page →
  phys_store [b] (f + o) ph = Val (tt, set_frame f (<[Z.to_nat o := b]> page) ph).
Proof.
  intros Hf Ho Hp. unfold phys_store, PAGE_SIZE in *.
  assert (floor_page (f + o) = f) as ->.
  { unfold floor_page, PAGE_SIZE. rewrite (Z.div_mod f 4096), Hf by done.
    replace (4096 * (f / 4096) + 0 + o) with (o + (f / 4096) * 4096) by lia.
    rewrite Z.div_add, (Z.div_small o) by lia. lia. }
  rewrite Hp. cbn [unwrap mbind outcome_bind]. do 3 f_equal. unfold set_frame, PAGE_SIZE. do 3 f_equal.
  rewrite Z.add_mod, Hf by lia. rewrite (Z.mod_small o), Z.add_0_l, (Z.mod_small o) by lia. done.
Qed.

Lemma phys_store_page bs : ∀ ph f o page,
  f mod PAGE_SIZE = 0 → 0 ≤ o → o + Z.of_nat (length bs) ≤ PAGE_SIZE → ph_ram ph !! f = Some page →
  phys_store bs (f + o) ph = Val (tt, set_frame f (list_inserts (Z.to_nat o) bs page) ph).
Proof.
  induction bs as [|b bs IH]; intros ph f o page Hf Ho Hl Hp.
  { cbn. unfold set_frame. rewrite insert_id by done. by destruct ph. }
  simpl in Hl. pose proof (phys_store_frame ph f o b page Hf ltac:(lia) Hp) as E1.
  cbn [phys_store] in E1 |- *. destruct (unwrap _) as [pg|]; [|done]. cbn [mbind outcome_bind] in E1 |- *.
  assert (∀ X Y : Phys, @mret (ST Phys) _ unit tt X = Val (tt, Y) → X = Y) as Hi by (by intros X Y [= ->]).
  apply Hi in E1. rewrite E1. replace (f + o + 1) with (f + (o + 1)) by lia.
  rewrite (IH _ _ _ (<[Z.to_nat o := b]> page)); [|done|lia|lia|unfold set_frame; simpl; by rewrite lookup_insert_eq].
  do 2 f_equal. unfold set_frame. simpl. f_equal. rewrite insert_insert_eq. f_equal.
  rewrite list_insert_inserts_lt by lia. f_equal. lia.
Qed.

(** *** Leaving a process *)
(** Memory the process may give back. *)
Record mem_ok (T : Tree) (p : Proc) : Prop := {
  mo_anon : Forall anonymous (pcb_memset (p_pcb p));
  mo_world : world_ok T (p_world p);
  mo_owned : owned (trackers_of (pcb_memset (p_pcb p))) (p_world p)
}.

(** What the end of a process leaves alone: the thread and the actions. *)
Definition stays (p p' : Proc) : Prop :=
  p_tcb p' = p_tcb p ∧ p_tid p' = p_tid p ∧ pcb_sigaction (p_pcb p') = pcb_sigaction (p_pcb p).

(** The word to clear is in the page the entry [e] maps: not a page table, and
    the word does not cross into the next page. *)
Record word_mapped (T : Tree) (p : Proc) (e : Z) : Prop := {
  wm_user : user_addr (tcb_clear_child_tid (p_tcb p));
  wm_fits : tcb_clear_child_tid (p_tcb p) mod PAGE_SIZE + 4 ≤ PAGE_SIZE;
  wm_mmu : mmu (p_world p) (tcb_clear_child_tid (p_tcb p)) = Some e;
  wm_frame : frame_ok (pte_address e) ∧ ∀ q, T !! q ≠ Some (pte_address e);
  wm_ram : is_Some (ph_ram (w_phys (p_world p)) !! pte_address e)
}.

(** What [notify_exit] can do: there is no word to clear, or no table for its
    page, or its page is mapped. *)
Definition tid_word_ok (T : Tree) (p : Proc) : Prop :=
  let uaddr := tcb_clear_child_tid (p_tcb p) in
  uaddr = 0 ∨ user_addr uaddr ∧ T !! path_of uaddr = None ∨ ∃ e, word_mapped T p e.

(** Memory and the waiters of the word after [notify_exit]. *)
Definition clear_word (p : Proc) (e : Z) (page : list Z) : Phys :=
  set_frame (pte_address e) (list_inserts (Z.to_nat (tcb_clear_child_tid (p_tcb p) mod PAGE_SIZE)) (replicate 4 0) page) (w_phys (p_world p)).

Definition notified (T : Tree) (p : Proc) (ph : Phys) (t : FutexTable) : Prop :=
  (ph = w_phys (p_world p) ∧ t = pcb_futex_table (p_pcb p) ∧ ¬ ∃ e, word_mapped T p e ∧ tcb_clear_child_tid (p_tcb p) ≠ 0) ∨
  ∃ e page n, word_mapped T p e ∧ ph_ram (w_phys (p_world p)) !! pte_address e = Some page ∧ ph = clear_word p e page ∧
    futex_wake (pcb_futex_table (p_pcb p)) (tcb_clear_child_tid (p_tcb p)) 1 = Val (n, t).

Lemma futex_wake_one t u : ∃ n t', futex_wake t u 1 = Val (n, t').
Proof.
  unfold futex_wake. destruct (t !! u) as [q|]; simpl; [|by eexists _, _].
  destruct (Z.eqb_spec (Z.of_nat (length q)) 0); [by eexists _, _|]. unfold drain.
  rewrite (proj2 (Z.leb_le _ _)) by lia. by eexists _, _.
Qed.

Lemma inserts_zero_page i n : (i + n ≤ 4096)%nat → list_inserts i (replicate n 0) zero_page = zero_page.
Proof.
  revert i. induction n as [|n IH]; intros i Hi; [done|]. simpl. rewrite IH by lia.
  apply list_insert_id. unfold zero_page. apply lookup_replicate_2. unfold PAGE_SIZE. lia.
Qed.

Lemma notify_exit_spec T p :
  world_ok T (p_world p) → tid_word_ok T p →
  ∃ ph t, notify_exit p = Val (tt, map_pcb (with_futex_table t) (set_world (set_phys ph (p_world p)) p)) ∧
    world_ok T (set_phys ph (p_world p)) ∧ notified T p ph t ∧
    (∀ v, leaf T ph v = leaf T (w_phys (p_world p)) v) ∧
    (∀ q, is_Some (ph_ram (w_phys (p_world p)) !! q) → is_Some (ph_ram ph !! q)).
Proof.
  intros Hw Hok. set (uaddr := tcb_clear_child_tid (p_tcb p)).
  assert (∀ e, word_mapped T p e → leaf T (w_phys (p_world p)) uaddr = e ∧ is_Some (T !! path_of uaddr)) as Hleaf.
  { intros e [Hu _ He _ _]. fold uaddr in Hu, He. rewrite (mmu_leaf T) in He by done.
    destruct (contains _ _) eqn:Ev; [|done]. injection He as He. split; [done|]. unfold leaf in *.
    destruct (T !! path_of uaddr); [done|]. by vm_compute in Ev. }
  assert (map_pcb (with_futex_table (pcb_futex_table (p_pcb p))) (set_world (set_phys (w_phys (p_world p)) (p_world p)) p) = p) as Hid.
  { destruct p as [[] ? ? []]. done. }
  unfold notify_exit. fold uaddr. destruct (Z.eqb_spec uaddr 0) as [H0|H0].
  { exists (w_phys (p_world p)), (pcb_futex_table (p_pcb p)). rewrite Hid. split; [done|]. split; [by destruct (p_world p)|]. split; [|done].
    left. split_and!; try done. intros (? & _ & ?). done. }
  unfold k_world, translate, lift_phys.
  destruct Hok as [?|[[Hu HT]|[e Hm]]]; [done|..].
  - fold uaddr in Hu, HT. rewrite (pt_translate_leaf _ T), HT by (done || apply Hw). cbn [mbind outcome_bind].
    exists (w_phys (p_world p)), (pcb_futex_table (p_pcb p)). rewrite Hid.
    split; [by destruct p as [[] ? ? []]|]. split; [by destruct (p_world p)|]. split; [|done].
    left. split_and!; try done. intros (e & [_ [x Hx]]%Hleaf & _). congruence.
  - destruct (Hleaf e Hm) as [He [t0 Ht0]]. destruct Hm as [Hu Hfit Hmmu [Hf HnT] [page Hp]]. fold uaddr in Hu, Hfit, Hmmu.
    rewrite (pt_translate_leaf _ T), Ht0, He by (done || apply Hw). cbn [mbind outcome_bind].
    pose proof (Z.mod_pos_bound uaddr PAGE_SIZE ltac:(done)) as Hmod. rewrite pn_offset_0, wadd_small.
    2: { destruct Hf as [? _]. unfold PAGE_SIZE in *. word_lia. }
    cbn [p_world set_world w_phys set_phys]. destruct Hf as [Hf1 Hf2].
    rewrite (phys_store_page (le_bytes 4 0) _ _ _ page); [|done|lia|exact Hfit|done].
    cbn [mbind outcome_bind]. destruct (futex_wake_one (pcb_futex_table (p_pcb p)) uaddr) as (n & t & Ew).
    cbn [p_pcb set_world]. rewrite Ew. cbn [mbind outcome_bind]. change (le_bytes 4 0) with (replicate 4 0).
    exists (clear_word p e page), t. split; [by destruct p as [[] ? ? []]|].
    assert (∀ q, is_Some (ph_ram (w_phys (p_world p)) !! q) → is_Some (ph_ram (clear_word p e page) !! q)) as Hram.
    { intros q Hq. unfold clear_word, set_frame. cbn [ph_ram]. rewrite lookup_insert_is_Some'. by right. }
    destruct (pt_inv_other (w_root (p_world p)) T (w_phys (p_world p)) (clear_word p e page)) as [Hpt Hlf]; [apply Hw|apply Hw|done| | |].
    { intros q Hq. unfold clear_word, set_frame. cbn [ph_ram]. pose proof (pi_zero _ _ _ (wo_pt _ _ Hw) q Hq) as Hz.
      destruct (decide (pte_address e = q)) as [Heq|]; [|by rewrite lookup_insert_ne].
      subst q. rewrite lookup_insert_eq. assert (page = zero_page) as -> by congruence. f_equal. apply (inserts_zero_page _ 4).
      fold uaddr. unfold PAGE_SIZE in *. lia. }
    { intros q f Hq. destruct (pi_tab _ _ _ (wo_pt _ _ Hw) q f Hq) as (_ & ? & _). split; [done|].
      unfold clear_word, set_frame. cbn [ph_ram]. apply lookup_insert_ne. intros E. apply (HnT q). by rewrite E. }
    split; [split; [exact Hpt|exact (wo_rc _ _ Hw)]|]. split; [|done].
    right. exists e, page, n. by split_and!.
Qed.

Lemma notify_exit_none p : tcb_clear_child_tid (p_tcb p) = 0 → notify_exit p = Val (tt, p).
Proof. intros E. unfold notify_exit. by rewrite E. Qed.

Lemma cleanup_process_spec T p code sig :
  mem_ok T p →
  ∃ p', cleanup_process code sig p = Val (tt, p') ∧
    pcb_memset (p_pcb p') = [] ∧ pcb_fd_table (p_pcb p') = [] ∧ pcb_children (p_pcb p') = [] ∧
    pcb_exit_code (p_pcb p') = Some code ∧ pcb_threads (p_pcb p') = pcb_threads (p_pcb p) ∧
    p_parent p' = p_parent (signal_parent sig p) ∧
    (pcb_exit_signal (p_pcb p') = pcb_exit_signal (p_pcb p) ∧ pcb_core_dumped (p_pcb p') = pcb_core_dumped (p_pcb p) ∧
     p_pid p' = p_pid p ∧ stays p p' ∧ world_ok T (p_world p')) ∧
    (pcb_futex_table (p_pcb p') = pcb_futex_table (p_pcb p) ∧ ram_stays (p_world p) (p_world p') ∧
     ∀ v, user_addr v → leaf T (w_phys (p_world p')) v = leaf T (w_phys (p_world p)) v) ∧
    (∀ q, (0 < strong_count q (p_world p))%nat →
       strong_count q (p_world p) = refs (trackers_of (pcb_memset (p_pcb p))) q →
       q ∈ fa_free (ph_alloc (w_phys (p_world p')))).
Proof.
  intros [Han Hw Ho]. unfold cleanup_process, clear_memset.
  destruct (memset_clear_spec ops T (pcb_memset (p_pcb p)) (p_world p)) as (w' & E & Hw' & [Hl Hr] & Hc & _ & Hf); [done..|].
  rewrite E. cbn [mbind outcome_bind]. eexists. split; [done|].
  destruct p as [w m fs b t i j par kn]; destruct b. simpl in *.
  split_and!; try done. intros q Hq1 Hq2. apply Hf; [done|]. rewrite Hc. lia.
Qed.

(** The word stays as it is for a thread that leaves again. *)
Lemma tid_word_kept T p p' :
  tid_word_ok T p → world_ok T (p_world p) → world_ok T (p_world p') →
  tcb_clear_child_tid (p_tcb p') = tcb_clear_child_tid (p_tcb p) →
  (∀ v, user_addr v → leaf T (w_phys (p_world p')) v = leaf T (w_phys (p_world p)) v) → ram_stays (p_world p) (p_world p') →
  tid_word_ok T p'.
Proof.
  intros Hok Hw Hw' Et Hl Hr. unfold tid_word_ok in *. rewrite Et. destruct Hok as [?|[?|[e [Hu ? Hm ? Hp]]]]; [by left|by right; left|].
  right. right. exists e. split; rewrite ?Et; try done; [|by apply Hr]. rewrite (mmu_leaf T) in Hm |- * by done. by rewrite Hl.
Qed.

Lemma tid_word_same T p p' :
  tid_word_ok T p → p_world p' = p_world p → tcb_clear_child_tid (p_tcb p') = tcb_clear_child_tid (p_tcb p) → tid_word_ok T p'.
Proof.
  unfold tid_word_ok. intros Hok Ew Et. rewrite Et. destruct Hok as [?|[?|[e [? ? ? ? ?]]]]; [by left|by right; left|].
  right. right. exists e. split; rewrite ?Et, ?Ew; done.
Qed.

(** Leaving as the last thread. *)
Lemma exit_last_spec T p code :
  tid_word_ok T p → p_tid p = p_pid p → other_threads p = [] → mem_ok T p →
  ∃ p', exit_ code p = Val (tt, p') ∧
    pcb_memset (p_pcb p') = [] ∧ pcb_fd_table (p_pcb p') = [] ∧ pcb_children (p_pcb p') = [] ∧
    pcb_exit_code (p_pcb p') = Some code ∧ pcb_threads (p_pcb p') = [] ∧
    p_parent p' =
      tcb_add_signal (if tcb_exit_signal (p_tcb p) =? 0 then SIGCHLD else from_num (tcb_exit_signal (p_tcb p)))
        <$> p_parent p ∧
    (pcb_exit_signal (p_pcb p') = pcb_exit_signal (p_pcb p) ∧ pcb_core_dumped (p_pcb p') = pcb_core_dumped (p_pcb p) ∧
     p_pid p' = p_pid p ∧ stays p p' ∧ world_ok T (p_world p')) ∧
    (tid_word_ok T p' ∧
     ∃ ph, notify_exit p = Val (tt, map_pcb (with_futex_table (pcb_futex_table (p_pcb p'))) (set_world (set_phys ph (p_world p)) p)) ∧
       notified T p ph (pcb_futex_table (p_pcb p'))) ∧
    (∀ q, (0 < strong_count q (p_world p))%nat →
       strong_count q (p_world p) = refs (trackers_of (pcb_memset (p_pcb p))) q →
       q ∈ fa_free (ph_alloc (w_phys (p_world p')))).
Proof.
  intros Hc Hm Ho [Han Hw How]. unfold exit_.
  destruct (notify_exit_spec T p Hw Hc) as (ph & ft & En & Hw1 & Hnot & Hlf & Hram).
  rewrite En. cbn [mbind outcome_bind].
  set (q := map_pcb (with_threads []) (map_pcb (with_exit_code (Some code)) (map_pcb (with_futex_table ft) (set_world (set_phys ph (p_world p)) p)))).
  destruct (cleanup_process_spec T q code (tcb_exit_signal (p_tcb p)))
    as (p' & E & ? & ? & ? & ? & Ht & Hp & (? & ? & ? & (Etcb & ? & ?) & Hw') & (Eft & Hr' & Hl') & Hf).
  { unfold q. destruct p as [? ? ? []]. by split. }
  exists p'. assert (leave code (tcb_exit_signal (p_tcb p)) (map_pcb (with_exit_code (Some code))
      (map_pcb (with_futex_table ft) (set_world (set_phys ph (p_world p)) p))) = Val (tt, p')) as El.
  { rewrite <- E. unfold q. destruct p as [? ? ? []]. unfold leave, other_threads, map_pcb, set_pcb in *. simpl in *.
    rewrite Ho, Hm, Z.eqb_refl. done. }
  assert (tid_word_ok T p') as Hwok.
  { apply (tid_word_kept T p); try done; [by rewrite Etcb| |].
    - intros v Hv. rewrite Hl' by done. unfold q. rewrite <- Hlf. by destruct p as [? ? ? []].
    - intros x Hx. apply Hr'. unfold q. destruct p as [? ? ? []]. by apply Hram. }
  assert (pcb_futex_table (p_pcb p') = ft) as Eft' by (rewrite Eft; unfold q; by destruct p as [? ? ? []]).
  assert (∀ x, strong_count x (p_world q) = strong_count x (p_world p) ∧ pcb_memset (p_pcb q) = pcb_memset (p_pcb p)) as Hq
    by (intros x; unfold q; by destruct p as [? ? ? []]).
  unfold q in *. clear q. split; [exact El|]. destruct p as [w m fs b t i j par kn]; destruct b. simpl in *.
  split_and!; try done; [by destruct (tcb_exit_signal t =? 0)|exists ph; rewrite Eft'; by split].
Qed.

(** C15: [exit] of the main thread when no other thread of the process is left:
    the word the thread asked to be cleared is cleared and one waiter on it
    woken, all areas, descriptors and children are given up, the exit code is
    recorded, the parent gets the exit signal (or SIGCHLD), and every frame
    only this process referred to is free again.  The word must be absent, in
    a page without a leaf table or in a mapped page; the areas are anonymous. *)
Theorem exit_releases_process T p code :
  tid_word_ok T p → p_tid p = p_pid p → other_threads p = [] → mem_ok T p →
  ∃ p', exit_ code p = Val (tt, p') ∧
    pcb_memset (p_pcb p') = [] ∧ pcb_fd_table (p_pcb p') = [] ∧ pcb_children (p_pcb p') = [] ∧
    pcb_exit_code (p_pcb p') = Some code ∧ pcb_threads (p_pcb p') = [] ∧
    p_parent p' =
      tcb_add_signal (if tcb_exit_signal (p_tcb p) =? 0 then SIGCHLD else from_num (tcb_exit_signal (p_tcb p)))
        <$> p_parent p ∧
    (∃ ph, notify_exit p = Val (tt, map_pcb (with_futex_table (pcb_futex_table (p_pcb p'))) (set_world (set_phys ph (p_world p)) p)) ∧
       notified T p ph (pcb_futex_table (p_pcb p'))) ∧
    (∀ q, (0 < strong_count q (p_world p))%nat →
       strong_count q (p_world p) = refs (trackers_of (pcb_memset (p_pcb p))) q →
       q ∈ fa_free (ph_alloc (w_phys (p_world p')))).
Proof.
  intros Hc Hm Ho Hok. destruct (exit_last_spec T p code Hc Hm Ho Hok) as (p' & E & ? & ? & ? & ? & ? & ? & _ & [_ Hn] & ?).
  exists p'. by split_and!.
Qed.

(** Threads of one process leaving in the order of [l]. *)
Definition switch_thread (tid : Z) (t : ThreadControlBlock) (p : Proc) : Proc :=
  mkProc (p_world p) (p_mounted p) (p_files p) (p_pcb p) t tid (p_pid p) (p_parent p) (p_kern p).

Fixpoint thread_exits (l : list (Z * ThreadControlBlock * Z)) : M unit :=
  match l with
  | [] => mret tt
  | (tid, t, code) :: l => λ p, '(_, p) ← thread_exit code (switch_thread tid t p); thread_exits l p
  end.

Lemma thread_exits_spec T l : ∀ p,
  l ≠ [] → NoDup (l.*1.*1) → Forall (λ x, tcb_clear_child_tid x.1.2 = 0) l → mem_ok T p →
  pcb_threads (p_pcb p) = (λ x, (x.1.1, true)) <$> l → pcb_exit_code (p_pcb p) = None →
  ∃ p', thread_exits l p = Val (tt, p') ∧ pcb_threads (p_pcb p') = [] ∧
    ∀ x, last l = Some x → pcb_exit_code (p_pcb p') = if x.1.1 =? p_pid p then Some x.2 else None.
Proof.
  induction l as [|[[tid t] code] l IH]; intros p Hne Hnd Hc Hok Hth Hex; [done|].
  apply Forall_cons in Hc as [Hc0 Hc]. simpl in Hnd. apply NoDup_cons in Hnd as [Hni Hnd].
  rewrite fmap_cons in Hth. cbn [fst] in Hth. remember ((λ x : Z * _ * Z, (x.1.1, true)) <$> l) as L eqn:HL.
  assert (filter (λ x : Z * bool, x.2 = true ∧ x.1 ≠ tid) ((tid, true) :: L) = L) as HF.
  { rewrite filter_cons_False by naive_solver. apply filter_all. subst L.
    intros x (y & -> & Hy)%list_elem_of_fmap. split; [done|]. simpl. intros <-.
    apply Hni. apply list_elem_of_fmap. exists y.1. split; [done|]. apply list_elem_of_fmap. eauto. }
  cbn [thread_exits]. unfold thread_exit. rewrite notify_exit_none by done.
  destruct p as [w m fs b t0 i j par kn]; destruct b. simpl in Hth, Hex. subst pcb_threads0 pcb_exit_code0.
  cbn [mbind outcome_bind]. unfold leave, other_threads, map_pcb, set_pcb, set_tcb, switch_thread.
  cbn [p_pcb p_tid p_pid p_tcb pcb_threads with_threads p_world p_mounted p_files p_parent]. rewrite HF. clear HF.
  destruct l as [|y l].
  - subst L. cbn [fmap list_fmap]. rewrite bool_decide_eq_true_2, andb_true_r by done. destruct (Z.eqb_spec tid j) as [->|Hne'].
    + match goal with |- context [cleanup_process _ ?s ?q] =>
        destruct (cleanup_process_spec T q code s) as (p' & E & _ & _ & _ & He & Ht & _);
          [by destruct Hok; split|] end.
      rewrite E. cbn [mbind outcome_bind]. exists p'. split_and!; [done|done|].
      intros x [= <-]. simpl. by rewrite Z.eqb_refl.
    + cbn [mbind outcome_bind]. eexists. split_and!; [done|done|]. intros x [= <-]. simpl.
      by rewrite (proj2 (Z.eqb_neq _ _) Hne').
  - rewrite bool_decide_eq_false_2, andb_false_r by (by subst L). cbn [mbind outcome_bind].
    match goal with |- context [thread_exits _ ?q] =>
      destruct (IH q) as (p' & E & Ht & Hl); [done|done|done|by destruct Hok; split|done|done|] end.
    exists p'. split_and!; [exact E|exact Ht|]. intros x Hx. apply Hl. exact Hx.
Qed.

(** When the threads of a process leave through [thread_exit] one after
    the other, the process records an exit code and cleans up exactly when the
    main thread leaves last; if any other thread is last, all threads are gone,
    the exit code stays unset and nothing waits for it can ever see it end. *)
Theorem thread_exit_main_last T l p :
  l ≠ [] → NoDup (l.*1.*1) → Forall (λ x, tcb_clear_child_tid x.1.2 = 0) l → mem_ok T p →
  pcb_threads (p_pcb p) = (λ x, (x.1.1, true)) <$> l → pcb_exit_code (p_pcb p) = None →
  ∃ p', thread_exits l p = Val (tt, p') ∧ pcb_threads (p_pcb p') = [] ∧
    ∀ x, last l = Some x → pcb_exit_code (p_pcb p') = if x.1.1 =? p_pid p then Some x.2 else None.
Proof. apply thread_exits_spec. Qed.
End process.
Arguments ProcessControlBlock : clear implicits.
Arguments Proc : clear implicits.
Arguments K : clear implicits.

(** ** A concrete process: the address space of [demo_area], two threads *)
Definition demo_tcb0 : ThreadControlBlock :=
  mkTcb (tcb_cx demo_tcb) (tcb_sigmask demo_tcb) 0 0 signal_list_new (replicate 33 0) 0 None 0 0.

Definition demo_pcb (threads : list (Z * bool)) : ProcessControlBlock unit :=
  mkPcb [demo_area] (file_table_new 7) 7 0 0 [] tms_default rlimits_new (replicate 65 sig_action_new) ∅ [] []
    threads None None false 18.

Definition demo_proc (threads : list (Z * bool)) : Proc unit unit :=
  mkProc demo_world [] {[ 7 := new_dev tt ]} (demo_pcb threads) demo_tcb0 1 1 (Some demo_tcb0) kern_new.

Lemma demo_mem_ok threads : ∃ T, mem_ok T (demo_proc threads).
Proof.
  destruct demo_world_ok as [[T HT] _]. exists T. split; [by apply Forall_singleton|done|apply demo_owned].
Qed.

(** The thread has a word to clear at [0x11008], on which two threads wait. *)
Definition demo_waited : Proc unit unit :=
  mkProc demo_world [] {[ 7 := new_dev tt ]} (with_futex_table {[ 0x11008 := [8; 9] ]} (demo_pcb [(1, true)]))
    (mkTcb (tcb_cx demo_tcb) (tcb_sigmask demo_tcb) 0x11008 0 signal_list_new (replicate 33 0) 0 None 0 0)
    1 1 (Some demo_tcb0) kern_new.

Lemma demo_waited_ok : ∃ T e, mem_ok T demo_waited ∧ word_mapped T demo_waited e.
Proof.
  destruct demo_world_ok as [[T HT] Hrc]. exists T, (pte_new_page 0x80002000 (pte_flags_of MF_URWX)). split.
  - split; [by apply Forall_singleton|exact HT|apply demo_owned].
  - assert (w_rc demo_world !! 0x80002000 = Some 1%nat) as Hc by (rewrite Hrc; reflexivity).
    destruct (wo_rc _ _ HT _ _ Hc) as (_ & Hall & _ & HnT).
    assert (pte_address (pte_new_page 0x80002000 (pte_flags_of MF_URWX)) = 0x80002000) as Ea by reflexivity.
    split; rewrite ?Ea.
    + split; reflexivity || discriminate.
    + discriminate.
    + vm_compute. reflexivity.
    + split; [|exact HnT]. exact (pi_frames _ _ _ (wo_pt _ _ HT) _ Hall).
    + apply (bool_decide_unpack _). vm_compute. exact I.
Qed.

Lemma exit_releases_process_witness :
  ∃ p', exit_ demo_ops 3 demo_waited = Val (tt, p') ∧ pcb_exit_code (p_pcb p') = Some 3 ∧
    pcb_futex_table (p_pcb p') !! 0x11008 = Some [9] ∧ 0x80002000 ∈ fa_free (ph_alloc (w_phys (p_world p'))).
Proof.
  destruct demo_waited_ok as (T & e & HT & He). destruct demo_world_ok as [_ Hrc].
  destruct (exit_releases_process demo_ops T demo_waited 3)
    as (p' & E & _ & _ & _ & Hc & _ & _ & (ph & _ & Hn) & Hf); [right; right; exists e; exact He|reflexivity|reflexivity|exact HT|].
  exists p'. split; [exact E|]. split; [exact Hc|]. split.
  { clear Hf Hc E. revert Hn. generalize (pcb_futex_table (p_pcb p')). intros ft Hn.
    destruct Hn as [(_ & _ & Hn)|(e' & page & n & _ & _ & _ & Hn)].
    - exfalso. apply Hn. exists e. split; [exact He|discriminate].
    - vm_compute in Hn. injection Hn as _ <-. reflexivity. }
  apply Hf.
  - unfold strong_count. cbn [p_world demo_waited]. rewrite Hrc. vm_compute. lia.
  - unfold strong_count. cbn [p_world demo_waited]. rewrite Hrc. reflexivity.
Defined.

(** The main thread leaves first: the process never ends. *)
Lemma thread_exit_main_last_witness :
  ∃ p', thread_exits demo_ops [(1, demo_tcb0, 0); (2, demo_tcb0, 0)] (demo_proc [(1, true); (2, true)])
        = Val (tt, p') ∧ pcb_threads (p_pcb p') = [] ∧ pcb_exit_code (p_pcb p') = None.
Proof.
  destruct (demo_mem_ok [(1, true); (2, true)]) as [T HT].
  destruct (thread_exit_main_last demo_ops T [(1, demo_tcb0, 0); (2, demo_tcb0, 0)]
    (demo_proc [(1, true); (2, true)])) as (p' & E & Ht & Hl);
    [done| |by repeat constructor|exact HT|done|done|].
  - apply NoDup_cons. split; [|apply NoDup_singleton]. intros H%list_elem_of_singleton. discriminate.
  - exists p'. split; [exact E|]. split; [exact Ht|]. exact (Hl _ eq_refl).
Defined.
