(* ===== verification/Mm.v ===== *)
(** * Memory of a process ([kernel/src/tasks/task.rs], [kernel/src/user/mod.rs],
      [kernel/src/syscall/mm.rs])

    Mapping frames into the address space of a task, the heap, the page-fault
    handler with copy on write, stores of the kernel to user memory, and the
    memory syscalls. *)

From S2P Require Import Prelude Bytes Frame PageTable Signal Path Vfs File Time Futex MemSet Process.
Local Open Scope Z_scope.

(** ** Flags of [mmap] *)
Definition MAP_SHARED : Z := 0x01.
Definition MAP_FIXED : Z := 0x10.
Definition MAP_ANONYMOUS : Z := 0x20.
(** [MapFlags::from_bits_truncate] and [MmapProt::from_bits_truncate] *)
Definition map_flags (x : Z) : Z := Z.land x 0x1ff93f.
Definition mmap_prot (x : Z) : Z := Z.land x 7.

(** [Into<MappingFlags> for MmapProt] *)
Definition prot_flags (prot : Z) : Z :=
  or_if (contains prot 4) MF_X (or_if (contains prot 2) MF_W (or_if (contains prot 1) MF_R MF_U)).

Definition MAP_AREA_START : Z := 0x200000000.

Section mm.
Context {S H : Type} (ops : INodeOps S H).
Notation K := (K S H).
Notation M := (ST (Proc S H)).

(** ** Mapping frames *)
(** [UserTask::map] *)
Definition task_map (paddr vaddr flags : Z) : M unit := λ p,
  _ ← assert_ (paddr mod PAGE_SIZE =? 0);
  _ ← assert_ (vaddr mod PAGE_SIZE =? 0);
  k_world (map_page vaddr paddr flags) p.

(** The trackers of consecutive pages; at address 0 they are not placed. *)
Definition track_run (vaddr : Z) (ps : list Z) : list MapTrack :=
  imap (λ i x, mkMapTrack (if vaddr =? 0 then vaddr else vaddr +w Z.of_nat i *w PAGE_SIZE) x 0) ps.

Definition map_trackers (vaddr : Z) (l : list MapTrack) (flags : Z) : M unit :=
  if vaddr =? 0 then mret tt
  else st_iter (λ x, task_map (mt_tracker x) (mt_vaddr x) flags) (filter (λ x, mt_vaddr x ≠ 0) l).

Definition push_area (a : MemArea H) : M unit := λ p,
  Val (tt, map_pcb (with_memset (pcb_memset (p_pcb p) ++ [a])) p).

(** The first area of type [mtype] gets more trackers. *)
Fixpoint extend_first (mtype : MemType) (l : list MapTrack) (areas : MemSet H) : option (MemSet H) :=
  match areas with
  | [] => None
  | a :: areas =>
      if decide (ma_mtype a = mtype) then Some (set_trackers (ma_mtrackers a ++ l) a :: areas)
      else cons a <$> extend_first mtype l areas
  end.

Definition first_frame (l : list Z) : outcome Z := unwrap (head l).

Definition map_frames (vaddr : Z) (mtype : MemType) (count : Z) (file : option H) (offset start len flags : Z)
  : M (option Z) := λ p,
  _ ← assert_ (0 <? count);
  '(res, p) ← k_world (alloc_frames count) p;
  match res with
  | None => Val (None, p)
  | Some ps =>
      let trackers := track_run vaddr ps in
      '(_, p) ← map_trackers vaddr trackers flags p;
      ppn ← first_frame ps;
      '(_, p) ←
        (if decide (mtype = Stack) then
           match extend_first Stack trackers (pcb_memset (p_pcb p)) with
           | Some areas => Val (tt, map_pcb (with_memset areas) p)
           | None => push_area (mkMemArea Stack trackers None 0 0x70000000 0x10000000) p
           end
         else push_area (mkMemArea mtype trackers file offset start len) p);
      Val (Some ppn, p)
  end.

(** The fallback of [frame_alloc]: segments of at most 16 pages, the trackers
    dropped again when a segment fails.  [fuel] is the number of pages. *)
Fixpoint alloc_segments (fuel : nat) (remaining current_vaddr : Z) (acc : list MapTrack)
  : M (option (list MapTrack)) := λ p,
  match fuel with
  | O => Val (Some acc, p)
  | Datatypes.S fuel =>
      if remaining =? 0 then Val (Some acc, p)
      else
        let segment_size := Z.min (Z.max (remaining / 2) 1) 16 in
        '(res, p) ← k_world (alloc_frames segment_size) p;
        match res with
        | Some ps =>
            alloc_segments fuel (remaining - segment_size)
              (if current_vaddr =? 0 then current_vaddr else current_vaddr +w segment_size *w PAGE_SIZE)
              (acc ++ track_run current_vaddr ps) p
        | None => '(_, p) ← k_world (drop_trackers acc) p; Val (None, p)
        end
  end.

Definition type_flags (mtype : MemType) : Z := match mtype with ShareFile => MF_URW | _ => MF_URWX end.

(** Map collected trackers as one [Mmap] area. *)
Definition place_mmap (vaddr count : Z) (l : list MapTrack) (flags : Z) : M unit := λ p,
  '(_, p) ← map_trackers vaddr l flags p;
  push_area (mkMemArea Mmap l None 0 vaddr (count *w PAGE_SIZE)) p.

(** [UserTask::frame_alloc] *)
Definition task_frame_alloc (vaddr : Z) (mtype : MemType) (count : Z) : M (option Z) := λ p,
  let flags := type_flags mtype in
  let otherwise := map_frames vaddr mtype count None 0 vaddr (count *w PAGE_SIZE) flags in
  if bool_decide (mtype = Mmap) && (1 <? count) then
    '(res, p) ← k_world (alloc_frames count) p;
    match res with
    | Some ps =>
        ppn ← first_frame ps;
        '(_, p) ← place_mmap vaddr count (track_run vaddr ps) flags p;
        Val (Some ppn, p)
    | None =>
        '(res, p) ← alloc_segments (Z.to_nat count) count vaddr [] p;
        match res with
        | None => Val (None, p)
        | Some [] => otherwise p
        | Some (x :: l) =>
            '(_, p) ← place_mmap vaddr count (x :: l) flags p; Val (Some (mt_tracker x), p)
        end
    end
  else otherwise p.

(** ** The heap *)
Definition sbrk (addr : Z) : M Z := λ p,
  let curr_page := div_ceil (pcb_heap (p_pcb p)) PAGE_SIZE in
  let after_page := div_ceil addr PAGE_SIZE in
  '(_, p) ← st_iter (λ i, _ ← task_frame_alloc (i *w PAGE_SIZE) Mmap 1; mret tt)
              (seqZ curr_page (after_page - curr_page)) p;
  Val (addr, map_pcb (with_heap addr) p).

Definition get_last_free_addr (p : Proc S H) : Z :=
  let map_last := foldl (λ acc a, Z.max acc (ma_end a)) 0
                    (filter (λ a, ma_mtype a ≠ Stack) (pcb_memset (p_pcb p))) in
  let shm_last := foldl (λ acc v, Z.max (ms_start v +w ms_size v) acc) 0 (pcb_shms (p_pcb p)) in
  Z.max map_last shm_last.

(** ** Finding the file behind an address *)
(** The gap between two neighbouring areas that holds [vaddr]. *)
Fixpoint gap_segment (areas : MemSet H) (vaddr : Z) : option (H * Z * Z) :=
  match areas with
  | current :: ((next :: _) as rest) =>
      let gap_start := ma_end current in
      let gap_end := ma_start next in
      match (if (gap_start <? gap_end) && (gap_start <=? vaddr) && (vaddr <? gap_end) then ma_file current else None) with
      | Some file => Some (file, ma_offset current +w (vaddr -w ma_start current), gap_end -w gap_start)
      | None => gap_segment rest vaddr
      end
  | _ => None
  end.

Definition get_elf_segment_for_addr (vaddr : Z) (p : Proc S H) : option (H * Z * Z) :=
  match gap_segment (pcb_memset (p_pcb p)) vaddr with
  | Some r => Some r
  | None =>
      match list_find (λ a, ma_contains a vaddr = true ∧ is_Some (ma_file a)) (pcb_memset (p_pcb p)) with
      | Some (_, a) =>
          (λ file, (file, ma_offset a +w (floor_page vaddr -w ma_start a), ma_len a)) <$> ma_file a
      | None => None
      end
  end.

(** ** The page-fault handler ([user_cow_int]) *)
Definition raise_signal (s : SignalFlags) : M unit := λ p, Val (tt, set_tcb (tcb_add_signal s (p_tcb p)) p).

(** The bytes [bs] at the front of the frame at [frame]. *)
Definition fill_frame (frame : Z) (bs : list Z) : ST (World S) unit := λ w,
  page ← unwrap (ph_ram (w_phys w) !! frame);
  Val (tt, set_phys (mkPhys (ph_alloc (w_phys w)) (<[frame := splice 0 bs page]> (ph_ram (w_phys w)))) w).

(** [file.readat(offset, frame[..n])]: whether it succeeded. *)
Definition read_frame (file : H) (offset : Z) (n : nat) (frame : Z) : M bool := λ p,
  '(r, p) ← k_fs (io_readat ops file offset n) p;
  match r with
  | Ok bs => '(_, p) ← k_world (fill_frame frame bs) p; Val (true, p)
  | Err _ => Val (false, p)
  end.

(** A single frame in a new [Arc]. *)
Definition alloc_frame : ST (World S) (option Z) := λ w,
  '(r, ph) ← frame_alloc (w_phys w);
  match r with
  | None => Val (None, set_phys ph w)
  | Some f => '(_, w) ← arc_new f (set_phys ph w); Val (Some f, w)
  end.

(** Copy on write: a new frame with the contents of [src], whose reference is
    given up. *)
Definition copy_frame (src : Z) : ST (World S) (option Z) := λ w,
  '(r, w) ← alloc_frame w;
  match r with
  | None => Val (None, w)
  | Some dst =>
      page ← unwrap (ph_ram (w_phys w) !! src);
      '(_, w) ← fill_frame dst page w;
      '(_, w) ← arc_drop src w;
      Val (Some dst, w)
  end.

(** Area [i] replaced in the memory set. *)
Definition update_area (i : nat) (a : MemArea H) : M unit := λ p,
  Val (tt, map_pcb (with_memset (<[i := a]> (pcb_memset (p_pcb p)))) p).

(** The page is tracked: remap it, on its own copy when the frame is shared. *)
Definition fault_tracked (i : nat) (area : MemArea H) (j : nat) (x : MapTrack) : M (option Z) := λ p,
  if decide (ma_mtype area = Shared) then '(_, p) ← raise_signal SIGSEGV p; Val (None, p)
  else if bool_decide (1 < strong_count (mt_tracker x) (p_world p))%nat then
    '(r, p) ← k_world (copy_frame (mt_tracker x)) p;
    match r with
    | None => '(_, p) ← raise_signal SIGSEGV p; Val (None, p)
    | Some dst =>
        '(_, p) ← update_area i (set_trackers (<[j := mkMapTrack (mt_vaddr x) dst (mt_rwx x)]> (ma_mtrackers area)) area) p;
        Val (Some dst, p)
    end
  else Val (Some (mt_tracker x), p).

(** The page is not tracked: a new frame, filled from the file if there is one. *)
Definition fault_new (i : nat) (area : MemArea H) (vaddr : Z) : M (option Z) := λ p,
  if get_free_pages (w_phys (p_world p)) <? 10 then '(_, p) ← raise_signal SIGSEGV p; Val (None, p)
  else
    '(r, p) ← k_world alloc_frame p;
    match r with
    | None => '(_, p) ← raise_signal SIGSEGV p; Val (None, p)
    | Some frame =>
        let file_offset := ma_offset area +w (floor_page vaddr -w ma_start area) in
        '(_, p) ← match ma_file area with
                  | Some file => read_frame file file_offset (Z.to_nat PAGE_SIZE) frame p
                  | None => Val (true, p)
                  end;
        '(_, p) ← update_area i (set_trackers (ma_mtrackers area ++ [mkMapTrack (floor_page vaddr) frame 7]) area) p;
        Val (Some frame, p)
    end.

Definition fault_flags (area : MemArea H) (vaddr : Z) : Z :=
  if bool_decide (ma_mtype area = Mmap) && (0x200000000 <=? vaddr) then MF_URW else MF_URWX.

(** The fault is inside area [i]. *)
Definition fault_in_area (i : nat) (area : MemArea H) (vaddr : Z) : M unit := λ p,
  '(r, p) ← match list_find (λ x, mt_vaddr x = floor_page vaddr) (ma_mtrackers area) with
            | Some (j, x) => fault_tracked i area j x p
            | None => fault_new i area vaddr p
            end;
  match r with
  | None => Val (tt, p)
  | Some ppn => task_map ppn (floor_page vaddr) (fault_flags area vaddr) p
  end.

(** Load the page from the program file; [true] when the handler is done. *)
Definition fault_load_elf (vaddr : Z) : M bool := λ p,
  match get_elf_segment_for_addr vaddr p with
  | None => Val (false, p)
  | Some (file, file_offset, _) =>
      '(r, p) ← k_fs (io_stat ops file stat_default) p;
      match r with
      | Err _ => Val (true, p)
      | Ok stat =>
          let file_size := st_size stat in
          if file_size <=? file_offset then Val (true, p)
          else
            '(r, p) ← task_frame_alloc (floor_page vaddr) Mmap 1 p;
            match r with
            | None => Val (false, p)
            | Some ppn =>
                let read_size := Z.min PAGE_SIZE (file_size - file_offset) in
                if 0 <? read_size then read_frame file file_offset (Z.to_nat read_size) ppn p
                else Val (false, p)
            end
      end
  end.

(** [if let Some(_) = task.frame_alloc(..) { return; }], else the end of the
    handler: SIGSEGV. *)
Definition fault_blank (vaddr : Z) (mtype : MemType) (count : Z) : M unit := λ p,
  '(r, p) ← task_frame_alloc (floor_page vaddr) mtype count p;
  match r with
  | Some _ => Val (tt, p)
  | None => raise_signal SIGSEGV p
  end.

(** The null page: the second fault ends the process. *)
Definition fault_null : M unit := λ p,
  if negb (has_sig (tcb_signal (p_tcb p)) SIGSEGV) then raise_signal SIGSEGV p
  else
    '(_, p) ← exit_ ops (128 + sf_num SIGSEGV) p;
    Val (tt, map_pcb (with_exit_code (Some (128 + sf_num SIGSEGV))) p).

(** A program page: from its file, else a blank page. *)
Definition fault_program (vaddr : Z) : M unit := λ p,
  '(done, p) ← fault_load_elf vaddr p;
  if (done : bool) then Val (tt, p) else fault_blank vaddr Mmap 1 p.

Definition set_tls (last count : Z) (p : Proc S H) : Proc S H :=
  let k := p_kern p in set_kern (mkKern (kn_shared k) (kn_segments k) last count (kn_boot_root k)) p.

(** The region of thread-local storage: the fourth fault in a row on one page
    ends the process. *)
Definition fault_tls (vaddr : Z) : M unit := λ p,
  let page := floor_page vaddr in
  let k := p_kern p in
  let p := if kn_last_tls_addr k =? page then set_tls page (kn_tls_count k +w 1) p else set_tls page 1 p in
  if (kn_last_tls_addr k =? page) && (3 <? kn_tls_count (p_kern p)) then exit_ ops 1 p
  else
    '(r, p) ← task_frame_alloc page Mmap 1 p;
    match r with
    | Some ppn =>
        '(_, p) ← k_world (fill_frame ppn zero_page) p;
        Val (tt, set_tls (kn_last_tls_addr (p_kern p)) 0 p)
    | None =>
        '(_, p) ← raise_signal SIGSEGV p;
        raise_signal SIGSEGV p
    end.

Definition fault_outside (vaddr : Z) : M unit := λ p,
  if vaddr <? 0x1000 then fault_null p
  else if range_contains 0x10000 0x100000 vaddr then fault_program vaddr p
  else if range_contains 0x1000000 0x2000000 vaddr then fault_blank vaddr Mmap 12 p
  else if range_contains 0x200000000 0x300000000 vaddr then fault_tls vaddr p
  else if range_contains 0x200a0000 0x300b0000 vaddr then fault_program vaddr p
  else raise_signal SIGSEGV p.

Definition user_cow_int (vaddr : Z) : M unit := λ p,
  match list_find (λ a, ma_contains a vaddr = true) (pcb_memset (p_pcb p)) with
  | Some (i, area) => fault_in_area i area vaddr p
  | None =>
      if range_contains 0x70000000 0x80000000 vaddr then
        '(r, p) ← task_frame_alloc (floor_page vaddr) Stack 1 p;
        match r with
        | Some _ => Val (tt, p)
        | None => fault_outside vaddr p
        end
      else fault_outside vaddr p
  end.

(** ** The kernel writes user memory *)
(** A byte at [v]; a page fault is handled once, and an access that still
    cannot proceed never returns. *)
Definition user_frame (v : Z) (p : Proc S H) : option Z :=
  pte ← mmu (p_world p) v; if contains (pte_flags pte) PTE_W then Some (pte_address pte) else None.

Definition user_store1 (v b : Z) : M unit := λ p,
  '(_, p) ← match user_frame v p with Some _ => Val (tt, p) | None => user_cow_int v p end;
  frame ← unwrap (user_frame v p);
  k_world (lift_phys (phys_store [b] (frame + v mod PAGE_SIZE))) p.

Fixpoint user_store (bs : list Z) (v : Z) : M unit :=
  match bs with
  | [] => mret tt
  | b :: bs => _ ← user_store1 v b; user_store bs (v +w 1)
  end.

(** ** Syscalls *)
Definition sys_brk (addr : Z) : M Z := λ p,
  if addr =? 0 then Val (pcb_heap (p_pcb p), p) else sbrk addr p.

(** [memset.sub_area(start, end_)] of the process. *)
Definition sub_area (start end_ : Z) : M unit := λ p,
  '(areas, w) ← memset_sub_area ops (pcb_memset (p_pcb p)) start end_ (p_world p);
  Val (tt, map_pcb (with_memset areas) (set_world w p)).

(** Where the mapping goes. *)
Definition mmap_addr (start : Z) (p : Proc S H) : Z :=
  let addr := get_last_free_addr p in
  if start =? 0 then (if MAP_AREA_START <=? addr then addr else MAP_AREA_START) else start.

(** The file of the mapping: none for [fd = -1] and [MAP_ANONYMOUS], nor for a
    descriptor that is not open. *)
Definition mmap_file (flags fd : Z) : M (option Z) :=
  if (fd =? usize_max) || contains flags MAP_ANONYMOUS then mret None else get_fd fd.

(** Make the range free, or refuse. *)
Definition mmap_clear (flags addr len : Z) : K unit := λ p,
  let overlaps := memset_overlapping (pcb_memset (p_pcb p)) addr (addr +w len) in
  if contains flags MAP_FIXED then
    if overlaps then k_of (sub_area addr (addr +w len)) p else Val (Ok tt, p)
  else if overlaps then Val (Err EINVAL, p) else Val (Ok tt, p).

(** The area: frames now for files and shared memory, on demand otherwise. *)
Definition mmap_place (flags prot addr len off : Z) (file : option Z) : K unit := λ p,
  let pages := div_ceil len PAGE_SIZE in
  if contains flags MAP_SHARED then
    match file with
    | Some id =>
        f ← unwrap (p_files p !! id);
        '(r, p) ← map_frames addr ShareFile pages (Some (f_inner f)) off addr len (prot_flags prot) p;
        Val (match r with Some _ => Ok tt | None => Err EFAULT end, p)
    | None =>
        '(r, p) ← task_frame_alloc addr Shared pages p;
        match r with
        | None => Val (Err EFAULT, p)
        | Some paddr =>
            '(_, p) ← st_iter (λ i, task_map (paddr +w i *w PAGE_SIZE) (addr +w i *w PAGE_SIZE) (prot_flags prot))
                        (seqZ 0 pages) p;
            Val (Ok tt, p)
        end
    end
  else
    match file with
    | Some _ =>
        '(r, p) ← task_frame_alloc addr Mmap pages p;
        Val (match r with Some _ => Ok tt | None => Err EFAULT end, p)
    | None =>
        '(_, p) ← push_area (mkMemArea Mmap [] None 0 addr len) p; Val (Ok tt, p)
    end.

(** The contents of the file, written through the mapping. *)
Definition mmap_fill (file : option Z) (addr len off : Z) : K unit := λ p,
  match file with
  | None => Val (Ok tt, p)
  | Some id =>
      f ← unwrap (p_files p !! id);
      '(r, p) ← k_fs (file_readat ops f off (Z.to_nat len)) p;
      match r with
      | Ok bs => k_of (user_store bs addr) p
      | Err e => '(_, p) ← sub_area addr (addr +w len) p; Val (Err e, p)
      end
  end.

Definition sys_mmap (start len prot flags fd off : Z) : K Z := λ p,
  let flags := map_flags flags in
  let prot := mmap_prot prot in
  let len := alignup len PAGE_SIZE in
  '(file, p) ← mmap_file flags fd p;
  let addr := mmap_addr start p in
  if len =? 0 then Val (Ok addr, p)
  else
    (mmap_clear flags addr len ;;?
     mmap_place flags prot addr len off file ;;?
     mmap_fill file addr len off ;;?
     k_ret (Ok addr)) p.

Definition sys_munmap (start len : Z) : K Z :=
  k_of (sub_area start (start +w len)) ;;? k_ret (Ok 0).

(** Protection and synchronisation requests are accepted and ignored. *)
Definition sys_mprotect (start len prot : Z) : K Z := k_ret (Ok 0).
Definition sys_msync (addr len flags : Z) : K Z := k_ret (Ok 0).

Definition set_robust_list (head len : Z) (t : ThreadControlBlock) : ThreadControlBlock :=
  mkTcb (tcb_cx t) (tcb_sigmask t) (tcb_clear_child_tid t) (tcb_set_child_tid t) (tcb_signal t)
    (tcb_signal_queue t) (tcb_exit_signal t) (tcb_thread_exit_code t) head len.

Definition ROBUST_LIST_HEAD_SIZE : Z := 24.

Definition sys_set_robust_list (head len : Z) : K Z := λ p,
  if negb (len =? ROBUST_LIST_HEAD_SIZE) then Val (Err EINVAL, p)
  else
    '(ok, p) ← (if head =? 0 then Val (true, p)
                else if 0x8000000000000000 <=? head then Val (false, p)
                else '(r, p) ← k_world (translate head) p; Val (bool_decide (is_Some r), p));
    if negb ok then Val (Err EFAULT, p)
    else Val (Ok 0, set_tcb (set_robust_list head len (p_tcb p)) p).

(** A null word at [v], refused outside the user half and unmapped pages. *)
Definition clear_user_word (v : Z) : K unit := λ p,
  if v =? 0 then Val (Ok tt, p)
  else if 0x8000000000000000 <=? v then Val (Err EFAULT, p)
  else
    '(r, p) ← k_world (translate v) p;
    match r with
    | Some (paddr, _) => '(_, p) ← k_world (lift_phys (phys_store (le_bytes 8 0) paddr)) p; Val (Ok tt, p)
    | None => Val (Err EFAULT, p)
    end.

Definition sys_get_robust_list (head_ptr len_ptr : Z) : K Z :=
  clear_user_word head_ptr ;;? clear_user_word len_ptr ;;? k_ret (Ok 0).

(** ** Illegal instructions ([task_ilegal]) *)
Definition task_ilegal (vaddr : Z) : M unit := λ p,
  match list_find (λ a, ma_contains a vaddr = true) (pcb_memset (p_pcb p)) with
  | Some (_, area) =>
      match list_find (λ x, mt_vaddr x = vaddr) (ma_mtrackers area) with
      | Some _ => Val (tt, set_tcb (set_cx (tf_set (tcb_cx (p_tcb p)) SEPC (tf_get (tcb_cx (p_tcb p)) SEPC +w 2)) (p_tcb p)) p)
      | None => raise_signal SIGILL p
      end
  | None => raise_signal SIGILL p
  end.
(** ** Steps of the physical memory *)
(** A step of the process with tree [T]: no frame is freed, new tables come
    from free frames, and RAM changes only in tables, free frames and [F]. *)
Record evolves (F : gset Z) (T : Tree) (ph : Phys) (T' : Tree) (ph' : Phys) : Prop := {
  ev_all : fa_all (ph_alloc ph') = fa_all (ph_alloc ph);
  ev_free : fa_free (ph_alloc ph') ⊆ fa_free (ph_alloc ph);
  ev_tree : ∀ q t, T' !! q = Some t → T !! q = Some t ∨ t ∈ fa_free (ph_alloc ph);
  ev_ram : ∀ t, t ∉ fa_free (ph_alloc ph) → (∀ q, T !! q ≠ Some t) → t ∉ F → ph_ram ph' !! t = ph_ram ph !! t
}.

Lemma evolves_refl F T ph : evolves F T ph T ph.
Proof. split; try done. intros q t Hq. by left. Qed.

Lemma evolves_trans F1 F2 T ph T1 ph1 T2 ph2 :
  evolves F1 T ph T1 ph1 → evolves F2 T1 ph1 T2 ph2 → evolves (F1 ∪ F2) T ph T2 ph2.
Proof.
  intros [Ha1 Hf1 Ht1 Hr1] [Ha2 Hf2 Ht2 Hr2]. split; [congruence|set_solver| |].
  - intros q t [Hq|Hq]%Ht2; [by apply Ht1 in Hq|]. right. set_solver.
  - intros t Htf HtT HtF. rewrite Hr2; [apply Hr1; set_solver|set_solver| |set_solver].
    intros q [Hq|Hq]%Ht1; [by apply (HtT q)|done].
Qed.

Lemma alloc_frame_spec T (w : World S) :
  world_ok T w →
  ∃ res w', alloc_frame w = Val (res, w') ∧ world_ok T w' ∧ w_root w' = w_root w ∧ w_fs w' = w_fs w ∧
    evolves ∅ T (w_phys w) T (w_phys w') ∧ ph_ram (w_phys w') = ph_ram (w_phys w) ∧
    match res with
    | None => fa_free (ph_alloc (w_phys w)) = ∅
    | Some f => f ∈ fa_free (ph_alloc (w_phys w)) ∧ frame_ok f ∧
        fa_free (ph_alloc (w_phys w')) = fa_free (ph_alloc (w_phys w)) ∖ {[f]} ∧ w_rc w' = <[f := 1%nat]> (w_rc w)
    end.
Proof.
  intros [Hpt Hrc]. pose proof (pi_wf _ _ _ Hpt) as Hwf.
  destruct (fa_alloc_spec _ Hwf) as (res & fa' & E & Hwf' & Hs & Hpost). pose proof (fa_free_all _ Hwf) as Hsub.
  assert (fa_free fa' ⊆ fa_free (ph_alloc (w_phys w))) as Hless.
  { destruct res; [destruct Hpost as [_ ->]; set_solver|by destruct Hpost as [-> _]]. }
  set (ph' := mkPhys fa' (ph_ram (w_phys w))).
  destruct (pt_inv_other (w_root w) T (w_phys w) ph') as [Hpt' _]; [done|done|by apply fa_all_same| | |].
  { intros p Hp. apply (pi_zero _ _ _ Hpt). set_solver. }
  { intros q f Hf. destruct (pi_tab _ _ _ Hpt q f Hf) as (_ & ? & _). set_solver. }
  assert (evolves ∅ T (w_phys w) T ph') as Hev.
  { split; simpl; [by apply fa_all_same|done| |done]. intros q t Hq. by left. }
  unfold alloc_frame, frame_alloc. rewrite E. cbn [mbind outcome_bind]. fold ph'.
  destruct res as [f|].
  - destruct Hpost as [Hin Hfree]. exists (Some f). eexists. split; [done|].
    assert (frame_ok f) as Hok by (apply (pi_frames _ _ _ Hpt); set_solver). simpl.
    split_and!; try done. split; [exact Hpt'|]. simpl. rewrite Hfree, (fa_all_same _ _ Hs). intros q n.
    rewrite lookup_insert_Some. intros [[<- <-]|[Hne Hq]].
    + split_and!; [lia|set_solver|set_solver|]. intros q' Hq'. destruct (pi_tab _ _ _ Hpt _ _ Hq') as (_ & ? & _). done.
    + destruct (Hrc q n Hq) as (? & ? & ? & ?). split_and!; [done|done|set_solver|done].
  - destruct Hpost as [-> Hfree]. exists None, (set_phys ph' w). split; [done|]. by split_and!.
Qed.

(** A counted frame is overwritten. *)
Lemma write_counted T (w : World S) f page :
  world_ok T w → (0 < strong_count f w)%nat →
  let w' := set_phys (mkPhys (ph_alloc (w_phys w)) (<[f := page]> (ph_ram (w_phys w)))) w in
  world_ok T w' ∧ (∀ v, leaf T (w_phys w') v = leaf T (w_phys w) v) ∧ evolves {[f]} T (w_phys w) T (w_phys w').
Proof.
  intros [Hpt Hrc] Hc. unfold strong_count in Hc. destruct (w_rc w !! f) as [n|] eqn:E; [|simpl in Hc; lia].
  destruct (Hrc f n E) as (_ & Hall & Hnf & Hnt).
  destruct (pt_inv_other (w_root w) T (w_phys w)
    (mkPhys (ph_alloc (w_phys w)) (<[f := page]> (ph_ram (w_phys w))))) as [Hpt' Hl];
    [done|apply Hpt|done| | |].
  - intros p Hp. simpl. rewrite lookup_insert_ne by set_solver. by apply (pi_zero _ _ _ Hpt).
  - intros q t Hq. split; [by destruct (pi_tab _ _ _ Hpt q t Hq) as (_ & ? & _)|].
    simpl. apply lookup_insert_ne. intros ->. by apply (Hnt q).
  - split_and!; [by split|done|]. split; simpl; [done|done|intros q t Hq; by left|].
    intros t _ _ Ht. apply lookup_insert_ne. set_solver.
Qed.

Lemma splice_page page : length page = 4096%nat → splice 0 page zero_page = page.
Proof.
  intros Hl. unfold splice. rewrite take_0, Nat.add_0_l, Hl, app_nil_l, drop_ge; [by rewrite app_nil_r|].
  unfold zero_page. rewrite length_replicate. by apply Nat.eq_le_incl.
Qed.

Lemma copy_frame_spec T src page (w : World S) :
  world_ok T w → (1 < strong_count src w)%nat → ph_ram (w_phys w) !! src = Some page → length page = 4096%nat →
  fa_free (ph_alloc (w_phys w)) ≠ ∅ →
  ∃ dst w', copy_frame src w = Val (Some dst, w') ∧ world_ok T w' ∧ w_root w' = w_root w ∧ w_fs w' = w_fs w ∧
    evolves ∅ T (w_phys w) T (w_phys w') ∧ dst ∈ fa_free (ph_alloc (w_phys w)) ∧ frame_ok dst ∧
    ph_ram (w_phys w') !! dst = Some page ∧
    fa_free (ph_alloc (w_phys w')) = fa_free (ph_alloc (w_phys w)) ∖ {[dst]} ∧
    (∀ v, leaf T (w_phys w') v = leaf T (w_phys w) v) ∧
    ∀ q, strong_count q w' = if bool_decide (q = dst) then 1%nat
                             else (strong_count q w - if bool_decide (q = src) then 1 else 0)%nat.
Proof.
  intros Hw Hc Hsrc Hlen Hne. destruct (alloc_frame_spec T w Hw) as (res & w1 & E1 & Hw1 & Er1 & Ef1 & Hev1 & Hr1 & Hres).
  destruct res as [dst|]; [|done]. destruct Hres as (Hin & Hok & Hfree & Hrc1).
  assert (dst ≠ src) as Hds.
  { intros ->. unfold strong_count in Hc. destruct (w_rc w !! src) eqn:E; [|simpl in Hc; lia].
    destruct (wo_rc _ _ Hw _ _ E) as (_ & _ & ? & _). done. }
  destruct (write_counted T w1 dst page Hw1) as (Hw2 & Hl2 & Hev2).
  { unfold strong_count. rewrite Hrc1, lookup_insert_eq. simpl. lia. }
  unfold copy_frame. rewrite E1. cbn [mbind outcome_bind]. rewrite Hr1, Hsrc. cbn [unwrap mbind outcome_bind].
  unfold fill_frame. rewrite Hr1, (pi_zero _ _ _ (wo_pt _ _ Hw) dst Hin). cbn [unwrap mbind outcome_bind].
  rewrite splice_page by done. rewrite <- Hr1.
  set (w2 := set_phys _ w1) in *.
  assert (w_rc w2 !! src = w_rc w !! src) as Hrcs by (simpl; by rewrite Hrc1, lookup_insert_ne by done).
  unfold arc_drop. rewrite Hrcs. unfold strong_count in Hc.
  destruct (w_rc w !! src) as [[|[|n]]|] eqn:En; simpl in Hc; try lia.
  cbn [mbind outcome_bind]. exists dst. eexists. split; [done|].
  assert (world_ok T (set_rc (<[src := Datatypes.S n]> (w_rc w2)) w2)) as Hw3.
  { destruct Hw2 as [Hpt2 Hrc2]. split; [exact Hpt2|]. simpl. intros q m. rewrite lookup_insert_Some.
    intros [[<- <-]|[_ Hq]]; [|by apply (Hrc2 q m)]. destruct (Hrc2 src (Datatypes.S (Datatypes.S n))) as [_ ?]; [done|]. split; [lia|done]. }
  split; [exact Hw3|]. split_and!; try done.
  - split; simpl; [apply Hev1|apply Hev1|intros q t Hq; by left|]. intros t Ht HtT _.
    rewrite lookup_insert_ne by set_solver. by rewrite Hr1.
  - simpl. by rewrite lookup_insert_eq.
  - intros v. change (leaf T (w_phys w2) v = leaf T (w_phys w) v). rewrite Hl2. unfold leaf, pte_at. by rewrite Hr1.
  - intros q. unfold strong_count. simpl. rewrite Hrc1. repeat case_bool_decide; subst; try done.
    + by rewrite lookup_insert_ne, lookup_insert_eq by done.
    + rewrite lookup_insert_eq, En. simpl. lia.
    + rewrite !lookup_insert_ne by done. lia.
Qed.
(** Mapping one page: the MMU's entry for it, the rest as before. *)
Lemma map_page_tree T v f flags (w : World S) :
  world_ok T w → user_addr v → frame_ok f → (2 ≤ size (fa_free (ph_alloc (w_phys w))))%nat →
  ∃ T' w', map_page v f flags w = Val (tt, w') ∧ world_ok T' w' ∧
    w_root w' = w_root w ∧ w_fs w' = w_fs w ∧ w_rc w' = w_rc w ∧ evolves ∅ T (w_phys w) T' (w_phys w') ∧
    (∀ v', user_addr v' → leaf T' (w_phys w') v' =
       if bool_decide (same_page v' v) then pte_new_page f (pte_flags_of flags) else leaf T (w_phys w) v') ∧
    (size (fa_free (ph_alloc (w_phys w))) ≤ size (fa_free (ph_alloc (w_phys w'))) + 2)%nat.
Proof.
  intros [Hpt Hrc] Hv Hp Hs.
  destruct (pt_map_page_inv (w_root w) T (w_phys w) v f flags)
    as (T' & ph' & E & Hi' & _ & Hl & Hf & Hk & Ha & Hn & Hs'); [done..|].
  exists T', (set_phys ph' w). unfold map_page, lift_phys. rewrite E. split; [done|]. simpl. split.
  { split; simpl; [done|]. intros q n Hq. destruct (Hrc q n Hq) as (? & ? & ? & Hnt). rewrite Ha.
    split_and!; [done|done|set_solver|]. intros q' [Hq'|Hq']%Hn; [by apply (Hnt q')|done]. }
  split_and!; try done. split; try done. intros t Htf HtT _. by apply Hk.
Qed.

Lemma task_map_spec T f v flags p :
  world_ok T (p_world p) → user_addr v → v mod PAGE_SIZE = 0 → frame_ok f →
  (2 ≤ size (fa_free (ph_alloc (w_phys (p_world p)))))%nat →
  ∃ T' w', task_map f v flags p = Val (tt, set_world w' p) ∧ world_ok T' w' ∧
    w_root w' = w_root (p_world p) ∧ w_fs w' = w_fs (p_world p) ∧ w_rc w' = w_rc (p_world p) ∧
    evolves ∅ T (w_phys (p_world p)) T' (w_phys w') ∧
    (∀ v', user_addr v' → leaf T' (w_phys w') v' =
       if bool_decide (same_page v' v) then pte_new_page f (pte_flags_of flags) else leaf T (w_phys (p_world p)) v') ∧
    (size (fa_free (ph_alloc (w_phys (p_world p)))) ≤ size (fa_free (ph_alloc (w_phys w'))) + 2)%nat.
Proof.
  intros Hw Hv Ha Hf Hs. destruct (map_page_tree T v f flags (p_world p)) as (T' & w' & E & Hr); [done..|].
  exists T', w'. unfold task_map. rewrite (proj2 (Z.eqb_eq _ _) (proj2 Hf)), (proj2 (Z.eqb_eq _ _) Ha).
  cbn [assert_ mbind outcome_bind]. unfold k_world. rewrite E. by split.
Qed.

Lemma floor_page_aligned v : floor_page v mod PAGE_SIZE = 0.
Proof. unfold floor_page. apply Z.mod_mul. done. Qed.

Lemma floor_page_user v : user_addr v → user_addr (floor_page v).
Proof.
  unfold user_addr, floor_page, PAGE_SIZE. intros Hv. pose proof (Z.div_mod v 4096 ltac:(lia)).
  pose proof (Z.mod_pos_bound v 4096 ltac:(lia)). lia.
Qed.

Lemma same_page_floor v v' : same_page v (floor_page v') ↔ same_page v v'.
Proof. unfold same_page, floor_page. by rewrite Z.div_mul by done. Qed.

(** The frame a fault on the tracked page [x] ends up with, and what changes. *)
Record fault_post (T T' : Tree) (p p' : Proc S H) (i : nat) (area : MemArea H) (j : nat) (x : MapTrack)
    (v f : Z) (page : list Z) : Prop := {
  fp_world : world_ok T' (p_world p');
  fp_evolves : evolves ∅ T (w_phys (p_world p)) T' (w_phys (p_world p'));
  fp_root : w_root (p_world p') = w_root (p_world p);
  fp_fs : w_fs (p_world p') = w_fs (p_world p);
  fp_leaf : ∀ v', user_addr v' → leaf T' (w_phys (p_world p')) v' =
    if bool_decide (same_page v' v) then pte_new_page f (pte_flags_of (fault_flags area v))
    else leaf T (w_phys (p_world p)) v';
  fp_frame : frame_ok f;
  fp_page : ph_ram (w_phys (p_world p')) !! f = Some page;
  fp_size : (size (fa_free (ph_alloc (w_phys (p_world p)))) ≤
             size (fa_free (ph_alloc (w_phys (p_world p')))) + 3)%nat;
  fp_rest : p' = set_pcb (p_pcb p') (set_world (p_world p') p);
  fp_own : strong_count (mt_tracker x) (p_world p) = 1%nat ∧ f = mt_tracker x ∧ p_pcb p' = p_pcb p ∧
      (∀ q, strong_count q (p_world p') = strong_count q (p_world p)) ∨
    (1 < strong_count (mt_tracker x) (p_world p))%nat ∧ f ∈ fa_free (ph_alloc (w_phys (p_world p))) ∧
      p_pcb p' = with_memset (<[i := set_trackers (<[j := mkMapTrack (mt_vaddr x) f (mt_rwx x)]> (ma_mtrackers area)) area]>
                                (pcb_memset (p_pcb p))) (p_pcb p) ∧
      (∀ q, strong_count q (p_world p') = if bool_decide (q = f) then 1%nat
              else (strong_count q (p_world p) - if bool_decide (q = mt_tracker x) then 1 else 0)%nat)
}.

Lemma counted_frame_ok T (w : World S) q : world_ok T w → (0 < strong_count q w)%nat → frame_ok q.
Proof.
  intros [Hpt Hrc] Hc. unfold strong_count in Hc. destruct (w_rc w !! q) as [n|] eqn:E; [|simpl in Hc; lia].
  destruct (Hrc q n E) as (_ & Hall & _). by apply (pi_frames _ _ _ Hpt).
Qed.

Lemma cow_fault_spec T p i area j x v page :
  list_find (λ a, ma_contains a v = true) (pcb_memset (p_pcb p)) = Some (i, area) →
  list_find (λ x, mt_vaddr x = floor_page v) (ma_mtrackers area) = Some (j, x) →
  ma_mtype area ≠ Shared → world_ok T (p_world p) → user_addr v →
  (0 < strong_count (mt_tracker x) (p_world p))%nat →
  ph_ram (w_phys (p_world p)) !! mt_tracker x = Some page → length page = 4096%nat →
  (3 ≤ size (fa_free (ph_alloc (w_phys (p_world p)))))%nat →
  ∃ f T' p', user_cow_int v p = Val (tt, p') ∧ fault_post T T' p p' i area j x v f page.
Proof.
  intros Hfa Hfx Hsh Hw Hv Hc Hpg Hlen Hfree. unfold user_cow_int. rewrite Hfa. unfold fault_in_area. rewrite Hfx.
  unfold fault_tracked. rewrite decide_False by done.
  set (fl := fault_flags area v). pose proof (floor_page_user v Hv) as Hvf.
  case_bool_decide as Hgt.
  - destruct (copy_frame_spec T (mt_tracker x) page (p_world p))
      as (dst & w1 & E1 & Hw1 & Er1 & Ef1 & Hev1 & Hin & Hok & Hd1 & Hfr1 & Hl1 & Hc1); [done..| |].
    { intros E. rewrite E, size_empty in Hfree. lia. }
    unfold k_world. rewrite E1. cbn [mbind outcome_bind]. unfold update_area. cbn [mbind outcome_bind].
    match goal with |- context [task_map dst _ fl ?q] => set (p1 := q) end.
    destruct (task_map_spec T dst (floor_page v) fl p1) as (T' & w' & E & Hw' & Er & Ef & Hrc & Hev & Hl & Hs);
      [done|done|apply floor_page_aligned|done| |].
    { simpl. rewrite Hfr1, size_difference, size_singleton; [lia|set_solver]. }
    rewrite E. exists dst, T', (set_world w' p1). split; [done|]. simpl in *. split; simpl; try done.
    + rewrite <- (union_idemp_L ∅). by eapply evolves_trans.
    + congruence.
    + congruence.
    + intros v' Hv'. rewrite Hl, Hl1 by done. apply if_decide_ext, same_page_floor.
    + rewrite (ev_ram _ _ _ _ _ Hev); [done| | |set_solver].
      * rewrite Hfr1. set_solver.
      * assert (w_rc w1 !! dst = Some 1%nat) as Hrd.
        { specialize (Hc1 dst). rewrite bool_decide_eq_true_2 in Hc1 by done. unfold strong_count in Hc1.
          destruct (w_rc w1 !! dst) as [m|]; simpl in Hc1; congruence. }
        by destruct (wo_rc _ _ Hw1 _ _ Hrd) as (_ & _ & _ & ?).
    + rewrite Hfr1, size_difference, size_singleton in Hs by set_solver. lia.
    + right. split_and!; [done|done|done|]. intros q. unfold strong_count. rewrite Hrc. apply Hc1.
  - assert (strong_count (mt_tracker x) (p_world p) = 1%nat) as Hone by lia.
    pose proof (counted_frame_ok T (p_world p) _ Hw Hc) as Hok. cbn [mbind outcome_bind].
    destruct (task_map_spec T (mt_tracker x) (floor_page v) fl p) as (T' & w' & E & Hw' & Er & Ef & Hrc & Hev & Hl & Hs);
      [done|done|apply floor_page_aligned|done|lia|].
    rewrite E. exists (mt_tracker x), T', (set_world w' p). split; [done|]. split; simpl; try done.
    + intros v' Hv'. rewrite Hl by done. apply if_decide_ext, same_page_floor.
    + unfold strong_count in Hone. destruct (w_rc (p_world p) !! mt_tracker x) as [n|] eqn:En; [|done].
      destruct (wo_rc _ _ Hw _ _ En) as (_ & _ & ? & ?). rewrite (ev_ram _ _ _ _ _ Hev); [done..|set_solver].
    + lia.
    + left. split_and!; try done. intros q. unfold strong_count. by rewrite Hrc.
Qed.
Lemma fault_flags_writable area v : contains (pte_flags_of (fault_flags area v)) PTE_W = true.
Proof. unfold fault_flags. by destruct (bool_decide _ && _). Qed.

(** What the MMU finds for a leaf entry. *)
Lemma user_frame_leaf T p v f fl :
  world_ok T (p_world p) → user_addr v → frame_ok f → fl ≠ 0 → contains (pte_flags_of fl) PTE_W = true →
  leaf T (w_phys (p_world p)) v = pte_new_page f (pte_flags_of fl) → user_frame v p = Some f.
Proof.
  intros Hw Hv Hf Hfl Hwr Hl. unfold user_frame. rewrite (mmu_leaf T) by done. rewrite Hl, new_page_V by done.
  simpl. rewrite pte_flags_new_page, Hwr by (done || apply pte_flags_of_range).
  by rewrite pte_address_new_page by (done || apply pte_flags_of_range).
Qed.

Lemma fault_flags_nonzero area v : fault_flags area v ≠ 0.
Proof. unfold fault_flags. by destruct (bool_decide _ && _). Qed.

(** C3: Copy on write: a fault on a page of a private area ends with the page
    mapped writable on a frame that only this mapping refers to, with the
    contents the page had; a frame that was shared keeps its contents and loses
    exactly one reference, no other page of the process changes, and no frame
    in use by anybody else is written. *)
Theorem cow_fault_private_copy T p i area j x v page :
  list_find (λ a, ma_contains a v = true) (pcb_memset (p_pcb p)) = Some (i, area) →
  list_find (λ x, mt_vaddr x = floor_page v) (ma_mtrackers area) = Some (j, x) →
  ma_mtype area ≠ Shared → world_ok T (p_world p) → user_addr v →
  (0 < strong_count (mt_tracker x) (p_world p))%nat →
  ph_ram (w_phys (p_world p)) !! mt_tracker x = Some page → length page = 4096%nat →
  (3 ≤ size (fa_free (ph_alloc (w_phys (p_world p)))))%nat →
  ∃ f p', user_cow_int v p = Val (tt, p') ∧ user_frame v p' = Some f ∧ strong_count f (p_world p') = 1%nat ∧
    ph_ram (w_phys (p_world p')) !! f = Some page ∧
    (f = mt_tracker x ↔ strong_count (mt_tracker x) (p_world p) = 1%nat) ∧
    (∀ q, q ≠ f → strong_count q (p_world p') =
       (strong_count q (p_world p) - if bool_decide (q = mt_tracker x) then 1 else 0)%nat) ∧
    (∀ q, (0 < strong_count q (p_world p))%nat →
       ph_ram (w_phys (p_world p')) !! q = ph_ram (w_phys (p_world p)) !! q) ∧
    (∀ v', user_addr v' → ¬ same_page v' v → mmu (p_world p') v' = mmu (p_world p) v').
Proof.
  intros Hfa Hfx Hsh Hw Hv Hc Hpg Hlen Hfree.
  destruct (cow_fault_spec T p i area j x v page) as (f & T' & p' & E & Hp); [done..|].
  exists f, p'. split; [done|]. split.
  { apply (user_frame_leaf T' p' v f (fault_flags area v)); [apply Hp|done|
      exact (fp_frame _ _ _ _ _ _ _ _ _ _ _ Hp)|apply fault_flags_nonzero|apply fault_flags_writable|].
    rewrite (fp_leaf _ _ _ _ _ _ _ _ _ _ _ Hp) by done. by rewrite bool_decide_eq_true_2. }
  assert (∀ q, (0 < strong_count q (p_world p))%nat → q ∉ fa_free (ph_alloc (w_phys (p_world p))) ∧
    ∀ q', T !! q' ≠ Some q) as Hused.
  { intros q Hq. unfold strong_count in Hq. destruct (w_rc (p_world p) !! q) eqn:Eq; [|simpl in Hq; lia].
    destruct (wo_rc _ _ Hw _ _ Eq) as (_ & _ & ? & ?). done. }
  assert (∀ v', user_addr v' → ¬ same_page v' v → mmu (p_world p') v' = mmu (p_world p) v') as Hmmu.
  { intros v' Hv' Hne. rewrite (mmu_leaf T' (p_world p')), (mmu_leaf T (p_world p)) by (done || apply Hp).
    rewrite (fp_leaf _ _ _ _ _ _ _ _ _ _ _ Hp) by done. by rewrite bool_decide_eq_false_2. }
  assert (∀ q, (0 < strong_count q (p_world p))%nat →
    ph_ram (w_phys (p_world p')) !! q = ph_ram (w_phys (p_world p)) !! q) as Hram.
  { intros q Hq. destruct (Hused q Hq).
    apply (ev_ram _ _ _ _ _ (fp_evolves _ _ _ _ _ _ _ _ _ _ _ Hp)); [done..|set_solver]. }
  destruct (fp_own _ _ _ _ _ _ _ _ _ _ _ Hp) as [(Hone & Ef & _ & Hcs)|(Hgt & Hin & _ & Hcs)].
  - split_and!; [by rewrite Hcs, Ef|apply Hp|done| |done|done].
    intros q Hq. rewrite Hcs, Ef in *. rewrite bool_decide_eq_false_2 by done. lia.
  - assert (f ≠ mt_tracker x) as Hfx' by (intros ->; by destruct (Hused (mt_tracker x) Hc)).
    split_and!; [by rewrite Hcs, bool_decide_eq_true_2|apply Hp|split; [done|lia]| |done|done].
    intros q Hq. by rewrite Hcs, bool_decide_eq_false_2.
Qed.
(** *** Demand paging *)
Lemma alloc_frame_some T (w : World S) :
  world_ok T w → fa_free (ph_alloc (w_phys w)) ≠ ∅ →
  ∃ f w', alloc_frame w = Val (Some f, w') ∧ world_ok T w' ∧ w_root w' = w_root w ∧
    evolves ∅ T (w_phys w) T (w_phys w') ∧ ph_ram (w_phys w') = ph_ram (w_phys w) ∧ frame_ok f ∧
    f ∈ fa_free (ph_alloc (w_phys w)) ∧ fa_free (ph_alloc (w_phys w')) = fa_free (ph_alloc (w_phys w)) ∖ {[f]} ∧
    w_rc w' = <[f := 1%nat]> (w_rc w).
Proof.
  intros Hw Hne. destruct (alloc_frame_spec T w Hw) as (res & w' & E & ? & ? & _ & ? & ? & Hres).
  destruct res as [f|]; [|done]. destruct Hres as (? & ? & ? & ?). by exists f, w'.
Qed.

(** The first touch of a page of an anonymous area. *)
Lemma fault_new_spec T p i area v :
  list_find (λ a, ma_contains a v = true) (pcb_memset (p_pcb p)) = Some (i, area) →
  list_find (λ x, mt_vaddr x = floor_page v) (ma_mtrackers area) = None → ma_file area = None →
  world_ok T (p_world p) → user_addr v → (10 ≤ size (fa_free (ph_alloc (w_phys (p_world p)))))%nat →
  ∃ f T' p', user_cow_int v p = Val (tt, p') ∧ world_ok T' (p_world p') ∧
    evolves ∅ T (w_phys (p_world p)) T' (w_phys (p_world p')) ∧ frame_ok f ∧
    f ∈ fa_free (ph_alloc (w_phys (p_world p))) ∧ ph_ram (w_phys (p_world p')) !! f = Some zero_page ∧
    w_rc (p_world p') = <[f := 1%nat]> (w_rc (p_world p)) ∧
    (∀ v', user_addr v' → leaf T' (w_phys (p_world p')) v' =
       if bool_decide (same_page v' v) then pte_new_page f (pte_flags_of (fault_flags area v))
       else leaf T (w_phys (p_world p)) v').
Proof.
  intros Hfa Hfx Hfile Hw Hv Hfree. unfold user_cow_int. rewrite Hfa. unfold fault_in_area. rewrite Hfx.
  unfold fault_new, get_free_pages. rewrite fa_count_free by apply Hw.
  rewrite (proj2 (Z.ltb_ge _ 10)) by lia.
  destruct (alloc_frame_some T (p_world p) Hw) as (f & w1 & E1 & Hw1 & Er1 & Hev1 & Hr1 & Hok & Hin & Hfr1 & Hrc1).
  { intros E. rewrite E, size_empty in Hfree. lia. }
  unfold k_world. rewrite E1. cbn [mbind outcome_bind]. rewrite Hfile. unfold update_area. cbn [mbind outcome_bind].
  match goal with |- context [task_map f _ ?fl ?q] => set (p1 := q); set (flags := fl) end.
  destruct (task_map_spec T f (floor_page v) flags p1) as (T' & w' & E & Hw' & Er & _ & Hrc & Hev & Hl & _);
    [done|by apply floor_page_user|apply floor_page_aligned|done| |].
  { simpl. rewrite Hfr1, size_difference, size_singleton; [lia|set_solver]. }
  rewrite E. exists f, T', (set_world w' p1). split; [done|]. simpl in *. split_and!; try done.
  - rewrite <- (union_idemp_L ∅). by eapply evolves_trans.
  - rewrite (ev_ram _ _ _ _ _ Hev); [|rewrite Hfr1; set_solver| |set_solver].
    + rewrite Hr1. by apply (pi_zero _ _ _ (wo_pt _ _ Hw)).
    + destruct (wo_rc _ _ Hw1 f 1%nat) as (_ & _ & _ & ?); [by rewrite Hrc1, lookup_insert_eq|done].
  - congruence.
  - intros v' Hv'. rewrite Hl by done. unfold leaf at 1, pte_at. rewrite Hr1. apply if_decide_ext, same_page_floor.
Qed.

(** *** Where [mmap] puts an area *)
Lemma foldl_max_ge {A} (g : A → Z) l : ∀ acc,
  acc ≤ foldl (λ acc a, Z.max acc (g a)) acc l ∧ Forall (λ a, g a ≤ foldl (λ acc a, Z.max acc (g a)) acc l) l.
Proof.
  induction l as [|a l IH]; intros acc; simpl; [split; [lia|constructor]|].
  destruct (IH (Z.max acc (g a))) as [H1 H2]. split; [lia|]. constructor; [lia|done].
Qed.

Lemma last_free_above p a :
  a ∈ pcb_memset (p_pcb p) → ma_mtype a ≠ Stack → ma_end a ≤ get_last_free_addr p.
Proof.
  intros Ha Ht. unfold get_last_free_addr.
  destruct (foldl_max_ge ma_end (filter (λ a, ma_mtype a ≠ Stack) (pcb_memset (p_pcb p))) 0) as [_ Hf].
  rewrite Forall_forall in Hf. specialize (Hf a). rewrite list_elem_of_filter in Hf. specialize (Hf (conj Ht Ha)). lia.
Qed.

(** Areas below the stack end and well formed. *)
Definition placed (p : Proc S H) : Prop :=
  Forall (λ a, area_ok a ∧ (ma_mtype a = Stack → ma_start a + ma_len a ≤ MAP_AREA_START)) (pcb_memset (p_pcb p)).

Lemma mmap_addr_above p a : placed p → a ∈ pcb_memset (p_pcb p) → ma_start a + ma_len a ≤ mmap_addr 0 p.
Proof.
  intros Hp Ha. unfold placed in Hp. rewrite Forall_forall in Hp. destruct (Hp a Ha) as [Hok Hst].
  unfold mmap_addr. simpl. destruct (decide (ma_mtype a = Stack)) as [E|E].
  - specialize (Hst E). destruct (Z.leb_spec MAP_AREA_START (get_last_free_addr p)); lia.
  - pose proof (last_free_above p a Ha E) as Hl. rewrite ma_end_eq in Hl by done.
    destruct (Z.leb_spec MAP_AREA_START (get_last_free_addr p)); lia.
Qed.

Lemma cover_above areas b x :
  Forall (λ a : MemArea H, area_ok a ∧ ma_start a + ma_len a ≤ b) areas → b ≤ x → cover_count areas x = 0%nat.
Proof.
  induction 1 as [|a l [Ha Hb] _ IH]; intros Hx; [done|]. simpl. rewrite IH by done.
  rewrite cover_spec, bool_decide_eq_false_2 by (done || lia). done.
Qed.

Lemma placed_below p : placed p → Forall (λ a, area_ok a ∧ ma_start a + ma_len a ≤ mmap_addr 0 p) (pcb_memset (p_pcb p)).
Proof.
  intros Hp. apply Forall_forall. intros a Ha. split; [|by apply mmap_addr_above].
  unfold placed in Hp. rewrite Forall_forall in Hp. by apply Hp.
Qed.

Lemma not_overlapping areas b n :
  Forall (λ a : MemArea H, area_ok a ∧ ma_start a + ma_len a ≤ b) areas → 0 ≤ b → 0 ≤ n → b + n < MAX64 →
  memset_overlapping areas b (b +w n) = false.
Proof.
  intros Ha Hb Hn Hs. unfold memset_overlapping. rewrite wadd_small by word_lia.
  induction Ha as [|a l [Hok Hle] _ IH]; [done|]. simpl. rewrite IH, orb_false_r.
  unfold ma_overlapping. rewrite ma_end_eq by done. rewrite (proj2 (Z.leb_le (ma_start a + ma_len a) b)) by lia.
  rewrite (proj2 (Z.leb_le (ma_start a + ma_len a) (b + n))) by lia. by rewrite orb_true_r.
Qed.

(** [MAP_PRIVATE | MAP_ANONYMOUS] at an address of the kernel's choice. *)
Lemma mmap_anonymous_spec p len prot flags fd off :
  placed p → 0 < len → mmap_addr 0 p + (len + PAGE_SIZE) < MAX64 → 0 ≤ mmap_addr 0 p →
  contains (map_flags flags) MAP_ANONYMOUS = true → contains (map_flags flags) MAP_SHARED = false →
  let n := div_ceil len PAGE_SIZE * PAGE_SIZE in
  sys_mmap 0 len prot flags fd off p =
    Val (Ok (mmap_addr 0 p), map_pcb (with_memset (pcb_memset (p_pcb p) ++ [mkMemArea Mmap [] None 0 (mmap_addr 0 p) n])) p).
Proof.
  intros Hp Hl Hmax H0 Ha Hs n. pose proof (div_ceil_spec len PAGE_SIZE ltac:(lia) ltac:(done)) as Hn. fold n in Hn.
  assert (alignup len PAGE_SIZE = n) as Hal.
  { unfold alignup. apply wmul_small. unfold word64. fold n. lia. }
  unfold sys_mmap. cbv zeta. rewrite Hal.
  unfold mmap_file. rewrite Ha, orb_true_r. cbn [mret st_ret mbind outcome_bind].
  rewrite (proj2 (Z.eqb_neq n 0)) by lia. unfold vfs_bind, mmap_clear.
  rewrite (not_overlapping _ _ n (placed_below p Hp)) by lia.
  assert (∀ b : bool, (if b then Val (Ok tt, p) else Val (Ok tt, p)) = Val (Ok tt, p)) as Hb by (by intros []).
  cbv zeta. rewrite Hb. unfold mmap_place. rewrite Hs. reflexivity.
Qed.

Lemma find_last_area (areas : MemSet H) a v :
  cover_count areas v = 0%nat → ma_contains a v = true →
  list_find (λ a, ma_contains a v = true) (areas ++ [a]) = Some (length areas, a).
Proof.
  intros Hc Ha. apply list_find_Some. split_and!; [by rewrite lookup_app_r, Nat.sub_diag by lia|done|].
  intros k y Hy Hk. rewrite lookup_app_l in Hy by done. clear Ha Hk. revert k Hy.
  induction areas as [|b areas IH]; intros k Hy; [done|]. simpl in Hc. unfold cover in Hc.
  destruct (ma_contains b v) eqn:Eb; [lia|]. destruct k as [|k]; simpl in Hy; [congruence|]. by apply (IH Hc k).
Qed.

(** C4: An anonymous private [mmap] at an address of the kernel's choice
    succeeds, covers exactly a range no area covered and maps nothing yet; the
    first access to a page of it maps a frame that was free, reads as zero and
    belongs to this page alone, and changes no other page.  The page is
    writable whatever protection was asked for. *)
Theorem mmap_demand_zero T p len prot flags fd off v :
  placed p → 0 < len → 0 ≤ mmap_addr 0 p → mmap_addr 0 p + (len + PAGE_SIZE) < 2 ^ 38 →
  contains (map_flags flags) MAP_ANONYMOUS = true → contains (map_flags flags) MAP_SHARED = false →
  world_ok T (p_world p) → (10 ≤ size (fa_free (ph_alloc (w_phys (p_world p)))))%nat →
  let addr := mmap_addr 0 p in
  let n := div_ceil len PAGE_SIZE * PAGE_SIZE in
  addr ≤ v < addr + n →
  ∃ p1 p2 f, sys_mmap 0 len prot flags fd off p = Val (Ok addr, p1) ∧ p_world p1 = p_world p ∧
    (∀ x, addr ≤ x < addr + n → cover_count (pcb_memset (p_pcb p)) x = 0%nat) ∧
    (∀ x, cover_count (pcb_memset (p_pcb p1)) x =
       (cover_count (pcb_memset (p_pcb p)) x + if bool_decide (addr ≤ x < addr + n)%Z then 1 else 0)%nat) ∧
    user_cow_int v p1 = Val (tt, p2) ∧ user_frame v p2 = Some f ∧
    f ∈ fa_free (ph_alloc (w_phys (p_world p))) ∧ ph_ram (w_phys (p_world p2)) !! f = Some zero_page ∧
    strong_count f (p_world p2) = 1%nat ∧
    (∀ v', user_addr v' → ¬ same_page v' v → mmu (p_world p2) v' = mmu (p_world p) v').
Proof.
  intros Hp Hl H0 Hmax Ha Hs Hw Hfree addr n Hv.
  pose proof (div_ceil_spec len PAGE_SIZE ltac:(lia) ltac:(done)) as Hn. fold n in Hn.
  assert (area_ok (mkMemArea (F:=H) Mmap [] None 0 addr n)) as Hok by (split; simpl; unfold addr in *; word_lia).
  assert (∀ x, addr ≤ x → cover_count (pcb_memset (p_pcb p)) x = 0%nat) as Hcov.
  { intros x Hx. by apply (cover_above _ addr); [apply placed_below|]. }
  set (p1 := map_pcb (with_memset (pcb_memset (p_pcb p) ++ [mkMemArea Mmap [] None 0 addr n])) p).
  assert (pcb_memset (p_pcb p1) = pcb_memset (p_pcb p) ++ [mkMemArea Mmap [] None 0 addr n]) as Hm1.
  { unfold p1. by destruct p as [? ? ? b]; destruct b. }
  assert (user_addr v) as Hvu by (unfold user_addr, addr in *; lia).
  destruct (fault_new_spec T p1 (length (pcb_memset (p_pcb p))) (mkMemArea Mmap [] None 0 addr n) v)
    as (f & T' & p2 & E & Hw' & _ & Hfok & Hin & Hz & Hrc & Hlf); [|done|done|done|done|done|].
  { rewrite Hm1. apply find_last_area; [apply Hcov; lia|]. rewrite ma_contains_spec by done.
    apply bool_decide_eq_true_2. simpl. lia. }
  exists p1, p2, f. split_and!.
  - apply (mmap_anonymous_spec p len prot flags fd off); [done|done| |done|done|done]. unfold addr in *. word_lia.
  - done.
  - intros x Hx. apply Hcov. lia.
  - intros x. rewrite Hm1, cover_count_app. simpl. rewrite cover_spec by done. simpl. lia.
  - done.
  - apply (user_frame_leaf T' p2 v f (fault_flags (mkMemArea (F:=H) Mmap [] None 0 addr n) v)); try done.
    + apply fault_flags_nonzero.
    + apply fault_flags_writable.
    + rewrite Hlf by done. by rewrite bool_decide_eq_true_2.
  - done.
  - done.
  - unfold strong_count. rewrite Hrc. by rewrite lookup_insert_eq.
  - intros v' Hv' Hne. rewrite (mmu_leaf T' (p_world p2)), (mmu_leaf T (p_world p)) by done.
    rewrite Hlf by done. by rewrite bool_decide_eq_false_2.
Qed.
End mm.

(** ** Concrete faults: the demo process, its second page shared *)
Lemma demo_free : get_free_pages (w_phys demo_world) = 10.
Proof. vm_compute. reflexivity. Qed.

Lemma demo_free_size : (10 ≤ size (fa_free (ph_alloc (w_phys demo_world))))%nat.
Proof.
  destruct demo_world_ok as [[T HT] _]. pose proof demo_free as E. unfold get_free_pages in E.
  rewrite fa_count_free in E by apply HT. lia.
Qed.

#[local] Opaque demo_world.

Definition demo_shared : Proc unit unit :=
  set_world (set_rc (<[0x80002000 := 2%nat]> (w_rc demo_world)) demo_world) (demo_proc []).

Lemma demo_shared_ok : ∃ T, world_ok T (p_world demo_shared).
Proof.
  destruct demo_world_ok as [[T HT] Hrc]. exists T. destruct HT as [Hpt Hw]. split; [exact Hpt|]. simpl.
  intros q n. rewrite lookup_insert_Some. intros [[<- <-]|[_ Hq]]; [|by apply Hw].
  destruct (Hw 0x80002000 1%nat) as [_ ?]; [by rewrite Hrc|]. split; [lia|done].
Qed.

Lemma demo_page : ph_ram (w_phys demo_world) !! 0x80002000 = Some zero_page.
Proof. vm_compute. reflexivity. Qed.

Lemma cow_fault_private_copy_witness :
  ∃ f p', user_cow_int demo_ops 0x11234 demo_shared = Val (tt, p') ∧ user_frame 0x11234 p' = Some f ∧
    f ≠ 0x80002000 ∧ strong_count 0x80002000 (p_world p') = 1%nat ∧
    ph_ram (w_phys (p_world p')) !! f = Some zero_page.
Proof.
  destruct demo_shared_ok as [T HT]. pose proof demo_free_size as Hs.
  destruct (cow_fault_private_copy demo_ops T demo_shared 0 demo_area 1 (mkMapTrack 0x11000 0x80002000 0) 0x11234 zero_page)
    as (f & p' & E & Hf & _ & Hz & Hiff & Hc & _ & _);
    [reflexivity|reflexivity|done|exact HT|split; lia| |exact demo_page|reflexivity| |].
  - unfold strong_count. simpl. rewrite lookup_insert_eq. simpl. lia.
  - simpl. lia.
  - assert (strong_count 0x80002000 (p_world demo_shared) = 2%nat) as H2.
    { unfold strong_count. simpl. by rewrite lookup_insert_eq. }
    cbn [mt_tracker] in *. rewrite H2 in Hiff. assert (f ≠ 0x80002000) as Hne by (intros Ef; by apply Hiff in Ef).
    exists f, p'. split; [exact E|]. split; [exact Hf|]. split; [exact Hne|]. split; [|exact Hz].
    rewrite Hc by done. by rewrite H2.
Defined.

Lemma mmap_demand_zero_witness :
  ∃ p1 p2 f, sys_mmap demo_ops 0 5000 0 0x22 usize_max 0 (demo_proc []) = Val (Ok 0x200000000, p1) ∧
    user_cow_int demo_ops 0x200001008 p1 = Val (tt, p2) ∧ user_frame 0x200001008 p2 = Some f ∧
    ph_ram (w_phys (p_world p2)) !! f = Some zero_page.
Proof.
  destruct demo_world_ok as [[T HT] _]. pose proof demo_free_size as Hs.
  destruct (mmap_demand_zero demo_ops T (demo_proc []) 5000 0 0x22 usize_max 0 0x200001008)
    as (p1 & p2 & f & E1 & _ & _ & _ & E2 & Hf & _ & Hz & _);
    [|lia|vm_compute; discriminate|vm_compute; reflexivity|reflexivity|reflexivity|exact HT|exact Hs| |].
  - unfold placed. simpl. constructor; [|constructor]. split; [split; simpl; word_lia|done].
  - vm_compute. split; [discriminate|reflexivity].
  - exists p1, p2, f. split; [exact E1|]. split; [exact E2|]. split; [exact Hf|exact Hz].
Defined.
