(* ===== verification/Shm.v ===== *)
(** * Shared memory segments ([kernel/src/syscall/shm.rs], [kernel/src/tasks/shm.rs])

    A segment is held by [Arc]: once by the table [SHARED_MEMORY], once by
    every mapping of it. *)

From S2P Require Import Prelude Bytes Frame PageTable Signal Path Vfs File Time Futex Ipc MemSet Process Mm.
Local Open Scope Z_scope.

Section shm.
Context {S H : Type}.
Notation K := (K S H).
Notation M := (ST (Proc S H)).

Definition set_shared (m : gmap Z Z) (k : Kern) : Kern :=
  mkKern m (kn_segments k) (kn_last_tls_addr k) (kn_tls_count k) (kn_boot_root k).
Definition set_segments (m : gmap Z (nat * SharedMemory)) (k : Kern) : Kern :=
  mkKern (kn_shared k) m (kn_last_tls_addr k) (kn_tls_count k) (kn_boot_root k).
Definition map_kern (f : Kern → Kern) (p : Proc S H) : Proc S H := set_kern (f (p_kern p)) p.

(** [Arc::clone] of a segment. *)
Definition seg_clone (id : Z) : M unit := λ p,
  seg ← unwrap (kn_segments (p_kern p) !! id);
  Val (tt, map_kern (set_segments (<[id := (Datatypes.S seg.1, seg.2)]> (kn_segments (p_kern p)))) p).

(** Dropping a reference; with the last one the frames' references go. *)
Definition seg_drop (id : Z) : M unit := λ p,
  match kn_segments (p_kern p) !! id with
  | Some (Datatypes.S (Datatypes.S n), seg) =>
      Val (tt, map_kern (set_segments (<[id := (Datatypes.S n, seg)]> (kn_segments (p_kern p)))) p)
  | Some (_, seg) =>
      '(_, p) ← k_world (st_iter arc_drop (shm_trackers seg)) p;
      Val (tt, map_kern (set_segments (delete id (kn_segments (p_kern p)))) p)
  | None => Panic
  end.

(** [Drop for MapedSharedMemory] *)
Definition shm_drop (shm : MapedSharedMemory) : M unit := λ p,
  let k := p_kern p in
  seg ← unwrap (kn_segments k !! ms_mem shm);
  '(_, p) ←
    (if bool_decide (seg.1 = 1%nat) && shm_deleted seg.2 then
       match kn_shared k !! ms_key shm with
       | Some id => '(_, p) ← seg_drop id (map_kern (set_shared (delete (ms_key shm) (kn_shared k))) p); Val (tt, p)
       | None => Val (tt, p)
       end
     else Val (tt, p));
  seg_drop (ms_mem shm) p.

(** ** Syscalls *)
(** [01000] is a decimal literal in Rust. *)
Definition SHM_CREATE : Z := 1000.

Definition sys_shmget (key size shmflg : Z) : K Z := λ p,
  let k := p_kern p in
  let key := if key =? 0 then max_key 0 (kn_shared k) +w 1 else key in
  match kn_shared k !! key with
  | Some _ => Val (Ok key, p)
  | None =>
      if 0 <? Z.land shmflg SHM_CREATE then
        '(res, p) ← k_world (alloc_frames (div_ceil size PAGE_SIZE)) p;
        ps ← unwrap res;
        let id := fresh (dom (kn_segments k)) in
        Val (Ok key, map_kern (λ k, set_shared (<[key := id]> (kn_shared k))
                       (set_segments (<[id := (1%nat, mkShm ps false)]> (kn_segments k)) k)) p)
      else Val (Err ENOENT, p)
  end.

Definition shmat_addr (shmaddr : Z) (p : Proc S H) : Z :=
  let vaddr := get_last_free_addr p in
  if shmaddr =? 0 then (if 0x40000000 <=? vaddr then vaddr else 0x40000000) else shmaddr.

Definition sys_shmat (shmid shmaddr : Z) : K Z := λ p,
  let vaddr := shmat_addr shmaddr p in
  match kn_shared (p_kern p) !! shmid with
  | None => Val (Err ENOENT, p)
  | Some id =>
      seg ← unwrap (kn_segments (p_kern p) !! id);
      let trackers := shm_trackers seg.2 in
      '(_, p) ← st_iter (λ x : Z * Z, task_map x.2 (vaddr +w x.1 *w PAGE_SIZE) MF_URWX)
                  (imap (λ i t, (Z.of_nat i, t)) trackers) p;
      let size := Z.of_nat (length trackers) *w PAGE_SIZE in
      '(_, p) ← seg_clone id p;
      Val (Ok vaddr, map_pcb (with_shms (pcb_shms (p_pcb p) ++ [mkMshm shmid id vaddr size])) p)
  end.

Definition sys_shmctl (shmid cmd : Z) : K Z := λ p,
  if cmd =? 0 then
    match kn_shared (p_kern p) !! shmid with
    | Some id =>
        seg ← unwrap (kn_segments (p_kern p) !! id);
        Val (Ok 0, map_kern (set_segments (<[id := (seg.1, mkShm (shm_trackers seg.2) true)]> (kn_segments (p_kern p)))) p)
    | None => Val (Ok 0, p)
    end
  else Val (Err EPERM, p).

(** ** Histories *)
Inductive shm_event := SGet (key size flg : Z) | SAt (id addr : Z) | SCtl (id cmd : Z) | SDetach (i : nat).

(** [SDetach i] drops the [i]-th mapping of the process. *)
Definition shm_step (e : shm_event) : M unit := λ p,
  match e with
  | SGet key size flg => '(_, p) ← sys_shmget key size flg p; Val (tt, p)
  | SAt id addr => '(_, p) ← sys_shmat id addr p; Val (tt, p)
  | SCtl id cmd => '(_, p) ← sys_shmctl id cmd p; Val (tt, p)
  | SDetach i =>
      match pcb_shms (p_pcb p) !! i with
      | None => Val (tt, p)
      | Some shm => shm_drop shm (map_pcb (with_shms (delete i (pcb_shms (p_pcb p)))) p)
      end
  end.

Definition shm_run (es : list shm_event) : M unit := st_iter shm_step es.

(** The count of a segment in the table covers the table and every mapping. *)
Definition held (l : list MapedSharedMemory) (id : Z) : nat := length (filter (λ m, ms_mem m = id) l).

(** The frame allocator. *)
Definition frames (p : Proc S H) : FrameAllocator := ph_alloc (w_phys (p_world p)).

Record shm_wf (p : Proc S H) : Prop := {
  sw_alloc : fa_wf (frames p);
  sw_frames : ∀ key id n seg, kn_shared (p_kern p) !! key = Some id → kn_segments (p_kern p) !! id = Some (n, seg) →
    ∀ f, f ∈ shm_trackers seg → f ∉ fa_free (frames p);
  sw_table : ∀ key id, kn_shared (p_kern p) !! key = Some id →
    ∃ n seg, kn_segments (p_kern p) !! id = Some (n, seg) ∧ (held (pcb_shms (p_pcb p)) id < n)%nat;
  sw_all : ∀ m, m ∈ pcb_shms (p_pcb p) → ∃ key, kn_shared (p_kern p) !! key = Some (ms_mem m)
}.

(** Keys stay, with their segment and its frames. *)
Definition shm_kept (p p' : Proc S H) : Prop :=
  ∀ key id n seg, kn_shared (p_kern p) !! key = Some id → kn_segments (p_kern p) !! id = Some (n, seg) →
    kn_shared (p_kern p') !! key = Some id ∧
    ∃ n' seg', kn_segments (p_kern p') !! id = Some (n', seg') ∧ shm_trackers seg' = shm_trackers seg ∧ (0 < n')%nat.

(** Frames are taken and none is given back. *)
Definition takes (fa fa' : FrameAllocator) : Prop := fa_wf fa → fa_wf fa' ∧ fa_free fa' ⊆ fa_free fa.

Lemma takes_refl fa : takes fa fa.
Proof. done. Qed.
Lemma takes_trans fa1 fa2 fa3 : takes fa1 fa2 → takes fa2 fa3 → takes fa1 fa3.
Proof. intros H1 H2 Hw. destruct (H1 Hw) as [Hw2 ?]. destruct (H2 Hw2). split; [done|by etrans]. Qed.

Lemma page_alloc_takes ph q ph' : page_alloc ph = Val (q, ph') → takes (ph_alloc ph) (ph_alloc ph').
Proof.
  unfold page_alloc, frame_alloc_persist. intros E Hw. destruct (fa_alloc_spec _ Hw) as (res & fa' & Ef & Hw' & _ & Hpost).
  rewrite Ef in E. cbn [mbind outcome_bind] in E. destruct res as [q'|]; [|done]. injection E as <- <-.
  destruct Hpost as [_ Hfree]. split; [done|]. simpl. rewrite Hfree. set_solver.
Qed.

Lemma set_pte_takes t i e ph u ph' : set_pte t i e ph = Val (u, ph') → takes (ph_alloc ph) (ph_alloc ph').
Proof. unfold set_pte. destruct (unwrap _); [|done]. cbn [mbind outcome_bind]. by intros [= _ <-]. Qed.

Lemma map_level_takes t i ph q ph' : map_level t i ph = Val (q, ph') → takes (ph_alloc ph) (ph_alloc ph').
Proof.
  unfold map_level, mbind, st_bind, get_pte. destruct (unwrap _) as [page|]; [|done]. cbn [mbind outcome_bind].
  destruct (negb _); [|by intros [= _ <-]]. destruct (page_alloc ph) as [[q1 ph1]|] eqn:E1; [|done]. apply page_alloc_takes in E1.
  destruct (set_pte _ _ _ ph1) as [[u ph2]|] eqn:E2; [|done]. apply set_pte_takes in E2. intros [= _ <-]. by eapply takes_trans.
Qed.

Lemma pt_map_page_takes r v f fl ph u ph' : pt_map_page r v f fl ph = Val (u, ph') → takes (ph_alloc ph) (ph_alloc ph').
Proof.
  unfold pt_map_page, mbind, st_bind. destruct (map_level r _ ph) as [[t1 ph1]|] eqn:E1; [|done]. apply map_level_takes in E1.
  destruct (map_level t1 _ ph1) as [[t0 ph2]|] eqn:E2; [|done]. apply map_level_takes in E2. intros E3%set_pte_takes.
  by eapply takes_trans; [|eapply takes_trans].
Qed.

Lemma arc_new_frames l : ∀ (w w' : World S) u, st_iter arc_new l w = Val (u, w') → w_phys w' = w_phys w.
Proof. induction l as [|x l IH]; intros w w' u; cbn [st_iter]; [by intros [= _ <-]|]. intros E. apply IH in E. by rewrite E. Qed.

(** The frames of a new segment are no longer free. *)
Lemma alloc_frames_takes n (w w' : World S) ps :
  alloc_frames n w = Val (Some ps, w') → fa_wf (ph_alloc (w_phys w)) →
  takes (ph_alloc (w_phys w)) (ph_alloc (w_phys w')) ∧ ∀ f, f ∈ ps → f ∉ fa_free (ph_alloc (w_phys w')).
Proof.
  unfold alloc_frames, frame_alloc_much. intros E Hw.
  destruct (fa_alloc_much (ph_alloc (w_phys w)) n) as [[res fa']|] eqn:Ea; [|done]. cbn [mbind outcome_bind] in E.
  destruct res as [ps'|]; [|done]. destruct (st_iter arc_new ps' _) as [[[] w1]|] eqn:En; [|done].
  cbn [mbind outcome_bind] in E. injection E as <- <-. apply arc_new_frames in En. rewrite En. cbn [w_phys set_phys ph_alloc].
  destruct (decide (0 < n)) as [Hn|Hn].
  - destruct (fa_alloc_much_spec _ n Hw Hn) as (res & fa2 & E2 & Hw2 & _ & Hpost). rewrite Ea in E2. injection E2 as <- <-.
    destruct Hpost as (q & _ & _ & Hfree). split; [split; [done|rewrite Hfree; set_solver]|]. intros f Hf. rewrite Hfree. set_solver.
  - apply fa_alloc_much_zero in Ea as [-> Hd]; [|lia]. simpl in Hd. subst ps'. split; [done|]. by intros f []%elem_of_nil.
Qed.

Lemma task_map_frame f v flags (p p' : Proc S H) u :
  task_map f v flags p = Val (u, p') → p_kern p' = p_kern p ∧ p_pcb p' = p_pcb p ∧ takes (frames p) (frames p').
Proof.
  unfold task_map. destruct (_ =? _), (_ =? _); cbn [assert_ mbind outcome_bind]; [|done..]. unfold k_world, map_page, lift_phys.
  destruct (pt_map_page _ _ _ _ _) as [[[] ph]|] eqn:E; [|done]. cbn [mbind outcome_bind]. intros [= _ <-]. split_and!; [done|done|].
  by eapply pt_map_page_takes.
Qed.

Lemma iter_frame {A} (f : A → M unit) l : ∀ p p' u,
  (∀ x p p' u, f x p = Val (u, p') → p_kern p' = p_kern p ∧ p_pcb p' = p_pcb p ∧ takes (frames p) (frames p')) →
  st_iter f l p = Val (u, p') → p_kern p' = p_kern p ∧ p_pcb p' = p_pcb p ∧ takes (frames p) (frames p').
Proof.
  induction l as [|x l IH]; intros p p' u Hf; cbn [st_iter].
  { by intros [= _ <-]. }
  unfold mbind, st_bind. destruct (f x p) as [[[] p1]|] eqn:E; [|done]. intros El.
  destruct (Hf _ _ _ _ E) as (Ek & Eb & Ht), (IH _ _ _ Hf El) as (Ek' & Eb' & Ht'). split_and!; [congruence..|by eapply takes_trans].
Qed.

Lemma held_app l k id : held (l ++ k) id = (held l id + held k id)%nat.
Proof. unfold held. by rewrite filter_app, length_app. Qed.

Lemma held_delete l i m id :
  l !! i = Some m → held l id = ((if bool_decide (ms_mem m = id) then 1 else 0) + held (delete i l) id)%nat.
Proof.
  intros Hi. rewrite <- (take_drop_middle l i m Hi) at 1. rewrite delete_take_drop, !held_app. unfold held at 2.
  rewrite filter_cons. unfold held. repeat case_decide; repeat case_bool_decide; simpl; lia || done.
Qed.

(** A change of segments that keeps trackers and positive counts. *)
Lemma kept_insert (p p' : Proc S H) id n seg n' seg' :
  kn_segments (p_kern p) !! id = Some (n, seg) → (0 < n')%nat → shm_trackers seg' = shm_trackers seg →
  kn_shared (p_kern p') = kn_shared (p_kern p) →
  kn_segments (p_kern p') = <[id := (n', seg')]> (kn_segments (p_kern p)) →
  shm_wf p → shm_kept p p'.
Proof.
  intros Hs Hn Ht Hsh Hseg Hwf key id0 n0 seg0 Hk H0. rewrite Hsh, Hseg. split; [done|].
  destruct (decide (id0 = id)) as [->|Hne].
  - rewrite lookup_insert_eq. exists n', seg'. split_and!; [done|congruence|done].
  - rewrite lookup_insert_ne by done. exists n0, seg0. split_and!; [done..|].
    destruct (sw_table _ Hwf key id0 Hk) as (n1 & seg1 & E1 & ?). rewrite H0 in E1. simplify_eq. lia.
Qed.

Lemma kept_refl (p p' : Proc S H) : shm_wf p → p_kern p' = p_kern p → shm_kept p p'.
Proof.
  intros Hwf E key id n seg Hk Hs. rewrite E. split; [done|]. exists n, seg. split_and!; [done..|].
  destruct (sw_table _ Hwf key id Hk) as (n1 & seg1 & E1 & ?). rewrite Hs in E1. simplify_eq. lia.
Qed.

Lemma with_shms_shms l (b : ProcessControlBlock H) : pcb_shms (with_shms l b) = l.
Proof. by destruct b. Qed.

(** *** Each event *)
Lemma get_kept key size flg p p' r :
  shm_wf p → sys_shmget key size flg p = Val (r, p') → shm_wf p' ∧ shm_kept p p'.
Proof.
  intros Hwf. unfold sys_shmget. set (k0 := if key =? 0 then _ else _).
  destruct (kn_shared (p_kern p) !! k0) as [id0|] eqn:Ek.
  { intros [= _ <-]. split; [done|by apply kept_refl]. }
  destruct (0 <? _).
  2: { intros [= _ <-]. split; [done|by apply kept_refl]. }
  unfold k_world. destruct (alloc_frames _ _) as [[[ps|] w]|] eqn:Eal; cbn [mbind outcome_bind unwrap]; [|done..].
  destruct (alloc_frames_takes _ _ _ _ Eal (sw_alloc _ Hwf)) as [Htk Hps]. destruct (Htk (sw_alloc _ Hwf)) as [Hw' Hsub].
  intros [= _ <-]. set (id := fresh _).
  assert (kn_segments (p_kern p) !! id = None) as Hfresh by (apply not_elem_of_dom, is_fresh).
  assert (∀ key' id', kn_shared (p_kern p) !! key' = Some id' → id' ≠ id) as Hne.
  { intros key' id' Hk ->. destruct (sw_table _ Hwf key' id Hk) as (n & seg & E & _). congruence. }
  split.
  - split; simpl.
    + exact Hw'.
    + intros key' id' n seg. rewrite lookup_insert_Some. intros [[<- <-]|[_ Hk]].
      * rewrite lookup_insert_eq. intros [= <- <-]. exact Hps.
      * rewrite lookup_insert_ne by (intros E; by apply (Hne _ _ Hk)). intros Hs f Hf Hin. apply (sw_frames _ Hwf key' id' n seg Hk Hs f Hf). by apply Hsub.
    + intros key' id'. rewrite lookup_insert_Some. intros [[<- <-]|[_ Hk]].
      * rewrite lookup_insert_eq. eexists _, _. split; [done|]. unfold held. rewrite filter_none; [simpl; lia|].
        intros m Hm Em. destruct (sw_all _ Hwf m Hm) as [key' Hk']. rewrite Em in Hk'. by apply (Hne key' id).
      * rewrite lookup_insert_ne by (intros E; by apply (Hne _ _ Hk)). by apply (sw_table _ Hwf key').
    + intros m Hm. destruct (sw_all _ Hwf m Hm) as [key' Hk']. exists key'. rewrite lookup_insert_ne; [done|]. congruence.
  - intros key' id' n seg Hk Hs. simpl. rewrite lookup_insert_ne by congruence.
    rewrite lookup_insert_ne by (intros E; by apply (Hne _ _ Hk)). split; [done|]. exists n, seg.
    split_and!; [done..|]. destruct (sw_table _ Hwf key' id' Hk) as (n1 & seg1 & E1 & ?). rewrite Hs in E1. simplify_eq. lia.
Qed.

Lemma at_kept shmid addr p p' r :
  shm_wf p → sys_shmat shmid addr p = Val (r, p') → shm_wf p' ∧ shm_kept p p'.
Proof.
  intros Hwf. unfold sys_shmat. destruct (kn_shared (p_kern p) !! shmid) as [id|] eqn:Ek.
  2: { intros [= _ <-]. split; [done|by apply kept_refl]. }
  destruct (sw_table _ Hwf shmid id Ek) as (n & seg & Es & Hn). rewrite Es. cbn [unwrap mbind outcome_bind snd].
  destruct (st_iter _ _ p) as [[[] p1]|] eqn:Ei; cbn [mbind outcome_bind]; [|done].
  destruct (iter_frame _ _ _ _ _ (λ x p p' u, task_map_frame _ _ _ p p' u) Ei) as (Ekn & Epcb & Htk). destruct (Htk (sw_alloc _ Hwf)) as [Hw' Hsub].
  unfold seg_clone. rewrite Ekn, Es. cbn [unwrap mbind outcome_bind fst snd]. intros [= _ <-]. split.
  - split; simpl; rewrite ?with_shms_shms, ?Ekn, ?Epcb.
    + exact Hw'.
    + intros key id' n1 seg1 Hk Hs f Hf Hin. apply Hsub in Hin. revert Hin.
      destruct (decide (id' = id)) as [->|Hne]; [rewrite lookup_insert_eq in Hs; injection Hs as <- <-|rewrite lookup_insert_ne in Hs by done];
        by eapply (sw_frames _ Hwf).
    + intros key id' Hk. destruct (sw_table _ Hwf key id' Hk) as (n1 & seg1 & E1 & Hn1). rewrite held_app. unfold held at 2.
      destruct (decide (id' = id)) as [->|Hne].
      * rewrite lookup_insert_eq. eexists _, _. split; [done|]. rewrite E1 in Es. simplify_eq.
        rewrite filter_cons_True by done. simpl. lia.
      * rewrite lookup_insert_ne by done. eexists _, _. split; [done|]. rewrite filter_cons_False by done. simpl. lia.
    + intros m [Hm| ->%list_elem_of_singleton]%elem_of_app; [by apply (sw_all _ Hwf)|]. by exists shmid.
  - apply (kept_insert _ _ id n seg (Datatypes.S n) seg); [done|lia|done|simpl; rewrite ?Ekn; done|simpl; rewrite ?Ekn; done|done].
Qed.

Lemma ctl_kept shmid cmd p p' r :
  shm_wf p → sys_shmctl shmid cmd p = Val (r, p') → shm_wf p' ∧ shm_kept p p'.
Proof.
  intros Hwf. unfold sys_shmctl. destruct (cmd =? 0).
  2: { intros [= _ <-]. split; [done|by apply kept_refl]. }
  destruct (kn_shared (p_kern p) !! shmid) as [id|] eqn:Ek.
  2: { intros [= _ <-]. split; [done|by apply kept_refl]. }
  destruct (sw_table _ Hwf shmid id Ek) as (n & seg & Es & Hn). rewrite Es. cbn [unwrap mbind outcome_bind fst snd].
  intros [= _ <-]. split.
  - split; simpl; [apply Hwf| | |apply Hwf].
    { intros key id' n1 seg1 Hk Hs. destruct (decide (id' = id)) as [->|Hne].
      - rewrite lookup_insert_eq in Hs. injection Hs as <- <-. by apply (sw_frames _ Hwf key id n seg).
      - rewrite lookup_insert_ne in Hs by done. by apply (sw_frames _ Hwf key id' n1 seg1). }
    intros key id' Hk. destruct (sw_table _ Hwf key id' Hk) as (n1 & seg1 & E1 & Hn1).
    destruct (decide (id' = id)) as [->|Hne].
    + rewrite lookup_insert_eq. eexists _, _. split; [done|]. rewrite E1 in Es. by simplify_eq.
    + rewrite lookup_insert_ne by done. eauto.
  - apply (kept_insert _ _ id n seg n (mkShm (shm_trackers seg) true)); try done. lia.
Qed.

Lemma detach_kept i m p p' u :
  shm_wf p → pcb_shms (p_pcb p) !! i = Some m →
  shm_drop m (map_pcb (with_shms (delete i (pcb_shms (p_pcb p)))) p) = Val (u, p') → shm_wf p' ∧ shm_kept p p'.
Proof.
  intros Hwf Hi. destruct (sw_all _ Hwf m) as [key0 Hk0]; [by eapply list_elem_of_lookup_2|].
  destruct (sw_table _ Hwf key0 _ Hk0) as (n & seg & Es & Hn).
  pose proof (held_delete _ i m (ms_mem m) Hi) as Hh. rewrite bool_decide_eq_true_2 in Hh by done.
  destruct n as [|[|n]]; [lia..|].
  unfold shm_drop. cbn [p_kern map_pcb set_pcb]. rewrite Es. cbn [unwrap mbind outcome_bind fst snd].
  rewrite bool_decide_eq_false_2 by done. cbn [andb mbind outcome_bind]. unfold seg_drop. cbn [p_kern map_pcb set_pcb]. rewrite Es.
  intros [= _ <-]. split.
  - split; simpl; rewrite ?with_shms_shms.
    + apply Hwf.
    + intros key id' n1 seg1 Hk Hs. destruct (decide (id' = ms_mem m)) as [->|Hne].
      * rewrite lookup_insert_eq in Hs. injection Hs as <- <-. by apply (sw_frames _ Hwf key (ms_mem m) (Datatypes.S (Datatypes.S n)) seg).
      * rewrite lookup_insert_ne in Hs by done. by apply (sw_frames _ Hwf key id' n1 seg1).
    + intros key id' Hk. destruct (sw_table _ Hwf key id' Hk) as (n1 & seg1 & E1 & Hn1).
      pose proof (held_delete _ i m id' Hi) as Hh'. destruct (decide (id' = ms_mem m)) as [->|Hne].
      * rewrite lookup_insert_eq. eexists _, _. split; [done|]. lia.
      * rewrite lookup_insert_ne by done. rewrite bool_decide_eq_false_2 in Hh' by done. eexists _, _. split; [done|]. lia.
    + intros m' Hm'. apply (sw_all _ Hwf). eapply elem_of_submseteq; [exact Hm'|]. apply sublist_submseteq, sublist_delete.
  - apply (kept_insert _ _ (ms_mem m) (Datatypes.S (Datatypes.S n)) seg (Datatypes.S n) seg); try done. lia.
Qed.

Lemma step_kept e p p' u : shm_wf p → shm_step e p = Val (u, p') → shm_wf p' ∧ shm_kept p p'.
Proof.
  intros Hwf. destruct e as [key size flg|id addr|id cmd|i]; simpl.
  - destruct (sys_shmget key size flg p) as [[r p1]|] eqn:E; cbn [mbind outcome_bind]; [|done]. intros [= _ <-]. by eapply get_kept.
  - destruct (sys_shmat id addr p) as [[r p1]|] eqn:E; cbn [mbind outcome_bind]; [|done]. intros [= _ <-]. by eapply at_kept.
  - destruct (sys_shmctl id cmd p) as [[r p1]|] eqn:E; cbn [mbind outcome_bind]; [|done]. intros [= _ <-]. by eapply ctl_kept.
  - destruct (pcb_shms (p_pcb p) !! i) as [m|] eqn:E; [by eapply detach_kept|].
    intros [= _ <-]. split; [done|by apply kept_refl].
Qed.

Lemma run_kept es : ∀ p p' u, shm_wf p → shm_run es p = Val (u, p') → shm_wf p' ∧ shm_kept p p'.
Proof.
  unfold shm_run. induction es as [|e es IH]; intros p p' u Hwf; cbn [st_iter].
  { intros [= _ <-]. split; [done|by apply kept_refl]. }
  unfold mbind, st_bind. destruct (shm_step e p) as [[u1 p1]|] eqn:E; [|done]. intros Er.
  destruct (step_kept e p p1 u1 Hwf E) as [Hwf1 Hk1]. destruct (IH p1 p' u Hwf1 Er) as [Hwf' Hk']. split; [done|].
  intros key id n seg Hk Hs. destruct (Hk1 key id n seg Hk Hs) as (Hka & n1 & seg1 & Hs1 & Ht1 & _).
  destruct (Hk' key id n1 seg1 Hka Hs1) as (Hkb & n2 & seg2 & Hs2 & Ht2 & Hp2). split; [done|].
  exists n2, seg2. split_and!; [done|congruence|done].
Qed.

(** C26: A shared memory segment is never given back: over every history of
    [shmget], [shmat], [shmctl] (also IPC_RMID) and dropped mappings that runs
    through, each key stays in the table with its segment, and the frame
    allocator never has one of the segment's frames free again, even when the
    segment was marked deleted and the last mapping is gone, because the
    table's own reference keeps the count above one. *)
Theorem shm_segments_never_freed es p p' u :
  shm_wf p → shm_run es p = Val (u, p') →
  shm_wf p' ∧
  ∀ key id n seg, kn_shared (p_kern p) !! key = Some id → kn_segments (p_kern p) !! id = Some (n, seg) →
    kn_shared (p_kern p') !! key = Some id ∧
    (∃ n' seg', kn_segments (p_kern p') !! id = Some (n', seg') ∧ shm_trackers seg' = shm_trackers seg ∧ (0 < n')%nat) ∧
    ∀ f, f ∈ shm_trackers seg → f ∉ fa_free (ph_alloc (w_phys (p_world p'))).
Proof.
  intros Hwf E. destruct (run_kept es p p' u Hwf E) as [Hwf' Hk]. split; [done|]. intros key id n seg Hkey Hs.
  destruct (Hk key id n seg Hkey Hs) as (Hkey' & n' & seg' & Hs' & Ht & Hn). split; [done|]. split; [by exists n', seg'|].
  intros f Hf. apply (sw_frames _ Hwf' key id n' seg' Hkey' Hs'). by rewrite Ht.
Qed.

Lemma get_creates key size flg p p' r :
  key ≠ 0 → kn_shared (p_kern p) !! key = None → (0 <? Z.land flg SHM_CREATE) = true →
  sys_shmget key size flg p = Val (r, p') → is_Some (kn_shared (p_kern p') !! key).
Proof.
  intros Hk Hn Hf. unfold sys_shmget. rewrite (proj2 (Z.eqb_neq key 0)), Hn, Hf by done. unfold k_world.
  destruct (alloc_frames _ (p_world p)) as [[[ps|] w]|]; cbn [mbind outcome_bind unwrap]; [|done..].
  intros [= _ <-]. simpl. rewrite lookup_insert_eq. by eexists.
Qed.

(** [shmget] tests the creation flag with the decimal constant 1000, so a
    call without IPC_CREAT whose mode bits overlap it, such as 0600, creates
    the segment. *)
Theorem shmget_creates_without_flag key size p ps w :
  key ≠ 0 → kn_shared (p_kern p) !! key = None →
  alloc_frames (div_ceil size PAGE_SIZE) (p_world p) = Val (Some ps, w) →
  Z.land 0x180 IPC_CREAT = 0 ∧
  ∃ p', sys_shmget key size 0x180 p = Val (Ok key, p') ∧ is_Some (kn_shared (p_kern p') !! key).
Proof.
  intros Hk Hn Ha. split; [done|]. unfold sys_shmget. rewrite (proj2 (Z.eqb_neq key 0)) by done. rewrite Hn.
  change (0 <? Z.land 0x180 SHM_CREATE) with true. unfold k_world. rewrite Ha. cbn [mbind outcome_bind unwrap].
  eexists. split; [done|]. simpl. by rewrite lookup_insert_eq.
Qed.
End shm.

(** ** Concrete calls on the demo process *)
Definition demo_events : list shm_event := [SGet 5 100 0x200; SAt 5 0; SCtl 5 0; SDetach 0].

Lemma demo_run : ∃ p', shm_run demo_events (demo_proc []) = Val (tt, p').
Proof.
  destruct (shm_run demo_events (demo_proc [])) as [[[] p']|] eqn:E; [by exists p'|]. exfalso.
  apply (f_equal (λ o, match o with Val _ => true | Panic => false end)) in E. vm_compute in E. discriminate.
Qed.

Lemma demo_after_get : ∃ p', shm_run [SGet 5 100 0x200] (demo_proc []) = Val (tt, p') ∧
  is_Some (kn_shared (p_kern p') !! 5) ∧ ∃ p'', shm_run [SAt 5 0; SCtl 5 0; SDetach 0] p' = Val (tt, p'').
Proof.
  destruct demo_run as [p'' E]. unfold demo_events, shm_run in E. cbn [st_iter] in E. unfold mbind at 1, st_bind at 1 in E.
  destruct (shm_step (SGet 5 100 0x200) (demo_proc [])) as [[[] p1]|] eqn:E1; [|done].
  exists p1. split; [unfold shm_run; cbn [st_iter]; unfold mbind, st_bind; by rewrite E1|]. split; [|by exists p''].
  clear E. unfold shm_step in E1. destruct (sys_shmget 5 100 0x200 (demo_proc [])) as [[r p2]|] eqn:Eg; [|discriminate E1].
  injection E1 as <-. by apply (get_creates 5 100 0x200 (demo_proc []) p2 r).
Qed.

Lemma demo_shm_wf : shm_wf (demo_proc []).
Proof.
  destruct demo_world_ok as [[T HT] _].
  split.
  - exact (pi_wf _ _ _ (wo_pt _ _ HT)).
  - intros key id n seg Hk. change (kn_shared (p_kern (demo_proc []))) with (∅ : gmap Z Z) in Hk. rewrite lookup_empty in Hk. discriminate Hk.
  - intros key id Hk. change (kn_shared (p_kern (demo_proc []))) with (∅ : gmap Z Z) in Hk. rewrite lookup_empty in Hk. discriminate Hk.
  - intros m Hm. exfalso. exact (proj1 (elem_of_nil m) Hm).
Qed.

(** The frame of a segment of one page: taken by [shmget], still taken after
    the segment was mapped, marked deleted and unmapped. *)
Lemma shm_segments_never_freed_witness :
  ∃ p1 p2 id n f, shm_run [SGet 5 100 0x200] (demo_proc []) = Val (tt, p1) ∧
    kn_segments (p_kern p1) !! id = Some (n, mkShm [f] false) ∧
    shm_run [SAt 5 0; SCtl 5 0; SDetach 0] p1 = Val (tt, p2) ∧
    pcb_shms (p_pcb p2) = [] ∧ is_Some (kn_shared (p_kern p2) !! 5) ∧ f ∉ fa_free (ph_alloc (w_phys (p_world p2))).
Proof.
  destruct demo_after_get as (p1 & E1 & [id Hid] & p2 & E2).
  destruct (shm_segments_never_freed [SGet 5 100 0x200] (demo_proc []) p1 tt demo_shm_wf E1) as [Hwf1 _].
  destruct (shm_segments_never_freed [SAt 5 0; SCtl 5 0; SDetach 0] p1 p2 tt Hwf1 E2) as [_ Hk].
  destruct (sw_table _ Hwf1 5 id Hid) as (n & seg & Hs & _). destruct (Hk 5 id n seg Hid Hs) as (E & _ & Hf).
  assert (∃ f, seg = mkShm [f] false) as [f ->].
  { apply (f_equal (λ o, match o with Val (_, p) => (λ x : nat * SharedMemory, x.2) <$> (kn_shared (p_kern p) !! 5 ≫= λ i, kn_segments (p_kern p) !! i) | _ => None end)) in E1.
    rewrite Hid in E1. cbn [mbind option_bind] in E1. rewrite Hs in E1. vm_compute in E1. injection E1 as <-. by eexists. }
  exists p1, p2, id, n, f. split; [exact E1|]. split; [exact Hs|]. split; [exact E2|]. split.
  { clear -E1 E2. assert (shm_run ([SGet 5 100 0x200] ++ [SAt 5 0; SCtl 5 0; SDetach 0]) (demo_proc []) = Val (tt, p2)) as E.
    { unfold shm_run in *. cbn [app st_iter] in *. unfold mbind, st_bind in *. destruct (shm_step _ (demo_proc [])) as [[[] q]|]; [|discriminate].
      injection E1 as ->. exact E2. }
    apply (f_equal (λ o, match o with Val (_, p) => pcb_shms (p_pcb p) | _ => [] end)) in E. rewrite <- E. vm_compute. reflexivity. }
  split; [rewrite E; by eexists|]. apply Hf. apply list_elem_of_here.
Defined.

Lemma demo_alloc : ∃ ps w, alloc_frames 1 (p_world (demo_proc [])) = Val (Some ps, w).
Proof.
  destruct (alloc_frames 1 (p_world (demo_proc []))) as [[[ps|] w]|] eqn:E; [by exists ps, w|exfalso..];
    apply (f_equal (λ o, match o with Val (Some _, _) => true | _ => false end)) in E; vm_compute in E; discriminate.
Qed.

Lemma shmget_creates_without_flag_witness :
  ∃ p', sys_shmget 5 100 0x180 (demo_proc []) = Val (Ok 5, p').
Proof.
  destruct demo_alloc as (ps & w & E).
  destruct (shmget_creates_without_flag 5 100 (demo_proc []) ps w) as (_ & p' & Ep & _);
    [discriminate|reflexivity|exact E|]. by exists p'.
Defined.
