(* ===== verification/Fork.v ===== *)
(** * Copy-on-write fork ([UserTask::new], [UserTask::cow_fork])

    Creating a process and forking one, beside any number of other address
    spaces in the same memory: stores and forks keep the spaces apart. *)

From S2P Require Import Prelude Bytes Frame PageTable Signal Path Vfs File Time Futex MemSet Process Mm Shm.
Local Open Scope Z_scope.

Definition trap_frame_new : TrapFrame := mkTrapFrame (replicate 32 0) 0.
Definition timer_default : ProcessTimer :=
  mkProcessTimer (mkITimerVal (mkTimeVal 0 0) (mkTimeVal 0 0)) (mkTimeVal 0 0) (mkTimeVal 0 0).

(** The control block of a new thread. *)
Definition tcb_new : ThreadControlBlock :=
  mkTcb trap_frame_new sig_proc_mask_new 0 0 signal_list_new (replicate (Z.to_nat REAL_TIME_SIGNAL_NUM) 0) 0 None 0 0.

Section fork.
Context {S H : Type} (ops : INodeOps S H).
Notation M := (ST (Proc S H)).

(** A task that is not running: what [Proc] has beside the shared state. *)
Record Task := mkTask {
  tk_root : Z;
  tk_pcb : ProcessControlBlock H;
  tk_tcb : ThreadControlBlock;
  tk_tid : Z;
  tk_pid : Z
}.

Definition with_root (root : Z) (w : World S) : World S := mkWorld (w_phys w) (w_rc w) root (w_fs w).

(** [Result::expect] *)
Definition expect {A} (r : result A) : outcome A := match r with Ok a => Val a | Err _ => Panic end.

(** [File::open(path, flags).map(Arc::new).expect(..)] *)
Definition open_new (path : PathBuf) (flags : Z) : M Z := λ p,
  '(r, p) ← k_fs (file_open ops (p_mounted p) path flags) p;
  f ← expect r;
  new_file f p.

(** [UserTask::new]; the kernel half of the new table is copied from the table in
    use. *)
Definition user_task_new (task_id : Z) (work_dir : PathBuf) : M Task := λ p,
  '(curr_dir, p) ← open_new work_dir O_DIRECTORY p;
  '(tty, p) ← open_new (pb_from "/dev/ttyv0") O_RDWR p;
  '(root, p) ← k_world (λ w, lift_phys (pt_alloc (w_root w)) w) p;
  Val (mkTask root
         (mkPcb [] (file_table_new tty) curr_dir 0 0 [] tms_default rlimits_new (replicate 65 sig_action_new) ∅ []
            (replicate 3 timer_default) [(task_id, true)] None None false 0x12)
         tcb_new task_id task_id, p).

(** [new_task.map(..)] in the page table at [root]. *)
Definition map_in (root paddr vaddr flags : Z) : M unit := λ p,
  _ ← assert_ (paddr mod PAGE_SIZE =? 0);
  _ ← assert_ (vaddr mod PAGE_SIZE =? 0);
  k_world (lift_phys (pt_map_page root vaddr paddr flags)) p.

Definition fork_flags (mtype : MemType) : Z :=
  match mtype with Shared | ShareFile => MF_URWX | _ => MF_URX end.

(** One area: its trackers are shared and its pages mapped in both tables. *)
Definition fork_page (root flags : Z) (x : MapTrack) : M unit :=
  _ ← map_in root (mt_tracker x) (mt_vaddr x) flags;
  task_map (mt_tracker x) (mt_vaddr x) flags.

Definition fork_area (root : Z) (area : MemArea H) : M unit :=
  _ ← k_world (st_iter (λ x, arc_clone (mt_tracker x)) (ma_mtrackers area));
  st_iter (fork_page root (fork_flags (ma_mtype area))) (ma_mtrackers area).

(** A shared segment, mapped in the child. *)
Definition fork_shm (root : Z) (shm : MapedSharedMemory) : M unit := λ p,
  seg ← unwrap (kn_segments (p_kern p) !! ms_mem shm);
  st_iter (λ x : Z * Z, map_in root x.2 (ms_start shm +w x.1 *w PAGE_SIZE) MF_URWX)
    (imap (λ i t, (Z.of_nat i, t)) (shm_trackers seg.2)) p.

(** [UserTask::cow_fork] *)
Definition cow_fork (task_id : Z) : M Task := λ p,
  cwd ← unwrap (p_files p !! pcb_curr_dir (p_pcb p));
  '(c, p) ← user_task_new task_id (f_path_buf cwd) p;
  let b := p_pcb p in
  '(_, p) ← st_iter (λ shm, seg_clone (ms_mem shm)) (pcb_shms b) p;
  let new_pcb := with_shms (pcb_shms b) (with_curr_dir (pcb_curr_dir b) (with_heap (pcb_heap b)
                   (with_fd_table (pcb_fd_table b) (tk_pcb c)))) in
  let p := map_pcb (with_children (pcb_children b ++ [task_id])) p in
  let new_tcb := set_cx (tf_set (tcb_cx (p_tcb p)) RET 0) (tk_tcb c) in
  '(_, p) ← st_iter (fork_area (tk_root c)) (pcb_memset b) p;
  '(_, p) ← st_iter (fork_shm (tk_root c)) (pcb_shms b) p;
  Val (mkTask (tk_root c) (with_memset (pcb_memset b) new_pcb) new_tcb (tk_tid c) (tk_pid c), p).

(** ** Address spaces in one memory *)
(** What a load at [v] reads through the page table at [root]. *)
Definition load (ph : Phys) (root v : Z) : option Z :=
  pte ← mmu_walk ph root v;
  page ← ph_ram ph !! pte_address pte;
  page !! Z.to_nat (v mod PAGE_SIZE).

Definition vaddrs (areas : MemSet H) : list Z := mt_vaddr <$> trackers_of areas.

Definition private (a : MemArea H) : Prop := ma_mtype a ≠ Shared ∧ ma_mtype a ≠ ShareFile.

(** An address space of private areas: every tracked page is mapped on its
    frame, writable only when the frame is not shared; an area that tracks a
    page is the first one to contain it. *)
Record mem_inv (T : Tree) (root : Z) (areas : MemSet H) (ph : Phys) (rc : gmap Z nat) : Prop := {
  mi_pt : pt_inv root T ph;
  mi_page : ∀ v, v ∈ vaddrs areas → user_addr v ∧ v mod PAGE_SIZE = 0;
  mi_nodup : NoDup (vaddrs areas);
  mi_find : ∀ i a v, areas !! i = Some a → floor_page v ∈ (mt_vaddr <$> ma_mtrackers a) →
    ma_contains a v = true ∧ ∀ k b, (k < i)%nat → areas !! k = Some b → ma_contains b v ≠ true;
  mi_private : Forall private areas;
  mi_ram : ∀ x, x ∈ trackers_of areas → ∃ page, ph_ram ph !! mt_tracker x = Some page ∧ length page = 4096%nat;
  mi_leaf : ∀ x, x ∈ trackers_of areas → ∃ fl, leaf T ph (mt_vaddr x) = pte_new_page (mt_tracker x) (pte_flags_of fl) ∧
    (fl = MF_URX ∨ (fl = MF_URW ∨ fl = MF_URWX) ∧ rc !! mt_tracker x = Some 1%nat)
}.

(** Address spaces in one memory: separate tables, counted references. *)
Record Space := mkSpace { sp_tree : Tree; sp_root : Z; sp_areas : MemSet H }.

Definition apart (T1 T2 : Tree) : Prop := ∀ q q' t, T1 !! q = Some t → T2 !! q' ≠ Some t.
Definition all_trackers (l : list Space) : list MapTrack := l ≫= λ s, trackers_of (sp_areas s).

Record spaces_inv (l : list Space) (ph : Phys) (rc : gmap Z nat) : Prop := {
  si_mem : Forall (λ s, mem_inv (sp_tree s) (sp_root s) (sp_areas s) ph rc) l;
  si_apart : ForallOrdPairs (λ s t, apart (sp_tree s) (sp_tree t)) l;
  si_rc : ∀ f n, rc !! f = Some n → (0 < n)%nat ∧ f ∈ fa_all (ph_alloc ph) ∧ f ∉ fa_free (ph_alloc ph) ∧
    ∀ s q, s ∈ l → sp_tree s !! q ≠ Some f;
  si_owned : ∀ f, (refs (all_trackers l) f ≤ default 0 (rc !! f))%nat
}.

Lemma apart_sym T1 T2 : apart T1 T2 → apart T2 T1.
Proof. intros Ha q q' t Hq Hq'. by apply (Ha q' q t). Qed.

#[global] Instance apart_perm : Proper ((≡ₚ) ==> impl) (ForallOrdPairs (λ s t, apart (sp_tree s) (sp_tree t))).
Proof.
  intros l k Hp. induction Hp as [|x l k Hp IH|x y l|l1 l2 l3 _ IH1 _ IH2]; intros Hl; [done| | |by apply IH2, IH1].
  - inversion_clear Hl as [|? ? Hx Hl']. constructor; [by rewrite <- Hp|by apply IH].
  - inversion_clear Hl as [|? ? Hx Hl']. inversion_clear Hl' as [|? ? Hy Hl]. apply Forall_cons in Hx as [Hxy Hx].
    repeat constructor; try done. by apply apart_sym.
Qed.

(** The order of the spaces does not matter. *)
#[global] Instance spaces_inv_perm : Proper ((≡ₚ) ==> eq ==> eq ==> impl) spaces_inv.
Proof.
  intros l k Hp ph _ <- rc _ <- [Hm Ha Hrc Ho]. split; [by rewrite <- Hp|by rewrite <- Hp| |].
  - intros f n Hf. destruct (Hrc f n Hf) as (? & ? & ? & Hn). split_and!; try done. intros s q. rewrite <- Hp. apply Hn.
  - intros f. etrans; [|apply Ho]. unfold refs, all_trackers. by rewrite <- Hp.
Qed.

(** The first space beside the others. *)
Section first.
Context {T : Tree} {r : Z} {m : MemSet H} {K : list Space} {ph : Phys} {rc : gmap Z nat}.
Hypothesis Hs : spaces_inv (mkSpace T r m :: K) ph rc.
Lemma si_first : mem_inv T r m ph rc.
Proof. by destruct Hs as [[? _]%Forall_cons _ _ _]. Qed.
Lemma si_other s : s ∈ K → mem_inv (sp_tree s) (sp_root s) (sp_areas s) ph rc.
Proof. destruct Hs as [[_ HK]%Forall_cons _ _ _]. rewrite Forall_forall in HK. apply HK. Qed.
Lemma si_disj s : s ∈ K → apart T (sp_tree s).
Proof. destruct Hs as [_ Ha _ _]. inversion_clear Ha as [|? ? Hx _]. rewrite Forall_forall in Hx. apply Hx. Qed.
Lemma si_others_apart : ForallOrdPairs (λ s t, apart (sp_tree s) (sp_tree t)) K.
Proof. destruct Hs as [_ Ha _ _]. by inversion_clear Ha. Qed.
Lemma si_counted f n : rc !! f = Some n → (0 < n)%nat ∧ f ∈ fa_all (ph_alloc ph) ∧ f ∉ fa_free (ph_alloc ph) ∧
  (∀ q, T !! q ≠ Some f) ∧ ∀ s q, s ∈ K → sp_tree s !! q ≠ Some f.
Proof.
  intros Hf. destruct (si_rc _ _ _ Hs f n Hf) as (? & ? & ? & Hn). split_and!; try done.
  - intros q. apply (Hn (mkSpace T r m)). set_solver.
  - intros s q Hsk. apply Hn. set_solver.
Qed.
Lemma si_refs f : (refs (trackers_of m) f + refs (all_trackers K) f ≤ default 0 (rc !! f))%nat.
Proof. rewrite <- refs_app. apply (si_owned _ _ _ Hs). Qed.
End first.

Lemma spaces_intro T r m K ph rc :
  mem_inv T r m ph rc → (∀ s, s ∈ K → mem_inv (sp_tree s) (sp_root s) (sp_areas s) ph rc) →
  (∀ s, s ∈ K → apart T (sp_tree s)) → ForallOrdPairs (λ s t, apart (sp_tree s) (sp_tree t)) K →
  (∀ f n, rc !! f = Some n → (0 < n)%nat ∧ f ∈ fa_all (ph_alloc ph) ∧ f ∉ fa_free (ph_alloc ph) ∧
    (∀ q, T !! q ≠ Some f) ∧ ∀ s q, s ∈ K → sp_tree s !! q ≠ Some f) →
  (∀ f, refs (trackers_of m) f + refs (all_trackers K) f ≤ default 0 (rc !! f))%nat →
  spaces_inv (mkSpace T r m :: K) ph rc.
Proof.
  intros H1 HK Hd Ha Hrc Ho. split.
  - constructor; [done|by apply Forall_forall].
  - constructor; [by apply Forall_forall|done].
  - intros f n Hf. destruct (Hrc f n Hf) as (? & ? & ? & ? & Hn). split_and!; try done.
    intros s q [->|Hs]%elem_of_cons; [done|by apply Hn].
  - intros f. unfold all_trackers. simpl. rewrite refs_app. apply Ho.
Qed.

Lemma spaces_world T r m K (w : World S) :
  spaces_inv (mkSpace T r m :: K) (w_phys w) (w_rc w) → w_root w = r → world_ok T w.
Proof.
  intros Hs Er. split; [rewrite Er; apply (si_first Hs)|].
  intros f n Hf. destruct (si_counted Hs f n Hf) as (? & ? & ? & ? & _). done.
Qed.

Lemma elem_of_all_trackers l y : y ∈ all_trackers l ↔ ∃ s, y ∈ trackers_of (sp_areas s) ∧ s ∈ l.
Proof. unfold all_trackers. by rewrite list_elem_of_bind. Qed.

(** The tables of the other process and what they map are not touched. *)
Lemma other_kept F T1 T1' ph ph' r1 r2 T2 :
  evolves F T1 ph T1' ph' → pt_inv r1 T1' ph' → pt_inv r2 T2 ph →
  apart T1 T2 → (∀ t q, t ∈ F → T2 !! q ≠ Some t) →
  pt_inv r2 T2 ph' ∧ (∀ v, leaf T2 ph' v = leaf T2 ph v) ∧ apart T1' T2.
Proof.
  intros [Ha Hf Ht Hr] H1 H2 Hd HF.
  assert (∀ q t, T2 !! q = Some t → t ∉ fa_free (ph_alloc ph)) as Hnf.
  { intros q t Hq. by destruct (pi_tab _ _ _ H2 q t Hq) as (_ & ? & _). }
  destruct (pt_inv_other r2 T2 ph ph') as [Hpt Hl]; [done|apply H1|done|apply H1| |].
  - intros q t Hq. pose proof (Hnf q t Hq). split; [set_solver|]. apply Hr; [done| |].
    + intros q' Hq'. by apply (Hd q' q t).
    + intros HtF. by apply (HF t q).
  - split_and!; [done|done|]. intros q q' t [Hq|Hq]%Ht Hq'; [by apply (Hd q q' t)|by apply (Hnf q' t)].
Qed.

(** *** Finding and replacing a tracker *)
(** The trackers before, in and after area [i]. *)
Lemma trackers_of_split (areas : list (MemArea H)) i a :
  areas !! i = Some a →
  ∃ k1 k2, trackers_of areas = k1 ++ ma_mtrackers a ++ k2 ∧
    ∀ a', trackers_of (<[i := a']> areas) = k1 ++ ma_mtrackers a' ++ k2.
Proof.
  intros Hi. exists (trackers_of (take i areas)), (trackers_of (drop (Datatypes.S i) areas)). split.
  - rewrite <- (take_drop_middle areas i a Hi) at 1. by rewrite trackers_of_app.
  - intros a'. rewrite insert_take_drop by (by eapply lookup_lt_Some). by rewrite trackers_of_app.
Qed.

Lemma replace_tracker (areas : list (MemArea H)) i a j x x' :
  areas !! i = Some a → ma_mtrackers a !! j = Some x →
  ∃ l1 l2, trackers_of areas = l1 ++ x :: l2 ∧
    trackers_of (<[i := set_trackers (<[j := x']> (ma_mtrackers a)) a]> areas) = l1 ++ x' :: l2.
Proof.
  intros Hi Hj. destruct (trackers_of_split areas i a Hi) as (k1 & k2 & E & E').
  exists (k1 ++ take j (ma_mtrackers a)), (drop (Datatypes.S j) (ma_mtrackers a) ++ k2). rewrite E, E'. simpl. split.
  - rewrite <- (take_drop_middle (ma_mtrackers a) j x Hj) at 1. by rewrite <- !app_assoc.
  - rewrite insert_take_drop by (by eapply lookup_lt_Some). by rewrite <- !app_assoc.
Qed.

Lemma elem_of_trackers (areas : list (MemArea H)) x :
  x ∈ trackers_of areas ↔ ∃ i a, areas !! i = Some a ∧ x ∈ ma_mtrackers a.
Proof.
  unfold trackers_of. split.
  - induction areas as [|a areas IH]; simpl; [by intros ?%elem_of_nil|].
    intros [Hx|Hx]%elem_of_app; [by exists 0%nat, a|]. destruct (IH Hx) as (i & b & Hi & Hb). by exists (Datatypes.S i), b.
  - intros (i & a & Hi & Hx). destruct (trackers_of_split areas i a Hi) as (k1 & k2 & E & _).
    unfold trackers_of in E. rewrite E. set_solver.
Qed.

Lemma find_tracked T r areas ph rc x v :
  mem_inv T r areas ph rc → x ∈ trackers_of areas → floor_page v = mt_vaddr x →
  ∃ i a j, list_find (λ a, ma_contains a v = true) areas = Some (i, a) ∧ areas !! i = Some a ∧
    list_find (λ x, mt_vaddr x = floor_page v) (ma_mtrackers a) = Some (j, x) ∧ ma_mtrackers a !! j = Some x ∧
    ma_mtype a ≠ Shared.
Proof.
  intros Hm Hx Hv. destruct (proj1 (elem_of_trackers areas x) Hx) as (i & a & Hi & Hxa).
  apply list_elem_of_lookup in Hxa as [j Hj].
  destruct (mi_find _ _ _ _ _ Hm i a v Hi) as [Hc Hb].
  { rewrite Hv. apply list_elem_of_fmap. exists x. split; [done|]. by eapply list_elem_of_lookup_2. }
  exists i, a, j. split_and!; [apply list_find_Some; split_and!; [done|done|]; intros k b Hk Hki; by apply (Hb k)|done| |done|].
  - apply list_find_Some. split_and!; [done|done|]. intros k y Hk Hkj Hy.
    pose proof (mi_nodup _ _ _ _ _ Hm) as Hnd. unfold vaddrs in Hnd.
    destruct (trackers_of_split areas i a Hi) as (k1 & k2 & E & _). rewrite E, !fmap_app in Hnd.
    apply NoDup_app in Hnd as (_ & _ & Hnd). apply NoDup_app in Hnd as (Hnd & _ & _).
    assert (k = j); [|lia]. apply (NoDup_lookup _ _ _ (mt_vaddr x) Hnd); rewrite list_lookup_fmap; [rewrite Hk|by rewrite Hj].
    simpl. congruence.
  - pose proof (mi_private _ _ _ _ _ Hm) as Hp. rewrite Forall_lookup in Hp. by destruct (Hp i a Hi).
Qed.

(** Bounds and tracked addresses decide where a page is found. *)
Lemma replace_find (areas : list (MemArea H)) i a j x f :
  areas !! i = Some a → ma_mtrackers a !! j = Some x →
  let a' := set_trackers (<[j := mkMapTrack (mt_vaddr x) f (mt_rwx x)]> (ma_mtrackers a)) a in
  (∀ k b', <[i := a']> areas !! k = Some b' → ∃ b, areas !! k = Some b ∧ mt_vaddr <$> ma_mtrackers b' = mt_vaddr <$> ma_mtrackers b ∧
     (∀ v, ma_contains b' v = ma_contains b v) ∧ ma_mtype b' = ma_mtype b) ∧
  vaddrs (<[i := a']> areas) = vaddrs areas.
Proof.
  intros Hi Hj a'.
  assert (mt_vaddr <$> ma_mtrackers a' = mt_vaddr <$> ma_mtrackers a) as Hv.
  { simpl. rewrite list_fmap_insert. simpl. apply list_insert_id. by rewrite list_lookup_fmap, Hj. }
  split.
  - intros k b' Hb'. destruct (decide (k = i)) as [->|Hne].
    + rewrite list_lookup_insert_eq in Hb' by (by eapply lookup_lt_Some). injection Hb' as <-. by exists a.
    + rewrite list_lookup_insert_ne in Hb' by done. by exists b'.
  - unfold vaddrs. destruct (trackers_of_split areas i a Hi) as (k1 & k2 & E & E'). by rewrite E', E, !fmap_app, Hv.
Qed.

Lemma mem_find_replace T r areas ph rc i a j x f :
  mem_inv T r areas ph rc → areas !! i = Some a → ma_mtrackers a !! j = Some x →
  let areas' := <[i := set_trackers (<[j := mkMapTrack (mt_vaddr x) f (mt_rwx x)]> (ma_mtrackers a)) a]> areas in
  vaddrs areas' = vaddrs areas ∧
  (∀ i a v, areas' !! i = Some a → floor_page v ∈ (mt_vaddr <$> ma_mtrackers a) →
    ma_contains a v = true ∧ ∀ k b, (k < i)%nat → areas' !! k = Some b → ma_contains b v ≠ true) ∧
  Forall private areas'.
Proof.
  intros Hm Hi Hj areas'. destruct (replace_find areas i a j x f Hi Hj) as [Hr Hv]. split_and!; [done| |].
  - intros i0 a0 v Hi0 Hfl. destruct (Hr i0 a0 Hi0) as (b0 & Hb0 & Hvb & Hcb & _). rewrite Hvb in Hfl.
    destruct (mi_find _ _ _ _ _ Hm i0 b0 v Hb0 Hfl) as [Hc Hb]. rewrite Hcb. split; [done|].
    intros k b Hk Hkb. destruct (Hr k b Hkb) as (b1 & Hb1 & _ & Hc1 & _). rewrite Hc1. by apply (Hb k).
  - apply Forall_lookup. intros k b Hkb. destruct (Hr k b Hkb) as (b1 & Hb1 & _ & _ & Ht). unfold private. rewrite Ht.
    pose proof (mi_private _ _ _ _ _ Hm) as Hp. rewrite Forall_lookup in Hp. by apply (Hp k).
Qed.

(** *** A fault on a tracked page *)
(** Both outcomes of the fault in one form. *)
Lemma fault_own_uniform T T' (p p' : Proc S H) i a j x v f page :
  fault_post T T' p p' i a j x v f page → pcb_memset (p_pcb p) !! i = Some a → ma_mtrackers a !! j = Some x →
  pcb_memset (p_pcb p') = <[i := set_trackers (<[j := mkMapTrack (mt_vaddr x) f (mt_rwx x)]> (ma_mtrackers a)) a]> (pcb_memset (p_pcb p)) ∧
  (∀ q, strong_count q (p_world p') = if bool_decide (q = f) then 1%nat
      else (strong_count q (p_world p) - if bool_decide (q = mt_tracker x) then 1 else 0)%nat) ∧
  (f = mt_tracker x ∧ strong_count f (p_world p) = 1%nat ∨ f ∈ fa_free (ph_alloc (w_phys (p_world p)))).
Proof.
  intros Hp Hi Hj. destruct (fp_own _ _ _ _ _ _ _ _ _ _ _ Hp) as [(Hone & -> & Hpcb & Hc)|(Hgt & Hin & Hpcb & Hc)].
  - split_and!; [|intros q; rewrite Hc; repeat case_bool_decide; subst; done || lia|by left].
    rewrite Hpcb. assert (mkMapTrack (mt_vaddr x) (mt_tracker x) (mt_rwx x) = x) as -> by (by destruct x).
    rewrite (list_insert_id (ma_mtrackers a)) by done.
    assert (set_trackers (ma_mtrackers a) a = a) as -> by (by destruct a). symmetry. by apply list_insert_id.
  - split_and!; [|done|by right]. rewrite Hpcb. by destruct (p_pcb p).
Qed.

Lemma rc_count (w : World S) q n : (0 < n)%nat → strong_count q w = n → w_rc w !! q = Some n.
Proof. unfold strong_count. intros Hn. destruct (w_rc w !! q); simpl; intros; subst; [done|lia]. Qed.

Lemma refs_pos l x : x ∈ l → (0 < refs l (mt_tracker x))%nat.
Proof.
  intros Hx. unfold refs. destruct (filter _ _) eqn:Ef; [|simpl; lia].
  exfalso. by apply (filter_nil_not_elem_of _ _ x Ef).
Qed.

(** Two tracked pages are different pages. *)
Lemma other_page T r m ph rc l1 x l2 y :
  mem_inv T r m ph rc → trackers_of m = l1 ++ x :: l2 → y ∈ l1 ++ l2 →
  ¬ same_page (mt_vaddr y) (mt_vaddr x).
Proof.
  intros Hm E Hy Hs. pose proof (mi_nodup _ _ _ _ _ Hm) as Hnd. unfold vaddrs in Hnd.
  assert (mt_vaddr y ∈ vaddrs m ∧ mt_vaddr x ∈ vaddrs m) as [Hyv Hxv].
  { unfold vaddrs. rewrite E, fmap_app, fmap_cons. split; [|set_solver].
    apply elem_of_app in Hy as [Hy|Hy]; apply (list_elem_of_fmap_2 mt_vaddr) in Hy; set_solver. }
  apply (mi_page _ _ _ _ _ Hm) in Hyv as [_ Hya]. apply (mi_page _ _ _ _ _ Hm) in Hxv as [_ Hxa].
  assert (mt_vaddr y = mt_vaddr x) as Exy.
  { unfold same_page in Hs. rewrite (Z.div_mod (mt_vaddr y) PAGE_SIZE), (Z.div_mod (mt_vaddr x) PAGE_SIZE) by done. lia. }
  rewrite E, fmap_app, fmap_cons in Hnd. apply NoDup_app in Hnd as (_ & Hd & Hnd). apply NoDup_cons in Hnd as [Hni _].
  apply elem_of_app in Hy as [Hy|Hy]; apply (list_elem_of_fmap_2 mt_vaddr) in Hy; rewrite Exy in Hy; [|done].
  apply (Hd _ Hy). set_solver.
Qed.

(** After the fault: the same address spaces, the faulting page on the
    frame [f] that nobody else uses. *)
Section fault_spaces.
Context (T1 T1' : Tree) (K : list Space) (p p' : Proc S H) (i : nat) (a : MemArea H) (j : nat)
  (x : MapTrack) (v f : Z) (page : list Z) (l1 l2 : list MapTrack).
Notation w := (p_world p).
Notation w' := (p_world p').
Notation x' := (mkMapTrack (mt_vaddr x) f (mt_rwx x)).
Hypothesis Hti : spaces_inv (mkSpace T1 (w_root w) (pcb_memset (p_pcb p)) :: K) (w_phys w) (w_rc w).
Hypothesis Hp : fault_post T1 T1' p p' i a j x v f page.
Hypothesis Hlen : length page = 4096%nat.
Hypothesis Hi : pcb_memset (p_pcb p) !! i = Some a.
Hypothesis Hj : ma_mtrackers a !! j = Some x.
Hypothesis Hv : floor_page v = mt_vaddr x.
Hypothesis Huv : user_addr v.
Hypothesis El : trackers_of (pcb_memset (p_pcb p)) = l1 ++ x :: l2.
Hypothesis El' : trackers_of (pcb_memset (p_pcb p')) = l1 ++ x' :: l2.

(** The trackers beside [x]. *)
Definition beside (y : MapTrack) : Prop := y ∈ l1 ++ l2 ∨ y ∈ all_trackers K.

Lemma fault_count q : strong_count q w' =
  if bool_decide (q = f) then 1%nat else (strong_count q w - if bool_decide (q = mt_tracker x) then 1 else 0)%nat.
Proof. by apply (fault_own_uniform _ _ _ _ _ _ _ _ _ _ _ Hp Hi Hj). Qed.

Lemma fault_frame_new :
  f = mt_tracker x ∧ strong_count f w = 1%nat ∨ f ∈ fa_free (ph_alloc (w_phys w)).
Proof. by apply (fault_own_uniform _ _ _ _ _ _ _ _ _ _ _ Hp Hi Hj). Qed.

Lemma counted_used q : (0 < strong_count q w)%nat →
  q ∉ fa_free (ph_alloc (w_phys w)) ∧ (∀ t, T1 !! t ≠ Some q) ∧ (∀ s t, s ∈ K → sp_tree s !! t ≠ Some q).
Proof.
  intros Hq. destruct (si_counted Hti q (strong_count q w)) as (_ & _ & ? & ? & ?); [by apply rc_count|done].
Qed.

Lemma fault_ram q : (0 < strong_count q w)%nat → ph_ram (w_phys w') !! q = ph_ram (w_phys w) !! q.
Proof.
  intros Hq. destruct (counted_used q Hq) as (? & ? & _).
  apply (ev_ram _ _ _ _ _ (fp_evolves _ _ _ _ _ _ _ _ _ _ _ Hp)); [done..|set_solver].
Qed.

Lemma beside_counted y : beside y →
  (0 < strong_count (mt_tracker y) w)%nat ∧ (mt_tracker y = mt_tracker x → (1 < strong_count (mt_tracker x) w)%nat).
Proof.
  intros Hy. pose proof (si_refs Hti (mt_tracker y)) as Ho. rewrite El, refs_app, refs_cons in Ho.
  change (default 0%nat (w_rc w !! mt_tracker y)) with (strong_count (mt_tracker y) w) in Ho.
  assert (0 < refs (l1 ++ l2) (mt_tracker y) + refs (all_trackers K) (mt_tracker y))%nat as Hr.
  { destruct Hy as [Hy|Hy]; apply refs_pos in Hy; lia. }
  rewrite refs_app in Hr. split; [lia|]. intros E. rewrite E in *. rewrite bool_decide_eq_true_2 in Ho by done. lia.
Qed.

Lemma beside_frame y : beside y → mt_tracker y ≠ f.
Proof.
  intros Hy E. destruct (beside_counted y Hy) as [Hpos Hgt]. destruct fault_frame_new as [[Ef Hone]|Hin].
  - rewrite E, Ef in *. specialize (Hgt eq_refl). lia.
  - rewrite E in Hpos. by destruct (counted_used f Hpos).
Qed.

Lemma beside_one y : beside y → w_rc w !! mt_tracker y = Some 1%nat → w_rc w' !! mt_tracker y = Some 1%nat.
Proof.
  intros Hy E1. apply rc_count; [lia|]. rewrite fault_count, bool_decide_eq_false_2 by (by apply beside_frame).
  destruct (beside_counted y Hy) as [_ Hgt].
  assert (strong_count (mt_tracker y) w = 1%nat) as Ec by (unfold strong_count; by rewrite E1).
  rewrite Ec. case_bool_decide as Exy; [|done]. rewrite Exy in *. specialize (Hgt eq_refl). lia.
Qed.

Lemma new_frame_counted : w_rc w' !! f = Some 1%nat.
Proof. apply rc_count; [lia|]. by rewrite fault_count, bool_decide_eq_true_2. Qed.

Lemma beside_or_x y : y ∈ l1 ++ x' :: l2 → y = x' ∨ y ∈ l1 ++ l2.
Proof. clear. set_solver. Qed.

Lemma beside_in y : y ∈ l1 ++ l2 → y ∈ trackers_of (pcb_memset (p_pcb p)).
Proof. rewrite El. clear. set_solver. Qed.

(** The faulting process. *)
Lemma fault_mem_1 : mem_inv T1' (w_root w') (pcb_memset (p_pcb p')) (w_phys w') (w_rc w').
Proof.
  pose proof (si_first Hti) as H1.
  destruct (mem_find_replace _ _ _ _ _ i a j x f H1 Hi Hj) as (Hva & Hfind & Hpriv).
  destruct (fault_own_uniform _ _ _ _ _ _ _ _ _ _ _ Hp Hi Hj) as (Hm' & _). rewrite <- Hm' in Hva, Hfind, Hpriv.
  split; [apply Hp|rewrite Hva; apply H1|rewrite Hva; apply H1|exact Hfind|exact Hpriv| |]; intros y; rewrite El';
    intros [->|Hy]%beside_or_x.
  - exists page. split; [apply Hp|done].
  - destruct (mi_ram _ _ _ _ _ H1 y (beside_in y Hy)) as (pg & ? & ?). exists pg. split; [|done].
    rewrite fault_ram; [done|]. by apply beside_counted; left.
  - exists (fault_flags a v). cbn [mt_vaddr mt_tracker].
    rewrite (fp_leaf _ _ _ _ _ _ _ _ _ _ _ Hp) by (rewrite <- Hv; by apply floor_page_user).
    rewrite bool_decide_eq_true_2 by (rewrite <- Hv; unfold same_page, floor_page; by rewrite Z.div_mul).
    split; [done|]. right. split; [|exact new_frame_counted]. unfold fault_flags. destruct (bool_decide _ && _); eauto.
  - destruct (mi_leaf _ _ _ _ _ H1 y (beside_in y Hy)) as (fl & Hl & Hfl). exists fl.
    rewrite (fp_leaf _ _ _ _ _ _ _ _ _ _ _ Hp)
      by (apply (mi_page _ _ _ _ _ H1), list_elem_of_fmap_2; by apply beside_in).
    rewrite bool_decide_eq_false_2.
    2: { intros Hs. apply (other_page _ _ _ _ _ l1 x l2 y H1 El Hy). rewrite <- Hv. by apply same_page_floor. }
    split; [done|]. destruct Hfl as [?|[? ?]]; [by left|]. right. split; [done|]. by apply beside_one; [left|].
Qed.

(** The others. *)
Lemma fault_other s : s ∈ K →
  mem_inv (sp_tree s) (sp_root s) (sp_areas s) (w_phys w') (w_rc w') ∧ apart T1' (sp_tree s).
Proof.
  intros Hs. destruct (si_other Hti s Hs) as [Hpt ? ? ? ? Hr2 Hlf2].
  destruct (other_kept ∅ T1 T1' (w_phys w) (w_phys w') (w_root w') (sp_root s) (sp_tree s)) as (Hpt2 & Hl2 & Hd');
    [apply Hp|apply Hp|done|by apply (si_disj Hti)|set_solver|].
  assert (∀ y, y ∈ trackers_of (sp_areas s) → beside y) as Hb by (intros y Hy; right; apply elem_of_all_trackers; eauto).
  split; [|done]. split; [done|done|done|done|done| |].
  - intros y Hy. destruct (Hr2 y Hy) as (pg & ? & ?). exists pg. split; [|done].
    rewrite fault_ram; [done|]. by apply beside_counted, Hb.
  - intros y Hy. destruct (Hlf2 y Hy) as (fl & Hl & Hfl). exists fl. rewrite Hl2. split; [done|].
    destruct Hfl as [?|[? ?]]; [by left|]. right. split; [done|]. by apply beside_one; [apply Hb|].
Qed.

Lemma fault_rc q n : w_rc w' !! q = Some n → (0 < n)%nat ∧ q ∈ fa_all (ph_alloc (w_phys w')) ∧
  q ∉ fa_free (ph_alloc (w_phys w')) ∧ (∀ t, T1' !! t ≠ Some q) ∧ (∀ s t, s ∈ K → sp_tree s !! t ≠ Some q).
Proof.
  intros Hq. destruct (wo_rc _ _ (fp_world _ _ _ _ _ _ _ _ _ _ _ Hp) q n Hq) as (Hn & Hall & Hnf & HnT).
  split_and!; [done..|]. intros s t Hs Ht. destruct (decide (q = f)) as [->|Hqf].
  - destruct fault_frame_new as [[_ H1f]|Hin].
    + destruct (counted_used f) as (_ & _ & HT2); [lia|]. by apply (HT2 s t).
    + by destruct (pi_tab _ _ _ (mi_pt _ _ _ _ _ (si_other Hti s Hs)) t f Ht) as (_ & ? & _).
  - destruct (counted_used q) as (_ & _ & HT2); [|by apply (HT2 s t)].
    pose proof (fault_count q) as Hc. rewrite bool_decide_eq_false_2 in Hc by done.
    unfold strong_count in Hc at 1. rewrite Hq in Hc. simpl in Hc. lia.
Qed.

Lemma fault_owned q : (refs (l1 ++ x' :: l2) q + refs (all_trackers K) q ≤ strong_count q w')%nat.
Proof.
  pose proof (si_refs Hti q) as Ho. rewrite El in Ho.
  change (default 0%nat (w_rc w !! q)) with (strong_count q w) in Ho.
  rewrite fault_count. rewrite refs_app, refs_cons in *. cbn [mt_tracker].
  destruct (decide (q = f)) as [->|Hqf].
  - rewrite !bool_decide_eq_true_2 by done.
    assert (∀ l, (∀ y, y ∈ l → beside y) → refs l f = 0%nat) as Hz.
    { intros l Hl. unfold refs. rewrite filter_none; [done|]. intros y Hy Ey. by apply (beside_frame y); [apply Hl|]. }
    pose proof (Hz (l1 ++ l2) ltac:(by left)) as Hz1. pose proof (Hz (all_trackers K) ltac:(by right)) as Hz2.
    rewrite refs_app in Hz1. lia.
  - rewrite (bool_decide_eq_false_2 (f = q)), (bool_decide_eq_false_2 (q = f)) by done.
    repeat case_bool_decide; subst; try done; lia.
Qed.

Lemma fault_spaces : spaces_inv (mkSpace T1' (w_root w') (pcb_memset (p_pcb p')) :: K) (w_phys w') (w_rc w').
Proof.
  apply spaces_intro; [exact fault_mem_1|by apply fault_other|by apply fault_other|exact (si_others_apart Hti)|exact fault_rc|].
  intros q. rewrite El'. apply fault_owned.
Qed.

(** A frame with one reference keeps it. *)
Lemma fault_ones q : w_rc w !! q = Some 1%nat → w_rc w' !! q = Some 1%nat.
Proof.
  intros Hq. assert (strong_count q w = 1%nat) as Hc by (unfold strong_count; by rewrite Hq).
  apply rc_count; [lia|]. destruct (fp_own _ _ _ _ _ _ _ _ _ _ _ Hp) as [(_ & _ & _ & E)|(H1 & _ & _ & E)]; rewrite E; [done|].
  fold w in H1 |- *. repeat case_bool_decide; subst; lia.
Qed.
End fault_spaces.

Lemma fault_spaces_inv T1 T1' K (p p' : Proc S H) i a j x v f page :
  let w := p_world p in let w' := p_world p' in
  spaces_inv (mkSpace T1 (w_root w) (pcb_memset (p_pcb p)) :: K) (w_phys w) (w_rc w) →
  fault_post T1 T1' p p' i a j x v f page → length page = 4096%nat →
  pcb_memset (p_pcb p) !! i = Some a → ma_mtrackers a !! j = Some x →
  floor_page v = mt_vaddr x → user_addr v →
  spaces_inv (mkSpace T1' (w_root w') (pcb_memset (p_pcb p')) :: K) (w_phys w') (w_rc w') ∧
  vaddrs (pcb_memset (p_pcb p')) = vaddrs (pcb_memset (p_pcb p)) ∧ w_rc w' !! f = Some 1%nat ∧
  (∃ l1 l2, trackers_of (pcb_memset (p_pcb p)) = l1 ++ x :: l2 ∧
     trackers_of (pcb_memset (p_pcb p')) = l1 ++ mkMapTrack (mt_vaddr x) f (mt_rwx x) :: l2) ∧
  (∀ q, (0 < strong_count q w)%nat → ph_ram (w_phys w') !! q = ph_ram (w_phys w) !! q) ∧
  (∀ q, w_rc w !! q = Some 1%nat → w_rc w' !! q = Some 1%nat).
Proof.
  intros w w' Hti Hp Hlen Hi Hj Hv Huv.
  destruct (fault_own_uniform _ _ _ _ _ _ _ _ _ _ _ Hp Hi Hj) as (Hm' & _).
  destruct (replace_tracker (pcb_memset (p_pcb p)) i a j x (mkMapTrack (mt_vaddr x) f (mt_rwx x)) Hi Hj) as (l1 & l2 & El & El0).
  assert (trackers_of (pcb_memset (p_pcb p')) = l1 ++ mkMapTrack (mt_vaddr x) f (mt_rwx x) :: l2) as El'
    by (rewrite Hm'; exact El0).
  destruct (mem_find_replace _ _ _ _ _ i a j x f (si_first Hti) Hi Hj) as (Hva & _). rewrite <- Hm' in Hva.
  split_and!; [by eapply fault_spaces|done|by eapply new_frame_counted|by exists l1, l2|by eapply fault_ram|intros q; by eapply fault_ones].
Qed.

(** *** Loads and stores *)
Lemma floor_same_page v u : floor_page v = u → same_page v u.
Proof. intros <-. unfold same_page, floor_page. by rewrite Z.div_mul. Qed.

Lemma leaf_same_page T ph v u : user_addr v → user_addr u → same_page v u → leaf T ph v = leaf T ph u.
Proof. intros Hv Hu Hs. apply same_page_indices in Hs as (E2 & E1 & E0); [|done..]. unfold leaf, path_of. by rewrite E2, E1, E0. Qed.

Lemma tracked_flags fl (rc : gmap Z nat) f :
  (fl = MF_URX ∨ (fl = MF_URW ∨ fl = MF_URWX) ∧ rc !! f = Some 1%nat) → fl ≠ 0.
Proof. by intros [->|[[->| ->] _]]. Qed.

(** A load from a tracked page reads its frame. *)
Lemma load_tracked T r m ph rc x v :
  mem_inv T r m ph rc → x ∈ trackers_of m → floor_page v = mt_vaddr x → user_addr v → frame_ok (mt_tracker x) →
  load ph r v = ph_ram ph !! mt_tracker x ≫= λ page, page !! Z.to_nat (v mod PAGE_SIZE).
Proof.
  intros Hm Hx Hv Hu Hok. destruct (mi_leaf _ _ _ _ _ Hm x Hx) as (fl & Hl & Hfl).
  assert (user_addr (mt_vaddr x)) as Hux by (rewrite <- Hv; by apply floor_page_user).
  unfold load. rewrite (mmu_walk_leaf r T) by (done || apply Hm).
  rewrite (leaf_same_page _ _ v (mt_vaddr x)), Hl by (done || by apply floor_same_page).
  rewrite new_page_V by (done || by eapply tracked_flags). simpl.
  by rewrite pte_address_new_page by (done || apply pte_flags_of_range).
Qed.

(** The only tracker of a frame that is counted once. *)
Lemma sole_tracker T1 r1 m1 K ph rc l1 x l2 :
  spaces_inv (mkSpace T1 r1 m1 :: K) ph rc → trackers_of m1 = l1 ++ x :: l2 → rc !! mt_tracker x = Some 1%nat →
  ∀ y, y ∈ l1 ++ l2 ∨ y ∈ all_trackers K → mt_tracker y ≠ mt_tracker x.
Proof.
  intros Hti E H1 y Hy Ey. pose proof (si_refs Hti (mt_tracker x)) as Ho.
  rewrite E, refs_app, refs_cons, H1, bool_decide_eq_true_2 in Ho by done. simpl in Ho.
  assert (0 < refs (l1 ++ l2) (mt_tracker x) + refs (all_trackers K) (mt_tracker x))%nat as Hr.
  { destruct Hy as [Hy|Hy]; apply refs_pos in Hy; rewrite Ey in Hy; lia. }
  rewrite refs_app in Hr. lia.
Qed.

Lemma mem_inv_write T r m ph rc f page :
  mem_inv T r m ph rc → f ∉ fa_free (ph_alloc ph) → (∀ q, T !! q ≠ Some f) → length page = 4096%nat →
  mem_inv T r m (set_frame f page ph) rc.
Proof.
  intros [Hpt ? ? ? ? Hr Hl] Hnf HnT Hlen.
  destruct (pt_inv_other r T ph (set_frame f page ph)) as [Hpt' Hlf]; [done|apply Hpt|done| | |].
  - intros q Hq. simpl. rewrite lookup_insert_ne by set_solver. by apply (pi_zero _ _ _ Hpt).
  - intros q t Hq. split; [by destruct (pi_tab _ _ _ Hpt q t Hq) as (_ & ? & _)|].
    simpl. apply lookup_insert_ne. intros ->. by apply (HnT q).
  - split; try done.
    + intros y Hy. destruct (Hr y Hy) as (pg & ? & ?). simpl. destruct (decide (mt_tracker y = f)) as [->|].
      * exists page. by rewrite lookup_insert_eq.
      * exists pg. by rewrite lookup_insert_ne by done.
    + intros y Hy. rewrite Hlf. by apply Hl.
Qed.

Lemma spaces_write l ph rc f n page :
  spaces_inv l ph rc → rc !! f = Some n → length page = 4096%nat → spaces_inv l (set_frame f page ph) rc.
Proof.
  intros [Hm Ha Hrc Ho] Hf Hlen. destruct (Hrc f n Hf) as (_ & _ & Hnf & HT). split; [|done|done|done].
  rewrite Forall_forall in *. intros s Hs. apply mem_inv_write; [by apply Hm|done|intros q; by apply HT|done].
Qed.

Lemma tracked_count l (w : World S) x :
  spaces_inv l (w_phys w) (w_rc w) → x ∈ all_trackers l → (0 < strong_count (mt_tracker x) w)%nat.
Proof.
  intros Hti Hx. pose proof (si_owned _ _ _ Hti (mt_tracker x)) as Ho.
  apply refs_pos in Hx. unfold strong_count. lia.
Qed.

Lemma tracked_ok T1 r1 m1 K (w : World S) x :
  spaces_inv (mkSpace T1 r1 m1 :: K) (w_phys w) (w_rc w) → w_root w = r1 → x ∈ all_trackers (mkSpace T1 r1 m1 :: K) →
  frame_ok (mt_tracker x).
Proof.
  intros Hti Hr Hx. apply (counted_frame_ok T1 w); [by eapply spaces_world|by eapply tracked_count].
Qed.

Lemma tracked_first T r m K x : x ∈ trackers_of m → x ∈ all_trackers (mkSpace T r m :: K).
Proof. intros Hx. apply elem_of_app. by left. Qed.
Lemma tracked_other s0 K x : x ∈ all_trackers K → x ∈ all_trackers (s0 :: K).
Proof. intros Hx. apply elem_of_app. by right. Qed.
Lemma tracked_in l s x : s ∈ l → x ∈ trackers_of (sp_areas s) → x ∈ all_trackers l.
Proof. intros. apply elem_of_all_trackers. eauto. Qed.
Hint Resolve tracked_first tracked_other tracked_in : core.

(** The access of the kernel before a store: the page is on a frame of its own. *)
Lemma user_frame_same T T' (p p' : Proc S H) v u :
  world_ok T (p_world p) → world_ok T' (p_world p') → user_addr v → user_addr u →
  leaf T' (w_phys (p_world p')) u = leaf T (w_phys (p_world p)) v → user_frame u p' = user_frame v p.
Proof. intros Hw Hw' Hv Hu E. unfold user_frame. by rewrite (mmu_leaf T (p_world p)), (mmu_leaf T' (p_world p')), E by done. Qed.

Lemma leaf_set_frame T f page ph v : (∀ q, T !! q ≠ Some f) → leaf T (set_frame f page ph) v = leaf T ph v.
Proof.
  intros Hf. unfold leaf. destruct (T !! path_of v) as [t|] eqn:E; [|done]. unfold pte_at. simpl.
  rewrite lookup_insert_ne; [done|]. intros ->. by apply (Hf (path_of v)).
Qed.

Lemma make_writable T1 K (p : Proc S H) x v :
  spaces_inv (mkSpace T1 (w_root (p_world p)) (pcb_memset (p_pcb p)) :: K) (w_phys (p_world p)) (w_rc (p_world p)) →
  x ∈ trackers_of (pcb_memset (p_pcb p)) → floor_page v = mt_vaddr x → user_addr v →
  (user_frame v p = None → 3 ≤ size (fa_free (ph_alloc (w_phys (p_world p)))))%nat →
  ∃ T1' p' f l1 l2, match user_frame v p with Some _ => Val (tt, p) | None => user_cow_int ops v p end = Val (tt, p') ∧
    spaces_inv (mkSpace T1' (w_root (p_world p')) (pcb_memset (p_pcb p')) :: K) (w_phys (p_world p')) (w_rc (p_world p')) ∧
    user_frame v p' = Some f ∧ w_rc (p_world p') !! f = Some 1%nat ∧ frame_ok f ∧
    trackers_of (pcb_memset (p_pcb p)) = l1 ++ x :: l2 ∧
    trackers_of (pcb_memset (p_pcb p')) = l1 ++ mkMapTrack (mt_vaddr x) f (mt_rwx x) :: l2 ∧
    ph_ram (w_phys (p_world p')) !! f = ph_ram (w_phys (p_world p)) !! mt_tracker x ∧
    (∀ q, (0 < strong_count q (p_world p))%nat →
       ph_ram (w_phys (p_world p')) !! q = ph_ram (w_phys (p_world p)) !! q) ∧
    vaddrs (pcb_memset (p_pcb p')) = vaddrs (pcb_memset (p_pcb p)) ∧ w_root (p_world p') = w_root (p_world p) ∧
    p' = set_pcb (p_pcb p') (set_world (p_world p') p) ∧ w_fs (p_world p') = w_fs (p_world p) ∧
    with_memset (pcb_memset (p_pcb p')) (p_pcb p) = p_pcb p' ∧
    (∀ q, w_rc (p_world p) !! q = Some 1%nat → w_rc (p_world p') !! q = Some 1%nat) ∧
    (size (fa_free (ph_alloc (w_phys (p_world p)))) ≤
       size (fa_free (ph_alloc (w_phys (p_world p')))) + match user_frame v p with Some _ => 0 | None => 3 end)%nat.
Proof.
  intros Hti Hx Hv Hu Hfree. pose proof (si_first Hti) as H1.
  pose proof (spaces_world _ _ _ _ _ Hti eq_refl) as Hw. pose proof (tracked_ok _ _ _ _ _ x Hti eq_refl (tracked_first _ _ _ _ _ Hx)) as Hok.
  destruct (mi_leaf _ _ _ _ _ H1 x Hx) as (fl & Hl & Hfl).
  assert (user_addr (mt_vaddr x)) as Hux by (rewrite <- Hv; by apply floor_page_user).
  assert (leaf T1 (w_phys (p_world p)) v = pte_new_page (mt_tracker x) (pte_flags_of fl)) as Hlv.
  { rewrite (leaf_same_page _ _ v (mt_vaddr x)) by (done || by apply floor_same_page). done. }
  destruct (mi_ram _ _ _ _ _ H1 x Hx) as (page & Hpg & Hlen).
  destruct Hfl as [->|[Hfl Hone]].
  - assert (user_frame v p = None) as Enone.
    { unfold user_frame. rewrite (mmu_leaf T1) by done. rewrite Hlv, new_page_V by done. simpl.
      rewrite pte_flags_new_page by (done || apply pte_flags_of_range). done. }
    specialize (Hfree Enone). rewrite Enone. destruct (find_tracked _ _ _ _ _ x v H1 Hx Hv) as (i & a & j & Hfa & Hi & Hfx & Hj & Hsh).
    destruct (cow_fault_spec ops T1 p i a j x v page) as (f & T1' & p' & E & Hp);
      [done..|by eapply tracked_count; [exact Hti|auto]|done|done|done|].
    destruct (fault_spaces_inv T1 T1' K p p' i a j x v f page) as (Hti' & Hva & Hf1 & (l1 & l2 & El & El') & Hram & Has); [done..|].
    assert (user_frame v p' = Some f) as Euf.
    { apply (user_frame_leaf T1' p' v f (fault_flags a v)); [apply Hp|done|exact (fp_frame _ _ _ _ _ _ _ _ _ _ _ Hp)|
        apply fault_flags_nonzero|apply fault_flags_writable|].
      rewrite (fp_leaf _ _ _ _ _ _ _ _ _ _ _ Hp) by done. by rewrite bool_decide_eq_true_2. }
    destruct Hp as [_ _ Hroot Hfs _ Hfok Hpage Hsize Hrest Hown].
    exists T1', p', f, l1, l2. split_and!; try done; [by rewrite Hpg|].
    destruct Hown as [(_ & _ & -> & _)|(_ & _ & -> & _)]; by destruct (p_pcb p).
  - assert (user_frame v p = Some (mt_tracker x)) as Euf.
    { apply (user_frame_leaf T1 p v (mt_tracker x) fl); [done..| | |done]; by destruct Hfl as [->| ->]. }
    rewrite Euf. destruct (list_elem_of_split _ _ Hx) as (l1 & l2 & El).
    exists T1, p, (mt_tracker x), l1, l2. split_and!; try done.
    + by destruct x.
    + by destruct p.
    + by destruct (p_pcb p).
    + lia.
Qed.

Lemma vaddr_tracked (m : MemSet H) u : u ∈ vaddrs m → ∃ y, y ∈ trackers_of m ∧ mt_vaddr y = u.
Proof. unfold vaddrs. intros (y & -> & Hy)%list_elem_of_fmap. eauto. Qed.

Lemma mod_page_same v u : floor_page u = floor_page v → u mod PAGE_SIZE = v mod PAGE_SIZE → u = v.
Proof.
  unfold floor_page. intros E1 E2. rewrite (Z.div_mod u PAGE_SIZE), (Z.div_mod v PAGE_SIZE) by done.
  assert (u / PAGE_SIZE = v / PAGE_SIZE) by (apply (Z.mul_reg_r _ _ PAGE_SIZE); done). congruence.
Qed.

(** One byte written by the process with tree [T1]. *)
(** Pages on a frame of their own: after a store to [v] the page of [v] is one
    of them, and the others that were still are. *)
Definition singles_kept (v : Z) (p p' : Proc S H) : Prop :=
  (∀ q, w_rc (p_world p) !! q = Some 1%nat → w_rc (p_world p') !! q = Some 1%nat) ∧
  ∀ y, y ∈ trackers_of (pcb_memset (p_pcb p')) →
    w_rc (p_world p') !! mt_tracker y = Some 1%nat ∨ y ∈ trackers_of (pcb_memset (p_pcb p)) ∧ mt_vaddr y ≠ floor_page v.

Lemma store_isolated T1 K (p : Proc S H) v b :
  spaces_inv (mkSpace T1 (w_root (p_world p)) (pcb_memset (p_pcb p)) :: K) (w_phys (p_world p)) (w_rc (p_world p)) →
  floor_page v ∈ vaddrs (pcb_memset (p_pcb p)) → user_addr v →
  (user_frame v p = None → 3 ≤ size (fa_free (ph_alloc (w_phys (p_world p)))))%nat →
  ∃ T1' p', user_store1 ops v b p = Val (tt, p') ∧
    spaces_inv (mkSpace T1' (w_root (p_world p')) (pcb_memset (p_pcb p')) :: K) (w_phys (p_world p')) (w_rc (p_world p')) ∧
    vaddrs (pcb_memset (p_pcb p')) = vaddrs (pcb_memset (p_pcb p)) ∧ w_root (p_world p') = w_root (p_world p) ∧
    p' = set_pcb (p_pcb p') (set_world (p_world p') p) ∧ w_fs (p_world p') = w_fs (p_world p) ∧
    with_memset (pcb_memset (p_pcb p')) (p_pcb p) = p_pcb p' ∧
    singles_kept v p p' ∧
    (size (fa_free (ph_alloc (w_phys (p_world p)))) ≤
       size (fa_free (ph_alloc (w_phys (p_world p')))) + match user_frame v p with Some _ => 0 | None => 3 end)%nat ∧
    (∀ u, user_addr u → floor_page u = floor_page v → is_Some (user_frame u p')) ∧
    (∀ u, user_addr u → floor_page u ∈ vaddrs (pcb_memset (p_pcb p)) →
       load (w_phys (p_world p')) (w_root (p_world p)) u =
       if bool_decide (u = v) then Some b else load (w_phys (p_world p)) (w_root (p_world p)) u) ∧
    (∀ s u, s ∈ K → user_addr u → floor_page u ∈ vaddrs (sp_areas s) →
       load (w_phys (p_world p')) (sp_root s) u = load (w_phys (p_world p)) (sp_root s) u).
Proof.
  intros Hti Hfv Hu Hfree. destruct (vaddr_tracked _ _ Hfv) as (x & Hx & Hxv).
  destruct (make_writable T1 K p x v) as
    (T1' & p1 & f & l1 & l2 & E1 & Hti1 & Euf & Hf1 & Hfok & El & El1 & Hpg & Hram & Hva & Hr & Hrest & Hfs & Hpcb & Has & Hs); [done..|].
  set (x1 := mkMapTrack (mt_vaddr x) f (mt_rwx x)) in *.
  assert (x1 ∈ trackers_of (pcb_memset (p_pcb p1))) as Hx1 by (rewrite El1; clear; set_solver).
  destruct (mi_ram _ _ _ _ _ (si_first Hti1) x1 Hx1) as (page & Hpage & Hlen). cbn [mt_tracker x1] in Hpage.
  pose proof (Z.mod_pos_bound v PAGE_SIZE ltac:(done)) as Hmod.
  set (ph' := set_frame f (<[Z.to_nat (v mod PAGE_SIZE) := b]> page) (w_phys (p_world p1))).
  exists T1', (set_world (set_phys ph' (p_world p1)) p1). split.
  { unfold user_store1. rewrite E1. cbn [mbind outcome_bind]. rewrite Euf. cbn [unwrap mbind outcome_bind].
    unfold k_world, lift_phys. rewrite (phys_store_frame _ f (v mod PAGE_SIZE) b page) by (done || apply Hfok). done. }
  assert (spaces_inv (mkSpace T1' (w_root (p_world p1)) (pcb_memset (p_pcb p1)) :: K) ph' (w_rc (p_world p1))) as Hti'.
  { apply (spaces_write _ _ _ f 1); [done|done|]. by rewrite length_insert. }
  pose proof (sole_tracker _ _ _ _ _ _ l1 x1 l2 Hti1 El1 Hf1) as Hsole.
  assert (∀ y, y ∈ l1 ++ l2 ∨ y ∈ all_trackers K → ph_ram ph' !! mt_tracker y = ph_ram (w_phys (p_world p)) !! mt_tracker y) as Hkept.
  { intros y Hy. unfold ph', set_frame. simpl. rewrite lookup_insert_ne by (intros ->; by apply (Hsole y)).
    apply Hram. eapply tracked_count; [exact Hti|]. destruct Hy as [Hy|Hy]; [|auto].
    apply tracked_first. rewrite El. clear -Hy. set_solver. }
  cbn [p_world set_world p_pcb w_phys w_rc w_root set_phys]. split_and!; [exact Hti'|done|done| |done|done| |done| | |].
  - rewrite Hrest. by destruct p.
  - split; [exact Has|]. intros y Hy. cbn [p_pcb set_world] in Hy. rewrite El1 in Hy.
    assert (y = x1 ∨ y ∈ l1 ++ l2) as [->|Hy'] by (clear -Hy; set_solver); [by left|right]. split; [rewrite El; clear -Hy'; set_solver|].
    rewrite <- Hxv. intros E. apply (other_page _ _ _ _ _ l1 x l2 y (si_first Hti) El Hy'). unfold same_page. by rewrite E.
  - intros u Huu Huv. rewrite (user_frame_same T1' T1' p1 _ v u); [by rewrite Euf| | |done|done|].
    + by apply (spaces_world _ _ _ _ _ Hti1).
    + by apply (spaces_world _ _ _ _ (set_phys ph' (p_world p1)) Hti').
    + cbn [p_world set_world w_phys set_phys]. unfold ph'. rewrite leaf_set_frame; [|apply (si_counted Hti1 f 1 Hf1)].
      apply leaf_same_page; [done|done|]. unfold same_page, floor_page in *. by apply (Z.mul_reg_r _ _ PAGE_SIZE).
  - intros u Huu Hfu. destruct (vaddr_tracked _ _ Hfu) as (y & Hy & Hyv). rewrite El in Hy.
    assert (y = x ∨ y ∈ l1 ++ l2) as [->|Hy'] by (clear -Hy; set_solver).
    + assert (frame_ok (mt_tracker x)) as Hxok by (eapply tracked_ok; [exact Hti|done|auto]).
      rewrite <- Hr, (load_tracked _ _ _ _ _ x1 u (si_first Hti') Hx1) by done.
      rewrite Hr, (load_tracked _ _ _ _ _ x u (si_first Hti) Hx), <- Hpg, Hpage by done.
      cbn [mt_tracker x1]. unfold ph', set_frame. cbn [ph_ram]. rewrite lookup_insert_eq. simpl.
      case_bool_decide as Huv; [subst u; apply list_lookup_insert_eq; rewrite Hlen; unfold PAGE_SIZE in *; lia|].
      apply list_lookup_insert_ne. intros Ez. apply Huv, mod_page_same; [congruence|].
      pose proof (Z.mod_pos_bound u PAGE_SIZE ltac:(done)). lia.
    + rewrite bool_decide_eq_false_2.
      2: { intros ->. apply (other_page _ _ _ _ _ l1 x l2 y (si_first Hti) El Hy'). by rewrite Hyv, Hxv. }
      rewrite <- Hr, (load_tracked _ _ _ _ _ y u (si_first Hti')); [|rewrite El1; clear -Hy'; set_solver|done|done|].
      2: { eapply tracked_ok; [exact Hti|done|apply tracked_first; rewrite El; clear -Hy'; set_solver]. }
      rewrite Hr, (load_tracked _ _ _ _ _ y u (si_first Hti)); [|rewrite El; clear -Hy'; set_solver|done|done|].
      2: { eapply tracked_ok; [exact Hti|done|apply tracked_first; rewrite El; clear -Hy'; set_solver]. }
      rewrite Hkept; [done|by left].
  - intros s u Hs' Huu Hfu. destruct (vaddr_tracked _ _ Hfu) as (y & Hy & Hyv).
    assert (frame_ok (mt_tracker y)) as Hyok by (eapply tracked_ok; [exact Hti|done|eauto]).
    rewrite (load_tracked _ _ _ _ _ y u (si_other Hti' s Hs')), (load_tracked _ _ _ _ _ y u (si_other Hti s Hs')) by done.
    rewrite Hkept; [done|right; eauto].
Qed.

(** ** Forking *)
(** Counted frames are allocated and are tables of neither process. *)
Definition rc_ok (T1 T2 : Tree) (ph : Phys) (rc : gmap Z nat) : Prop :=
  ∀ f n, rc !! f = Some n → (0 < n)%nat ∧ f ∈ fa_all (ph_alloc ph) ∧ f ∉ fa_free (ph_alloc ph) ∧
    (∀ q, T1 !! q ≠ Some f) ∧ (∀ q, T2 !! q ≠ Some f).

(** The tables of the other spaces, which stay as they are. *)
Section others.
Context (K : list Space).

(** Two page tables in one memory, with the frames of [rc], beside those of
    the other spaces. *)
Record tables (T1 : Tree) (r1 : Z) (T2 : Tree) (r2 : Z) (ph : Phys) (rc : gmap Z nat) : Prop := {
  tb_1 : pt_inv r1 T1 ph;
  tb_2 : pt_inv r2 T2 ph;
  tb_disj : apart T1 T2;
  tb_rc : rc_ok T1 T2 ph rc;
  tb_others : ∀ s, s ∈ K → pt_inv (sp_root s) (sp_tree s) ph ∧ apart T1 (sp_tree s) ∧ apart T2 (sp_tree s)
}.

Lemma tables_sym T1 r1 T2 r2 ph rc : tables T1 r1 T2 r2 ph rc → tables T2 r2 T1 r1 ph rc.
Proof.
  intros [H1 H2 Hd Hrc HK]. split; [done|done|by apply apart_sym| |].
  - intros f n Hf. destruct (Hrc f n Hf) as (? & ? & ? & ? & ?). by split_and!.
  - intros s Hs. destruct (HK s Hs) as (? & ? & ?). by split_and!.
Qed.

(** Mapping a page in the first of two tables. *)
Lemma map_two T1 r1 T2 r2 ph rc v f flags :
  tables T1 r1 T2 r2 ph rc → user_addr v → frame_ok f → (2 ≤ size (fa_free (ph_alloc ph)))%nat →
  ∃ T1' ph', pt_map_page r1 v f flags ph = Val (tt, ph') ∧ tables T1' r1 T2 r2 ph' rc ∧
    (∀ v', user_addr v' → leaf T1' ph' v' =
       if bool_decide (same_page v' v) then pte_new_page f (pte_flags_of flags) else leaf T1 ph v') ∧
    (∀ v', leaf T2 ph' v' = leaf T2 ph v') ∧
    (∀ s v', s ∈ K → leaf (sp_tree s) ph' v' = leaf (sp_tree s) ph v') ∧
    (∀ q n, rc !! q = Some n → ph_ram ph' !! q = ph_ram ph !! q) ∧
    (size (fa_free (ph_alloc ph)) ≤ size (fa_free (ph_alloc ph')) + 2)%nat.
Proof.
  intros [H1 H2 Hd Hrc HK] Hv Hf Hs.
  destruct (pt_map_page_inv r1 T1 ph v f flags) as (T1' & ph' & E & Hi' & _ & Hl & Hfr & Hk & Ha & Hn & Hs'); [done..|].
  assert (evolves ∅ T1 ph T1' ph') as Hev by (split; [done..|intros t ? ? _; by apply Hk]).
  destruct (other_kept ∅ T1 T1' ph ph' r1 r2 T2) as (H2' & Hl2 & Hd'); [done|done|done|done|set_solver|].
  assert (∀ s, s ∈ K → pt_inv (sp_root s) (sp_tree s) ph' ∧ (∀ v, leaf (sp_tree s) ph' v = leaf (sp_tree s) ph v) ∧
            apart T1' (sp_tree s)) as HK'.
  { intros s Hs0. destruct (HK s Hs0) as (? & ? & _). apply (other_kept ∅ T1 T1' ph ph' r1); [done..|set_solver]. }
  exists T1', ph'. split_and!; try done.
  - split; [done|done|done| |intros s Hs0; split_and!; by apply HK' || by apply HK].
    intros q n Hq. destruct (Hrc q n Hq) as (? & ? & ? & Hn1 & ?). rewrite Ha.
    split_and!; [done|done|set_solver| |done]. intros q' [Hq'|Hq']%Hn; [by apply (Hn1 q')|done].
  - intros s v' Hs0. by apply HK'.
  - intros q n Hq. destruct (Hrc q n Hq) as (? & ? & ? & ? & ?). by apply Hk.
Qed.

(** The state of the fork loop: pages [dn] are shared read-only. *)
Record fork_inv (r1 r2 : Z) (ph0 : Phys) (rc : gmap Z nat) (dn : list MapTrack) (T1 T2 : Tree) (ph : Phys) : Prop := {
  fi_tables : tables T1 r1 T2 r2 ph rc;
  fi_leaf : ∀ x, x ∈ dn → leaf T1 ph (mt_vaddr x) = pte_new_page (mt_tracker x) (pte_flags_of MF_URX) ∧
                          leaf T2 ph (mt_vaddr x) = pte_new_page (mt_tracker x) (pte_flags_of MF_URX);
  fi_others : ∀ s v, s ∈ K → leaf (sp_tree s) ph v = leaf (sp_tree s) ph0 v;
  fi_ram : ∀ q n, rc !! q = Some n → ph_ram ph !! q = ph_ram ph0 !! q;
  fi_size : (size (fa_free (ph_alloc ph0)) ≤ size (fa_free (ph_alloc ph)) + 4 * length dn)%nat
}.

Definition page_ok (x : MapTrack) : Prop := user_addr (mt_vaddr x) ∧ mt_vaddr x mod PAGE_SIZE = 0 ∧ frame_ok (mt_tracker x).

(** One page. *)
Lemma fork_page_spec r2 ph0 dn x T1 T2 (p : Proc S H) :
  let w := p_world p in
  fork_inv (w_root w) r2 ph0 (w_rc w) dn T1 T2 (w_phys w) → page_ok x → Forall page_ok dn →
  Forall (λ y, ¬ same_page (mt_vaddr y) (mt_vaddr x)) dn → (4 ≤ size (fa_free (ph_alloc (w_phys w))))%nat →
  ∃ T1' T2' ph', fork_page r2 MF_URX x p = Val (tt, set_world (set_phys ph' w) p) ∧
    fork_inv (w_root w) r2 ph0 (w_rc w) (dn ++ [x]) T1' T2' ph'.
Proof.
  intros w [Ht Hl Ho Hr Hs] (Hv & Hva & Hf) Hdn Hne Hfree.
  destruct (map_two T2 r2 T1 (w_root w) (w_phys w) (w_rc w) (mt_vaddr x) (mt_tracker x) MF_URX)
    as (T2' & ph1 & E1 & Ht1 & Hl1 & Ho1 & Hk1 & Hr1 & Hs1); [by apply tables_sym|done|done|lia|].
  destruct (map_two T1 (w_root w) T2' r2 ph1 (w_rc w) (mt_vaddr x) (mt_tracker x) MF_URX)
    as (T1' & ph' & E2 & Ht2 & Hl2 & Ho2 & Hk2 & Hr2 & Hs2); [by apply tables_sym|done|done|lia|].
  exists T1', T2', ph'. split.
  { unfold fork_page, mbind, st_bind, map_in, task_map.
    rewrite (proj2 (Z.eqb_eq _ _) (proj2 Hf)), (proj2 (Z.eqb_eq _ _) Hva). cbn [assert_ mbind outcome_bind].
    unfold k_world, map_page, lift_phys. fold w. rewrite E1. cbn [mbind outcome_bind].
    cbn [p_world set_world w_phys set_phys w_root]. rewrite E2. cbn [mbind outcome_bind]. done. }
  split; [exact Ht2| |intros s v Hs0; by rewrite Hk2, Hk1, Ho| |].
  - intros y Hy. rewrite Forall_forall in Hdn, Hne. rewrite elem_of_app, list_elem_of_singleton in Hy.
    destruct Hy as [Hy| ->].
    + destruct (Hdn y Hy) as (Hyv & _ & _). destruct (Hl y Hy) as [Hly1 Hly2].
      rewrite Hl2, Ho1, Ho2, Hl1 by done. rewrite !bool_decide_eq_false_2 by (by apply Hne). done.
    + rewrite Hl2, Ho2, Hl1 by done. by rewrite !bool_decide_eq_true_2.
  - intros q n Hq. rewrite (Hr2 q n), (Hr1 q n), (Hr q n); done.
  - rewrite length_app. simpl. lia.
Qed.

(** The pages of a list of trackers. *)
Lemma fork_pages_spec r2 ph0 l : ∀ dn T1 T2 (p : Proc S H),
  let w := p_world p in
  fork_inv (w_root w) r2 ph0 (w_rc w) dn T1 T2 (w_phys w) → Forall page_ok (dn ++ l) →
  NoDup (mt_vaddr <$> dn ++ l) → (4 * (length dn + length l) ≤ size (fa_free (ph_alloc ph0)))%nat →
  ∃ T1' T2' ph', st_iter (fork_page r2 MF_URX) l p = Val (tt, set_world (set_phys ph' w) p) ∧
    fork_inv (w_root w) r2 ph0 (w_rc w) (dn ++ l) T1' T2' ph'.
Proof.
  induction l as [|x l IH]; intros dn T1 T2 p w Hi Hok Hnd Hfree.
  { exists T1, T2, (w_phys w). rewrite app_nil_r. split; [|done]. simpl. subst w.
    destruct p as [w ? ? ? ? ? ? ? ?]. by destruct w. }
  pose proof Hok as Hok'. apply Forall_app in Hok' as [Hok1 Hok2]. apply Forall_cons in Hok2 as [Hx Hl].
  assert (Forall (λ y, ¬ same_page (mt_vaddr y) (mt_vaddr x)) dn) as Hne.
  { apply Forall_forall. intros y Hy Hs. rewrite fmap_app, fmap_cons in Hnd. apply NoDup_app in Hnd as (_ & Hd & _).
    rewrite Forall_forall in Hok1. destruct (Hok1 y Hy) as (_ & Hya & _). destruct Hx as (_ & Hxa & _).
    apply (Hd (mt_vaddr y)); [by apply list_elem_of_fmap_2|].
    assert (mt_vaddr y = mt_vaddr x) as ->; [|set_solver].
    unfold same_page in Hs. rewrite (Z.div_mod (mt_vaddr y) PAGE_SIZE), (Z.div_mod (mt_vaddr x) PAGE_SIZE) by done. lia. }
  pose proof (fi_size _ _ _ _ _ _ _ _ Hi) as Hsz. simpl in Hfree.
  destruct (fork_page_spec r2 ph0 dn x T1 T2 p) as (T1a & T2a & pha & Ea & Hia); [done..|fold w; lia|]. fold w in Ea, Hia.
  destruct (IH (dn ++ [x]) T1a T2a (set_world (set_phys pha w) p)) as (T1' & T2' & ph' & E & Hi').
  - exact Hia.
  - by rewrite <- app_assoc.
  - by rewrite <- app_assoc.
  - rewrite length_app. simpl. lia.
  - exists T1', T2', ph'. rewrite <- app_assoc in Hi'. split; [|exact Hi'].
    cbn [st_iter]. unfold mbind, st_bind. rewrite Ea. exact E.
Qed.

(** Sharing the trackers of an area. *)
Lemma clone_list l : ∀ w : World S,
  (∀ x, x ∈ l → (0 < strong_count (mt_tracker x) w)%nat) →
  ∃ rc', st_iter (λ x, arc_clone (mt_tracker x)) l w = Val (tt, set_rc rc' w) ∧
    (∀ q, default 0%nat (rc' !! q) = (strong_count q w + refs l q)%nat) ∧
    (∀ q n, rc' !! q = Some n → ∃ m, w_rc w !! q = Some m ∧ (m ≤ n)%nat).
Proof.
  induction l as [|x l IH]; intros w Hc.
  { exists (w_rc w). split_and!; [by destruct w|intros q; unfold strong_count, refs; simpl; lia|eauto]. }
  set (f := mt_tracker x). set (w1 := set_rc (<[f := Datatypes.S (strong_count f w)]> (w_rc w)) w).
  assert (0 < strong_count f w)%nat as Hf by (apply Hc; set_solver).
  assert (∀ q, strong_count q w1 = strong_count q w + if bool_decide (f = q) then 1 else 0)%nat as Hs.
  { intros q. unfold strong_count at 1. simpl. case_bool_decide as E.
    - subst q. rewrite lookup_insert_eq. simpl. lia.
    - rewrite lookup_insert_ne by done. unfold strong_count. lia. }
  destruct (IH w1) as (rc' & E & Hc' & Hm').
  { intros y Hy. rewrite Hs. assert (0 < strong_count (mt_tracker y) w)%nat by (apply Hc; set_solver). lia. }
  exists rc'. split_and!; [exact E| |].
  - intros q. rewrite Hc', Hs, refs_cons. fold f. lia.
  - intros q n Hq. destruct (Hm' q n Hq) as (m & Hm & Hle). simpl in Hm. apply lookup_insert_Some in Hm as [[<- <-]|[_ Hm]].
    + exists (strong_count f w). split; [by apply rc_count|lia].
    + eauto.
Qed.

Lemma fork_inv_rc r1 r2 ph0 rc rc' dn T1 T2 ph :
  fork_inv r1 r2 ph0 rc dn T1 T2 ph → (∀ q n, rc' !! q = Some n → ∃ m, rc !! q = Some m ∧ (m ≤ n)%nat) →
  fork_inv r1 r2 ph0 rc' dn T1 T2 ph.
Proof.
  intros [[H1 H2 Hd Hrc HK] Hl Ho Hr Hs] Hm. split; [split; [done..| |done]|done|done| |done].
  - intros f n Hf. destruct (Hm f n Hf) as (m & Hfm & ?). destruct (Hrc f m Hfm) as (? & ?). split; [lia|done].
  - intros q n Hq. destruct (Hm q n Hq) as (m & ? & _). by apply (Hr q m).
Qed.

Lemma fork_areas_spec r2 ph0 areas : ∀ dn T1 T2 (p : Proc S H),
  let w := p_world p in
  fork_inv (w_root w) r2 ph0 (w_rc w) dn T1 T2 (w_phys w) → Forall (λ a, fork_flags (ma_mtype a) = MF_URX) areas →
  Forall page_ok (dn ++ trackers_of areas) → NoDup (mt_vaddr <$> dn ++ trackers_of areas) →
  (∀ x, x ∈ trackers_of areas → (0 < strong_count (mt_tracker x) w)%nat) →
  (4 * (length dn + length (trackers_of areas)) ≤ size (fa_free (ph_alloc ph0)))%nat →
  ∃ T1' T2' ph' rc', st_iter (fork_area r2) areas p = Val (tt, set_world (set_rc rc' (set_phys ph' w)) p) ∧
    fork_inv (w_root w) r2 ph0 rc' (dn ++ trackers_of areas) T1' T2' ph' ∧
    ∀ q, default 0%nat (rc' !! q) = (strong_count q w + refs (trackers_of areas) q)%nat.
Proof.
  induction areas as [|a areas IH]; intros dn T1 T2 p w Hi Hp Hok Hnd Hc Hfree.
  { exists T1, T2, (w_phys w), (w_rc w). change (trackers_of []) with (@nil MapTrack). rewrite app_nil_r.
    split_and!; [|done|intros q; unfold strong_count, refs; simpl; lia]. simpl. subst w.
    destruct p as [w ? ? ? ? ? ? ? ?]. by destruct w. }
  apply Forall_cons in Hp as [Hpa Hp].
  change (trackers_of (a :: areas)) with (ma_mtrackers a ++ trackers_of areas) in *.
  destruct (clone_list (ma_mtrackers a) w) as (rc1 & E1 & Hc1 & Hm1); [intros x Hx; apply Hc; set_solver|].
  set (p1 := set_world (set_rc rc1 w) p). rewrite length_app in Hfree.
  destruct (fork_pages_spec r2 ph0 (ma_mtrackers a) dn T1 T2 p1) as (T1a & T2a & pha & E2 & Hia).
  { by apply (fork_inv_rc _ _ _ (w_rc w)). }
  { rewrite app_assoc in Hok. by apply Forall_app in Hok as [? _]. }
  { rewrite app_assoc, fmap_app in Hnd. by apply NoDup_app in Hnd as [? _]. }
  { lia. }
  destruct (IH (dn ++ ma_mtrackers a) T1a T2a (set_world (set_phys pha (p_world p1)) p1)) as (T1' & T2' & ph' & rc' & E3 & Hi' & Hc').
  { exact Hia. }
  { done. }
  { by rewrite <- app_assoc. }
  { by rewrite <- app_assoc. }
  { intros x Hx. change (0 < default 0%nat (rc1 !! mt_tracker x))%nat. rewrite Hc1.
    assert (0 < strong_count (mt_tracker x) w)%nat by (apply Hc; set_solver). lia. }
  { rewrite length_app. lia. }
  exists T1', T2', ph', rc'. rewrite <- app_assoc in Hi'. split_and!; [|exact Hi'|].
  - cbn [st_iter]. unfold mbind at 1, st_bind at 1.
    assert (fork_area r2 a p = Val (tt, set_world (set_phys pha (p_world p1)) p1)) as ->; [|exact E3].
    unfold fork_area, mbind, st_bind, k_world. fold w. rewrite E1. cbn [mbind outcome_bind]. fold p1. rewrite Hpa. exact E2.
  - intros q. rewrite Hc', refs_app. unfold strong_count at 1. cbn [p_world set_world set_phys w_rc set_rc p1].
    rewrite Hc1. lia.
Qed.
End others.

(** A process that can fork: its private memory is in order, its directory
    and the terminal open, which leaves the file system as [fs'], and there are
    frames for the tables. *)
Record fork_ready (T : Tree) (K : list Space) (p : Proc S H) (fs' : S) : Prop := {
  fr_mem : spaces_inv (mkSpace T (w_root (p_world p)) (pcb_memset (p_pcb p)) :: K) (w_phys (p_world p)) (w_rc (p_world p));
  fr_shms : pcb_shms (p_pcb p) = [];
  fr_open : ∃ cwd d tty s1, p_files p !! pcb_curr_dir (p_pcb p) = Some cwd ∧
    file_open ops (p_mounted p) (f_path_buf cwd) O_DIRECTORY (w_fs (p_world p)) = Val (Ok d, s1) ∧
    file_open ops (p_mounted p) (pb_from "/dev/ttyv0") O_RDWR s1 = Val (Ok tty, fs');
  fr_free : (4 * length (trackers_of (pcb_memset (p_pcb p))) < size (fa_free (ph_alloc (w_phys (p_world p)))))%nat
}.

(** The new task: an empty page table and default control blocks. *)
Lemma user_task_new_spec T p id (cwd : File H) d tty s1 s2 :
  world_ok T (p_world p) →
  file_open ops (p_mounted p) (f_path_buf cwd) O_DIRECTORY (w_fs (p_world p)) = Val (Ok d, s1) →
  file_open ops (p_mounted p) (pb_from "/dev/ttyv0") O_RDWR s1 = Val (Ok tty, s2) →
  fa_free (ph_alloc (w_phys (p_world p))) ≠ ∅ →
  ∃ c fs ph', user_task_new id (f_path_buf cwd) p =
      Val (c, set_world (mkWorld ph' (w_rc (p_world p)) (w_root (p_world p)) s2) (set_files fs p)) ∧
    tk_tcb c = tcb_new ∧ tk_tid c = id ∧ tk_pid c = id ∧ pcb_threads (tk_pcb c) = [(id, true)] ∧
    tk_root c ∈ fa_free (ph_alloc (w_phys (p_world p))) ∧
    fa_free (ph_alloc ph') = fa_free (ph_alloc (w_phys (p_world p))) ∖ {[tk_root c]} ∧
    fa_all (ph_alloc ph') = fa_all (ph_alloc (w_phys (p_world p))) ∧
    (∀ t, t ≠ tk_root c → ph_ram ph' !! t = ph_ram (w_phys (p_world p)) !! t) ∧
    pt_inv (tk_root c) {[ [] := tk_root c ]} ph' ∧ p_files p ⊆ fs ∧
    ∀ r' T', pt_inv r' T' (w_phys (p_world p)) → pt_inv r' T' ph' ∧ ∀ v, leaf T' ph' v = leaf T' (w_phys (p_world p)) v.
Proof.
  intros [Hpt _] Ho1 Ho2 Hne. destruct (pi_tab _ _ _ Hpt [] (w_root (p_world p)) (pi_root _ _ _ Hpt)) as (_ & Hbf & Hb).
  destruct (pt_alloc_spec (w_root (p_world p)) T (w_phys (p_world p)) (w_root (p_world p)))
    as (root & ph' & E & Hin & Hfree & Hall & Hram & Hi2 & _ & _); [done..|].
  assert (∀ r' T', pt_inv r' T' (w_phys (p_world p)) → pt_inv r' T' ph' ∧ ∀ v, leaf T' ph' v = leaf T' (w_phys (p_world p)) v) as Hkeep.
  { intros r' T' Hi'. destruct (pt_alloc_spec r' T' (w_phys (p_world p)) (w_root (p_world p)))
      as (root' & ph'' & E' & _ & _ & _ & _ & _ & ? & ?); [done..|]. rewrite E in E'. by injection E' as <- <-. }
  destruct p as [w mnt files b tcb tid pid par kn]. destruct w as [ph rc r1 fs0]. simpl in *.
  eexists _, _, ph'. split.
  { unfold user_task_new, open_new, k_fs, k_world, lift_phys, new_file, set_world, set_files, set_fs. simpl.
    rewrite Ho1. simpl. rewrite Ho2. simpl. rewrite E. simpl. reflexivity. }
  simpl. split_and!; try done. etrans; [by apply insert_subseteq, not_elem_of_dom, is_fresh|].
  apply insert_subseteq, not_elem_of_dom, is_fresh.
Qed.

Lemma tables_new K T r1 r2 ph ph' rc :
  pt_inv r1 T ph → (∀ p n, rc !! p = Some n → (0 < n)%nat ∧ p ∈ fa_all (ph_alloc ph) ∧ p ∉ fa_free (ph_alloc ph) ∧ ∀ q, T !! q ≠ Some p) →
  r2 ∈ fa_free (ph_alloc ph) → fa_free (ph_alloc ph') = fa_free (ph_alloc ph) ∖ {[r2]} →
  fa_all (ph_alloc ph') = fa_all (ph_alloc ph) → pt_inv r2 {[ [] := r2 ]} ph' →
  (∀ r T, pt_inv r T ph → pt_inv r T ph') →
  (∀ s, s ∈ K → pt_inv (sp_root s) (sp_tree s) ph ∧ apart T (sp_tree s)) →
  tables K T r1 {[ [] := r2 ]} r2 ph' rc.
Proof.
  intros Hpt Hrc Hin Hfree Hall H2 Hkeep HK.
  assert (∀ r T, pt_inv r T ph → apart T {[ [] := r2 ]}) as Hnew.
  { intros r T' Hi q q' t Hq [_ <-]%lookup_singleton_Some. by destruct (pi_tab _ _ _ Hi q r2 Hq) as (_ & ? & _). }
  split; [by apply Hkeep|done|by eapply Hnew| |].
  2: { intros s Hs. destruct (HK s Hs) as [Hi Ha]. split_and!; [by apply Hkeep|done|]. by eapply apart_sym, Hnew. }
  - intros f n Hf. destruct (Hrc f n Hf) as (? & ? & ? & ?). rewrite Hall, Hfree.
    split_and!; [done|done|set_solver|done|]. intros q [_ <-]%lookup_singleton_Some. done.
Qed.

Lemma with_memset_memset v (b : ProcessControlBlock H) : pcb_memset (with_memset v b) = v.
Proof. by destruct b. Qed.

(** The other spaces after a fork: frames of [areas] have more references. *)
Lemma mem_inv_fork (s : Space) (areas : MemSet H) K ph rc ph' rc' :
  mem_inv (sp_tree s) (sp_root s) (sp_areas s) ph rc → pt_inv (sp_root s) (sp_tree s) ph' →
  (∀ v, leaf (sp_tree s) ph' v = leaf (sp_tree s) ph v) → s ∈ K →
  (∀ q, refs (trackers_of areas) q + refs (all_trackers K) q ≤ default 0 (rc !! q))%nat →
  (∀ q, default 0 (rc' !! q) = default 0 (rc !! q) + refs (trackers_of areas) q)%nat →
  (∀ q, (0 < default 0 (rc !! q))%nat → ph_ram ph' !! q = ph_ram ph !! q) →
  mem_inv (sp_tree s) (sp_root s) (sp_areas s) ph' rc'.
Proof.
  intros [_ ? ? ? ? Hr Hl] Hpt Hlf Hs Ho Hc Hram.
  assert (∀ x, x ∈ trackers_of (sp_areas s) → (0 < refs (all_trackers K) (mt_tracker x))%nat) as Hpos.
  { intros x Hx. apply refs_pos, elem_of_all_trackers. eauto. }
  split; try done; intros x Hx; pose proof (Hpos x Hx) as Hp; pose proof (Ho (mt_tracker x)) as Hox.
  - destruct (Hr x Hx) as (pg & ? & ?). exists pg. rewrite Hram by lia. done.
  - destruct (Hl x Hx) as (fl & El & Hfl). exists fl. rewrite Hlf. split; [done|].
    destruct Hfl as [?|[? E1]]; [by left|right]. split; [done|]. specialize (Hc (mt_tracker x)). rewrite E1 in *. simpl in *.
    destruct (rc' !! mt_tracker x) as [n|]; simpl in Hc; [f_equal|]; lia.
Qed.

Lemma fork_spaces K T T1 T2 r r1 r2 (areas : MemSet H) ph rc ph' rc' :
  spaces_inv (mkSpace T r areas :: K) ph rc → tables K T1 r1 T2 r2 ph' rc' →
  (∀ x, x ∈ trackers_of areas → leaf T1 ph' (mt_vaddr x) = pte_new_page (mt_tracker x) (pte_flags_of MF_URX) ∧
                                leaf T2 ph' (mt_vaddr x) = pte_new_page (mt_tracker x) (pte_flags_of MF_URX)) →
  (∀ s v, s ∈ K → leaf (sp_tree s) ph' v = leaf (sp_tree s) ph v) →
  (∀ q, default 0 (rc' !! q) = default 0 (rc !! q) + refs (trackers_of areas) q)%nat →
  (∀ q, (0 < default 0 (rc !! q))%nat → ph_ram ph' !! q = ph_ram ph !! q) →
  spaces_inv (mkSpace T1 r1 areas :: mkSpace T2 r2 areas :: K) ph' rc'.
Proof.
  intros Hs Ht Hl HK Hc Hram.
  assert (∀ T' r', pt_inv r' T' ph' → (∀ x, x ∈ trackers_of areas → leaf T' ph' (mt_vaddr x) = pte_new_page (mt_tracker x) (pte_flags_of MF_URX)) →
    mem_inv T' r' areas ph' rc') as Hmi.
  { intros T' r' Hpt' Hl'. destruct (si_first Hs) as [_ ? ? ? ? Hmr _]. split; try done.
    - intros x Hx. destruct (Hmr x Hx) as (pg & ? & ?). exists pg. rewrite Hram; [done|].
      pose proof (si_refs Hs (mt_tracker x)). apply refs_pos in Hx. lia.
    - intros x Hx. exists MF_URX. split; [by apply Hl'|by left]. }
  assert (mem_inv T1 r1 areas ph' rc') as HM1 by (apply Hmi; [apply Ht|intros x Hx; by apply Hl]).
  assert (mem_inv T2 r2 areas ph' rc') as HM2 by (apply Hmi; [apply Ht|intros x Hx; by apply Hl]).
  pose proof (tb_others _ _ _ _ _ _ _ Ht) as Hoth. apply spaces_intro.
  - done.
  - intros s [->|Hsk]%elem_of_cons; [done|]. apply (mem_inv_fork s areas K ph rc); try done; [by apply (si_other Hs)|by apply Hoth| |apply (si_refs Hs)].
    intros v. by apply HK.
  - intros s [->|Hsk]%elem_of_cons; [apply Ht|by apply Hoth].
  - constructor; [|exact (si_others_apart Hs)]. apply Forall_forall. intros s Hsk. by apply Hoth.
  - intros f n Hf. destruct (tb_rc _ _ _ _ _ _ _ Ht f n Hf) as (Hn & ? & ? & ? & ?). split_and!; try done.
    intros s q [->|Hsk]%elem_of_cons; [done|]. pose proof (Hc f) as Hcf. pose proof (si_refs Hs f) as Hrf. rewrite Hf in Hcf. simpl in Hcf.
    destruct (rc !! f) as [m|] eqn:Em; [|simpl in *; lia]. by apply (si_counted Hs f m Em).
  - intros f. change (all_trackers (mkSpace T2 r2 areas :: K)) with (trackers_of areas ++ all_trackers K).
    rewrite refs_app, Hc. pose proof (si_refs Hs f). lia.
Qed.

(** The same pages on the same frames read the same. *)
Lemma same_load s s' l l' ph rc ph' rc' u :
  spaces_inv l ph rc → spaces_inv l' ph' rc' → s ∈ l → s' ∈ l' → sp_areas s' = sp_areas s →
  (∀ q, (0 < refs (all_trackers l) q)%nat → ph_ram ph' !! q = ph_ram ph !! q) →
  user_addr u → floor_page u ∈ vaddrs (sp_areas s) → load ph' (sp_root s') u = load ph (sp_root s) u.
Proof.
  intros Hs Hs' Hin Hin' Ea Hram Hu Hfu. destruct (vaddr_tracked _ _ Hfu) as (x & Hx & Hxu).
  pose proof (proj1 (Forall_forall _ _) (si_mem _ _ _ Hs) s Hin) as Hm. pose proof (proj1 (Forall_forall _ _) (si_mem _ _ _ Hs') s' Hin') as Hm'.
  cbv beta in Hm, Hm'. rewrite Ea in Hm'. assert (0 < refs (all_trackers l) (mt_tracker x))%nat as Hpos by (apply refs_pos, elem_of_all_trackers; eauto).
  pose proof (si_owned _ _ _ Hs (mt_tracker x)) as Hc.
  assert (frame_ok (mt_tracker x)) as Hok.
  { destruct (rc !! mt_tracker x) as [n|] eqn:En; [|simpl in Hc; lia]. destruct (si_rc _ _ _ Hs _ _ En) as (_ & Hall & _).
    by apply (pi_frames _ _ _ (mi_pt _ _ _ _ _ Hm)). }
  rewrite (load_tracked _ _ _ _ _ x u Hm), (load_tracked _ _ _ _ _ x u Hm') by done. by rewrite Hram.
Qed.

(** What a fork leaves: parent and child with the same pages, the others as
    they were. *)
Record fork_post (T1 T2 : Tree) (K : list Space) (p p' : Proc S H) (fs' : S) (id : Z) (c : Task) : Prop := {
  fk_spaces : spaces_inv (mkSpace T1 (w_root (p_world p)) (pcb_memset (p_pcb p)) :: mkSpace T2 (tk_root c) (pcb_memset (p_pcb p)) :: K)
    (w_phys (p_world p')) (w_rc (p_world p'));
  fk_count : ∀ q, strong_count q (p_world p') = (strong_count q (p_world p) + refs (trackers_of (pcb_memset (p_pcb p))) q)%nat;
  fk_root : w_root (p_world p') = w_root (p_world p);
  fk_fs : w_fs (p_world p') = fs';
  fk_pcb : p_pcb p' = with_children (pcb_children (p_pcb p) ++ [id]) (p_pcb p);
  fk_rest : p' = set_pcb (p_pcb p') (set_world (p_world p') (set_files (p_files p') p));
  fk_files : p_files p ⊆ p_files p';
  fk_memset : pcb_memset (tk_pcb c) = pcb_memset (p_pcb p);
  fk_shms : pcb_shms (tk_pcb c) = pcb_shms (p_pcb p);
  fk_dir : pcb_curr_dir (tk_pcb c) = pcb_curr_dir (p_pcb p);
  fk_fds : pcb_fd_table (tk_pcb c) = pcb_fd_table (p_pcb p);
  fk_threads : pcb_threads (tk_pcb c) = [(id, true)];
  fk_pid : tk_pid c = id;
  fk_tcb : tk_tcb c = set_cx (tf_set (tcb_cx (p_tcb p)) RET 0) tcb_new;
  fk_load : ∀ u, user_addr u → floor_page u ∈ vaddrs (pcb_memset (p_pcb p)) →
    load (w_phys (p_world p')) (w_root (p_world p)) u = load (w_phys (p_world p)) (w_root (p_world p)) u ∧
    load (w_phys (p_world p')) (tk_root c) u = load (w_phys (p_world p)) (w_root (p_world p)) u;
  fk_others : ∀ s u, s ∈ K → user_addr u → floor_page u ∈ vaddrs (sp_areas s) →
    load (w_phys (p_world p')) (sp_root s) u = load (w_phys (p_world p)) (sp_root s) u;
  fk_size : (size (fa_free (ph_alloc (w_phys (p_world p)))) ≤
     size (fa_free (ph_alloc (w_phys (p_world p')))) + 4 * length (trackers_of (pcb_memset (p_pcb p))) + 1)%nat
}.

(** The loop over the areas, from a new task with an empty table. *)
Lemma fork_loop T K p fs' id :
  fork_ready T K p fs' →
  ∃ c0 files ph1 T1 T2 ph' rc',
    let p2 := map_pcb (with_children (pcb_children (p_pcb p) ++ [id]))
                (set_world (mkWorld ph1 (w_rc (p_world p)) (w_root (p_world p)) fs') (set_files files p)) in
    cow_fork id p =
      Val (mkTask (tk_root c0) (with_memset (pcb_memset (p_pcb p)) (with_shms [] (with_curr_dir (pcb_curr_dir (p_pcb p))
             (with_heap (pcb_heap (p_pcb p)) (with_fd_table (pcb_fd_table (p_pcb p)) (tk_pcb c0))))))
             (set_cx (tf_set (tcb_cx (p_tcb p)) RET 0) tcb_new) id id,
           set_world (set_rc rc' (set_phys ph' (p_world p2))) p2) ∧
    pcb_threads (tk_pcb c0) = [(id, true)] ∧ p_files p ⊆ files ∧
    fork_inv K (w_root (p_world p)) (tk_root c0) ph1 rc' (trackers_of (pcb_memset (p_pcb p))) T1 T2 ph' ∧
    (∀ q, default 0%nat (rc' !! q) = (strong_count q (p_world p) + refs (trackers_of (pcb_memset (p_pcb p))) q)%nat) ∧
    (∀ q, (0 < strong_count q (p_world p))%nat → ph_ram ph' !! q = ph_ram (w_phys (p_world p)) !! q) ∧
    (∀ s v, s ∈ K → leaf (sp_tree s) ph1 v = leaf (sp_tree s) (w_phys (p_world p)) v) ∧
    (size (fa_free (ph_alloc (w_phys (p_world p)))) ≤ size (fa_free (ph_alloc ph1)) + 1)%nat.
Proof.
  intros [Hsp Hshm (cwd & d & tty & s1 & Hcwd & Ho1 & Ho2) Hfree].
  pose proof (si_first Hsp) as Hm. pose proof (spaces_world _ _ _ _ _ Hsp eq_refl) as Hw.
  assert (Forall (λ a, fork_flags (ma_mtype a) = MF_URX) (pcb_memset (p_pcb p))) as Hpriv.
  { eapply Forall_impl; [exact (mi_private _ _ _ _ _ Hm)|]. intros a [? ?]. by destruct (ma_mtype a). }
  destruct (user_task_new_spec T p id cwd d tty s1 fs')
    as (c0 & fs & ph1 & E1 & Htcb & Htid & Hpid & Hthr & Hin & Hfr1 & Hall1 & Hram1 & Hi2 & Hfs & Hkeep);
    [done..|intros E; rewrite E, size_empty in Hfree; lia|].
  assert (∀ x, x ∈ trackers_of (pcb_memset (p_pcb p)) → (0 < strong_count (mt_tracker x) (p_world p))%nat) as Hcnt.
  { intros x Hx. eapply tracked_count; [exact Hsp|auto]. }
  assert (size (fa_free (ph_alloc ph1)) = size (fa_free (ph_alloc (w_phys (p_world p)))) - 1)%nat as Hsz1.
  { rewrite Hfr1, size_difference, size_singleton; [done|set_solver]. }
  set (p1 := set_world (mkWorld ph1 (w_rc (p_world p)) (w_root (p_world p)) fs') (set_files fs p)) in *.
  set (p2 := map_pcb (with_children (pcb_children (p_pcb p) ++ [id])) p1).
  destruct (fork_areas_spec K (tk_root c0) ph1 (pcb_memset (p_pcb p)) [] T {[ [] := tk_root c0 ]} p2)
    as (T1 & T2 & ph' & rc' & E2 & Hi & Hc').
  { split; [|by intros x ?%elem_of_nil|done|done|simpl; lia].
    apply (tables_new K T _ _ (w_phys (p_world p)) ph1 (w_rc (p_world p))); try done; [apply Hw|apply Hw|intros; by apply Hkeep|].
    intros s Hs. split; [apply (si_other Hsp s Hs)|by apply (si_disj Hsp)]. }
  { done. }
  { apply Forall_forall. intros x Hx. destruct (mi_page _ _ _ _ _ Hm (mt_vaddr x)) as [? ?]; [by apply list_elem_of_fmap_2|].
    split_and!; [done|done|]. apply (counted_frame_ok T (p_world p)); [done|by apply Hcnt]. }
  { apply Hm. }
  { exact Hcnt. }
  { simpl. lia. }
  rewrite app_nil_l in Hi. exists c0, fs, ph1, T1, T2, ph', rc'. split.
  { unfold cow_fork. rewrite Hcwd. cbn [unwrap mbind outcome_bind]. rewrite E1. cbn [mbind outcome_bind].
    change (pcb_shms (p_pcb p1)) with (pcb_shms (p_pcb p)). rewrite Hshm. cbn [st_iter mret st_ret mbind outcome_bind].
    change (pcb_memset (p_pcb p1)) with (pcb_memset (p_pcb p)). change (pcb_children (p_pcb p1)) with (pcb_children (p_pcb p)).
    fold p2. rewrite E2. cbn [mbind outcome_bind]. rewrite Htcb, Htid, Hpid. reflexivity. }
  split_and!; [done|done|exact Hi|exact Hc'| |intros s v Hsk; apply (Hkeep (sp_root s)); apply (si_other Hsp s Hsk)|lia].
  intros q Hq. destruct (wo_rc _ _ Hw q (strong_count q (p_world p))) as (_ & _ & Hnf & _); [by apply rc_count|].
  assert (is_Some (rc' !! q)) as [n Hn].
  { specialize (Hc' q). change (strong_count q (p_world p2)) with (strong_count q (p_world p)) in Hc'. destruct (rc' !! q); [done|]. simpl in Hc'. lia. }
  rewrite (fi_ram _ _ _ _ _ _ _ _ _ Hi _ n Hn). apply Hram1. intros E. by rewrite E in Hnf.
Qed.

Lemma cow_fork_spec T K p fs' id :
  fork_ready T K p fs' → ∃ c p' T1 T2, cow_fork id p = Val (c, p') ∧ fork_post T1 T2 K p p' fs' id c.
Proof.
  intros Hr. destruct (fork_loop T K p fs' id Hr) as (c0 & fs & ph1 & T1 & T2 & ph' & rc' & E & Hthr & Hfs & [Ht Hl Hoth Hram0 Hs] & Hc' & Hram & Hk & Hsz).
  destruct Hr as [Hsp Hshm _ _].
  assert (spaces_inv (mkSpace T1 (w_root (p_world p)) (pcb_memset (p_pcb p)) :: mkSpace T2 (tk_root c0) (pcb_memset (p_pcb p)) :: K) ph' rc') as Hsp'.
  { apply (fork_spaces K T T1 T2 _ _ _ _ (w_phys (p_world p)) (w_rc (p_world p)) _ _ Hsp Ht Hl); [|exact Hc'|exact Hram].
    intros s v Hsk. by rewrite Hoth, Hk. }
  assert (∀ s s' u, s ∈ mkSpace T (w_root (p_world p)) (pcb_memset (p_pcb p)) :: K →
    s' ∈ mkSpace T1 (w_root (p_world p)) (pcb_memset (p_pcb p)) :: mkSpace T2 (tk_root c0) (pcb_memset (p_pcb p)) :: K →
    sp_areas s' = sp_areas s → user_addr u → floor_page u ∈ vaddrs (sp_areas s) →
    load ph' (sp_root s') u = load (w_phys (p_world p)) (sp_root s) u) as Hld.
  { intros s s' u ? ? ? ? ?. eapply same_load; try done. intros q Hq. apply Hram. pose proof (si_owned _ _ _ Hsp q). unfold strong_count. lia. }
  eexists _, _, T1, T2. split; [exact E|]. split; cbn [tk_root tk_pcb tk_pid tk_tcb]; try done.
  - by rewrite with_memset_memset.
  - rewrite Hshm. by destruct (tk_pcb c0).
  - by destruct (tk_pcb c0).
  - by destruct (tk_pcb c0).
  - rewrite <- Hthr. by destruct (tk_pcb c0).
  - intros u Hu Hfu. split.
    + apply (Hld (mkSpace T (w_root (p_world p)) (pcb_memset (p_pcb p))) (mkSpace T1 (w_root (p_world p)) (pcb_memset (p_pcb p)))); try done; apply list_elem_of_here.
    + apply (Hld (mkSpace T (w_root (p_world p)) (pcb_memset (p_pcb p))) (mkSpace T2 (tk_root c0) (pcb_memset (p_pcb p)))); try done; [apply list_elem_of_here|apply list_elem_of_further, list_elem_of_here].
  - intros s u Hsk Hu Hfu. apply Hld; try done; by repeat apply list_elem_of_further.
  - cbn [p_world set_world w_phys set_rc set_phys ph_alloc]. lia.
Qed.

Definition on_pages (A : list Z) (u : Z) : Prop := user_addr u ∧ floor_page u ∈ A.
End fork.

(** ** A concrete fork: one writable page, a root directory in which every
    name exists *)
Definition one_page : MapTrack := mkMapTrack 0x10000 0x80001000 0.
Definition one_area : MemArea unit := mkMemArea Mmap [one_page] None 0 0x10000 0x1000.

Definition one_build : ST (World unit) unit := _ ← alloc_frames 1; map_page 0x10000 0x80001000 MF_URWX.
Definition one_world : World unit := match one_build demo_world0 with Val (_, w) => w | Panic => demo_world0 end.

Definition any_ops : INodeOps unit unit := mkINodeOps unit unit
  (λ _ _ _, vfs_err ENOENT) (λ _ _ _, vfs_err ENOENT) (λ _ _ _, vfs_err ENOTDIR) (λ _ _, vfs_err EEXIST)
  (λ _ _, vfs_err ENOENT) (λ _ _, vfs_err ENOENT) (λ _, vfs_err EPERM) (λ _ _, vfs_ok tt) (λ _ _, vfs_err EPERM)
  (λ _ _ _, vfs_err EPERM) (λ _ _, vfs_err EPERM) (λ _ _, vfs_err EPERM) (λ _ _ _, vfs_err EPERM) (λ _ _, vfs_err EPERM)
  (λ _ _ _, vfs_err EPERM) (λ _, vfs_err EPERM) (λ _, vfs_err EPERM) (λ _ _ _, vfs_err EPERM) (λ _ _, vfs_err EPERM)
  (λ _, vfs_err EPERM) (λ _ _, vfs_err EPERM).

Definition one_proc : Proc unit unit :=
  mkProc one_world [(pb_new, tt)] {[ 7 := new_dev tt ]} (with_memset [one_area] (demo_pcb [(1, true)])) demo_tcb0 1 1 None
    kern_new.

Lemma one_world_ok :
  ∃ T, world_ok T one_world ∧ leaf T (w_phys one_world) 0x10000 = pte_new_page 0x80001000 (pte_flags_of MF_URWX) ∧
    ∀ q, w_rc one_world !! q = if bool_decide (q = 0x80001000) then Some 1%nat else None.
Proof.
  destruct (alloc_frames_spec _ 1 demo_world0 demo_world0_ok) as (res & w1 & E1 & Hw1 & _ & _ & _ & _ & Hres); [done|].
  destruct res as [ps|]; [|exfalso; vm_compute in E1; discriminate].
  assert (ps = [0x80001000]) as ->.
  { apply (f_equal (λ o, match o with Val (Some l, _) => l | _ => [] end)) in E1. by vm_compute in E1. }
  destruct Hres as (_ & Hin & Hfree & Hok & Hrc). apply Forall_cons in Hok as [Hok _].
  destruct (map_page_tree _ 0x10000 0x80001000 MF_URWX w1 Hw1) as (T' & w' & E2 & Hw' & _ & _ & Hrc' & _ & Hl & _);
    [split; lia|exact Hok|rewrite Hfree; clear; vm_compute; lia|].
  assert (one_world = w') as ->.
  { unfold one_world, one_build, mbind, st_bind. rewrite E1. by rewrite E2. }
  exists T'. split_and!; [done| |].
  - rewrite Hl by (split; lia). by rewrite bool_decide_eq_true_2.
  - intros q. rewrite Hrc', Hrc. clear. change (w_rc demo_world0) with (∅ : gmap Z nat). rewrite lookup_empty.
    apply if_decide_ext. by rewrite list_elem_of_singleton.
Qed.

Lemma one_free : get_free_pages (w_phys one_world) = 12.
Proof. vm_compute. reflexivity. Qed.

Lemma one_pages : ph_ram (w_phys one_world) !! 0x80001000 = Some zero_page.
Proof. vm_compute. reflexivity. Qed.

Lemma one_root : w_root one_world = 0x80000000.
Proof. vm_compute. reflexivity. Qed.

#[local] Opaque one_world.

Lemma one_fork_ready : ∃ T, fork_ready any_ops T [] one_proc tt.
Proof.
  destruct one_world_ok as (T & Hw & Hl & Hrc). pose proof one_pages as Hp. exists T.
  pose proof one_free as Hfree. unfold get_free_pages in Hfree. rewrite fa_count_free in Hfree by apply Hw.
  split.
  - apply spaces_intro; [|intros s []%elem_of_nil|intros s []%elem_of_nil|constructor| |].
    + split; simpl; [apply Hw| | | | | |].
      * intros v ->%list_elem_of_singleton. split; [split; simpl; lia|reflexivity].
      * apply NoDup_singleton.
      * intros [|i] a v [= <-] Hv. apply list_elem_of_singleton in Hv. split; [|lia].
        rewrite ma_contains_spec by (split; simpl; word_lia). simpl in *. unfold floor_page, PAGE_SIZE in Hv.
        pose proof (Z.div_mod v 4096 ltac:(lia)). pose proof (Z.mod_pos_bound v 4096 ltac:(lia)). apply bool_decide_eq_true_2. lia.
      * apply Forall_singleton. split; discriminate.
      * intros x ->%list_elem_of_singleton. exists zero_page. split; [exact Hp|reflexivity].
      * intros x ->%list_elem_of_singleton. exists MF_URWX. split; [exact Hl|]. right. split; [by right|]. by rewrite Hrc.
    + intros f n Hf. destruct (wo_rc _ _ Hw f n Hf) as (H1 & H2 & H3 & H4).
      split; [exact H1|]. split; [exact H2|]. split; [exact H3|]. split; [exact H4|]. intros s q []%elem_of_nil.
    + intros q. simpl. rewrite Hrc. change (trackers_of [one_area]) with [one_page].
      rewrite refs_cons. change (refs [] q) with 0%nat. cbn [mt_tracker one_page].
      clear. repeat case_bool_decide; simpl; lia || congruence.
  - reflexivity.
  - exists (new_dev tt), (mkFile tt pb_new 0 O_DIRECTORY), (mkFile tt (pb_from "/dev/ttyv0") 0 O_RDWR), tt.
    split; [reflexivity|]. split; [|reflexivity]. simpl. by destruct (w_fs one_world).
  - simpl. lia.
Qed.
