(* ===== verification/UserMem.v ===== *)
(** * The kernel and user memory

    Runs of mapped pages, on which stores of the kernel succeed and read back;
    shared by program loading and signal frames. *)

From S2P Require Import Prelude Bytes Frame PageTable Signal Path Vfs File Time Futex MemSet Process Mm Fork.
Local Open Scope Z_scope.

(** ** Words in memory *)
Definition words (l : list Z) : list Z := concat (le_bytes 8 <$> l).
Fixpoint read_words (n : nat) (bs : list Z) : list Z :=
  match n with
  | O => []
  | S n => le_value (take 8 bs) :: read_words n (drop 8 bs)
  end.

Lemma words_app l k : words (l ++ k) = words l ++ words k.
Proof. unfold words. by rewrite fmap_app, concat_app. Qed.

Lemma words_cons x l : words (x :: l) = le_bytes 8 x ++ words l.
Proof. done. Qed.

Lemma length_words l : length (words l) = (8 * length l)%nat.
Proof.
  induction l as [|x l IH]; [done|]. change (words (x :: l)) with (le_bytes 8 x ++ words l).
  rewrite length_app, length_le_bytes, IH. simpl. lia.
Qed.

Lemma read_words_words l : Forall word64 l → read_words (length l) (words l) = l.
Proof.
  induction 1 as [|x l Hx Hl IH]; [done|]. rewrite words_cons. cbn [length read_words].
  rewrite take_app_le, drop_app_ge by (rewrite length_le_bytes; lia). rewrite length_le_bytes, Nat.sub_diag, drop_0, IH.
  rewrite take_ge by (rewrite length_le_bytes; lia). rewrite le_value_bytes, Z.mod_small; [done|]. exact Hx.
Qed.

Section user_mem.
Context {S H : Type} (ops : INodeOps S H).
Notation M := (ST (Proc S H)).

(** What a program reads at [v]. *)
Definition user_read (p : Proc S H) (v : Z) (n : nat) : option (list Z) :=
  mapM (λ i, load (w_phys (p_world p)) (w_root (p_world p)) (v + Z.of_nat i)) (seq 0 n).

(** The kernel reads user memory: a fault is handled once, as for a store. *)
Definition user_load1 (v : Z) : M Z := λ p,
  '(_, p) ← match mmu (p_world p) v with Some _ => Val (tt, p) | None => user_cow_int ops v p end;
  b ← unwrap (load (w_phys (p_world p)) (w_root (p_world p)) v);
  Val (b, p).

Fixpoint user_load (n : nat) (v : Z) : M (list Z) :=
  match n with
  | O => mret []
  | Datatypes.S n => b ← user_load1 v; bs ← user_load n (v +w 1); mret (b :: bs)
  end.

(** ** A run of writable pages *)
(** [n] pages from [lo] on, mapped writable, the [k]-th on the frame [fr k]. *)
Record run_ok (T : Tree) (lo n : Z) (fr : Z → Z) (p : Proc S H) : Prop := {
  ro_world : world_ok T (p_world p);
  ro_lo : lo mod PAGE_SIZE = 0 ∧ 0 ≤ lo ∧ lo + n * PAGE_SIZE < 2 ^ 38;
  ro_leaf : ∀ k, 0 ≤ k < n →
    (∃ fl, fl ≠ 0 ∧ contains (pte_flags_of fl) PTE_W = true ∧
       leaf T (w_phys (p_world p)) (lo + k * PAGE_SIZE) = pte_new_page (fr k) (pte_flags_of fl)) ∧
    frame_ok (fr k) ∧ (0 < strong_count (fr k) (p_world p))%nat ∧
    ∃ page, ph_ram (w_phys (p_world p)) !! fr k = Some page ∧ length page = 4096%nat;
  ro_inj : ∀ j k, 0 ≤ j < n → 0 ≤ k < n → fr j = fr k → j = k
}.

Definition peek (p : Proc S H) (u : Z) : option Z := load (w_phys (p_world p)) (w_root (p_world p)) u.

Lemma run_page lo n u : lo mod PAGE_SIZE = 0 → lo ≤ u < lo + n * PAGE_SIZE →
  ∃ k o, 0 ≤ k < n ∧ 0 ≤ o < PAGE_SIZE ∧ u = lo + k * PAGE_SIZE + o ∧ u mod PAGE_SIZE = o ∧ same_page u (lo + k * PAGE_SIZE).
Proof.
  unfold same_page, PAGE_SIZE. intros Hlo Hu. exists ((u - lo) / 4096), ((u - lo) mod 4096).
  pose proof (Z.div_mod (u - lo) 4096 ltac:(lia)) as Hd. pose proof (Z.mod_pos_bound (u - lo) 4096 ltac:(lia)) as Hm.
  pose proof (Z.div_mod lo 4096 ltac:(lia)) as Hl. rewrite Hlo in Hl.
  split_and!; [apply Z.div_pos; lia|apply Z.div_lt_upper_bound; lia|lia|lia|lia| |].
  - symmetry. apply (Z.mod_unique_pos _ _ (lo / 4096 + (u - lo) / 4096)); lia.
  - rewrite <- (Z.div_unique_pos u 4096 (lo / 4096 + (u - lo) / 4096) ((u - lo) mod 4096)) by lia.
    apply (Z.div_unique_pos _ _ _ 0); lia.
Qed.

Lemma run_peek T lo n fr p k o :
  run_ok T lo n fr p → 0 ≤ k < n → 0 ≤ o < PAGE_SIZE →
  peek p (lo + k * PAGE_SIZE + o) = ph_ram (w_phys (p_world p)) !! fr k ≫= λ page, page !! Z.to_nat o.
Proof.
  intros [Hw (Hlo & Hlo0 & Hhi) Hl _] Hk Ho. destruct (Hl k Hk) as ((fl & Hfl & _ & Hlf) & Hf & _ & page & Hp & _).
  assert (user_addr (lo + k * PAGE_SIZE + o) ∧ user_addr (lo + k * PAGE_SIZE)) as [Hu1 Hu2] by (unfold user_addr, PAGE_SIZE in *; nia).
  destruct (run_page lo n (lo + k * PAGE_SIZE + o)) as (k' & o' & Hk' & Ho' & E & Em & Hs); [done|unfold PAGE_SIZE in *; nia|].
  assert (k' = k ∧ o' = o) as [-> ->] by (unfold PAGE_SIZE in *; nia).
  unfold peek, load. rewrite (mmu_walk_leaf _ T) by (apply Hw || done).
  rewrite (leaf_same_page _ _ _ (lo + k * PAGE_SIZE)), Hlf, new_page_V by done. cbn [mbind option_bind].
  rewrite pte_address_new_page by (done || apply pte_flags_of_range). rewrite Em. done.
Qed.

Lemma run_store1 T lo n fr p v b :
  run_ok T lo n fr p → lo ≤ v < lo + n * PAGE_SIZE →
  ∃ w', user_store1 ops v b p = Val (tt, set_world w' p) ∧ run_ok T lo n fr (set_world w' p) ∧
    (∀ u, lo ≤ u < lo + n * PAGE_SIZE → peek (set_world w' p) u = if bool_decide (u = v) then Some b else peek p u).
Proof.
  intros Hr Hv. pose proof Hr as [Hw (Hlo & Hlo0 & Hhi) Hl Hinj].
  destruct (run_page lo n v Hlo Hv) as (k & o & Hk & Ho & Ev & Em & Hs).
  destruct (Hl k Hk) as ((fl & Hfl & Hwr & Hlf) & Hf & Hc & page & Hp & Hlen).
  assert (user_addr v ∧ user_addr (lo + k * PAGE_SIZE)) as [Hu1 Hu2] by (unfold user_addr, PAGE_SIZE in *; nia).
  set (f := fr k) in *. set (page' := <[Z.to_nat o := b]> page).
  destruct (write_counted T (p_world p) f page' Hw Hc) as (Hw' & Hl' & _). set (w' := set_phys _ _) in Hw', Hl'.
  assert (run_ok T lo n fr (set_world w' p)) as Hr'.
  { split; [done|done| |done]. intros j Hj. destruct (Hl j Hj) as (Hpte & ? & ? & pg & Hpg & Hlg). split_and!; try done.
    - destruct Hpte as (fl' & ? & ? & ?). exists fl'. by rewrite Hl'.
    - simpl. destruct (decide (fr j = f)) as [->|Hne].
      + exists page'. rewrite lookup_insert_eq. split; [done|]. unfold page'. by rewrite length_insert.
      + exists pg. by rewrite lookup_insert_ne by done. }
  exists w'. split_and!; [|done|].
  - unfold user_store1. assert (user_frame v p = Some f) as Euf.
    { apply (user_frame_leaf T p v f fl); [done..|]. by rewrite (leaf_same_page _ _ _ (lo + k * PAGE_SIZE)). }
    rewrite !Euf. cbn [unwrap mbind outcome_bind]. rewrite Euf. cbn [unwrap mbind outcome_bind].
    unfold k_world, lift_phys. rewrite Em, (phys_store_frame _ f o b page); [done|apply Hf|done|done].
  - intros u Hu. destruct (run_page lo n u Hlo Hu) as (j & o' & Hj & Ho' & -> & _ & _). rewrite !(run_peek T lo n fr) by done.
    destruct (decide (j = k)) as [->|Hne].
    + fold f. simpl. rewrite lookup_insert_eq, Hp. simpl. destruct (decide (o' = o)) as [->|Hno].
      * rewrite bool_decide_eq_true_2 by done. unfold page'. apply list_lookup_insert_eq. rewrite Hlen. unfold PAGE_SIZE in *. lia.
      * rewrite bool_decide_eq_false_2 by (unfold PAGE_SIZE in *; lia). unfold page'. apply list_lookup_insert_ne. lia.
    + rewrite bool_decide_eq_false_2 by (unfold PAGE_SIZE in *; lia). simpl. rewrite lookup_insert_ne; [done|]. intros E. by apply Hne, Hinj.
Qed.

Lemma run_store T lo n fr bs : ∀ v p,
  run_ok T lo n fr p → lo ≤ v → v + Z.of_nat (length bs) ≤ lo + n * PAGE_SIZE →
  ∃ w', user_store ops bs v p = Val (tt, set_world w' p) ∧ run_ok T lo n fr (set_world w' p) ∧
    (∀ u, lo ≤ u < lo + n * PAGE_SIZE →
       peek (set_world w' p) u = if bool_decide (v ≤ u < v + Z.of_nat (length bs)) then bs !! Z.to_nat (u - v) else peek p u).
Proof.
  induction bs as [|b bs IH]; intros v p Hr Hv Hn; cbn [length] in *.
  { exists (p_world p). assert (set_world (p_world p) p = p) as E by (by destruct p). rewrite E. split_and!; [done|done|].
    intros u _. rewrite bool_decide_eq_false_2 by lia. done. }
  destruct (run_store1 T lo n fr p v b Hr) as (w1 & E1 & Hr1 & Hp1); [lia|].
  assert (v +w 1 = v + 1) as Ew by (destruct Hr as [_ (_ & ? & ?) _ _]; apply wadd_small; word_lia).
  destruct (IH (v + 1) (set_world w1 p) Hr1) as (w2 & E2 & Hr2 & Hp2); [lia|lia|].
  exists w2. cbn [user_store]. unfold mbind, st_bind. rewrite E1, Ew, E2. split; [done|]. split; [exact Hr2|].
  intros u Hu. change (set_world w2 p) with (set_world w2 (set_world w1 p)). rewrite Hp2, Hp1 by done.
  destruct (decide (u = v)) as [->|Hne].
  - rewrite bool_decide_eq_false_2, !bool_decide_eq_true_2, Z.sub_diag by lia. done.
  - rewrite (bool_decide_eq_false_2 (u = v)) by done. destruct (decide (v + 1 ≤ u < v + 1 + Z.of_nat (length bs))).
    + rewrite !bool_decide_eq_true_2 by lia. replace (Z.to_nat (u - v)) with (Datatypes.S (Z.to_nat (u - (v + 1)))) by lia. done.
    + rewrite !bool_decide_eq_false_2 by lia. done.
Qed.


(** Reads of what is mapped. *)
Lemma run_load T lo n fr bs : ∀ v p,
  run_ok T lo n fr p → lo ≤ v → v + Z.of_nat (length bs) ≤ lo + n * PAGE_SIZE →
  (∀ i, (i < length bs)%nat → peek p (v + Z.of_nat i) = bs !! i) → user_load (length bs) v p = Val (bs, p).
Proof.
  induction bs as [|b bs IH]; intros v p Hr Hv Hn Hp; [done|]. cbn [length] in *.
  pose proof (Hp 0%nat ltac:(lia)) as Hb. rewrite Z.add_0_r in Hb. simpl in Hb.
  assert (user_load1 v p = Val (b, p)) as E1.
  { unfold user_load1. unfold peek, load in Hb. unfold mmu. destruct (mmu_walk _ _ v) as [pte|] eqn:Ew; [|done]. cbn [mbind outcome_bind].
    unfold load. rewrite Ew, Hb. done. }
  cbn [user_load]. unfold mbind, st_bind. rewrite E1. rewrite wadd_small by (destruct Hr as [_ (_ & ? & ?) _ _]; word_lia).
  rewrite IH; [done|done|lia|lia|]. intros i Hi. specialize (Hp (Datatypes.S i) ltac:(lia)). simpl in Hp. rewrite <- Hp. f_equal. lia.
Qed.

Lemma user_read_spec (p : Proc S H) v bs :
  (∀ i, (i < length bs)%nat → peek p (v + Z.of_nat i) = bs !! i) → user_read p v (length bs) = Some bs.
Proof.
  intros Hp. apply mapM_Some_2, Forall2_same_length_lookup_2; [by rewrite length_seq|].
  intros i k b Hk Hb. apply lookup_seq in Hk as [-> Hk]. rewrite Nat.add_0_l, <- Hb, <- Hp by done. done.
Qed.
End user_mem.
