(* ===== verification/Fd.v ===== *)
(** * Descriptor and path syscalls ([kernel/src/syscall/fd.rs])

    Pointers of the caller are modelled by what they point to: a string
    argument is a [UserStr], an input buffer its bytes, an output buffer its
    length on the way in and the bytes written on the way out.  An [async]
    call that can block returns the result of one poll. *)

From S2P Require Import Prelude Bytes Frame PageTable Signal Path Vfs File Time Futex MemSet Process.
Local Open Scope Z_scope.

(** A user pointer to a C string: null, not UTF-8, or a string. *)
Inductive UserStr := UNull | UBad | UStr (s : string).

(** [FcntlCmd::from_usize] *)
Inductive FcntlCmd := F_DUPFD | F_GETFD | F_SETFD | F_GETFL | F_SETFL | F_GETLK | F_SETLK | F_SETLKW | F_DUPFDCLOEXEC.
Definition fcntl_cmd (cmd : Z) : option FcntlCmd :=
  if cmd =? 0 then Some F_DUPFD else if cmd =? 1 then Some F_GETFD else if cmd =? 2 then Some F_SETFD
  else if cmd =? 3 then Some F_GETFL else if cmd =? 4 then Some F_SETFL else if cmd =? 5 then Some F_GETLK
  else if cmd =? 6 then Some F_SETLK else if cmd =? 7 then Some F_SETLKW
  else if cmd =? 0x406 then Some F_DUPFDCLOEXEC else None.

Record KStat := mkKStat {
  ks_dev : Z; ks_ino : Z; ks_mode : Z; ks_nlink : Z; ks_uid : Z; ks_gid : Z; ks_rdev : Z; ks_pad : Z;
  ks_size : Z; ks_blksize : Z; ks_pad2 : Z; ks_blocks : Z; ks_atime_sec : Z; ks_atime_nsec : Z;
  ks_mtime_sec : Z; ks_mtime_nsec : Z; ks_ctime_sec : Z; ks_ctime_nsec : Z
}.

Definition kstat_of (stat : Stat) : KStat :=
  mkKStat (st_dev stat) (st_ino stat) (st_mode stat) (st_nlink stat) (st_uid stat) (st_gid stat)
    (st_rdev stat) (st_pad stat) (st_size stat) (st_blksize stat) (st_pad2 stat) (st_blocks stat)
    (as_isize (ts_sec (st_atime stat))) (as_isize (ts_nsec (st_atime stat)))
    (as_isize (ts_sec (st_mtime stat))) (as_isize (ts_nsec (st_mtime stat)))
    (as_isize (ts_sec (st_ctime stat))) (as_isize (ts_nsec (st_ctime stat))).

Definition as_u32 (x : Z) : Z := x mod 2 ^ 32.
Definition as_u16 (x : Z) : Z := x mod 2 ^ 16.

Record StatxTimestamp := mkStatxTimestamp { stx_sec : Z; stx_nsec : Z }.
Record Statx := mkStatx {
  stx_mask : Z; stx_blksize : Z; stx_nlink : Z; stx_uid : Z; stx_gid : Z; stx_mode : Z; stx_ino : Z;
  stx_size : Z; stx_blocks : Z; stx_atime : StatxTimestamp; stx_btime : StatxTimestamp;
  stx_ctime : StatxTimestamp; stx_mtime : StatxTimestamp; stx_rdev_major : Z; stx_rdev_minor : Z;
  stx_dev_major : Z; stx_dev_minor : Z
}.
Definition STATX_ALL : Z := 0xfff.

Definition dev_major (dev : Z) : Z :=
  Z.lor (as_u32 (Z.land (Z.shiftr dev 8) 0xfff)) (as_u32 (Z.land (Z.shiftr dev 32) (wnot 0xfff))).
Definition dev_minor (dev : Z) : Z :=
  Z.lor (as_u32 (Z.land dev 0xff)) (as_u32 (Z.land (Z.shiftr dev 12) (wnot 0xff))).
Definition stx_time (t : TimeSpec) : StatxTimestamp := mkStatxTimestamp (as_isize (ts_sec t)) (as_u32 (ts_nsec t)).

Definition statx_of (stat : Stat) : Statx :=
  mkStatx STATX_ALL (st_blksize stat) (as_u32 (st_nlink stat)) (st_uid stat) (st_gid stat)
    (as_u16 (st_mode stat)) (st_ino stat) (st_size stat) (st_blocks stat) (stx_time (st_atime stat))
    (stx_time (st_ctime stat)) (stx_time (st_ctime stat)) (stx_time (st_mtime stat))
    (dev_major (st_rdev stat)) (dev_minor (st_rdev stat)) (dev_major (st_dev stat)) (dev_minor (st_dev stat)).

Section fd.
Context {S H : Type} (ops : INodeOps S H).
(** [create_pipe] of the file-system store: the receiving and sending ends. *)
Context (create_pipe : S → H * H * S).
Notation K := (K S H).
Notation M := (ST (Proc S H)).

Definition cstr (s : UserStr) : K string := λ p,
  match s with
  | UStr s => Val (Ok s, p)
  | UBad => Val (Err EINVAL, p)
  | UNull => Panic
  end.

(** [if filename.is_valid() { filename.get_cstr()? } else { "" }] *)
Definition cstr_or_empty (s : UserStr) : K string :=
  match s with UNull => k_ret (Ok ""%string) | _ => cstr s end.

(** [self.task.get_fd(fd).ok_or(e)?] *)
Definition file_at (fd : Z) (e : Errno) : K Z := λ p,
  '(r, p) ← get_fd fd p; Val (ok_or r e, p).

(** [self.task.alloc_fd().ok_or(e)?] *)
Definition alloc_fd_or (e : Errno) : K Z := λ p,
  '(r, p) ← alloc_fd p; Val (ok_or r e, p).

(** An operation of the inode behind an open file. *)
Definition on_inode {A} (id : Z) (f : File H → vfs S A) : K A := λ p,
  file ← unwrap (p_files p !! id); k_fs (f file) p.

(** An operation that moves the offset of an open file. *)
Definition on_file {A} (id : Z) (f : File H → S → outcome (result A * File H * S)) : K A := on_open id f.

(** ** Descriptors *)
Definition sys_dup3 (fd_src fd_dst : Z) : K Z :=
  file ←? file_at fd_src EBADF;
  k_of (set_fd fd_dst file) ;;?
  k_ret (Ok fd_dst).

Definition sys_dup (fd : Z) : K Z :=
  fd_dst ←? alloc_fd_or EMFILE;
  sys_dup3 fd fd_dst.

Definition sys_close (fd : Z) : K Z := k_of (clear_fd fd) ;;? k_ret (Ok 0).

Definition poll_read (id : Z) (n : nat) : M (Poll (result (list Z))) := on_open id (λ f, async_read ops f n).
Definition poll_write (id : Z) (buffer : list Z) : M (Poll (result Z)) := on_open id (λ f, async_write ops f buffer).

Definition sys_read (fd : Z) (count : nat) : M (Poll (result (list Z))) := λ p,
  '(r, p) ← get_fd fd p;
  match r with
  | None => Val (Ready (Err EBADF), p)
  | Some id => poll_read id count p
  end.

Definition sys_write (fd : Z) (buffer : list Z) : M (Poll (result Z)) := λ p,
  '(r, p) ← get_fd fd p;
  match r with
  | None => Val (Ready (Err EBADF), p)
  | Some id => poll_write id buffer p
  end.

Fixpoint readv_loop (file : Z) (iov : list nat) : K (list (list Z)) :=
  match iov with
  | [] => k_ret (Ok [])
  | len :: iov =>
      bs ←? on_file file (λ f, file_read ops f len);
      rest ←? readv_loop file iov;
      k_ret (Ok (bs :: rest))
  end.

(** The buffers filled; the result is the sum of their lengths. *)
Definition sys_readv (fd : Z) (iov : list nat) : K (list (list Z)) :=
  file ←? file_at fd EBADF; readv_loop file iov.

Fixpoint writev_loop (file : Z) (iov : list (list Z)) (wsize : Z) : K Z :=
  match iov with
  | [] => k_ret (Ok wsize)
  | buffer :: iov =>
      n ←? on_file file (λ f, file_write ops f buffer);
      writev_loop file iov (wsize +w n)
  end.

Definition sys_writev (fd : Z) (iov : list (list Z)) : K Z :=
  file ←? file_at fd EBADF; writev_loop file iov 0.

Definition sys_pread (fd : Z) (len : nat) (offset : Z) : K (list Z) :=
  file ←? file_at fd EBADF; on_inode file (λ f, file_readat ops f offset len).

Definition sys_pwrite (fd : Z) (buffer : list Z) (offset : Z) : K Z :=
  file ←? file_at fd EBADF; on_inode file (λ f, file_writeat ops f offset buffer).

Definition sys_lseek (fd offset whence : Z) : K Z :=
  match (if whence =? 0 then Some (SEEK_SET offset)
         else if whence =? 1 then Some (SEEK_CURRENT (as_isize offset))
         else if whence =? 2 then Some (SEEK_END (as_isize offset)) else None) with
  | None => k_ret (Err EINVAL)
  | Some seek_from => file ←? file_at fd EBADF; on_file file (λ f, file_seek ops f seek_from)
  end.

Definition set_flags (flags : Z) (f : File H) : File H := mkFile (f_inner f) (f_path_buf f) (f_offset f) flags.

Definition sys_fcntl (fd cmd arg : Z) : K Z :=
  cmd ←? k_ret (ok_or (fcntl_cmd cmd) EINVAL);
  file ←? file_at fd EBADF;
  match cmd with
  | F_DUPFD | F_DUPFDCLOEXEC => sys_dup fd
  | F_GETFD => k_ret (Ok 1)
  | F_GETFL => on_inode file (λ f, vfs_ok (f_flags f))
  | F_SETFL =>
      on_file file (λ f s, Val (Ok tt, set_flags (open_flags arg) f, s)) ;;?
      k_of (set_fd fd file) ;;?
      k_ret (Ok 0)
  | _ => k_ret (Ok 0)
  end.

Definition sys_ioctl (fd request arg1 : Z) : K Z :=
  file ←? file_at fd EINVAL;
  λ p, match on_inode file (λ f, file_ioctl ops f request arg1) p with
       | Val (Err _, p) => Val (Err ENOTTY, p)
       | r => r
       end.

Definition sys_pipe2 : K (Z * Z) := λ p,
  let '(rx, tx, s) := create_pipe (w_fs (p_world p)) in
  (rx_fd ←? alloc_fd_or ENFILE;
   rx_file ←? k_of (new_file (new_dev rx));
   k_of (set_fd rx_fd rx_file) ;;?
   tx_fd ←? alloc_fd_or ENFILE;
   tx_file ←? k_of (new_file (new_dev tx));
   k_of (set_fd tx_fd tx_file) ;;?
   k_ret (Ok (as_u32 rx_fd, as_u32 tx_fd))) (set_world (set_fs s (p_world p)) p).

(** ** Paths *)
Definition sys_openat (dir_fd : Z) (filename : UserStr) (flags : Z) : K Z :=
  filename ←? cstr_or_empty filename;
  file ←? fd_open ops dir_fd filename (open_flags flags);
  fd ←? alloc_fd_or EMFILE;
  id ←? k_of (new_file file);
  k_of (set_fd fd id) ;;?
  k_ret (Ok fd).

Definition sys_mkdir_at (dir_fd : Z) (path : UserStr) : K Z :=
  path ←? cstr path;
  _ ←? fd_open ops dir_fd path (Z.lor O_DIRECTORY O_CREAT);
  k_ret (Ok 0).

Definition sys_unlinkat (dir_fd : Z) (path : UserStr) (flags : Z) : K Z :=
  path ←? cstr path;
  file ←? fd_open ops dir_fd path (open_flags flags);
  (λ p, k_fs (remove_self ops (p_mounted p) file) p) ;;?
  k_ret (Ok 0).

Definition sys_faccess_at (dir_fd : Z) (filename : UserStr) (flags : Z) : K Z :=
  filename ←? cstr_or_empty filename;
  _ ←? fd_open ops dir_fd filename (open_flags flags);
  k_ret (Ok 0).

(** A regular file is copied, a directory only created; the old name stays. *)
Definition copy_contents (old_file new_file : File H) : vfs S unit :=
  size ←? file_size ops old_file;
  bs ←? (λ s, '(r, _, s) ← file_read ops old_file (Z.to_nat size) s; Val (r, s));
  let buffer := bs ++ replicate (Z.to_nat size - length bs) 0 in
  _ ←? (λ s, '(r, _, s) ← file_write ops new_file buffer s; Val (r, s));
  file_truncate ops new_file (Z.of_nat (length buffer)).

Definition sys_renameat2 (olddir_fd : Z) (oldpath : UserStr) (newdir_fd : Z) (newpath : UserStr) (flags : Z) : K Z :=
  let flags := open_flags flags in
  old_path ←? cstr oldpath;
  old_file ←? fd_open ops olddir_fd old_path flags;
  old_type ←? k_fs (file_type ops old_file);
  new_path ←? cstr newpath;
  match old_type with
  | FT_File =>
      new_file ←? fd_open ops newdir_fd new_path (Z.lor O_CREAT flags);
      k_fs (copy_contents old_file new_file) ;;?
      k_ret (Ok 0)
  | FT_Directory =>
      _ ←? fd_open ops newdir_fd new_path (Z.lor (Z.lor O_CREAT O_DIRECTORY) flags);
      k_ret (Ok 0)
  | _ => λ _, Panic
  end.

Definition sys_fstat (fd : Z) : K KStat :=
  file ←? file_at fd EBADF;
  stat ←? on_inode file (λ f, file_stat ops f stat_default);
  k_ret (Ok (kstat_of stat)).

Definition sys_fstatat (dir_fd : Z) (path : UserStr) (stat : Stat) : K Stat :=
  path ←? cstr path;
  file ←? fd_open ops dir_fd path O_RDONLY;
  stat ←? k_fs (file_stat ops file stat);
  k_ret (Ok (stat_set_mode (Z.lor (st_mode stat) OWNER_MASK) stat)).

Definition sys_statfs (path : UserStr) (statfs : StatFS) : K StatFS :=
  path ←? cstr path;
  file ←? (λ p, k_fs (file_open ops (p_mounted p) (pb_from path) O_RDONLY) p);
  k_fs (file_statfs ops file statfs).

Definition sys_statx (dir_fd : Z) (path : UserStr) : K Statx :=
  path ←? cstr path;
  file ←? fd_open ops dir_fd path O_RDONLY;
  stat ←? k_fs (file_stat ops file stat_default);
  k_ret (Ok (statx_of stat)).

Definition sys_getdents64 (fd : Z) (buffer : list Z) (timed_out : bool) : K (Z * list Z) := λ p,
  '(r, p) ← get_fd fd p;
  id ← unwrap r;
  if timed_out then Val (Ok (0, buffer), p)
  else
    '(r, p) ← on_open id (λ f s, '(r, buf, f, s) ← getdents ops f buffer s; Val ((r, buf), f, s)) p;
    match r with
    | (Ok n, buf) => Val (Ok (n, buf), p)
    | (Err _, buf) => Val (Ok (0, buf), p)
    end.

Definition sys_ftruncate (fields len : Z) : K Z :=
  if fields =? usize_max then k_ret (Err EPERM)
  else
    file ←? file_at fields EINVAL;
    on_inode file (λ f, file_truncate ops f len) ;;?
    k_ret (Ok 0).

Definition sys_truncate (path : UserStr) (length : Z) : K Z :=
  path ←? cstr path;
  file ←? (λ p, k_fs (file_open ops (p_mounted p) (pb_from path) O_WRONLY) p);
  k_fs (file_truncate ops file length) ;;?
  k_ret (Ok 0).

Definition sys_symlinkat (target : UserStr) (newdir_fd : Z) (linkpath : UserStr) : K Z :=
  target ←? cstr target;
  linkpath ←? cstr linkpath;
  file ←? fd_resolve newdir_fd linkpath;
  dir ←? (λ p, k_fs (file_open ops (p_mounted p) (pb_dir file) O_DIRECTORY) p);
  k_fs (file_symlink ops dir (pb_filename file) target) ;;?
  k_ret (Ok 0).

Definition sys_readlinkat (dir_fd : Z) (path : UserStr) (buffer_size : Z) : K (list Z) :=
  filename ←? cstr path;
  file ←? fd_open ops dir_fd filename O_RDONLY;
  ftype ←? k_fs (file_type ops file);
  if bool_decide (ftype ≠ FT_Link) then k_ret (Err EINVAL)
  else
    file ←? (λ p, k_fs (file_open ops (p_mounted p) (pb_from filename) O_RDONLY) p);
    file_path ←? k_fs (file_resolve_link ops file);
    let bytes := str_bytes file_path in
    k_ret (Ok (take (Z.to_nat (Z.min (Z.of_nat (length bytes)) buffer_size)) bytes)).

(** ** Mounts *)
Definition is_dev_path (s : string) : bool := String.prefix "/dev" s.

(** [dir.trim_start_matches('/')] *)
Fixpoint trim_slashes (s : string) : string :=
  match s with
  | String c r => if bool_decide (c = slash) then trim_slashes r else s
  | EmptyString => s
  end.

(** The result of a call whose error is ignored. *)
Definition ignore_err {A} (m : K A) : K unit := λ p,
  match m p with Val (_, p) => Val (Ok tt, p) | Panic => Panic end.

Definition sys_mount (special dir fstype : UserStr) : K Z :=
  special ←? cstr special;
  dir ←? cstr dir;
  fstype ←? cstr fstype;
  (if bool_decide (dir = ""%string) then k_ret (Ok tt)
   else
     parent ←? (λ p, k_fs (file_open ops (p_mounted p) pb_new O_RDONLY) p);
     ignore_err (k_fs (file_mkdir ops parent (trim_slashes dir)))) ;;?
  (if bool_decide (fstype ∈ ["tmpfs"; "ramfs"; "proc"; "sysfs"; "devtmpfs"]%string) then k_ret (Ok tt)
   else if bool_decide (special ≠ ""%string ∧ special ≠ "none"%string) then
     ignore_err (
       dev_node ←? (λ p, k_fs (file_open ops (p_mounted p) (pb_from special) O_RDONLY) p);
       k_fs (file_mount ops dev_node dir))
   else k_ret (Ok tt)) ;;?
  k_ret (Ok 0).

Definition sys_umount2 (special : UserStr) : K Z :=
  special ←? cstr special;
  if bool_decide (special = ""%string) then k_ret (Err EINVAL)
  else
    (if is_dev_path special then
       ignore_err (
         dev ←? (λ p, k_fs (file_open ops (p_mounted p) (pb_from special) O_RDONLY) p);
         k_fs (file_umount ops dev))
     else λ p, Val (Ok tt, set_mounted (umount (p_mounted p) (pb_from special)).1 p)) ;;?
    k_ret (Ok 0).

(** ** Times *)
Definition sys_utimensat (dir_fd : Z) (path : UserStr) (times : option (TimeSpec * TimeSpec)) (now : TimeSpec) : K Z :=
  let now_if t := if ts_nsec t =? UTIME_NOW then now else t in
  let '(t0, t1) := match times with None => (now, now) | Some (a, b) => (now_if a, now_if b) end in
  match path with
  | UNull =>
      file ←? file_at (as_usize dir_fd) EBADF;
      on_inode file (λ f, file_utimes ops f t0 t1) ;;?
      k_ret (Ok 0)
  | _ =>
      path ←? cstr path;
      if bool_decide (path = "/dev/null/invalid"%string) then k_ret (Ok 0)
      else
        file ←? fd_open ops dir_fd path O_RDONLY;
        k_fs (file_utimes ops file t0 t1) ;;?
        k_ret (Ok 0)
  end.

(** ** Copying between descriptors *)
(** A buffer of [n] zeros with [bs] read into its front. *)
Definition filled (n : nat) (bs : list Z) : list Z := bs ++ replicate (n - length bs) 0.

Definition sys_sendfile (out_fd in_fd offset count : Z) : K Z :=
  out_file ←? file_at out_fd EINVAL;
  in_file ←? file_at in_fd EINVAL;
  curr_off ←? (if negb (offset =? 0) then k_ret (Ok offset)
               else on_file in_file (λ f, file_seek ops f (SEEK_CURRENT 0)));
  size ←? on_inode in_file (file_size ops);
  let rlen := Z.to_nat (Z.min (size -w curr_off) count) in
  buffer ←? (if offset =? 0 then
               bs ←? on_file in_file (λ f, file_read ops f rlen);
               k_of (set_fd in_fd in_file) ;;?
               k_ret (Ok (filled rlen bs))
             else
               bs ←? on_inode in_file (λ f, file_readat ops f offset rlen);
               k_ret (Ok (filled rlen bs)));
  on_file out_file (λ f, file_write ops f buffer).

(** The count and the updated offsets. *)
Definition sys_copy_file_range (fd_in : Z) (off_in : option Z) (fd_out : Z) (off_out : option Z) (len : nat) (flags : Z)
  : K (Z * option Z * option Z) :=
  if negb (flags =? 0) then λ _, Panic
  else
    in_file ←? file_at fd_in EBADF;
    out_file ←? file_at fd_out EBADF;
    bs ←? match off_in with
          | Some o => on_inode in_file (λ f, file_readat ops f o len)
          | None => on_file in_file (λ f, file_read ops f len)
          end;
    let rsize := Z.of_nat (length bs) in
    let off_in := (λ o, o +w rsize) <$> off_in in
    if rsize =? 0 then k_ret (Ok (0, off_in, off_out))
    else
      match off_out with
      | Some o =>
          n ←? on_inode out_file (λ f, file_writeat ops f o bs);
          k_ret (Ok (rsize, off_in, Some (o +w n)))
      | None =>
          _ ←? on_file out_file (λ f, file_write ops f bs);
          k_ret (Ok (rsize, off_in, None))
      end.

(** ** Waiting for events *)
Record PollFd := mkPollFd { pf_fd : Z; pf_events : Z; pf_revents : Z }.

(** One pass over the [pollfd] array: an inode whose [poll] fails panics. *)
Fixpoint ppoll_pass (fds : list PollFd) : M (Z * list PollFd) := λ p,
  match fds with
  | [] => Val ((0, []), p)
  | x :: fds =>
      '(r, p) ← get_fd (pf_fd x) p;
      '(revents, p) ← match r with
                      | None => Val (POLL_NONE, p)
                      | Some id =>
                          '(r, p) ← on_inode id (λ f, file_poll ops f (pf_events x)) p;
                          match r with Ok ev => Val (ev, p) | Err _ => Panic end
                      end;
      '((num, fds), p) ← ppoll_pass fds p;
      Val ((num + (if revents =? POLL_NONE then 0 else 1), mkPollFd (pf_fd x) (pf_events x) revents :: fds), p)
  end.

(** [etime]: the deadline, [usize::MAX] without a timeout. *)
Definition ppoll_deadline (now : Z) (timeout : option TimeSpec) : Z :=
  match timeout with Some t => now +w timespec_to_nsec t | None => usize_max end.

(** One round of [sys_ppoll] at time [now]. *)
Definition sys_ppoll (fds : list PollFd) (etime now : Z) : M (Poll (Z * list PollFd)) := λ p,
  '((num, fds), p) ← ppoll_pass fds p;
  Val (if (etime <=? now) || (0 <? num) then Ready (num, fds) else Pending, p).

(** An [fd_set] of four words as one number; [BitArray::set_bit]. *)
Definition fdset_set (s i : Z) (v : bool) : Z := if v then Z.setbit s i else Z.clearbit s i.

(** The pass over one set: [clear] says whether unset descriptors are cleared
    in the result. *)
Fixpoint select_set (idx : list Z) (want : Z) (event : Z) (clear : bool) (res num : Z) : M (Z * Z) := λ p,
  match idx with
  | [] => Val ((res, num), p)
  | i :: idx =>
      if negb (Z.testbit want i) then
        select_set idx want event clear (if clear then fdset_set res i false else res) num p
      else
        e ← unwrap (pcb_fd_table (p_pcb p) !! Z.to_nat i);
        match e with
        | None => select_set idx want event clear (fdset_set res i false) num p
        | Some id =>
            '(r, p) ← on_inode id (λ f, file_poll ops f event) p;
            match r with
            | Ok ev =>
                if contains ev event then select_set idx want event clear (fdset_set res i true) (num + 1) p
                else select_set idx want event clear (fdset_set res i false) num p
            | Err _ => select_set idx want event clear (fdset_set res i false) num p
            end
        end
  end.

Definition select_opt (idx : list Z) (want : option Z) (event : Z) (clear : bool) (res num : Z) : M (Z * Z) :=
  match want with
  | None => mret (res, num)
  | Some w => select_set idx w event clear res num
  end.

(** One round of [sys_pselect]: the results accumulated so far are the state
    of the loop. *)
Definition sys_pselect (max_fdp1 : Z) (rfds wfds efds : option Z) (results : Z * Z * Z) (timeout now : Z)
  : M (Poll (Z * (Z * Z * Z)) * (Z * Z * Z)) := λ p,
  let idx := Z.of_nat <$> seq 0 (Z.to_nat (Z.min max_fdp1 255)) in
  let '(r, w, e) := results in
  '((r, num), p) ← select_opt idx rfds POLLIN true r 0 p;
  '((w, num), p) ← select_opt idx wfds POLLOUT false w num p;
  '((e, num), p) ← select_opt idx efds POLLERR false e num p;
  Val ((if negb (num =? 0) then Ready (num, (r, w, e))
        else if timeout <? now then Ready (0, (r, w, e)) else Pending, (r, w, e)), p).

(** ** Attributes the kernel only checks *)
Definition sys_umask (mask : Z) : K Z := λ p,
  Val (Ok (pcb_umask (p_pcb p)), map_pcb (with_umask (Z.land mask 0x1ff)) p).

(** [fchmodat], [linkat] and, with [O_NOFOLLOW] when asked, the [chown] calls
    by path: the file must open. *)
Definition must_open (dir_fd : Z) (path : UserStr) (flags : Z) : K Z :=
  path ←? cstr path;
  _ ←? fd_open ops dir_fd path flags;
  k_ret (Ok 0).

Definition sys_fchmodat (dir_fd : Z) (path : UserStr) : K Z := must_open dir_fd path O_RDONLY.
Definition sys_chown (path : UserStr) : K Z := must_open AT_CWD path O_RDONLY.
Definition sys_lchown (path : UserStr) : K Z := must_open AT_CWD path (Z.lor O_RDONLY O_NOFOLLOW).
Definition sys_fchownat (dir_fd : Z) (path : UserStr) (flags : Z) : K Z :=
  must_open dir_fd path (if negb (Z.land flags 0x100 =? 0) then Z.lor O_RDONLY O_NOFOLLOW else O_RDONLY).
Definition sys_linkat (olddirfd : Z) (oldpath newpath : UserStr) : K Z :=
  oldpath' ←? cstr oldpath;
  _ ←? cstr newpath;
  must_open olddirfd oldpath O_RDONLY.

(** Calls that only check the descriptor. *)
Definition check_fd (fd : Z) : K Z := _ ←? file_at fd EBADF; k_ret (Ok 0).
Definition sys_fchown (fd : Z) : K Z := check_fd fd.
Definition sys_fsync (fd : Z) : K Z := check_fd fd.
Definition sys_fdatasync (fd : Z) : K Z := check_fd fd.

Definition sys_flock (fd operation : Z) : K Z :=
  _ ←? file_at fd EBADF;
  let base_op := Z.land operation (wnot 4) in
  if bool_decide (base_op ∈ [1; 2; 8]) then k_ret (Ok 0) else k_ret (Err EINVAL).

(** [for fd in 0..=255 { get_fd(fd) }] *)
Definition sys_sync : K Z := λ p,
  '(_, p) ← st_iter (λ fd, _ ← get_fd fd; mret tt) (Z.of_nat <$> seq 0 256) p;
  Val (Ok 0, p).

(** ** The descriptor table as a map *)
(** The table reaches the limit, so indexing below the limit cannot panic. *)
Record fd_wf (n : Z) (p : Proc S H) : Prop := {
  fw_limit : fd_limit p n;
  fw_len : n ≤ Z.of_nat (length (pcb_fd_table (p_pcb p)))
}.

Definition fd_view (n : Z) (p : Proc S H) (fd : Z) : option Z :=
  if n <=? fd then None else pcb_fd_table (p_pcb p) !! Z.to_nat fd ≫= id.

Lemma get_fd_spec n p fd : fd_wf n p → 0 ≤ fd → get_fd fd p = Val (fd_view n p fd, p).
Proof.
  intros [Hl Hn] Hfd. unfold get_fd, fd_view. rewrite (nofile_spec p n Hl). cbn [mbind outcome_bind].
  destruct (Z.leb_spec n fd); [done|].
  destruct (lookup_lt_is_Some_2 (pcb_fd_table (p_pcb p)) (Z.to_nat fd)) as [e ->]; [lia|]. done.
Qed.

Lemma file_at_spec n p fd e : fd_wf n p → 0 ≤ fd → file_at fd e p = Val (ok_or (fd_view n p fd) e, p).
Proof. intros Hw Hfd. unfold file_at. by rewrite (get_fd_spec n). Qed.

Lemma map_table_wf n t p :
  fd_limit p n → n ≤ Z.of_nat (length t) → fd_wf n (map_pcb (with_fd_table t) p).
Proof.
  intros Hl Hn. split; [|by rewrite table_of_map].
  unfold fd_limit in *. unfold map_pcb. cbn [p_pcb set_pcb]. by rewrite with_fd_table_rlimits.
Qed.

(** A table entry replaced. *)
Lemma insert_view n p i e x :
  (i < length (pcb_fd_table (p_pcb p)))%nat → 0 ≤ x →
  fd_view n (map_pcb (with_fd_table (<[i := e]> (pcb_fd_table (p_pcb p)))) p) x =
  if bool_decide (x = Z.of_nat i ∧ x < n) then e else fd_view n p x.
Proof.
  intros Hi Hx. unfold fd_view. rewrite table_of_map. destruct (Z.leb_spec n x).
  { by rewrite bool_decide_eq_false_2 by lia. }
  destruct (decide (Z.to_nat x = i)) as [<-|Hne].
  - rewrite list_lookup_insert_eq by done. rewrite bool_decide_eq_true_2 by lia. done.
  - rewrite list_lookup_insert_ne by done. by rewrite bool_decide_eq_false_2 by lia.
Qed.

Lemma set_fd_spec n p fd v :
  fd_wf n p → 0 ≤ fd →
  ∃ p', set_fd fd v p = Val (tt, p') ∧ fd_wf n p' ∧ p_files p' = p_files p ∧ p_world p' = p_world p ∧
    ∀ x, 0 ≤ x → fd_view n p' x = if bool_decide (x = fd ∧ x < n) then Some v else fd_view n p x.
Proof.
  intros [Hl Hn] Hfd. unfold set_fd. rewrite (nofile_spec p n Hl). cbn [mbind outcome_bind].
  destruct (Z.leb_spec n fd).
  - exists p. split_and!; try done. intros x Hx. by rewrite bool_decide_eq_false_2 by lia.
  - destruct (lookup_lt_is_Some_2 (pcb_fd_table (p_pcb p)) (Z.to_nat fd)) as [e ->]; [lia|].
    cbn [unwrap mbind outcome_bind]. eexists. split; [done|]. split_and!; [|done|done|].
    + apply map_table_wf; [done|]. by rewrite length_insert.
    + intros x Hx. rewrite insert_view by lia. by rewrite Z2Nat.id by lia.
Qed.

Lemma clear_fd_spec n p fd :
  fd_wf n p → 0 ≤ fd →
  ∃ p', clear_fd fd p = Val (tt, p') ∧ fd_wf n p' ∧
    ∀ x, 0 ≤ x → fd_view n p' x = if bool_decide (x = fd) then None else fd_view n p x.
Proof.
  intros [Hl Hn] Hfd. unfold clear_fd. destruct (Z.leb_spec (Z.of_nat (length (pcb_fd_table (p_pcb p)))) fd).
  - exists p. split_and!; try done. intros x Hx. case_bool_decide; [subst x|done].
    unfold fd_view. rewrite (proj2 (Z.leb_le _ _)); [done|lia].
  - eexists. split; [done|]. split; [apply map_table_wf; [done|by rewrite length_insert]|].
    intros x Hx. rewrite insert_view by lia. rewrite Z2Nat.id by lia.
    destruct (decide (x < n)); repeat case_bool_decide; try done; try (exfalso; tauto).
    unfold fd_view. by rewrite (proj2 (Z.leb_le _ _)) by lia.
Qed.

(** The abstract table: a function from descriptors. *)
Definition fd_upd (v : Z → option Z) (i : Z) (o : option Z) : Z → option Z := λ x, if x =? i then o else v x.

Definition lowest_free (n : Z) (v : Z → option Z) : option Z :=
  (λ r : nat * Z, r.2) <$> list_find (λ i, v i = None) (seqZ 0 n).

Lemma lowest_free_Some n v i :
  0 ≤ i < n → v i = None → (∀ j, 0 ≤ j < i → v j ≠ None) → lowest_free n v = Some i.
Proof.
  intros Hi Hv Hb. unfold lowest_free.
  assert (list_find (λ i, v i = None) (seqZ 0 n) = Some (Z.to_nat i, i)) as ->; [|done].
  apply list_find_Some. split_and!; [rewrite lookup_seqZ_lt by lia; f_equal; lia|done|].
  intros k y Hy Hk. rewrite lookup_seqZ in Hy. destruct Hy as [-> ?]. apply Hb. lia.
Qed.

Lemma lowest_free_None n v : (∀ j, 0 ≤ j < n → v j ≠ None) → lowest_free n v = None.
Proof.
  intros Hb. unfold lowest_free. assert (list_find (λ i, v i = None) (seqZ 0 n) = None) as ->; [|done].
  apply list_find_None. apply Forall_forall. intros x Hx%elem_of_seqZ. apply Hb. lia.
Qed.

Lemma alloc_fd_view n p :
  fd_wf n p → ∃ p', alloc_fd p = Val (lowest_free n (fd_view n p), p') ∧ fd_wf n p' ∧
    p_files p' = p_files p ∧ p_world p' = p_world p ∧ ∀ x, 0 ≤ x → fd_view n p' x = fd_view n p x.
Proof.
  intros Hw. pose proof Hw as [Hl Hn].
  destruct (alloc_fd_spec p n Hl) as (res & p' & E & Ep & Hr). exists p'. destruct res as [i|].
  - destruct Hr as (Hi & Hf & Hb & Hk).
    assert (∀ j, 0 ≤ j < n → is_Some (pcb_fd_table (p_pcb p) !! Z.to_nat j)) as Hin
      by (intros j Hj; apply lookup_lt_is_Some; lia).
    assert (∀ x, 0 ≤ x → fd_view n p' x = fd_view n p x) as Hv.
    { intros x Hx. unfold fd_view. destruct (Z.leb_spec n x); [done|].
      by rewrite Hk by (apply not_eq_None_Some, Hin; lia). }
    assert (lowest_free n (fd_view n p) = Some i) as ->.
    { apply lowest_free_Some; [done| |].
      - rewrite <- Hv by lia. unfold fd_view. rewrite Hf. by destruct (n <=? i).
      - intros j Hj. unfold fd_view. rewrite (proj2 (Z.leb_gt _ _)) by lia.
        destruct (Hb (Z.to_nat j)) as [f Hf']; [lia|]. by rewrite Hf'. }
    split; [done|]. split; [|split_and!; [by rewrite Ep|by rewrite Ep|exact Hv]].
    rewrite Ep. apply map_table_wf; [done|]. destruct (decide (n ≤ 0)) as [?|Hpos]; [lia|].
    destruct (Hin (n - 1)) as [e He]; [lia|]. rewrite <- Hk in He by (rewrite He; done).
    apply lookup_lt_Some in He. lia.
  - destruct Hr as (-> & _ & Hb). split; [|done]. rewrite E. do 2 f_equal. symmetry. apply lowest_free_None.
    intros j Hj. unfold fd_view. rewrite (proj2 (Z.leb_gt _ _)) by lia.
    destruct (lookup_lt_is_Some_2 (pcb_fd_table (p_pcb p)) (Z.to_nat j)) as [e He]; [lia|].
    rewrite He. destruct (Hb _ e He) as [f ->]; [lia|]. done.
Qed.

Inductive fd_call := CDup (fd : Z) | CDup3 (src dst : Z) | CClose (fd : Z).

Definition call_ok (c : fd_call) : Prop :=
  match c with CDup fd => 0 ≤ fd | CDup3 src dst => 0 ≤ src ∧ 0 ≤ dst | CClose fd => 0 ≤ fd end.

Definition run_call (c : fd_call) : K Z :=
  match c with CDup fd => sys_dup fd | CDup3 src dst => sys_dup3 src dst | CClose fd => sys_close fd end.

Definition abs_dup3 (n : Z) (v : Z → option Z) (src dst : Z) : result Z * (Z → option Z) :=
  match v src with
  | None => (Err EBADF, v)
  | Some f => (Ok dst, if dst <? n then fd_upd v dst (Some f) else v)
  end.

Definition abs_call (n : Z) (v : Z → option Z) (c : fd_call) : result Z * (Z → option Z) :=
  match c with
  | CDup3 src dst => abs_dup3 n v src dst
  | CDup fd => match lowest_free n v with Some i => abs_dup3 n v fd i | None => (Err EMFILE, v) end
  | CClose fd => (Ok 0, fd_upd v fd None)
  end.

Definition fd_sim (n : Z) (p : Proc S H) (v : Z → option Z) : Prop :=
  fd_wf n p ∧ ∀ x, 0 ≤ x → fd_view n p x = v x.

Lemma lowest_free_ext n v v' : (∀ x, 0 ≤ x → v x = v' x) → lowest_free n v = lowest_free n v'.
Proof.
  intros Hv. unfold lowest_free. f_equal.
  assert (∀ x, x ∈ seqZ 0 n → v x = v' x) as Hl by (intros x Hx%elem_of_seqZ; apply Hv; lia).
  clear Hv. revert Hl. generalize (seqZ 0 n). intros l. induction l as [|x l IH]; intros Hl; [done|].
  simpl. rewrite IH by set_solver. rewrite Hl by set_solver. done.
Qed.

Lemma dup3_sim n p v src dst :
  fd_sim n p v → 0 ≤ src → 0 ≤ dst →
  ∃ p', sys_dup3 src dst p = Val ((abs_dup3 n v src dst).1, p') ∧ fd_sim n p' (abs_dup3 n v src dst).2.
Proof.
  intros [Hw Hv] Hs Hd. unfold sys_dup3, abs_dup3, vfs_bind.
  rewrite (file_at_spec n) by done. rewrite Hv by done. destruct (v src) as [f|]; cbn [ok_or fst snd].
  - destruct (set_fd_spec n p dst f Hw Hd) as (p' & E & Hw' & _ & _ & Hv').
    unfold k_of. rewrite E. exists p'. split; [done|]. split; [done|]. intros x Hx. rewrite Hv', Hv by done.
    unfold fd_upd. destruct (Z.ltb_spec dst n), (Z.eqb_spec x dst); case_bool_decide; done || lia.
  - by exists p.
Qed.

Lemma call_sim n p v c :
  fd_sim n p v → call_ok c →
  ∃ p', run_call c p = Val ((abs_call n v c).1, p') ∧ fd_sim n p' (abs_call n v c).2.
Proof.
  intros Hsim Hc. pose proof Hsim as [Hw Hv]. destruct c as [fd|src dst|fd]; simpl in *.
  - destruct (alloc_fd_view n p Hw) as (p1 & E1 & Hw1 & _ & _ & Hv1).
    rewrite (lowest_free_ext n (fd_view n p) v Hv) in E1.
    unfold sys_dup, vfs_bind, alloc_fd_or. rewrite E1. cbn [mbind outcome_bind].
    assert (fd_sim n p1 v) as Hsim1 by (split; [done|intros x Hx; by rewrite Hv1, Hv]).
    destruct (lowest_free n v) as [i|] eqn:El; cbn [ok_or].
    + apply dup3_sim; [done|done|]. unfold lowest_free in El.
      destruct (list_find _ _) as [[k y]|] eqn:Ef; [|done]. injection El as ->.
      apply list_find_Some in Ef as (Hk & _). rewrite lookup_seqZ in Hk. lia.
    + by exists p1.
  - by apply dup3_sim; [|destruct Hc..].
  - destruct (clear_fd_spec n p fd Hw Hc) as (p' & E & Hw' & Hv').
    unfold sys_close, vfs_bind, k_of. rewrite E. exists p'. split; [done|]. split; [done|].
    intros x Hx. rewrite Hv', Hv by done. unfold fd_upd. destruct (Z.eqb_spec x fd); by case_bool_decide.
Qed.

(** A sequence of calls, with their results. *)
Fixpoint run_calls (cs : list fd_call) : M (list (result Z)) := λ p,
  match cs with
  | [] => Val ([], p)
  | c :: cs => '(r, p) ← run_call c p; '(rs, p) ← run_calls cs p; Val (r :: rs, p)
  end.

Fixpoint abs_calls (n : Z) (v : Z → option Z) (cs : list fd_call) : list (result Z) * (Z → option Z) :=
  match cs with
  | [] => ([], v)
  | c :: cs => let '(r, v) := abs_call n v c in let '(rs, v) := abs_calls n v cs in (r :: rs, v)
  end.

(** C12: The descriptor table implements a map from descriptors to open files:
    any sequence of [dup], [dup3] and [close] calls runs without panic,
    returns what the abstract map returns ([dup] the lowest free descriptor,
    EBADF and EMFILE in the right cases, success for closing a descriptor that
    is not open and for [dup3] to a descriptor beyond the limit) and ends in a
    table that represents the final map. *)
Theorem fd_table_refines n cs : ∀ p v,
  fd_sim n p v → Forall call_ok cs →
  ∃ p', run_calls cs p = Val ((abs_calls n v cs).1, p') ∧ fd_sim n p' (abs_calls n v cs).2.
Proof.
  induction cs as [|c cs IH]; intros p v Hsim Hok; [by exists p|].
  apply Forall_cons in Hok as [Hc Hok]. simpl.
  destruct (call_sim n p v c Hsim Hc) as (p1 & E1 & Hsim1). rewrite E1. cbn [mbind outcome_bind].
  destruct (abs_call n v c) as [r v1]. simpl in *.
  destruct (IH p1 v1 Hsim1 Hok) as (p' & E & Hsim'). rewrite E. cbn [mbind outcome_bind].
  destruct (abs_calls n v1 cs) as [rs v2]. by exists p'.
Qed.
End fd.

(** ** Stores inside the file-system store

    An inode behind a descriptor is a trait object; some calls downcast it to
    one type of inode and work on that type's own objects.  [Host T X S H]: the
    store [S] contains the objects [T] of the inodes [X]; [host_node] makes a
    trait object and [host_down] is [downcast_arc]. *)
Class Host (T X S H : Type) := {
  host_get : S → T;
  host_put : T → S → S;
  host_node : X → H;
  host_down : H → option X
}.

Class HostLaws (T X S H : Type) `{!Host T X S H} := {
  host_get_put t s : host_get (host_put t s) = t;
  host_put_get s : host_put (host_get s) s = s;
  host_down_node x : host_down (host_node x) = Some x
}.

#[export] Instance self_host T X : Host T X T X := {
  host_get s := s; host_put s _ := s; host_node x := x; host_down := Some
}.
#[export] Instance self_host_laws T X : HostLaws T X T X.
Proof. by split. Qed.

Section host.
Context {T X S H : Type} `{!Host T X S H}.

(** The objects in a process's store, and an operation on them. *)
Definition hosted (p : Proc S H) : T := host_get (w_fs (p_world p)).

Definition on_host {A} (f : T → outcome (A * T)) : ST (Proc S H) A := λ p,
  let w := p_world p in
  '(a, t) ← f (host_get (w_fs w));
  Val (a, set_world (set_fs (host_put t (w_fs w)) w) p).

(** [downcast_arc().map_err(|_| e)?] of the inode behind an open file. *)
Definition down_file (e : Errno) (file : Z) : K S H X := λ p,
  f ← unwrap (p_files p !! file);
  Val (ok_or (host_down (f_inner f)) e, p).

Lemma on_host_spec `{!HostLaws T X S H} {A} (f : T → outcome (A * T)) (p : Proc S H) a t :
  f (hosted p) = Val (a, t) →
  ∃ p', on_host f p = Val (a, p') ∧ hosted p' = t ∧ p_files p' = p_files p ∧ p_pcb p' = p_pcb p ∧ p_tcb p' = p_tcb p.
Proof.
  intros E. unfold on_host. fold (hosted p). rewrite E. cbn [mbind outcome_bind]. eexists. split; [done|].
  unfold hosted. destruct p as [w ? ? ? ? ? ? ? ?], w. cbn. by rewrite host_get_put.
Qed.
End host.

(** ** Concrete calls on the demo process: descriptors 0..2 are open *)
Lemma fd_table_refines_witness :
  ∃ p', run_calls [CDup 1; CClose 0; CDup 2; CDup3 9 4; CDup3 3 300] (demo_proc [])
        = Val ([Ok 3; Ok 0; Ok 0; Err EBADF; Ok 300], p') ∧
    fd_view 255 p' 0 = Some 7 ∧ fd_view 255 p' 4 = None.
Proof.
  destruct (fd_table_refines 255 [CDup 1; CClose 0; CDup 2; CDup3 9 4; CDup3 3 300] (demo_proc [])
    (fd_view 255 (demo_proc []))) as (p' & E & _ & Hv).
  - split; [|done]. split; [reflexivity|]. vm_compute. discriminate.
  - repeat constructor; simpl; lia.
  - exists p'. split; [exact E|]. rewrite !Hv by lia. split; reflexivity.
Defined.
