(* ===== verification/SigFrame.v ===== *)
(** * Running signal handlers ([kernel/src/user/signal.rs])

    The action for a signal, the frame a handler runs on, the trap loop of
    [user/mod.rs] and [user/entry.rs], and [sys_sigreturn].  User code is a
    parameter: what the process looks like at the next trap. *)

From S2P Require Import Prelude Bytes Frame PageTable Signal Path Vfs File Time Futex MemSet Process Mm Fork UserMem.
Local Open Scope Z_scope.

(** ** [SignalUserContext] (riscv64): byte offsets of its fields *)
Definition SIG_MASK_AT : Z := 40.
Definition GREGS_AT : Z := 176.
Definition SIG_CONTEXT_SIZE : Z := 960.

Definition SYS_RT_SIGRETURN : Z := 139.

Inductive EscapeReason := NoReason | IRQ | Timer | SysCall.
Inductive UserTaskControlFlow := Continue | Break.

(** ** Default actions *)
Definition terminating : list SignalFlags :=
  [SIGCANCEL; SIGSEGV; SIGILL; SIGABRT; SIGIOT; SIGQUIT; SIGTERM; SIGHUP; SIGINT; SIGPIPE; SIGALRM; SIGFPE; SIGBUS;
   SIGTRAP; SIGXCPU; SIGXFSZ; SIGVTALRM; SIGPROF].
Definition user_signals : list SignalFlags := [SIGUSR1; SIGUSR2].

(** Addresses a handler or a program counter may have. *)
Definition code_addr (a : Z) : bool := (0x10000 <=? a) && (a <? 0x800000000000).

Section sigframe.
Context {S H : Type} (ops : INodeOps S H).
Notation M := (ST (Proc S H)).
(** User code up to the next trap, the dispatch of a system call, the errno
    numbers and the clock. *)
Context (run_user : M EscapeReason) (syscall : Z → list Z → K S H Z) (errno_raw : Errno → Z) (now : Proc S H → Z).

Definition cx_of (p : Proc S H) : TrapFrame := tcb_cx (p_tcb p).
Definition put_cx (c : TrapFrame) (p : Proc S H) : Proc S H := set_tcb (set_cx c (p_tcb p)) p.
Definition put_mask (m : SigProcMask) (p : Proc S H) : Proc S H := set_tcb (set_sigmask m (p_tcb p)) p.

Definition with_tms (v : TMS) (p : ProcessControlBlock H) : ProcessControlBlock H :=
  let '(mkPcb a b c d e f _ h i j k l m n o q r) := p in mkPcb a b c d e f v h i j k l m n o q r.
Definition add_utime (d : Z) (p : Proc S H) : Proc S H :=
  let t := pcb_tms (p_pcb p) in map_pcb (with_tms (mkTMS (tms_utime t +w d) (tms_stime t) (tms_cutime t) (tms_cstime t))) p.
Definition add_stime (d : Z) (p : Proc S H) : Proc S H :=
  let t := pcb_tms (p_pcb p) in map_pcb (with_tms (mkTMS (tms_utime t) (tms_stime t +w d) (tms_cutime t) (tms_cstime t))) p.

(** ** [handle_syscall] *)
Definition syscall_result (r : result Z) : Z := match r with Ok x => wrap x | Err e => wrap (- errno_raw e) end.

Definition handle_syscall : M UserTaskControlFlow := λ p,
  let ustart := now p in
  '(reason, p) ← run_user p;
  match reason with
  | SysCall =>
      let p := add_utime (now p -w ustart) p in
      let sstart := now p in
      let syscall_id := tf_get (cx_of p) SYSCALL in
      if syscall_id =? SYS_RT_SIGRETURN then Val (Break, p)
      else
        let p := put_cx (tf_set (cx_of p) SEPC (tf_get (cx_of p) SEPC +w 4)) p in
        '(r, p) ← syscall syscall_id (take 6 (drop 10 (tf_x (cx_of p)))) p;
        let p := put_cx (tf_set (cx_of p) RET (syscall_result r)) p in
        Val (Continue, add_stime (now p -w sstart) p)
  | _ => Val (Continue, p)
  end.

(** ** [handle_signal] *)
Definition executable (addr : Z) (area : MemArea H) : bool :=
  ma_contains area addr && bool_decide (ma_mtype area ∈ [Mmap; Stack; CodeSection]).
Definition in_code (addr : Z) (p : Proc S H) : bool := existsb (executable addr) (pcb_memset (p_pcb p)).

Definition holds_frame (sp : Z) (area : MemArea H) : bool :=
  ma_contains area sp && ma_contains area (sp +w SIG_CONTEXT_SIZE) && bool_decide (ma_mtype area ∈ [Stack; Mmap]).

Definition frame_sp (cx : TrapFrame) : Z := (tf_get cx SP -w 128 -w SIG_CONTEXT_SIZE) / 16 *w 16.

(** Where a handler can have its frame. *)
Definition frame_fits (p : Proc S H) : bool :=
  let current_sp := tf_get (cx_of p) SP in
  let sp := frame_sp (cx_of p) in
  negb ((current_sp <=? sp) || (65536 <? current_sp -w sp)) &&
  negb ((sp <? 0x1000) || (0x800000000000 <=? sp)) && existsb (holds_frame sp) (pcb_memset (p_pcb p)).

Definition translate (v : Z) : M (option (Z * Z)) := k_world (λ w, lift_phys (pt_translate (w_root w) v) w).

Definition default_action (signal : SignalFlags) : M unit :=
  if bool_decide (signal ∈ terminating ++ user_signals) then exit_with_signal ops (sf_num signal) else mret tt.

(** What stays on the kernel's stack while the handler runs. *)
Record SavedFrame := mkSaved { sv_sp : Z; sv_cx : TrapFrame; sv_mask : SigProcMask }.

(** Without a usable restorer: [None] to run the handler all the same. *)
Definition no_restorer (signal : SignalFlags) (action : SigAction) (p : Proc S H) : option (M unit) :=
  if sa_restorer action =? 0 then
    if bool_decide (signal ∈ user_signals) then None
    else if bool_decide (signal ∈ [SIGCHLD; SIGURG; SIGWINCH; SIGIO]) then Some (mret tt)
    else Some (exit_with_signal ops (sf_num signal))
  else if in_code (sa_restorer action) p || bool_decide (signal ∈ user_signals) then None
  else if bool_decide (signal ∈ terminating) then Some (exit_with_signal ops (sf_num signal))
  else Some (mret tt).

(** The frame is written and the context moved to the handler; [None] when the
    handler is not run after all. *)
Definition build_frame (signal : SignalFlags) (action : SigAction) : M (option SavedFrame) := λ p,
  let saved := mkSaved (frame_sp (cx_of p)) (cx_of p) (tcb_sigmask (p_tcb p)) in
  let sp := sv_sp saved in
  let p := put_mask (sa_mask action) p in
  if negb (frame_fits p) then Val (None, p)
  else
    '(mapped, p) ← translate sp p;
    if bool_decide (mapped = None) then Val (None, p)
    else
      '(_, p) ← user_store ops (words (tf_x (cx_of p))) (sp +w GREGS_AT) p;
      '(_, p) ← user_store ops (le_bytes 8 (tf_get (cx_of p) SEPC)) (sp +w GREGS_AT) p;
      '(_, p) ← user_store ops (le_bytes 8 (sm_mask (sa_mask action))) (sp +w SIG_MASK_AT) p;
      let original_pc := tf_get (cx_of p) SEPC in
      let p := put_cx (tf_set (tf_set (cx_of p) SP sp) SEPC (sa_handler action)) p in
      match no_restorer signal action p with
      | Some m => '(_, p) ← m p; Val (None, p)
      | None =>
          let ra := if sa_restorer action =? 0 then original_pc else sa_restorer action in
          let cx := tf_set (tf_set (tf_set (tf_set (cx_of p) RA ra) ARG0 (sf_num signal)) ARG1 0) ARG2 sp in
          Val (Some saved, put_cx cx p)
      end.

(** The part before the handler runs. *)
Definition signal_enter (signal : SignalFlags) : M (option SavedFrame) := λ p,
  '(_, p) ← (if bool_decide (signal = SIGKILL) then exit_with_signal ops (sf_num signal) p else Val (tt, p));
  action ← unwrap (pcb_sigaction (p_pcb p) !! Z.to_nat (sf_num signal));
  let leave_with (m : M unit) := '(_, p) ← m p; Val (None, p) in
  if sa_handler action =? 0 then leave_with (default_action signal)
  else if sa_handler action =? 1 then Val (None, p)
  else if negb (code_addr (sa_handler action)) then leave_with (exit_with_signal ops (sf_num signal))
  else if negb (in_code (sa_handler action) p) then leave_with (exit_with_signal ops (sf_num signal))
  else if bool_decide (signal ∈ [SIGTIMER; SIGCHLD]) then Val (None, p)
  else build_frame signal action p.

(** The handler runs until it returns through the restorer or the task ends;
    [fuel] bounds the number of traps. *)
Fixpoint handler_loop (fuel : nat) : M unit := λ p,
  match fuel with
  | O => Panic
  | Datatypes.S fuel =>
      match pcb_exit_code (p_pcb p) with
      | Some _ => Val (tt, p)
      | None =>
          '(flow, p) ← handle_syscall p;
          match flow with Break => Val (tt, p) | Continue => handler_loop fuel p end
      end
  end.

(** The part after it: the registers come from the frame unless its program
    counter makes no sense. *)
Definition signal_leave (f : SavedFrame) : M unit := λ p,
  let p := put_cx (sv_cx f) (put_mask (sv_mask f) p) in
  '(mapped, p) ← translate (sv_sp f) p;
  if bool_decide (mapped = None) then Val (tt, p)
  else
    '(pc, p) ← user_load ops 8 (sv_sp f +w GREGS_AT) p;
    let new_pc := le_value pc in
    if negb (code_addr new_pc) then Val (tt, p)
    else
      '(regs, p) ← user_load ops 256 (sv_sp f +w GREGS_AT) p;
      Val (tt, put_cx (mkTrapFrame (read_words 32 regs) new_pc) p).

Definition handle_signal (fuel : nat) (signal : SignalFlags) : M unit := λ p,
  '(r, p) ← signal_enter signal p;
  match r with
  | None => Val (tt, p)
  | Some f => '(_, p) ← handler_loop fuel p; signal_leave f p
  end.

(** ** [sys_sigreturn] *)
Definition sys_sigreturn : K S H Z := λ p,
  let sp := tf_get (cx_of p) SP in
  if (sp <? 0x1000) || (0x800000000000 <=? sp) then Val (Err EFAULT, p)
  else
    '(mapped, p) ← translate sp p;
    if bool_decide (mapped = None) then Val (Err EFAULT, p)
    else
      '(mask, p) ← user_load ops 8 (sp +w SIG_MASK_AT) p;
      let p := put_mask (mkSigProcMask (le_value mask)) p in
      '(regs, p) ← user_load ops 256 (sp +w GREGS_AT) p;
      let regs := read_words 32 regs in
      Val (Ok 0, put_cx (mkTrapFrame regs (regs !!! 0%nat)) p).

(** ** The frame and its pages *)
Lemma wmul_mod16 a : (a *w 16) mod 16 = 0.
Proof.
  unfold wmul, wrap. rewrite <- Znumtheory.Zmod_div_mod; [by apply Z.mod_mul|done|done|]. exists (2 ^ 60). reflexivity.
Qed.

Lemma put_mask_cx m p : cx_of (put_mask m p) = cx_of p.
Proof. unfold cx_of, put_mask. simpl. by destruct (p_tcb p). Qed.
Lemma put_cx_cx c p : cx_of (put_cx c p) = c.
Proof. unfold cx_of, put_cx. simpl. by destruct (p_tcb p). Qed.
Lemma put_cx_mask c p : tcb_sigmask (p_tcb (put_cx c p)) = tcb_sigmask (p_tcb p).
Proof. unfold put_cx. simpl. by destruct (p_tcb p). Qed.
Lemma put_mask_mask m p : tcb_sigmask (p_tcb (put_mask m p)) = m.
Proof. unfold put_mask. simpl. by destruct (p_tcb p). Qed.

Lemma run_ok_put T lo n fr (p p' : Proc S H) : p_world p' = p_world p → run_ok T lo n fr p → run_ok T lo n fr p'.
Proof. intros E [? ? ? ?]. split; rewrite ?E; done. Qed.

(** A mapped page translates. *)
Lemma translate_mapped T lo n fr (p : Proc S H) v :
  run_ok T lo n fr p → lo ≤ v < lo + n * PAGE_SIZE → ∃ r, translate v p = Val (Some r, p).
Proof.
  intros [Hw (Hlo & Hlo0 & Hhi) Hl _] Hv. destruct (run_page lo n v Hlo Hv) as (k & o & Hk & Ho & E & _ & Hs).
  destruct (Hl k Hk) as ((fl & Hfl & _ & Hlf) & Hf & _).
  assert (user_addr v ∧ user_addr (lo + k * PAGE_SIZE)) as [Hu Hu2] by (unfold user_addr, PAGE_SIZE in *; lia).
  unfold translate, k_world, lift_phys. rewrite (pt_translate_leaf _ T _ _ (wo_pt _ _ Hw) Hu).
  assert (leaf T (w_phys (p_world p)) v = pte_new_page (fr k) (pte_flags_of fl)) as El by (by rewrite (leaf_same_page _ _ _ (lo + k * PAGE_SIZE))).
  assert (is_Some (T !! path_of v)) as [t Ht].
  { pose proof (new_page_V (fr k) fl Hf Hfl) as HV. rewrite <- El in HV. unfold leaf in HV.
    destruct (T !! path_of v); [eauto|]. by vm_compute in HV. }
  rewrite Ht. cbn [mbind outcome_bind]. eexists. f_equal. f_equal. by destruct p as [[] ? ? ? ? ? ? ? ?].
Qed.

(** The three stores: the registers, the program counter over the first of
    them, and the mask below. *)
Lemma frame_stores T lo n fr (p : Proc S H) sp x0 xs pc mask :
  run_ok T lo n fr p → lo ≤ sp → sp + SIG_CONTEXT_SIZE ≤ lo + n * PAGE_SIZE → length xs = 31%nat →
  ∃ w1 w2 w3, user_store ops (words (x0 :: xs)) (sp + GREGS_AT) p = Val (tt, set_world w1 p) ∧
    user_store ops (le_bytes 8 pc) (sp + GREGS_AT) (set_world w1 p) = Val (tt, set_world w2 p) ∧
    user_store ops (le_bytes 8 mask) (sp + SIG_MASK_AT) (set_world w2 p) = Val (tt, set_world w3 p) ∧
    run_ok T lo n fr (set_world w3 p) ∧
    ∀ i, (i < 256)%nat → peek (set_world w3 p) (sp + GREGS_AT + Z.of_nat i) = words (pc :: xs) !! i.
Proof.
  unfold SIG_CONTEXT_SIZE, GREGS_AT, SIG_MASK_AT. intros Hr Hlo Hhi Hx.
  assert (length (words xs) = 248%nat) as Hw by (by rewrite length_words, Hx).
  destruct (run_store ops T lo n fr (words (x0 :: xs)) (sp + 176) p Hr) as (w1 & E1 & Hr1 & Hp1);
    [lia|rewrite words_cons, length_app, length_le_bytes; lia|].
  destruct (run_store ops T lo n fr (le_bytes 8 pc) (sp + 176) _ Hr1) as (w2 & E2 & Hr2 & Hp2); [lia|rewrite length_le_bytes; lia|].
  destruct (run_store ops T lo n fr (le_bytes 8 mask) (sp + 40) _ Hr2) as (w3 & E3 & Hr3 & Hp3); [lia|rewrite length_le_bytes; lia|].
  exists w1, w2, w3. split; [exact E1|]. split; [exact E2|]. split; [exact E3|]. split; [exact Hr3|]. intros i Hi.
  change (set_world w3 p) with (set_world w3 (set_world w2 (set_world w1 p))).
  rewrite Hp3 by lia. rewrite length_le_bytes, bool_decide_eq_false_2 by lia.
  change (set_world w2 (set_world w1 p)) with (set_world w2 (set_world w1 p)). rewrite Hp2 by lia. rewrite length_le_bytes, words_cons.
  case_bool_decide.
  - rewrite lookup_app_l by (rewrite length_le_bytes; lia). f_equal. lia.
  - rewrite Hp1 by lia. rewrite bool_decide_eq_true_2 by (rewrite words_cons, length_app, length_le_bytes; lia).
    rewrite words_cons, !lookup_app_r by (rewrite length_le_bytes; lia). rewrite !length_le_bytes. f_equal. lia.
Qed.

(** What a process must offer for its handler to be run: a handler and a
    restorer in its code, and a mapped stack with room for the frame. *)
Record handler_ready (signal : SignalFlags) (action : SigAction) (T : Tree) (lo n : Z) (fr : Z → Z) (p : Proc S H) : Prop := {
  hr_action : pcb_sigaction (p_pcb p) !! Z.to_nat (sf_num signal) = Some action;
  hr_handler : code_addr (sa_handler action) = true ∧ in_code (sa_handler action) p = true;
  hr_restorer : sa_restorer action ≠ 0 ∧ in_code (sa_restorer action) p = true;
  hr_signal : signal ∉ [SIGKILL; SIGTIMER; SIGCHLD];
  hr_fits : frame_fits p = true;
  hr_stack : run_ok T lo n fr p;
  hr_frame : lo ≤ frame_sp (cx_of p) ∧ frame_sp (cx_of p) + SIG_CONTEXT_SIZE ≤ lo + n * PAGE_SIZE;
  hr_regs : length (tf_x (cx_of p)) = 32%nat ∧ Forall word64 (tf_x (cx_of p)) ∧ code_addr (tf_sepc (cx_of p)) = true
}.

(** The state in which the handler starts. *)
Record handler_started (signal : SignalFlags) (action : SigAction) (p p1 : Proc S H) : Prop := {
  hs_pc : tf_get (cx_of p1) SEPC = sa_handler action;
  hs_sp : tf_get (cx_of p1) SP = frame_sp (cx_of p) ∧ frame_sp (cx_of p) mod 16 = 0;
  hs_ra : tf_get (cx_of p1) RA = sa_restorer action;
  hs_args : tf_get (cx_of p1) ARG0 = sf_num signal ∧ tf_get (cx_of p1) ARG2 = frame_sp (cx_of p);
  hs_mask : tcb_sigmask (p_tcb p1) = sa_mask action
}.

Lemma code_addr_small pc : code_addr pc = true → word64 pc.
Proof. unfold code_addr. rewrite andb_true_iff, Z.leb_le, Z.ltb_lt. word_lia. Qed.

Lemma build_frame_spec signal action T lo n fr p :
  handler_ready signal action T lo n fr p →
  ∃ p1 x0 xs, tf_x (cx_of p) = x0 :: xs ∧ length xs = 31%nat ∧
    build_frame signal action p = Val (Some (mkSaved (frame_sp (cx_of p)) (cx_of p) (tcb_sigmask (p_tcb p))), p1) ∧
    handler_started signal action p p1 ∧ run_ok T lo n fr p1 ∧
    ∀ i, (i < 256)%nat → peek p1 (frame_sp (cx_of p) + GREGS_AT + Z.of_nat i) = words (tf_sepc (cx_of p) :: xs) !! i.
Proof.
  intros [_ _ [Hr0 Hrc] _ Hfit Hr [Hlo Hhi] (Hlen & _ & _)]. pose proof Hr as [_ (_ & Hlo0 & Hb) _ _].
  set (sp := frame_sp (cx_of p)) in *. destruct (tf_x (cx_of p)) as [|x0 xs] eqn:Ex; [done|]. simpl in Hlen.
  set (p0 := put_mask (sa_mask action) p). assert (cx_of p0 = cx_of p) as Ecx by apply put_mask_cx.
  assert (run_ok T lo n fr p0) as Hr0' by (by apply (run_ok_put _ _ _ _ p)).
  destruct (translate_mapped T lo n fr p0 sp Hr0') as [r Et]; [unfold SIG_CONTEXT_SIZE in *; lia|].
  destruct (frame_stores T lo n fr p0 sp x0 xs (tf_sepc (cx_of p)) (sm_mask (sa_mask action)) Hr0')
    as (w1 & w2 & w3 & E1 & E2 & E3 & Hr3 & Hp3); [done|done|lia|].
  unfold build_frame. cbv zeta. cbn [sv_sp]. fold sp p0.
  assert (frame_fits p0 = true) as -> by (unfold frame_fits; rewrite Ecx; exact Hfit). cbn [negb].
  rewrite Et. cbn [mbind outcome_bind]. rewrite bool_decide_eq_false_2 by done.
  assert (∀ w, cx_of (set_world w p0) = cx_of p) as Ew by (intros w; exact Ecx).
  rewrite Ecx, Ex, !wadd_small by (unfold SIG_CONTEXT_SIZE, GREGS_AT, SIG_MASK_AT in *; word_lia).
  rewrite E1. cbn [mbind outcome_bind]. rewrite Ew. cbn [tf_get]. rewrite E2. cbn [mbind outcome_bind]. rewrite E3. cbn [mbind outcome_bind].
  rewrite Ew. unfold no_restorer. rewrite (proj2 (Z.eqb_neq _ _) Hr0).
  assert (∀ c, in_code (sa_restorer action) (put_cx c (set_world w3 p0)) = true) as Hin by (intros c; exact Hrc).
  rewrite Hin. cbn [orb]. eexists _, x0, xs. split; [done|]. split; [lia|]. split; [done|].
  split; [split|split; [by apply (run_ok_put _ _ _ _ (set_world w3 p0))|exact Hp3]]; rewrite ?put_cx_cx, ?put_cx_mask, ?put_cx_cx; cbn [tf_set tf_get tf_sepc tf_x reg_index]; rewrite ?Ex; try done.
  - split; [by destruct xs as [|? [|? ?]]|]. unfold sp, frame_sp. apply wmul_mod16.
  - by destruct xs as [|? [|? ?]].
  - do 12 (destruct xs as [|? xs]; [done|]). split; reflexivity.
  - unfold p0. simpl. unfold put_mask. simpl. by destruct (p_tcb p).
Qed.

Lemma signal_leave_spec T lo n fr (p : Proc S H) sp cx mask pc xs :
  run_ok T lo n fr p → lo ≤ sp → sp + SIG_CONTEXT_SIZE ≤ lo + n * PAGE_SIZE →
  length xs = 31%nat → Forall word64 xs → code_addr pc = true →
  (∀ i, (i < 256)%nat → peek p (sp + GREGS_AT + Z.of_nat i) = words (pc :: xs) !! i) →
  ∃ p', signal_leave (mkSaved sp cx mask) p = Val (tt, p') ∧ cx_of p' = mkTrapFrame (pc :: xs) pc ∧
    tcb_sigmask (p_tcb p') = mask ∧ p_pcb p' = p_pcb p ∧ p_world p' = p_world p.
Proof.
  intros Hr Hlo Hhi Hlen Hw Hpc Hp. pose proof Hr as [_ (_ & Hlo0 & Hb) _ _]. unfold SIG_CONTEXT_SIZE in Hhi.
  unfold signal_leave. cbn [sv_sp sv_cx sv_mask]. set (p0 := put_cx cx (put_mask mask p)).
  assert (run_ok T lo n fr p0) as Hr0 by (by apply (run_ok_put _ _ _ _ p)).
  destruct (translate_mapped T lo n fr p0 sp Hr0) as [r Et]; [lia|]. rewrite Et. cbn [mbind outcome_bind].
  rewrite bool_decide_eq_false_2 by done. rewrite wadd_small by (unfold GREGS_AT; word_lia).
  assert (length (words xs) = 248%nat) as Hlw by (by rewrite length_words, Hlen).
  pose proof (run_load ops T lo n fr (le_bytes 8 pc) (sp + GREGS_AT) p0 Hr0) as L1. rewrite length_le_bytes in L1.
  rewrite L1; [|unfold GREGS_AT; lia..|].
  2: { intros j Hj. change (peek p0) with (peek p). rewrite Hp, words_cons by lia. apply lookup_app_l. rewrite length_le_bytes. lia. }
  cbn [mbind outcome_bind]. rewrite le_value_bytes, Z.mod_small by (by apply code_addr_small). rewrite Hpc. cbn [negb].
  pose proof (run_load ops T lo n fr (words (pc :: xs)) (sp + GREGS_AT) p0 Hr0) as L2.
  assert (length (words (pc :: xs)) = 256%nat) as Hl2 by (by rewrite length_words; simpl; rewrite Hlen). rewrite Hl2 in L2.
  rewrite L2; [|unfold GREGS_AT; lia..|exact Hp]. cbn [mbind outcome_bind].
  eexists. split; [done|]. split.
  - rewrite put_cx_cx. f_equal. replace 32%nat with (length (pc :: xs)) by (simpl; lia). apply read_words_words. constructor; [|done].
    by apply code_addr_small.
  - split; [|done]. rewrite put_cx_mask. unfold p0. rewrite put_cx_mask. apply put_mask_mask.
Qed.

Lemma signal_enter_handler signal action p :
  pcb_sigaction (p_pcb p) !! Z.to_nat (sf_num signal) = Some action →
  code_addr (sa_handler action) = true → in_code (sa_handler action) p = true →
  signal ∉ [SIGKILL; SIGTIMER; SIGCHLD] → signal_enter signal p = build_frame signal action p.
Proof.
  intros Ha Hh1 Hh2 [Hk Hs]%not_elem_of_cons. unfold signal_enter. rewrite (bool_decide_eq_false_2 (signal = SIGKILL)) by done. cbn [mbind outcome_bind].
  rewrite Ha. cbn [unwrap mbind outcome_bind]. rewrite Hh1, Hh2. cbn [negb].
  pose proof Hh1 as Hc. unfold code_addr in Hc. rewrite andb_true_iff, Z.leb_le, Z.ltb_lt in Hc.
  rewrite (proj2 (Z.eqb_neq _ _)), (proj2 (Z.eqb_neq _ _)) by lia. by rewrite bool_decide_eq_false_2 by done.
Qed.

(** C18: a handler that returns is invisible.  When a signal has a handler and a
    restorer in the program's code and the stack has room, [handle_signal]
    starts the handler on a 16-byte aligned frame with the signal's number and
    the frame's address as arguments, the restorer as return address and the
    action's mask; and when the handler comes back through the restorer with
    the saved registers of its frame untouched, whatever else it did, the
    thread goes on at the interrupted instruction with every register and the
    mask it had. *)
Theorem signal_handler_roundtrip signal action T lo n fr p :
  handler_ready signal action T lo n fr p →
  ∃ f p1, signal_enter signal p = Val (Some f, p1) ∧ handler_started signal action p p1 ∧ run_ok T lo n fr p1 ∧
    ∀ fuel p2 T2 fr2, handler_loop fuel p1 = Val (tt, p2) → run_ok T2 lo n fr2 p2 →
      (∀ u, sv_sp f + GREGS_AT ≤ u < sv_sp f + GREGS_AT + 256 → peek p2 u = peek p1 u) →
      ∃ p3, handle_signal fuel signal p = Val (tt, p3) ∧ tf_sepc (cx_of p3) = tf_sepc (cx_of p) ∧
        (∀ i, (0 < i)%nat → tf_x (cx_of p3) !! i = tf_x (cx_of p) !! i) ∧
        tcb_sigmask (p_tcb p3) = tcb_sigmask (p_tcb p) ∧ p_pcb p3 = p_pcb p2 ∧ p_world p3 = p_world p2.
Proof.
  intros Hready. pose proof Hready as [Ha [Hh1 Hh2] _ Hs _ _ _ _]. pose proof (signal_enter_handler _ _ _ Ha Hh1 Hh2 Hs) as Ee.
  destruct (build_frame_spec _ _ _ _ _ _ _ Hready) as (p1 & x0 & xs & Ex & Hlen & Eb & Hst & Hr1 & Hpk).
  pose proof Hready as [_ _ _ _ _ _ [Hlo Hhi] (_ & Hw & Hpc)]. rewrite Ex in Hw. apply Forall_cons in Hw as [_ Hw].
  eexists _, p1. rewrite Ee. split; [exact Eb|]. split; [exact Hst|]. split; [exact Hr1|]. intros fuel p2 T2 fr2 El Hr2 Hsame. cbn [sv_sp] in Hsame.
  destruct (signal_leave_spec T2 lo n fr2 p2 (frame_sp (cx_of p)) (cx_of p) (tcb_sigmask (p_tcb p)) (tf_sepc (cx_of p)) xs)
    as (p3 & E3 & Hcx & Hm & Hrest); [done..| |].
  { intros i Hi. rewrite Hsame, Hpk by lia. done. }
  exists p3. unfold handle_signal. rewrite Ee, Eb. cbn [mbind outcome_bind]. rewrite El. cbn [mbind outcome_bind].
  split; [exact E3|]. rewrite Hcx, Ex. split; [done|]. split; [|done]. by intros [|i] Hi; [lia|].
Qed.

(** A handler whose frame does not fit costs the thread its signal mask:
    [handle_signal] replaces the mask before it looks for room on the stack,
    gives the handler up without putting the mask back, and the thread goes on
    where it was with the action's mask. *)
Theorem frame_refused_loses_mask fuel signal action p :
  pcb_sigaction (p_pcb p) !! Z.to_nat (sf_num signal) = Some action →
  code_addr (sa_handler action) = true → in_code (sa_handler action) p = true →
  signal ∉ [SIGKILL; SIGTIMER; SIGCHLD] → frame_fits p = false →
  ∃ p', handle_signal fuel signal p = Val (tt, p') ∧ tcb_sigmask (p_tcb p') = sa_mask action ∧ cx_of p' = cx_of p ∧ p_pcb p' = p_pcb p.
Proof.
  intros Ha Hh1 Hh2 Hs Hf. exists (put_mask (sa_mask action) p). rewrite put_mask_mask, put_mask_cx. split; [|done].
  unfold handle_signal. rewrite (signal_enter_handler _ action) by done.
  unfold build_frame. assert (frame_fits (put_mask (sa_mask action) p) = false) as ->; [|done].
  unfold frame_fits. rewrite put_mask_cx. exact Hf.
Qed.
End sigframe.

#[local] Opaque one_world.

(** ** A concrete handler: the page at 0x10000 holds code and stack *)
Definition usr1_action : SigAction := mkSigAction 0x10f00 0 0x10f80 (mkSigProcMask 4).
Definition sig_cx : TrapFrame := tf_set (tf_set (mkTrapFrame (Z.of_nat <$> seq 0 32) 0) SP 0x10800) SEPC 0x10e00.
Definition sig_proc (sp : Z) : Proc unit unit :=
  let b := p_pcb one_proc in
  let actions := <[10%nat := usr1_action]> (replicate 65 sig_action_new) in
  let b := mkPcb (pcb_memset b) (pcb_fd_table b) (pcb_curr_dir b) (pcb_heap b) (pcb_entry b) (pcb_children b) (pcb_tms b) (pcb_rlimits b)
             actions (pcb_futex_table b) (pcb_shms b) (pcb_timer b) (pcb_threads b) None (pcb_exit_signal b) (pcb_core_dumped b) (pcb_umask b) in
  set_pcb b (set_tcb (set_cx (tf_set sig_cx SP sp) (p_tcb one_proc)) one_proc).

(** User code that overwrites every register and calls [rt_sigreturn]. *)
Definition clobbered : TrapFrame := mkTrapFrame (replicate 32 SYS_RT_SIGRETURN) 0.
Definition return_now : ST (Proc unit unit) EscapeReason := λ p, Val (SysCall, put_cx clobbered p).

Lemma sig_ready : ∃ T, handler_ready SIGUSR1 usr1_action T 0x10000 1 (λ _, 0x80001000) (sig_proc 0x10800).
Proof.
  destruct one_world_ok as (T & Hw & Hl & Hrc). pose proof one_pages as Hp. exists T. split.
  - reflexivity.
  - split; reflexivity.
  - split; [discriminate|reflexivity].
  - clear. intros Hin. rewrite !elem_of_cons, elem_of_nil in Hin. destruct Hin as [Hin|[Hin|[Hin|[]]]]; by vm_compute in Hin.
  - reflexivity.
  - split; [exact Hw|by split_and!| |intros; lia].
    intros k Hk. assert (k = 0) as -> by lia. split_and!.
    + exists MF_URWX. split; [done|]. split; [done|exact Hl].
    + split; [lia|done].
    + change (p_world (sig_proc 0x10800)) with one_world. unfold strong_count. rewrite Hrc. clear. simpl. lia.
    + change (p_world (sig_proc 0x10800)) with one_world. exists zero_page. split; [exact Hp|]. apply length_replicate.
  - clear. split; [by vm_compute|by vm_compute].
  - clear. split; [reflexivity|]. split; [|reflexivity].
    assert (tf_x (cx_of (sig_proc 0x10800)) = <[2%nat := 0x10800]> (Z.of_nat <$> seq 0 32)) as -> by reflexivity.
    cbn [seq fmap list_fmap insert list_insert]. repeat (constructor; [word_lia|]). constructor.
Qed.

Lemma signal_handler_roundtrip_witness :
  ∃ p3, handle_signal any_ops return_now (λ _ _ p, Val (Ok 0, p)) (λ _, 1) (λ _, 0) 1 SIGUSR1 (sig_proc 0x10800) = Val (tt, p3) ∧
    tf_sepc (cx_of p3) = 0x10e00 ∧ tf_x (cx_of p3) !! 5%nat = Some 5.
Proof.
  destruct sig_ready as [T HT].
  destruct (signal_handler_roundtrip any_ops return_now (λ _ _ p, Val (Ok 0, p)) (λ _, 1) (λ _, 0) SIGUSR1 usr1_action T 0x10000 1 (λ _, 0x80001000) (sig_proc 0x10800) HT)
    as (f & p1 & E & _ & Hr1 & Hret).
  destruct (Hret 1%nat (add_utime 0 (put_cx clobbered p1)) T (λ _, 0x80001000)) as (p3 & E3 & H1 & H2 & _).
  - assert (pcb_exit_code (p_pcb p1) = None) as Hx.
    { assert (match signal_enter any_ops SIGUSR1 (sig_proc 0x10800) with Val (_, q) => pcb_exit_code (p_pcb q) | Panic => None end = None) as Hc
        by (clear; vm_compute; reflexivity). by rewrite E in Hc. }
    cbn [handler_loop]. rewrite Hx. unfold handle_syscall, return_now. cbn [mbind outcome_bind]. cbv zeta.
    assert (∀ q : Proc unit unit, cx_of (add_utime (0 -w 0) q) = cx_of q) as Hu by done. rewrite Hu, put_cx_cx. reflexivity.
  - apply (run_ok_put _ _ _ _ p1); [done|exact Hr1].
  - done.
  - exists p3. split; [exact E3|]. split; [exact H1|]. rewrite H2 by lia. reflexivity.
Defined.

Lemma frame_refused_loses_mask_witness :
  ∃ p', handle_signal any_ops return_now (λ _ _ p, Val (Ok 0, p)) (λ _, 1) (λ _, 0) 1 SIGUSR1 (sig_proc 0x10100) = Val (tt, p') ∧
    tcb_sigmask (p_tcb p') = mkSigProcMask 4 ∧ tcb_sigmask (p_tcb (sig_proc 0x10100)) ≠ mkSigProcMask 4.
Proof.
  destruct (frame_refused_loses_mask any_ops return_now (λ _ _ p, Val (Ok 0, p)) (λ _, 1) (λ _, 0) 1 SIGUSR1 usr1_action (sig_proc 0x10100))
    as (p' & E & Hm & _); try (vm_compute; reflexivity).
  - intros Hin. rewrite !elem_of_cons, elem_of_nil in Hin. destruct Hin as [Hin|[Hin|[Hin|[]]]]; by vm_compute in Hin.
  - exists p'. split; [exact E|]. split; [exact Hm|discriminate].
Defined.
