(* ===== verification/Entry.v ===== *)
(** * The loop of a task ([kernel/src/user/entry.rs])

    [entry_point] as the executor sees it: a future that is polled, runs user
    code and system calls until it yields, and is done when the task has
    ended.  The components meet here: the interval timer ([Time]), the pending
    signals ([Signal]), their actions ([SigFrame]) and the end of a process
    ([Process]).  User code and the futures of the system calls are parameters;
    the calls a signal handler makes do not wait. *)

From S2P Require Import Prelude Bytes Frame PageTable Signal Path Vfs File Time Futex MemSet Process Mm Fork UserMem SigFrame.
Local Open Scope Z_scope.

(** What a poll of the task's future gives. *)
Inductive Turn (A : Type) := Done | Pending (a : A).
Arguments Done {A}.
Arguments Pending {A} a.

Section entry.
Context {S H : Type} (ops : INodeOps S H).
Notation M := (ST (Proc S H)).
Context (run_user : M EscapeReason) (errno_raw : Errno → Z) (now ns : Proc S H → Z).
(** The future of a system call, and how a call of a handler runs. *)
Context {Fut : Type} (call : Z → list Z → Fut) (poll_call : Fut → M (result Z + Fut)).
Context (syscall : Z → list Z → K S H Z).

(** ** [handle_syscall] as a future *)
Inductive Handling := Fresh | InCall (sstart : Z) (f : Fut).

Definition poll_in_call (sstart : Z) (f : Fut) : M (UserTaskControlFlow + Handling) := λ p,
  '(r, p) ← poll_call f p;
  match r with
  | inl r =>
      let p := put_cx (tf_set (cx_of p) RET (syscall_result errno_raw r)) p in
      Val (inl Continue, add_stime (now p -w sstart) p)
  | inr f => Val (inr (InCall sstart f), p)
  end.

Definition poll_handle_syscall (h : Handling) : M (UserTaskControlFlow + Handling) := λ p,
  match h with
  | Fresh =>
      let ustart := now p in
      '(reason, p) ← run_user p;
      match reason with
      | SysCall =>
          let p := add_utime (now p -w ustart) p in
          let sstart := now p in
          let syscall_id := tf_get (cx_of p) SYSCALL in
          if syscall_id =? SYS_RT_SIGRETURN then Val (inl Break, p)
          else
            let p := put_cx (tf_set (cx_of p) SEPC (tf_get (cx_of p) SEPC +w 4)) p in
            poll_in_call sstart (call syscall_id (take 6 (drop 10 (tf_x (cx_of p))))) p
      | _ => Val (inl Continue, p)
      end
  | InCall sstart f => poll_in_call sstart f p
  end.

(** ** [check_timer] and [check_signal] of a task *)
Definition with_timer (v : list ProcessTimer) (p : ProcessControlBlock H) : ProcessControlBlock H :=
  let '(mkPcb a b c d e f g h i j k _ m n o q r) := p in mkPcb a b c d e f g h i j k v m n o q r.

Definition task_check_timer : M unit := λ p,
  timer ← unwrap (pcb_timer (p_pcb p) !! 0%nat);
  let '(timer, t) := check_timer (ns p) timer (p_tcb p) in
  Val (tt, map_pcb (with_timer (<[0%nat := timer]> (pcb_timer (p_pcb p)))) (set_tcb t p)).

(** [fuel] bounds the signals handled, [traps] those of one handler. *)
Fixpoint task_check_signal (traps fuel : nat) : M unit := λ p,
  match fuel with
  | O => Panic
  | Datatypes.S fuel =>
      match try_get_signal (signal_list_mask (tcb_signal (p_tcb p)) (tcb_sigmask (p_tcb p))) with
      | Some signal =>
          '(_, p) ← handle_signal ops run_user syscall errno_raw now traps signal p;
          t ← after_handle signal (p_tcb p);
          task_check_signal traps fuel (set_tcb t p)
      | None => Val (tt, p)
      end
  end.

(** ** [entry_point] *)
Definition ended (p : Proc S H) : bool := bool_decide (is_Some (check_thread_exit p)).

(** Where the loop is between two polls: at its top, or inside
    [future::or] with the call it waits for. *)
Inductive EntryAt := Top (times : Z) | InOr (times : Z) (h : Handling).

(** The other arm of [future::or], up to its [yield_now]. *)
Definition watch (traps fuel : nat) (e : EntryAt) : M (Turn EntryAt) := λ p,
  '(_, p) ← task_check_signal traps fuel p;
  if ended p then Val (Done, p) else '(_, p) ← task_check_timer p; Val (Pending e, p).

(** One poll: rounds of the loop until it yields; [fuel] bounds them. *)
Fixpoint entry_point (traps fuel : nat) (e : EntryAt) : M (Turn EntryAt) := λ p,
  match fuel with
  | O => Panic
  | Datatypes.S rest =>
      match e with
      | Top times =>
          '(_, p) ← task_check_timer p;
          '(_, p) ← task_check_signal traps fuel p;
          if ended p then Val (Done, p) else entry_point traps rest (InOr times Fresh) p
      | InOr times h =>
          '(res, p) ← poll_handle_syscall h p;
          match res with
          | inr h => watch traps fuel (InOr times h) p
          | inl Break => Val (Done, p)
          | inl Continue =>
              if ended p then Val (Done, p)
              else if 50 <=? times + 1 then Val (Pending (Top 0), p)
              else entry_point traps rest (Top (times + 1)) p
          end
      end
  end.

(** A call that is ready at once runs as [handle_syscall] has it. *)
Lemma poll_handle_syscall_ready p :
  (∀ id args p, poll_call (call id args) p = ('(r, p) ← syscall id args p; Val (inl r, p))) →
  poll_handle_syscall Fresh p = ('(flow, p) ← handle_syscall run_user syscall errno_raw now p; Val (inl flow, p)).
Proof.
  intros Hr. unfold poll_handle_syscall, handle_syscall. destruct (run_user p) as [[[] p1]|]; try done.
  cbn [mbind outcome_bind]. case_match; [done|]. unfold poll_in_call. rewrite Hr. by destruct (syscall _ _ _) as [[r p2]|].
Qed.

(** ** Signals that end the process *)
(** Every signal has its default action. *)
Definition default_actions (p : Proc S H) : Prop :=
  length (pcb_sigaction (p_pcb p)) = 65%nat ∧ Forall (λ a, sa_handler a = 0) (pcb_sigaction (p_pcb p)).

Definition fatal (s : SignalFlags) : bool := bool_decide (s ∈ SIGKILL :: terminating ++ user_signals).

(** The main thread of a process, the only one left, with default actions and
    anonymous memory; the word it asked to be cleared can be reached. *)
Record lone (T : Tree) (p : Proc S H) : Prop := {
  ln_tid : tid_word_ok T p;
  ln_main : p_tid p = p_pid p ∧ other_threads p = [];
  ln_mem : mem_ok T p;
  ln_default : default_actions p;
  ln_wf : tcb_sig_wf (p_tcb p)
}.

Definition notice (t : ThreadControlBlock) : SignalFlags :=
  if tcb_exit_signal t =? 0 then SIGCHLD else from_num (tcb_exit_signal t).

(** The process after the fatal signals [l] were handled. *)
Record killed_by (l : list SignalFlags) (p p' : Proc S H) : Prop := {
  kb_code : pcb_exit_code (p_pcb p') = Some 0;
  kb_signal : pcb_exit_signal (p_pcb p') = sf_num <$> last l;
  kb_gone : pcb_memset (p_pcb p') = [] ∧ pcb_fd_table (p_pcb p') = [] ∧ pcb_children (p_pcb p') = [] ∧ pcb_threads (p_pcb p') = [];
  kb_parent : p_parent p' = Nat.iter (length l) (tcb_add_signal (notice (p_tcb p))) <$> p_parent p
}.
Definition after_signals (l : list SignalFlags) (p p' : Proc S H) : Prop :=
  match l with [] => p_pcb p' = p_pcb p ∧ p_parent p' = p_parent p | _ => killed_by l p p' end.

Lemma sf_num_action p i :
  default_actions p → (i < 64)%nat →
  ∃ a, pcb_sigaction (p_pcb p) !! Z.to_nat (sf_num (bit (Z.of_nat i))) = Some a ∧ sa_handler a = 0.
Proof.
  intros [Hl Ha] Hi. rewrite sf_num_bit by done.
  destruct (lookup_lt_is_Some_2 (pcb_sigaction (p_pcb p)) (Z.to_nat (Z.of_nat i + 1))) as [a E]; [lia|].
  exists a. split; [exact E|]. exact (Forall_lookup_1 _ _ _ _ Ha E).
Qed.

Lemma exit_with_signal_lone T p s :
  lone T p →
  ∃ p', exit_with_signal ops s p = Val (tt, p') ∧ lone T p' ∧ p_tcb p' = p_tcb p ∧
    pcb_exit_code (p_pcb p') = Some 0 ∧ pcb_exit_signal (p_pcb p') = Some s ∧
    (pcb_memset (p_pcb p') = [] ∧ pcb_fd_table (p_pcb p') = [] ∧ pcb_children (p_pcb p') = [] ∧ pcb_threads (p_pcb p') = []) ∧
    p_parent p' = tcb_add_signal (notice (p_tcb p)) <$> p_parent p.
Proof.
  intros [Hc [Hm Ho] Hmem Hd Hw]. unfold exit_with_signal.
  set (q := map_pcb _ p).
  assert (tid_word_ok T q) as Hcq by (by apply (tid_word_same T p)).
  assert (other_threads q = [] ∧ mem_ok T q ∧ pcb_exit_signal (p_pcb q) = Some s ∧ pcb_sigaction (p_pcb q) = pcb_sigaction (p_pcb p))
    as (Hoq & Hmq & Hsq & Haq).
  { destruct p as [? ? ? []]. split_and!; try done. by destruct Hmem; split. }
  destruct (exit_last_spec ops T q 0 Hcq Hm Hoq Hmq)
    as (p' & E & Hms & Hfd & Hch & Hx & Hth & Hp & (Hs & _ & Hpid & (Et & Ei & Ea) & Hwo) & [Hcp _] & _).
  exists p'. split; [exact E|]. split.
  - split.
    + exact Hcp.
    + split; [by rewrite Ei, Hpid|]. unfold other_threads. by rewrite Hth.
    + split; [by rewrite Hms|exact Hwo|]. rewrite Hms. intros x. unfold refs. simpl. lia.
    + unfold default_actions. rewrite Ea, Haq. exact Hd.
    + rewrite Et. exact Hw.
  - split; [exact Et|]. split; [exact Hx|]. split; [by rewrite Hs|]. by split.
Qed.

Lemma handle_signal_default T traps p i :
  lone T p → (i < 64)%nat →
  let s := bit (Z.of_nat i) in
  ∃ p', handle_signal ops run_user syscall errno_raw now traps s p = Val (tt, p') ∧ lone T p' ∧ p_tcb p' = p_tcb p ∧
    after_signals (List.filter fatal [s]) p p'.
Proof.
  intros Hl Hi s. unfold handle_signal, signal_enter, default_action. simpl List.filter.
  assert (killed_once : ∀ p', pcb_exit_code (p_pcb p') = Some 0 → pcb_exit_signal (p_pcb p') = Some (sf_num s) →
    pcb_memset (p_pcb p') = [] ∧ pcb_fd_table (p_pcb p') = [] ∧ pcb_children (p_pcb p') = [] ∧ pcb_threads (p_pcb p') = [] →
    p_parent p' = tcb_add_signal (notice (p_tcb p)) <$> p_parent p → killed_by [s] p p') by (by intros; split).
  destruct (exit_with_signal_lone T p (sf_num s) Hl) as (p1 & E1 & Hl1 & Et & Hx & Hs & Hg & Hp).
  unfold fatal. destruct (decide (s = SIGKILL)) as [Ek|Nk].
  - rewrite (bool_decide_eq_true_2 (s = SIGKILL)) by done. rewrite E1. cbn [mbind outcome_bind].
    destruct (sf_num_action p1 i (ln_default _ _ Hl1) Hi) as (a & Ea & Ha). fold s in Ea. rewrite Ea. cbn [unwrap mbind outcome_bind]. rewrite Ha.
    assert (bool_decide (s ∈ terminating ++ user_signals) = false) as -> by (by rewrite Ek).
    assert (bool_decide (s ∈ SIGKILL :: terminating ++ user_signals) = true) as -> by (by rewrite Ek).
    exists p1. split; [done|]. split; [done|]. split; [done|]. by apply killed_once.
  - rewrite (bool_decide_eq_false_2 (s = SIGKILL)) by done. cbn [mbind outcome_bind].
    destruct (sf_num_action p i (ln_default _ _ Hl) Hi) as (a & Ea & Ha). fold s in Ea. rewrite Ea. cbn [unwrap mbind outcome_bind]. rewrite Ha.
    cbn [Z.eqb]. case_bool_decide as Hf.
    + rewrite (bool_decide_eq_true_2 (s ∈ SIGKILL :: _)) by (apply elem_of_cons; by right). rewrite E1. cbn [mbind outcome_bind].
      exists p1. split; [done|]. split; [done|]. split; [done|]. by apply killed_once.
    + rewrite (bool_decide_eq_false_2 (s ∈ SIGKILL :: _)) by (rewrite elem_of_cons; tauto). by exists p.
Qed.

Lemma after_signals_app l1 l2 p p1 p2 :
  after_signals l1 p p1 → after_signals l2 p1 p2 → tcb_exit_signal (p_tcb p1) = tcb_exit_signal (p_tcb p) →
  after_signals (l1 ++ l2) p p2.
Proof.
  destruct l1 as [|s1 l1], l2 as [|s2 l2]; cbn [after_signals app].
  - intros [-> ->] [-> ->] _. done.
  - intros [Eb Ep] [? ? ? Hp] Ex. split; try done. unfold notice in *. by rewrite <- Ex, <- Ep.
  - intros [? ? ? ?] [Eb Ep] _. rewrite app_nil_r. split; by rewrite ?Eb, ?Ep.
  - intros [_ _ _ Hp1] [? Hs ? Hp] Ex. split; [done| |done|].
    + rewrite app_comm_cons, last_app, Hs. by destruct (last (s2 :: l2)) eqn:E; [|apply last_None in E].
    + rewrite Hp, Hp1. unfold notice in *. rewrite Ex, <- option_fmap_compose. apply option_fmap_ext. intros t. simpl.
      rewrite length_app, Nat.add_comm. simpl. rewrite <- !Nat.iter_succ_r. simpl. rewrite <- Nat.iter_add. done.
Qed.

(** The bookkeeping after a signal touches nothing but the signals. *)
Lemma after_handle_rest s t t' :
  after_handle s t = Val t' →
  tcb_cx t' = tcb_cx t ∧ tcb_clear_child_tid t' = tcb_clear_child_tid t ∧ tcb_exit_signal t' = tcb_exit_signal t.
Proof.
  unfold after_handle. destruct (real_time_index s) as [i|]; [|intros [= <-]; by destruct t].
  destruct (unwrap _) as [v|]; [|done]. cbn [mbind outcome_bind]. destruct (0 <? v); [|intros [= <-]; by destruct t].
  destruct (queue_update _ _ _) as [q|]; [|done]. intros [= <-]. by destruct t.
Qed.

Lemma lone_set_tcb T p t :
  lone T p → tcb_clear_child_tid t = tcb_clear_child_tid (p_tcb p) → tcb_sig_wf t → lone T (set_tcb t p).
Proof. intros [Hc Hm [? ? ?] Hd _] E Hw. split; [by apply (tid_word_same T p)|done|by split|done|done]. Qed.

(** [check_signal] with default actions: the pending signals are handled in
    ascending order, and the fatal ones among them end the process. *)
Lemma task_check_signal_default T traps fuel : ∀ p,
  lone T p → (length (deliveries (p_tcb p)) < fuel)%nat →
  ∃ p', task_check_signal traps fuel p = Val (tt, p') ∧ cx_of p' = cx_of p ∧
    tcb_exit_signal (p_tcb p') = tcb_exit_signal (p_tcb p) ∧
    after_signals (List.filter fatal (deliveries (p_tcb p))) p p'.
Proof.
  induction fuel as [|fuel IH]; intros p Hl Hfuel; [lia|]. cbn [task_check_signal].
  pose proof (try_get_signal_masked (p_tcb p)) as Htry. destruct (try_get_signal _) as [s|].
  2: { exists p. split; [done|]. split; [done|]. split; [done|]. by rewrite deliveries_nil. }
  destruct Htry as (i & Hi & -> & Hdi & Hmin).
  destruct (handle_signal_default T traps p i Hl Hi) as (p1 & E1 & Hl1 & Et & Ha). rewrite E1. cbn [mbind outcome_bind].
  rewrite Et. destruct (after_handle_delivers i (p_tcb p) (ln_wf _ _ Hl) Hi Hdi) as (t & Eh & Hd). rewrite Eh. cbn [mbind outcome_bind].
  pose proof (after_handle_rest _ _ _ Eh) as (Ecx & Ec & Ex).
  pose proof (deliveries_step i _ _ Hi Hmin Hd) as ED. rewrite ED in Hfuel |- *. simpl in Hfuel.
  destruct (IH (set_tcb t p1)) as (p' & E' & Hcx & Hx & Ha'); [|simpl; lia|].
  { apply lone_set_tcb; [done|by rewrite Et|apply (dl_wf _ _ _ Hd)]. }
  exists p'. split; [exact E'|]. split; [rewrite Hcx; exact Ecx|]. split; [rewrite Hx; exact Ex|].
  change (bit (Z.of_nat i) :: deliveries t) with ([bit (Z.of_nat i)] ++ deliveries t). rewrite List.filter_app.
  eapply (after_signals_app _ _ p (set_tcb t p1)); [|exact Ha'|exact Ex].
  destruct (List.filter fatal [_]); [exact Ha|]. by destruct Ha; split.
Qed.

Lemma task_check_signal_fatal T traps fuel p :
  lone T p → existsb fatal (deliveries (p_tcb p)) = true → (length (deliveries (p_tcb p)) < fuel)%nat →
  ∃ p', task_check_signal traps fuel p = Val (tt, p') ∧ ended p' = true ∧ cx_of p' = cx_of p ∧
    killed_by (List.filter fatal (deliveries (p_tcb p))) p p'.
Proof.
  intros Hl Hf Hfuel. destruct (task_check_signal_default T traps fuel p Hl Hfuel) as (p' & E & Hcx & _ & Ha).
  exists p'. split; [exact E|]. apply existsb_exists in Hf as (s & Hin & Hs).
  assert (In s (List.filter fatal (deliveries (p_tcb p)))) as Hin' by (by apply filter_In).
  destruct (List.filter _ _) as [|s0 l]; [done|]. cbn [after_signals] in Ha. split; [|by split].
  unfold ended, check_thread_exit. rewrite (kb_code _ _ _ Ha). by apply bool_decide_eq_true_2.
Qed.

(** C19: a fatal signal ends a task, and user code does not run again: when the
    main thread of a process, the only one left, with default actions and
    anonymous memory has unmasked signals pending of which at least one is fatal, then the next poll of its loop leaves the
    loop, both at the top of the loop (after the timer was checked) and while
    the task is blocked in a system call; the registers are as they were, the
    areas, descriptors, children and threads are given up, and the parent gets
    its signal once for every fatal one.  The status is that of the last fatal
    signal in ascending order, because the loop keeps handling signals of a
    process that has already ended. *)
Theorem fatal_signal_ends_task T traps fuel times p p1 :
  lone T p1 → existsb fatal (deliveries (p_tcb p1)) = true → (length (deliveries (p_tcb p1)) < fuel)%nat →
  let fatals := List.filter fatal (deliveries (p_tcb p1)) in
  (task_check_timer p = Val (tt, p1) →
   ∃ p', entry_point traps fuel (Top times) p = Val (Done, p') ∧ cx_of p' = cx_of p1 ∧ killed_by fatals p1 p') ∧
  (∀ sstart f f', poll_call f p = Val (inr f', p1) →
   ∃ p', entry_point traps fuel (InOr times (InCall sstart f)) p = Val (Done, p') ∧ cx_of p' = cx_of p1 ∧ killed_by fatals p1 p').
Proof.
  intros Hl Hf Hfuel fatals. destruct (task_check_signal_fatal T traps fuel p1 Hl Hf Hfuel) as (p' & E & He & Hcx & Hk).
  destruct fuel as [|fuel]; [lia|]. split.
  - intros Et. exists p'. split; [|done]. cbn [entry_point]. rewrite Et. cbn [mbind outcome_bind]. rewrite E. cbn [mbind outcome_bind]. by rewrite He.
  - intros sstart f f' Ec. exists p'. split; [|done]. cbn [entry_point poll_handle_syscall]. unfold poll_in_call. rewrite Ec. cbn [mbind outcome_bind].
    unfold watch. rewrite E. cbn [mbind outcome_bind]. by rewrite He.
Qed.

(** ** A poll comes back *)
Section yields.
(** Against an invariant that the timer, the signals and the traps keep. *)
Context (Inv : Proc S H → Prop) (traps bound : nat).
Context (timer_ok : ∀ p, Inv p → ∃ p', task_check_timer p = Val (tt, p') ∧ Inv p').
Context (signals_ok : ∀ p n, Inv p → (bound < n)%nat → ∃ p', task_check_signal traps n p = Val (tt, p') ∧ Inv p').
Context (trap_ok : ∀ h p, Inv p → ∃ r p', poll_handle_syscall h p = Val (r, p') ∧ Inv p').

(** A poll of a task returns to the executor after at most fifty traps,
    whatever user code does. *)
Theorem entry_point_yields k : ∀ times fuel h p,
  Inv p → 50 - times ≤ Z.of_nat k → (bound + 2 * k < fuel)%nat → (0 < k)%nat →
  ∃ t p', entry_point traps fuel (InOr times h) p = Val (t, p') ∧ Inv p'.
Proof.
  induction k as [|k IH]; intros times fuel h p Hp Ht Hf Hk; [lia|]. destruct fuel as [|fuel]; [lia|]. cbn [entry_point].
  destruct (trap_ok h p Hp) as (r & p1 & -> & Hp1). cbn [mbind outcome_bind]. destruct r as [[|]|h'].
  - destruct (ended p1); [eauto|]. destruct (Z.leb_spec 50 (times + 1)); [eauto|].
    destruct fuel as [|fuel]; [lia|]. cbn [entry_point].
    destruct (timer_ok p1 Hp1) as (p2 & -> & Hp2). cbn [mbind outcome_bind].
    destruct (signals_ok p2 (Datatypes.S fuel) Hp2) as (p3 & -> & Hp3); [lia|]. cbn [mbind outcome_bind].
    destruct (ended p3); [eauto|]. apply IH; [done|lia|lia|lia].
  - eauto.
  - unfold watch. destruct (signals_ok p1 (Datatypes.S fuel) Hp1) as (p2 & -> & Hp2); [lia|]. cbn [mbind outcome_bind].
    destruct (ended p2); [eauto|]. destruct (timer_ok p2 Hp2) as (p3 & -> & Hp3). cbn [mbind outcome_bind]. eauto.
Qed.
End yields.

End entry.

(** ** A process killed while SIGTERM is pending as well

    Its thread has a word to clear. *)
Definition kill_tcb : ThreadControlBlock :=
  mkTcb (mkTrapFrame (replicate 32 0) 0x10000) (mkSigProcMask (bit 13)) 0x11008 0
    (mkSignalList (Z.lor SIGKILL (Z.lor (bit 13) SIGTERM))) (replicate 33 0) 0 None 0 0.

Definition idle_timer : ProcessTimer := mkProcessTimer (mkITimerVal timeval_default timeval_default) timeval_default timeval_default.

Definition kill_proc : Proc unit unit :=
  set_tcb kill_tcb (map_pcb (with_timer (replicate 3 idle_timer)) (demo_proc [(1, true)])).

Lemma kill_tcb_wf : tcb_sig_wf kill_tcb.
Proof.
  split; try (split; vm_compute; congruence); try reflexivity.
  - apply (bool_decide_unpack (Forall word64 (tcb_signal_queue kill_tcb))). vm_compute. exact I.
  - assert (Forall (λ i, Z.testbit (sl_signal (tcb_signal kill_tcb)) (Z.of_nat i) = false →
                         queued kill_tcb i = 0%nat) (seq 0 64)) as HF
      by (apply (bool_decide_unpack _); vm_compute; exact I).
    intros i Hi. rewrite Forall_forall in HF. apply HF, elem_of_seq. lia.
Qed.

Lemma kill_lone : ∃ T, lone T kill_proc.
Proof.
  destruct demo_waited_ok as (T & e & [Ha Hw Ho] & He). exists T.
  split; [|split; reflexivity|by split| |apply kill_tcb_wf].
  { apply (tid_word_same T demo_waited); [right; right; by exists e|reflexivity|reflexivity]. }
  split; [done|]. apply Forall_replicate. reflexivity.
Qed.

(** Blocked in a call or about to run, the process ends; it is reported as
    ended by SIGTERM. *)
Lemma fatal_signal_ends_task_witness :
  let run := entry_point demo_ops (λ _, Panic) (λ _, 1) (λ _, 0) (λ _, 0) (λ _ _, tt) (λ f p, Val (inr f, p)) (λ _ _ _, Panic) 0 3 in
  (∃ p', run (Top 0) kill_proc = Val (Done, p') ∧ pcb_exit_signal (p_pcb p') = Some 15 ∧ pcb_memset (p_pcb p') = []) ∧
  (∃ p', run (InOr 7 (InCall 0 tt)) kill_proc = Val (Done, p') ∧ pcb_exit_signal (p_pcb p') = Some 15 ∧ pcb_memset (p_pcb p') = []).
Proof.
  destruct kill_lone as [T HT].
  assert (deliveries (p_tcb kill_proc) = [SIGKILL; SIGTERM]) as ED by (vm_compute; reflexivity).
  pose proof (λ times, fatal_signal_ends_task demo_ops (λ _, Panic) (λ _, 1) (λ _, 0) (λ _, 0) (λ _ _, tt)
    (λ (f : unit) p, Val (inr f, p)) (λ _ _ _, Panic) T 0 3 times kill_proc kill_proc HT) as X. rewrite ED in X. split.
  - destruct (X 0) as [(p' & E & _ & K) _]; [reflexivity|simpl; lia|reflexivity|].
    exists p'. split; [exact E|]. split; [rewrite (kb_signal _ _ _ K); reflexivity|apply (kb_gone _ _ _ K)].
  - destruct (X 7) as [_ Y]; [reflexivity|simpl; lia|]. destruct (Y 0 tt tt eq_refl) as (p' & E & _ & K).
    exists p'. split; [exact E|]. split; [rewrite (kb_signal _ _ _ K); reflexivity|apply (kb_gone _ _ _ K)].
Defined.
