(* ===== verification/Boot.v ===== *)
(** * Start-up and traps ([kernel/src/main.rs], [fs::init], [tasks::init])

    The steps of [main] in their order (memory, devices, file systems, tasks)
    and the trap handler the processor enters.  Reading the memory map and the
    device tree, printing and switching interrupts on are left to the platform
    crates. *)

From S2P Require Import Prelude Bytes Frame PageTable Signal Path Vfs File Devices Drivers Time Futex Executor MemSet Process Mm Fork.
Local Open Scope Z_scope.

(** ** Memory *)
(** The memory areas of the platform, a start and a size each. *)
Fixpoint add_areas (VIRT_ADDR_START : Z) (areas : list (Z * Z)) (fa : FrameAllocator) : outcome FrameAllocator :=
  match areas with
  | [] => Val fa
  | (start, size) :: areas =>
      fa ← add_frame_map VIRT_ADDR_START fa start (start +w size);
      add_areas VIRT_ADDR_START areas fa
  end.

(** ** File systems ([fs::init]) *)
Section fs_init.
Context {S H : Type} (ops : INodeOps S H).

(** The roots of the file systems that are mounted. *)
Record InitRoots := mkRoots { ir_root : H; ir_dev : H; ir_tmp : H; ir_shm : H; ir_home : H; ir_var : H; ir_proc : H }.
Definition mount_all (r : InitRoots) : MOUNTED_FS H :=
  foldl (λ m x, mount_fs m x.1 x.2) []
    [(ir_root r, "/"); (ir_dev r, "/dev"); (ir_tmp r, "/tmp"); (ir_shm r, "/dev/shm");
     (ir_home r, "/home"); (ir_var r, "/var"); (ir_proc r, "/proc")]%string.

Definition expect_fs {A} (m : vfs S A) : ST S A := λ s, '(r, s) ← m s; a ← expect r; Val (a, s).

Definition expect_mkdir (dir : File H) (name : string) : ST S unit := λ s,
  '(_, s) ← expect_fs (file_mkdir ops dir name) s; Val (tt, s).
Definition try_mkdir (dir : File H) (name : string) : ST S unit := λ s,
  '(_, s) ← file_mkdir ops dir name s; Val (tt, s).

Fixpoint expect_mkdirs (dir : File H) (names : list string) : ST S unit :=
  match names with
  | [] => mret tt
  | name :: names => _ ← expect_mkdir dir name; expect_mkdirs dir names
  end.

Definition init_dirs (mounted : MOUNTED_FS H) : ST S unit :=
  rootfs ← expect_fs (file_open ops mounted pb_new O_RDONLY);
  _ ← expect_mkdirs rootfs ["dev"; "tmp"; "home"; "var"; "proc"; "bin"]%string;
  var_dir ← expect_fs (file_open ops mounted (pb_from "/var") O_RDONLY);
  try_mkdir var_dir "tmp".

Definition fs_init (r : InitRoots) : ST S (MOUNTED_FS H) :=
  let mounted := mount_all r in
  _ ← init_dirs mounted; mret mounted.

Lemma file_open_root r flags s :
  file_open ops (mount_all r) pb_new flags s = Val (Ok (mkFile (ir_root r) pb_new 0 flags), s).
Proof. reflexivity. Qed.

(** A directory that is already there stops the system: [init] does not start
    twice from the same disk when its file system refuses to create a
    directory that exists. *)
Theorem fs_init_existing_panics r s e s' :
  io_mkdir ops (ir_root r) "dev" s = Val (Err e, s') → fs_init r s = Panic.
Proof.
  intros E. unfold fs_init, init_dirs, mbind, st_bind, expect_fs at 1.
  rewrite file_open_root. cbn [mbind outcome_bind expect f_inner expect_mkdirs]. unfold mbind, st_bind, expect_mkdir, expect_fs, file_mkdir. simpl. by rewrite E.
Qed.
End fs_init.

(** ** Tasks ([tasks::init]) *)
Definition tasks_init {Fut} (cpus : nat) (initproc : Fut) : Exec := spawn_blank initproc (exec_init cpus).

(** ** The trap handler *)
Inductive TrapType :=
  | Breakpoint | TrapSysCall | TrapTimer | TrapUnknown | SupervisorExternal
  | StorePageFault (addr : Z) | LoadPageFault (addr : Z) | InstructionPageFault (addr : Z) | IllegalInstruction (addr : Z).

Section traps.
Context {S H R : Type} (ops : INodeOps S H) `{!Mmio R} (VIRT_ADDR_START : Z).

(** The task that runs, [None] for a task of the kernel, and the device
    registers. *)
Definition Machine : Type := option (Proc S H) * R.

Definition page_fault (addr : Z) : ST Machine unit := λ '(task, r),
  if VIRT_ADDR_START <? addr then Panic
  else match task with
       | Some p => '(_, p) ← user_cow_int ops addr p; Val (tt, (Some p, r))
       | None => Panic
       end.

Definition kernel_interrupt (int_device : LazyInit Z) (trap_type : TrapType) : ST Machine unit := λ '(task, r),
  match trap_type with
  | StorePageFault addr | InstructionPageFault addr | LoadPageFault addr => page_fault addr (task, r)
  | IllegalInstruction addr =>
      if VIRT_ADDR_START <? addr then Val (tt, (task, r))
      else
        p ← unwrap task;
        '(_, p) ← task_ilegal (tf_get (tcb_cx (p_tcb p)) SEPC) p;
        Val (tt, (Some p, r))
  | SupervisorExternal =>
      base ← lazy_get int_device;
      let '(_, r) := try_handle_interrupt base r in
      Val (tt, (task, r))
  | _ => Val (tt, (task, r))
  end.

(** A page fault above the start of the kernel's half stops the kernel, also
    when a user program caused it: a program that reads a kernel address brings
    the system down. *)
Theorem user_access_to_kernel_half_panics int_device p r addr :
  VIRT_ADDR_START < addr →
  kernel_interrupt int_device (LoadPageFault addr) (Some p, r) = Panic ∧
  kernel_interrupt int_device (StorePageFault addr) (Some p, r) = Panic.
Proof. intros Ha. unfold kernel_interrupt, page_fault. by rewrite (proj2 (Z.ltb_lt _ _) Ha). Qed.
End traps.

(** ** Memory after start-up *)
(** The platform names an area by its physical address or by its address in the
    direct map at [V]; the physical address behind either. *)
Definition phys_of (V a : Z) : Z := if V <=? a then a - V else a.

(** Areas in ascending order that do not overlap, each at least a page long and
    below [2 ^ k], the size of physical memory the direct map can hold. *)
Fixpoint areas_ok (V k lo : Z) (areas : list (Z * Z)) : Prop :=
  match areas with
  | [] => True
  | (start, sz) :: areas =>
      (PAGE_SIZE ≤ sz ∧ 0 ≤ start ∧ lo ≤ phys_of V start ∧ phys_of V start + sz < 2 ^ k) ∧
      areas_ok V k (phys_of V start + sz) areas
  end.

(** [p] begins a page that lies wholly inside the area. *)
Definition page_inside (V p : Z) (area : Z * Z) : Prop :=
  p mod PAGE_SIZE = 0 ∧ phys_of V area.1 ≤ p ∧ p + PAGE_SIZE ≤ phys_of V area.1 + area.2.

Section direct_map.
(** The direct map begins at [V], above [2 ^ k] bytes of physical memory. *)
Context (V k : Z) (Hk : 12 ≤ k ≤ 63) (HV : 0 < V < MAX64) (HVk : V mod 2 ^ k = 0).

Lemma pow_k : 0 < 2 ^ k ∧ 2 ^ k = PAGE_SIZE * 2 ^ (k - 12) ∧ 0 < 2 ^ (k - 12) ∧ 2 ^ k ≤ V ∧ V + 2 ^ k ≤ MAX64.
Proof using Hk HV HVk.
  assert (0 < 2 ^ k) as Hp by (apply Z.pow_pos_nonneg; lia).
  assert (2 ^ k = PAGE_SIZE * 2 ^ (k - 12)) as Hpk.
  { change PAGE_SIZE with (2 ^ 12). rewrite <- Z.pow_add_r by lia. f_equal. lia. }
  assert (MAX64 = 2 ^ k * 2 ^ (64 - k)) as Hm.
  { change MAX64 with (2 ^ 64). rewrite <- Z.pow_add_r by lia. f_equal. lia. }
  assert (0 < 2 ^ (64 - k)) by (apply Z.pow_pos_nonneg; lia).
  pose proof (Z.div_mod V (2 ^ k) ltac:(lia)) as Hd. rewrite HVk in Hd.
  set (d := V / 2 ^ k) in *. set (a := 2 ^ k) in *. set (m := 2 ^ (64 - k)) in *. clearbody d a m.
  assert (0 < d < m) by nia.
  split_and!; [done|done|apply Z.pow_pos_nonneg; lia|nia|nia].
Qed.

(** Masking the direct map away. *)
Lemma mask_direct b q : b = 0 ∨ b = V → 0 ≤ q < 2 ^ k → Z.land (b + q) (wnot V) = q.
Proof using Hk HV HVk.
  intros Hb Hq. assert (∀ i, 0 ≤ i < k → Z.testbit V i = false) as HVi.
  { intros i Hi. replace V with (V / 2 ^ k * 2 ^ k) by (pose proof (Z.div_mod V (2 ^ k)); lia).
    by rewrite Z.mul_pow2_bits_low by lia. }
  assert (∀ i, k ≤ i → Z.testbit q i = false) as Hqi.
  { intros i Hi. rewrite <- (Z.mod_small q (2 ^ k)) by done. by rewrite Z.mod_pow2_bits_high by lia. }
  assert (∀ i, 0 ≤ i → Z.testbit (b + q) i = orb (Z.testbit b i) (Z.testbit q i)) as Hs.
  { intros i Hi. rewrite <- Z.lor_spec. f_equal. apply Z.add_nocarry_lor. apply Z.bits_inj'. intros j Hj.
    rewrite Z.land_spec, Z.bits_0. destruct Hb as [->| ->]; [by rewrite Z.bits_0|].
    destruct (decide (j < k)); [by rewrite HVi by lia|rewrite Hqi by lia; apply andb_false_r]. }
  apply Z.bits_inj'. intros i Hi. rewrite Z.land_spec, Hs by done.
  destruct (decide (i < k)) as [Hl|Hl].
  - rewrite wnot_testbit, HVi by lia.
    destruct Hb as [->| ->]; [rewrite Z.bits_0|rewrite HVi by lia]; simpl; apply andb_true_r.
  - rewrite Hqi by lia. rewrite orb_false_r. destruct Hb as [->| ->]; [by rewrite Z.bits_0|].
    destruct (decide (i < 64)); [rewrite wnot_testbit by lia; apply andb_negb_r|].
    rewrite wnot_testbit_high by (unfold word64; lia). apply andb_false_r.
Qed.

(** The bounds [add_frame_map] hands to the allocator: the first page boundary
    in the area and the last one. *)
Lemma area_bounds start sz (P := phys_of V start) :
  PAGE_SIZE ≤ sz → 0 ≤ start → 0 ≤ P → P + sz < 2 ^ k →
  ∃ i j, Z.land (alignup start PAGE_SIZE) (wnot V) = i * PAGE_SIZE ∧
    Z.land (aligndown (start +w sz) PAGE_SIZE) (wnot V) = j * PAGE_SIZE ∧ i ≤ j ∧
    P ≤ i * PAGE_SIZE < P + PAGE_SIZE ∧ j * PAGE_SIZE ≤ P + sz < (j + 1) * PAGE_SIZE.
Proof using Hk HV HVk.
  intros Hsz H0 HP Hend. destruct pow_k as (H2 & H2k & Hp12 & HVle & HVm). pose proof (Z.div_mod V (2 ^ k) ltac:(lia)) as HVd.
  rewrite HVk in HVd.
  assert (∃ c, (c * PAGE_SIZE = 0 ∨ c * PAGE_SIZE = V) ∧ start = c * PAGE_SIZE + P) as (c & Hc & Hst).
  { subst P. unfold phys_of in *. destruct (Z.leb_spec V start); [|by exists 0; split; [left|]].
    exists (V / 2 ^ k * 2 ^ (k - 12)). split; [right; nia|nia]. }
  exists (div_ceil P PAGE_SIZE), ((P + sz) / PAGE_SIZE).
  pose proof (div_ceil_spec P PAGE_SIZE HP ltac:(done)) as Hu.
  pose proof (Z.div_mod (P + sz) PAGE_SIZE ltac:(done)) as Hd. pose proof (Z.mod_pos_bound (P + sz) PAGE_SIZE ltac:(done)) as Hm.
  assert (alignup start PAGE_SIZE = c * PAGE_SIZE + div_ceil P PAGE_SIZE * PAGE_SIZE) as ->.
  { unfold alignup. rewrite Hst, (div_ceil_eq (_ + _)), (div_ceil_eq P) by (done || lia).
    replace (c * PAGE_SIZE + P + PAGE_SIZE - 1) with ((P + PAGE_SIZE - 1) + c * PAGE_SIZE) by lia.
    rewrite Z.div_add by done. rewrite div_ceil_eq in Hu by done. rewrite wmul_small by (unfold PAGE_SIZE in *; word_lia). lia. }
  assert (aligndown (start +w sz) PAGE_SIZE = c * PAGE_SIZE + (P + sz) / PAGE_SIZE * PAGE_SIZE) as ->.
  { unfold aligndown. rewrite wadd_small by (unfold PAGE_SIZE in *; word_lia). rewrite Hst.
    replace (c * PAGE_SIZE + P + sz) with ((P + sz) + c * PAGE_SIZE) by lia.
    rewrite Z.div_add by done. rewrite wmul_small by (unfold PAGE_SIZE in *; word_lia). lia. }
  rewrite !mask_direct by (done || (unfold PAGE_SIZE in *; lia)).
  split_and!; [done|done| |lia|lia|lia|lia]. unfold PAGE_SIZE in *. lia.
Qed.

Lemma add_areas_spec areas : ∀ lo fa,
  fa_wf fa → fa_free fa = fa_all fa → 0 ≤ lo → Forall (λ r, frm_paddr_end r ≤ lo) fa → areas_ok V k lo areas →
  ∃ fa', add_areas V areas fa = Val fa' ∧ fa_wf fa' ∧ fa_free fa' = fa_all fa' ∧
    (length areas + length fa = length fa')%nat ∧
    ∀ p, p ∈ fa_all fa' ↔ p ∈ fa_all fa ∨ Exists (page_inside V p) areas.
Proof using Hk HV HVk.
  induction areas as [|[start sz] areas IH]; intros lo fa Hwf Hf Hlo Hle Ha.
  { exists fa. cbn [add_areas]. split_and!; [done..|]. intros p. rewrite Exists_nil. tauto. }
  destruct Ha as [(Hsz & H0 & HP & Hend) Ha]. cbn [add_areas]. unfold add_frame_map.
  destruct (area_bounds start sz) as (i & j & -> & -> & Hij & Hi & Hj); [done|done|lia|done|].
  destruct pow_k as (_ & _ & _ & HVle & HVm).
  destruct (fa_add_memory_region_correct fa (i * PAGE_SIZE) (j * PAGE_SIZE)) as (fa1 & E1 & Hwf1 & Hf1 & _ & Ha1 & Hle1);
    [done| |lia|unfold PAGE_SIZE; lia|lia|by rewrite Z.mod_mul|by rewrite Z.mod_mul|].
  { eapply Forall_impl; [exact Hle|]. simpl. lia. }
  rewrite E1. cbn [mbind outcome_bind].
  destruct (IH (phys_of V start + sz) fa1) as (fa' & E & Hwf' & Hf' & Hn & Ha'); [done|by rewrite Hf1, Ha1, Hf|lia| |done|].
  { eapply Forall_impl; [exact Hle1|]. simpl. lia. }
  exists fa'. split; [exact E|]. split; [done|]. split; [done|]. split.
  { unfold fa_add_memory_region in E1. destruct (frm_new _ _); [|done]. injection E1 as <-. rewrite length_app in Hn. simpl in *. lia. }
  intros p. rewrite Ha', Ha1, elem_of_union, elem_of_list_to_set, Exists_cons.
  replace ((j * PAGE_SIZE - i * PAGE_SIZE) / PAGE_SIZE) with (j - i) by (rewrite <- Z.mul_sub_distr_r, Z.div_mul; done).
  rewrite elem_of_page_run by lia.
  assert ((∃ n, 0 ≤ n < j - i ∧ p = i * PAGE_SIZE + n * PAGE_SIZE) ↔ page_inside V p (start, sz)) as ->; [|tauto].
  unfold page_inside. cbn [fst snd]. split.
  - intros (n & Hn' & ->). rewrite <- Z.mul_add_distr_r, Z.mod_mul by done. unfold PAGE_SIZE in *. lia.
  - intros (Hm & Hl & Hr). exists (p / PAGE_SIZE - i). pose proof (Z.div_mod p PAGE_SIZE ltac:(done)). unfold PAGE_SIZE in *. lia.
Qed.

(** C16: After [main] has handed over the platform's memory areas, the frames of
    the allocator are exactly the pages that lie wholly inside an area: a page
    that an area only touches is not handed out, every other is, none is
    counted twice, all are free and initialising does not fail.  The areas are
    given in ascending order, do not overlap and are at least a page long each;
    they may be named by physical addresses or by addresses of the direct map
    at [V]. *)
Theorem boot_memory_ready areas :
  areas_ok V k 0 areas → areas ≠ [] →
  ∃ fa, add_areas V areas fa_new = Val fa ∧ fa_wf fa ∧ fa_free fa = fa_all fa ∧
    (∀ p, p ∈ fa_all fa ↔ Exists (page_inside V p) areas) ∧ frame_init fa = Val tt.
Proof using Hk HV HVk.
  intros Ha Hne. destruct (add_areas_spec areas 0 fa_new) as (fa & E & Hwf & Hf & Hn & Hall); [constructor|done|lia|constructor|done|].
  exists fa. split; [exact E|]. split; [done|]. split; [done|]. split.
  - intros p. rewrite Hall. unfold fa_new, fa_all. simpl. set_solver.
  - unfold frame_init. destruct fa; [|done]. destruct areas; [done|]. simpl in Hn. lia.
Qed.
End direct_map.

(** Two areas of the direct map of riscv64; the second does not begin on a page
    boundary, and the page it begins in is not used. *)
Lemma boot_memory_ready_witness :
  ∃ fa, add_areas 0xffffffc000000000 [(0xffffffc080000000, 0x8000); (0x80010800, 0x2000)] fa_new = Val fa ∧
    fa_free fa = fa_all fa ∧ 0x80007000 ∈ fa_all fa ∧ 0x80008000 ∉ fa_all fa ∧
    0x80010000 ∉ fa_all fa ∧ 0x80011000 ∈ fa_all fa ∧ 0x80012000 ∉ fa_all fa ∧ frame_init fa = Val tt.
Proof.
  destruct (boot_memory_ready 0xffffffc000000000 38 ltac:(lia) ltac:(split; reflexivity) ltac:(reflexivity)
    [(0xffffffc080000000, 0x8000); (0x80010800, 0x2000)])
    as (fa & E & _ & Hf & Ha & Hi); [|discriminate|].
  - vm_compute. repeat split; discriminate.
  - assert (∀ p, p ∈ fa_all fa ↔ p mod 4096 = 0 ∧
        (0x80000000 ≤ p ∧ p + 4096 ≤ 0x80008000 ∨ 0x80010800 ≤ p ∧ p + 4096 ≤ 0x80012800)) as Hp.
    { intros p. rewrite Ha, !Exists_cons, Exists_nil. unfold page_inside.
      cbn [fst snd].
      change (phys_of 0xffffffc000000000 0xffffffc080000000) with 0x80000000.
      change (phys_of 0xffffffc000000000 0x80010800) with 0x80010800. change PAGE_SIZE with 4096. lia. }
    exists fa. split; [exact E|]. split; [exact Hf|]. rewrite !Hp.
    do 5 (split; [apply (bool_decide_unpack _); vm_compute; exact I|]). exact Hi.
Defined.
