(* ===== verification/Exec.v ===== *)
(** * Loading programs ([kernel/src/tasks/exec.rs], [kernel/src/tasks/elf.rs])

    Replacing the image of a process by a program file and building the stack
    it starts with.  The ELF library [xmas_elf] is a parameter: a view of the
    bytes of a file. *)

From Stdlib Require Import Ascii.
From S2P Require Import Prelude Bytes Frame PageTable Signal Path Vfs File Time Futex MemSet Process Mm UserMem Shm Fork Fd.
Local Open Scope Z_scope.

Definition USER_DYN_ADDR : Z := 0x20000000.
Definition USER_STACK_TOP : Z := 0x80000000.
Definition USER_STACK_INIT_SIZE : Z := 0x20000.

(** ** Keys of the auxiliary vector *)
Definition AT_PHDR : Z := 3.
Definition AT_PHENT : Z := 4.
Definition AT_PHNUM : Z := 5.
Definition AT_PAGESZ : Z := 6.
Definition AT_ENTRY : Z := 9.
Definition AT_UID : Z := 11.
Definition AT_EUID : Z := 12.
Definition AT_GID : Z := 13.
Definition AT_EGID : Z := 14.
Definition AT_PLATFORM : Z := 15.
Definition AT_SECURE : Z := 23.
Definition AT_RANDOM : Z := 25.
Definition AT_EXECFN : Z := 31.

(** ** What the code reads of an ELF file *)
(** [ProgramHeader::get_type]; [None] when it is not a known type. *)
Inductive PhType := PhLoad | PhInterp | PhPhdr | PhOther.
#[export] Instance PhType_eq_dec : EqDecision PhType.
Proof. solve_decision. Defined.

(** [ph_data]: the bytes when [get_data] gives [SegmentData::Undefined]. *)
Record ProgramHeader := mkPh {
  ph_type : option PhType;
  ph_offset : Z;
  ph_virtual_addr : Z;
  ph_file_size : Z;
  ph_mem_size : Z;
  ph_data : option (list Z)
}.

(** A section looked up by name and read as a table. *)
Inductive ElfSection (A : Type) := NoSection | Corrupted | BadKind | Entries (l : list A).
Arguments NoSection {A}. Arguments Corrupted {A}. Arguments BadKind {A}. Arguments Entries {A} l.

(** A dynamic symbol: section index, whether its name can be read. *)
Record DynEntry := mkDyn { dy_shndx : Z; dy_name_ok : bool }.

Record ElfFile := mkElf {
  elf_magic : list Z;
  elf_entry_point : Z;
  elf_ph_count : Z;
  elf_ph_entry_size : Z;
  elf_ph_offset : Z;
  elf_phs : list ProgramHeader;
  elf_rela_dyn : ElfSection (Z * Z);     (* type, symbol index *)
  elf_dynsym : ElfSection DynEntry
}.

Definition is_type (t : PhType) (ph : ProgramHeader) : Prop := ph_type ph = Some t.
#[export] Instance is_type_dec t ph : Decision (is_type t ph) := decide (ph_type ph = Some t).

(** [ElfExtra::get_ph_addr] *)
Definition get_ph_addr (e : ElfFile) : result Z :=
  match list_find (is_type PhPhdr) (elf_phs e) with
  | Some (_, ph) => Ok (ph_virtual_addr ph)
  | None =>
      match list_find (λ ph, is_type PhLoad ph ∧ ph_offset ph = 0) (elf_phs e) with
      | Some (_, ph) => Ok (ph_virtual_addr ph +w elf_ph_offset e)
      | None => Err EBADF
      end
  end.

(** [ElfExtra::relocate]: the base, [None] for an error.  The entries are only
    checked: nothing is written. *)
Fixpoint relocate_loop (dynsym : list DynEntry) (entries : list (Z * Z)) (base : Z) : outcome (option Z) :=
  match entries with
  | [] => Val (Some base)
  | (type, index) :: entries =>
      if bool_decide (type ∈ [6; 7; 2; 0x401]) then
        sym ← unwrap (dynsym !! Z.to_nat index);
        if dy_shndx sym =? 0 then (if dy_name_ok sym then Panic else Val None)
        else relocate_loop dynsym entries base
      else if bool_decide (type ∈ [8; 3; 0x403]) then relocate_loop dynsym entries base
      else Panic
  end.

Definition relocate (e : ElfFile) (base : Z) : outcome (option Z) :=
  match elf_rela_dyn e, elf_dynsym e with
  | Entries entries, Entries dynsym => relocate_loop dynsym entries base
  | _, _ => Val None
  end.

Inductive LibcType := Musl | Glibc | Unknown.

(** [str::contains] *)
Fixpoint str_contains (sub s : list Z) : bool :=
  bool_decide (take (length sub) s = sub) || match s with [] => false | _ :: s => str_contains sub s end.

(** [detect_libc_type]; [utf8] is [core::str::from_utf8(..).is_ok()]. *)
Definition detect_libc_type (utf8 : list Z → bool) (e : ElfFile) : LibcType :=
  match list_find (is_type PhInterp) (elf_phs e) with
  | Some (_, ph) =>
      match ph_data ph with
      | Some data =>
          if utf8 data then
            if str_contains (str_bytes "musl") data then Musl
            else if str_contains (str_bytes "glibc") data || str_contains (str_bytes "ld-linux") data then Glibc
            else Unknown
          else Unknown
      | None => Unknown
      end
  | None => Unknown
  end.

(** [max(virtual_addr + mem_size)] rounded up to a page; no header is a panic. *)
Definition heap_bottom_of (e : ElfFile) : outcome Z :=
  match elf_phs e with
  | [] => Panic
  | phs => Val (div_ceil (foldr Z.max 0 ((λ x, ph_virtual_addr x +w ph_mem_size x) <$> phs)) PAGE_SIZE *w PAGE_SIZE)
  end.

(** [program_iter().filter(|x| x.get_type().unwrap() == Load)] *)
Fixpoint load_headers (phs : list ProgramHeader) : outcome (list ProgramHeader) :=
  match phs with
  | [] => Val []
  | ph :: phs =>
      t ← unwrap (ph_type ph);
      rest ← load_headers phs;
      Val (if decide (t = PhLoad) then ph :: rest else rest)
  end.

Section exec.
Context {S H : Type} (ops : INodeOps S H).
(** [xmas_elf]: whether [ElfFile::new] accepts the bytes, and what the parsed
    file, a set of references into them, shows of the bytes it finds. *)
Context (elf_valid : list Z → bool) (elf_at : list Z → ElfFile) (utf8 : list Z → bool).
Notation M := (ST (Proc S H)).
Notation K := (K S H).

Record TaskCacheTemplate := mkCache {
  tc_name : PathBuf; tc_entry : Z; tc_maps : list (MemArea H); tc_base : Z; tc_heap_bottom : Z;
  tc_ph_count : Z; tc_ph_entry_size : Z; tc_ph_addr : Z
}.

(** The statics [TASK_CACHES], [LIBC_PATH] and [DYN_PATH]. *)
Record ExecEnv := mkEnv { ee_caches : list TaskCacheTemplate; ee_libc_path : string; ee_dyn_path : string }.

(** ** The stack of a new program *)
Definition set_sp (v : Z) (p : Proc S H) : Proc S H := set_tcb (set_cx (tf_set (tcb_cx (p_tcb p)) SP v) (p_tcb p)) p.
Definition get_sp (p : Proc S H) : Z := tf_get (tcb_cx (p_tcb p)) SP.

Definition push_arr (buffer : list Z) : M Z := λ p,
  let sp := get_sp p -w alignup (Z.of_nat (length buffer) + 1) 8 in
  '(_, p) ← user_store ops buffer sp p;
  Val (sp, set_sp sp p).

Definition push_str (s : list Z) : M Z := push_arr s.

Definition push_num (num : Z) : M Z := λ p,
  let sp := get_sp p -w 8 in
  '(_, p) ← user_store ops (le_bytes 8 num) sp p;
  Val (sp, set_sp sp p).

(** The same where the address is not used. *)
Definition push_word (num : Z) : M unit := λ p, '(_, p) ← push_num num p; Val (tt, p).
Definition push_pair (x : Z * Z) : M unit := λ p, '(_, p) ← push_word x.2 p; push_word x.1 p.

(** [l.into_iter().map(f).collect()] for a stateful [f]. *)
Fixpoint st_map {A B} (f : A → M B) (l : list A) : M (list B) :=
  match l with
  | [] => mret []
  | x :: l => y ← f x; ys ← st_map f l; mret (y :: ys)
  end.

Definition init_envp (libc_path : string) : list (list Z) :=
  [str_bytes "LD_LIBRARY_PATH=" ++ str_bytes libc_path;
   str_bytes "PS1=" ++ [27] ++ str_bytes "[1m" ++ [27] ++ str_bytes "[32mMonkeyOS" ++ [27] ++ str_bytes "[0m:" ++ [27] ++
     str_bytes "[1m" ++ [27] ++ str_bytes "[34m\w" ++ [27] ++ str_bytes "[0m\$ " ++ [0];
   str_bytes "PATH=/:/bin:/usr/bin";
   str_bytes "UB_BINDIR=./"].

(** The auxiliary vector in the order of its keys ([BTreeMap]). *)
Definition auxv_of (base entry_point ph_count ph_entry_size ph_addr platform execfn random : Z) : list (Z * Z) :=
  [(AT_PHDR, base +w ph_addr); (AT_PHENT, ph_entry_size); (AT_PHNUM, ph_count); (AT_PAGESZ, PAGE_SIZE);
   (AT_ENTRY, base +w entry_point); (AT_UID, 0); (AT_EUID, 0); (AT_GID, 0); (AT_EGID, 0);
   (AT_PLATFORM, platform); (AT_SECURE, 0); (AT_RANDOM, random); (AT_EXECFN, execfn)].

Definition with_entry (v : Z) (p : ProcessControlBlock H) : ProcessControlBlock H :=
  let '(mkPcb a b c d _ f g h i j k l m n o q r) := p in mkPcb a b c d v f g h i j k l m n o q r.

(** The strings and the vectors, from the top of the stack down. *)
Definition push_vectors (libc_path : string) (args : list (list Z)) (path : list Z)
    (base entry_point ph_count ph_entry_size ph_addr : Z) : M unit :=
  envp ← st_map push_str (rev (init_envp libc_path));
  argp ← st_map push_str (rev args);
  random_ptr ← push_arr (replicate 16 0);
  platform ← push_str (str_bytes "riscv");
  execfn ← push_str path;
  _ ← push_word 0;
  _ ← st_iter push_pair
        (auxv_of base entry_point ph_count ph_entry_size ph_addr platform execfn random_ptr);
  _ ← push_word 0;
  _ ← st_iter push_word envp;
  _ ← push_word 0;
  _ ← st_iter push_word argp;
  push_word (Z.of_nat (length argp)).

Definition init_task_stack (libc_path : string) (args : list (list Z)) (base : Z) (path : list Z)
    (entry_point ph_count ph_entry_size ph_addr heap_bottom : Z) : M unit := λ p,
  '(_, p) ← task_frame_alloc (USER_STACK_TOP - USER_STACK_INIT_SIZE) Stack (USER_STACK_INIT_SIZE / PAGE_SIZE) p;
  let p := map_pcb (with_entry (base +w entry_point) ∘ with_heap heap_bottom) p in
  let cx := tf_set (tf_set trap_frame_new SP USER_STACK_TOP) SEPC (base +w entry_point) in
  let p := set_tcb (set_cx cx (p_tcb p)) p in
  push_vectors libc_path args path base entry_point ph_count ph_entry_size ph_addr p.

(** ** Reading the program file *)
(** [frame_alloc_much] for the buffer, and dropping its trackers. *)
Definition buffer_alloc (n : Z) : ST (World S) (option (list Z)) := λ w,
  '(r, ph) ← frame_alloc_much (w_phys w) n; Val (r, set_phys ph w).
Definition buffer_drop (l : list Z) : ST (World S) unit :=
  st_iter (λ f w, ph ← tracker_drop f (w_phys w); Val (tt, set_phys ph w)) l.

(** The frames of the buffer and the bytes of the whole file. *)
Definition read_program (path : PathBuf) : K (list Z * list Z) :=
  file ←? (λ p, k_fs (file_open ops (p_mounted p) path O_RDONLY) p);
  size ←? k_fs (file_size ops file);
  λ p, '(r, p) ← k_world (buffer_alloc (div_ceil size PAGE_SIZE)) p;
  frames ← unwrap r;
  f0 ← unwrap (head frames);
  '(r, p) ← k_fs (io_readat ops (f_inner file) 0 (Z.to_nat size)) p;
  match r with
  | Err e => '(_, p) ← k_world (buffer_drop frames) p; Val (Err e, p)
  | Ok bs =>
      '(_, p) ← k_world (lift_phys (phys_store bs f0)) p;
      _ ← assert_ (Z.of_nat (length bs) =? size);
      Val (Ok (frames, bs), p)
  end.

(** [&buffer[offset..offset + file_size]] *)
Definition slice (bs : list Z) (start end_ : Z) : outcome (list Z) :=
  if (start <=? end_) && (end_ <=? Z.of_nat (length bs))
  then Val (take (Z.to_nat (end_ - start)) (drop (Z.to_nat start) bs)) else Panic.

Definition phys_read (ph : Phys) (a : Z) (n : nat) : option (list Z) :=
  mapM (λ i, page ← ph_ram ph !! floor_page (a + Z.of_nat i); page !! Z.to_nat ((a + Z.of_nat i) mod PAGE_SIZE)) (seq 0 n).

(** One [Load] segment: frames, contents, and the checks that the frames are
    contiguous and hold them. *)
Definition load_segment (base : Z) (buffer : list Z) (ph : ProgramHeader) : M unit := λ p,
  let virt_addr := base +w ph_virtual_addr ph in
  let page_count := div_ceil (virt_addr +w ph_mem_size ph) PAGE_SIZE -w virt_addr / PAGE_SIZE in
  '(r, p) ← task_frame_alloc (floor_page virt_addr) Mmap page_count p;
  ppn ← unwrap r;
  data ← slice buffer (ph_offset ph) (ph_offset ph +w ph_file_size ph);
  '(_, p) ← user_store ops data virt_addr p;
  let n := length data in
  _ ← assert_ (bool_decide (phys_read (w_phys (p_world p)) (ppn +w virt_addr mod PAGE_SIZE) n = user_read p virt_addr n));
  _ ← assert_ (bool_decide (phys_read (w_phys (p_world p)) (ppn +w virt_addr mod PAGE_SIZE) n = Some data));
  _ ← assert_ (bool_decide (user_read p virt_addr n = Some data));
  Val (tt, p).

(** ** [exec_with_process] *)
(** The old image is unmapped and dropped and the table, the one in use,
    emptied. *)
Definition exec_clear : M unit := λ p,
  '(_, p) ← k_world (st_iter (λ x, unmap_page (mt_vaddr x)) (trackers_of (pcb_memset (p_pcb p)))) p;
  '(_, p) ← clear_memset ops p;
  k_world (λ w, lift_phys (pt_restore (w_root w) (w_root w)) w) p.

(** A program from the cache: its pages are shared, copied on write. *)
Definition exec_area (area : MemArea H) : M unit := λ p,
  '(_, p) ← sub_area ops (ma_start area) (ma_start area +w ma_len area) p;
  '(_, p) ← k_world (st_iter (λ x, arc_clone (mt_tracker x)) (ma_mtrackers area)) p;
  '(_, p) ← push_area area p;
  st_iter (λ x, task_map (mt_tracker x) (mt_vaddr x) MF_URX) (ma_mtrackers area) p.

Definition exec_cached (env : ExecEnv) (c : TaskCacheTemplate) (args : list string) (path : PathBuf) : M unit :=
  _ ← init_task_stack (ee_libc_path env) (str_bytes <$> args) (tc_base c) (str_bytes (pb_path path)) (tc_entry c)
        (tc_ph_count c) (tc_ph_entry_size c) (tc_ph_addr c) (tc_heap_bottom c);
  st_iter exec_area (tc_maps c).

(** A static program: the stack, then the segments. *)
Definition exec_static (env : ExecEnv) (bs : list Z) (args : list string) (path : PathBuf) : M unit := λ p,
  let e := elf_at bs in
  heap_bottom ← heap_bottom_of e;
  base ← relocate e USER_DYN_ADDR;
  let base := default 0 base in
  '(_, p) ← init_task_stack (ee_libc_path env) (str_bytes <$> args) base (str_bytes (pb_path path)) (elf_entry_point e)
              (elf_ph_count e) (elf_ph_entry_size e) (match get_ph_addr e with Ok a => a | Err _ => 0 end) heap_bottom p;
  segments ← load_headers (elf_phs e);
  st_iter (load_segment base bs) segments p.

(** The dynamic linker, chosen after the buffer was dropped and cleared. *)
Definition linker_path (env : ExecEnv) (bs : list Z) : string :=
  match detect_libc_type utf8 (elf_at (replicate (length bs) 0)) with
  | Musl => ee_libc_path env
  | Glibc => ee_dyn_path env
  | Unknown => ee_dyn_path env
  end.

Definition is_dynamic (e : ElfFile) : bool :=
  match list_find (is_type PhInterp) (elf_phs e) with
  | Some (_, ph) => bool_decide (is_Some (ph_data ph))
  | None => false
  end.

(** [fuel] bounds the depth of programs started for programs. *)
Fixpoint exec_with_process (fuel : nat) (env : ExecEnv) (curr_dir : PathBuf) (path : string) (args : list string) : K unit :=
  match fuel with
  | O => λ _, Panic
  | Datatypes.S fuel => λ p,
      let path := pb_join curr_dir path in
      '(_, p) ← exec_clear p;
      match list_find (λ c, tc_name c = path) (ee_caches env) with
      | Some (_, c) => '(_, p) ← exec_cached env c args path p; Val (Ok tt, p)
      | None =>
          '(r, p) ← read_program path p;
          match r with
          | Err e => Val (Err e, p)
          | Ok (frames, bs) =>
              if negb (elf_valid bs) then
                '(r, p) ← exec_with_process fuel env curr_dir "busybox" (["busybox"; "sh"]%string ++ args) p;
                '(_, p) ← k_world (buffer_drop frames) p;
                Val (r, p)
              else
                _ ← assert_ (bool_decide (elf_magic (elf_at bs) = [0x7f; 0x45; 0x4c; 0x46]));
                if is_dynamic (elf_at bs) then
                  '(_, p) ← k_world (buffer_drop frames) p;
                  let linker := linker_path env bs in
                  exec_with_process fuel env curr_dir linker (linker :: pb_path path :: tail args) p
                else
                  '(_, p) ← exec_static env bs args path p;
                  '(_, p) ← k_world (buffer_drop frames) p;
                  Val (Ok tt, p)
          end
      end
  end.

(** ** [cache_task_template] *)
(** The pages of a segment of a cached program. *)
Definition cache_segment (base : Z) (buffer : list Z) (ph : ProgramHeader) : ST (World S) (MemArea H) := λ w,
  let virt_addr := base +w ph_virtual_addr ph in
  let vpn := virt_addr / PAGE_SIZE in
  let page_count := div_ceil (virt_addr +w ph_mem_size ph) PAGE_SIZE -w vpn in
  '(r, w) ← alloc_frames page_count w;
  pages ← unwrap r;
  f0 ← unwrap (head pages);
  data ← slice buffer (ph_offset ph) (ph_offset ph +w ph_file_size ph);
  '(_, w) ← lift_phys (phys_store data (f0 +w virt_addr mod PAGE_SIZE)) w;
  Val (mkMemArea Mmap (imap (λ i x, mkMapTrack ((vpn +w Z.of_nat i) *w PAGE_SIZE) x 0) pages) None 0
         (vpn *w PAGE_SIZE) (page_count *w PAGE_SIZE), w).

Fixpoint cache_segments (base : Z) (buffer : list Z) (phs : list ProgramHeader) : ST (World S) (list (MemArea H)) :=
  match phs with
  | [] => mret []
  | ph :: phs => a ← cache_segment base buffer ph; rest ← cache_segments base buffer phs; mret (a :: rest)
  end.

Definition cache_task_template (path : PathBuf) (env : ExecEnv) : K ExecEnv := λ p,
  '(r, p) ← read_program path p;
  match r with
  | Err e => Val (Err e, p)
  | Ok (frames, bs) =>
      '(env, p) ←
        (if negb (elf_valid bs) then Val (env, p)
         else
           let e := elf_at bs in
           _ ← assert_ (bool_decide (elf_magic e = [0x7f; 0x45; 0x4c; 0x46]));
           _ ← assert_ (bool_decide (list_find (is_type PhInterp) (elf_phs e) = None));
           heap_bottom ← heap_bottom_of e;
           base ← relocate e USER_DYN_ADDR;
           let base := default 0 base in
           segments ← load_headers (elf_phs e);
           '(maps, p) ← k_world (cache_segments base bs segments) p;
           Val (mkEnv (ee_caches env ++ [mkCache path (elf_entry_point e) maps base heap_bottom (elf_ph_count e)
                                           (elf_ph_entry_size e) (match get_ph_addr e with Ok a => a | Err _ => 0 end)])
                  (ee_libc_path env) (ee_dyn_path env), p));
      '(_, p) ← k_world (buffer_drop frames) p;
      Val (Ok env, p)
  end.

(** ** [sys_execve] *)
(** [slice_until_valid] and [get_cstr().unwrap()]: the strings before the first
    null pointer. *)
Fixpoint user_strings (l : list UserStr) : outcome (list string) :=
  match l with
  | [] | UNull :: _ => Val []
  | UBad :: _ => Panic
  | UStr s :: l => rest ← user_strings l; Val (s :: rest)
  end.

Definition sys_execve (fuel : nat) (env : ExecEnv) (filename : UserStr) (args envp : list UserStr) : K Z :=
  filename ←? cstr filename;
  λ p : Proc S H, args ← user_strings args;
  _ ← user_strings envp;
  if bool_decide (filename = "/bin/true"%string) then '(_, p) ← exit_ ops 0 p; Val (Ok 0, p)
  else
    cwd ← unwrap (p_files p !! pcb_curr_dir (p_pcb p));
    '(r, p) ← exec_with_process fuel env (f_path_buf cwd) filename args p;
    Val (match r with Ok _ => Ok 0 | Err e => Err e end, p).

(** ** The stack as a list of bytes *)
(** The bytes [st] end at the top, [sp] points at their start, and the rest of
    the run is zero. *)
Record stack_is (T : Tree) (lo n : Z) (fr : Z → Z) (st : list Z) (p : Proc S H) : Prop := {
  si_run : run_ok T lo n fr p;
  si_regs : length (tf_x (tcb_cx (p_tcb p))) = 32%nat;
  si_sp : get_sp p = lo + n * PAGE_SIZE - Z.of_nat (length st);
  si_fit : Z.of_nat (length st) ≤ n * PAGE_SIZE;
  si_zero : ∀ u, lo ≤ u < get_sp p → peek p u = Some 0;
  si_data : ∀ i, (i < length st)%nat → peek p (get_sp p + Z.of_nat i) = st !! i
}.

(** What pushing leaves alone. *)
Definition pushed (p p' : Proc S H) : Prop :=
  p_pcb p' = p_pcb p ∧ tf_sepc (tcb_cx (p_tcb p')) = tf_sepc (tcb_cx (p_tcb p)).
Lemma pushed_trans p p' p'' : pushed p p' → pushed p' p'' → pushed p p''.
Proof. intros [? ?] [? ?]. split; congruence. Qed.

Lemma get_set_sp v p : length (tf_x (tcb_cx (p_tcb p))) = 32%nat → get_sp (set_sp v p) = v.
Proof.
  intros Hl. unfold get_sp, set_sp, set_cx. destruct (p_tcb p); simpl in *. apply list_lookup_total_insert_eq. rewrite Hl. lia.
Qed.

Lemma push_store T lo n fr st p bs pad :
  let st' := bs ++ replicate pad 0 ++ st in
  let sp := lo + n * PAGE_SIZE - Z.of_nat (length st') in
  stack_is T lo n fr st p → Z.of_nat (length st') ≤ n * PAGE_SIZE →
  ∃ w, user_store ops bs sp p = Val (tt, set_world w p) ∧ stack_is T lo n fr st' (set_sp sp (set_world w p)) ∧
    pushed p (set_sp sp (set_world w p)).
Proof.
  intros st' sp [Hr Hregs Hsp Hfit Hz Hd] Hn.
  assert (Z.of_nat (length st') = Z.of_nat (length bs) + Z.of_nat pad + Z.of_nat (length st)) as El.
  { unfold st'. rewrite !length_app, length_replicate. lia. }
  destruct (run_store ops T lo n fr bs sp p Hr) as (w & E & Hr' & Hp); [lia|lia|].
  exists w. split; [done|]. set (p' := set_sp sp (set_world w p)).
  assert (get_sp p' = sp) as Esp by (by apply get_set_sp).
  assert (∀ u, lo ≤ u < lo + n * PAGE_SIZE → peek p' u =
            if bool_decide (sp ≤ u < sp + Z.of_nat (length bs)) then bs !! Z.to_nat (u - sp) else peek p u) as Hp' by exact Hp.
  split; [split|].
  - destruct Hr' as [? ? Hl Hi]. by split.
  - unfold p', set_sp, set_cx. simpl. destruct (p_tcb p); simpl in *. by rewrite length_insert.
  - done.
  - done.
  - rewrite Esp. intros u Hu. rewrite Hp' by lia. rewrite bool_decide_eq_false_2 by lia. apply Hz. lia.
  - rewrite Esp. intros i Hi. rewrite Hp' by lia. unfold st'. case_bool_decide as Hin.
    + rewrite lookup_app_l by lia. f_equal. lia.
    + rewrite lookup_app_r by lia. destruct (decide (i - length bs < pad)%nat) as [Hpad|Hpad].
      * rewrite lookup_app_l by (rewrite length_replicate; lia). rewrite lookup_replicate_2 by done. apply Hz. lia.
      * rewrite lookup_app_r by (rewrite length_replicate; lia). rewrite length_replicate, <- Hd by lia. f_equal. lia.
  - unfold pushed, p', set_sp, set_cx. simpl. by destruct (p_tcb p).
Qed.

(** A string on the stack: at least one zero follows it. *)
Definition str_pad (bs : list Z) : nat := Z.to_nat (alignup (Z.of_nat (length bs) + 1) 8) - length bs.
Definition str_block (bs : list Z) : list Z := bs ++ replicate (str_pad bs) 0.

Lemma str_block_length bs :
  Z.of_nat (length bs) + 9 < MAX64 →
  Z.of_nat (length (str_block bs)) = alignup (Z.of_nat (length bs) + 1) 8 ∧ (0 < str_pad bs)%nat ∧
  Z.of_nat (length (str_block bs)) ≤ Z.of_nat (length bs) + 8 ∧ Z.of_nat (length (str_block bs)) mod 8 = 0.
Proof.
  intros Hb. unfold str_block. rewrite length_app, length_replicate. unfold str_pad, alignup.
  pose proof (div_ceil_spec (Z.of_nat (length bs) + 1) 8 ltac:(lia) ltac:(lia)) as Hc.
  rewrite wmul_small by word_lia. split_and!; try lia.
  replace (Z.of_nat (length bs + (Z.to_nat (div_ceil (Z.of_nat (length bs) + 1) 8 * 8) - length bs)))
    with (div_ceil (Z.of_nat (length bs) + 1) 8 * 8) by lia. by apply Z.mod_mul.
Qed.

Lemma stack_bound T lo n fr st p : stack_is T lo n fr st p → 0 ≤ lo ∧ lo + n * PAGE_SIZE < 2 ^ 38.
Proof. intros [[_ (_ & ? & ?) _ _] _ _ _ _ _]. done. Qed.

Lemma push_arr_spec T lo n fr st p bs :
  stack_is T lo n fr st p → Z.of_nat (length (str_block bs ++ st)) ≤ n * PAGE_SIZE →
  ∃ p', push_arr bs p = Val (lo + n * PAGE_SIZE - Z.of_nat (length (str_block bs ++ st)), p') ∧
    stack_is T lo n fr (str_block bs ++ st) p' ∧ pushed p p'.
Proof.
  intros Hs Hn. pose proof (stack_bound _ _ _ _ _ _ Hs) as Hb. rewrite length_app in Hn. unfold str_block in Hn at 1. rewrite length_app in Hn.
  destruct (str_block_length bs) as (El & _ & _); [word_lia|].
  destruct (push_store T lo n fr st p bs (str_pad bs) Hs) as (w & E & Hs' & Hp).
  { rewrite !length_app. lia. }
  rewrite app_assoc in *. fold (str_block bs) in *. eexists. unfold push_arr.
  replace (get_sp p -w alignup (Z.of_nat (length bs) + 1) 8) with (lo + n * PAGE_SIZE - Z.of_nat (length (str_block bs ++ st))).
  - rewrite E. cbn [mbind outcome_bind]. split; [done|]. split; [exact Hs'|exact Hp].
  - rewrite (si_sp _ _ _ _ _ _ Hs), <- El, length_app. rewrite wsub_small; [lia|].
    unfold str_block. rewrite length_app. word_lia.
Qed.

Lemma push_num_spec T lo n fr st p num :
  stack_is T lo n fr st p → Z.of_nat (length st) + 8 ≤ n * PAGE_SIZE →
  ∃ p', push_num num p = Val (lo + n * PAGE_SIZE - Z.of_nat (length (le_bytes 8 num ++ st)), p') ∧
    stack_is T lo n fr (le_bytes 8 num ++ st) p' ∧ pushed p p'.
Proof.
  intros Hs Hn. pose proof (stack_bound _ _ _ _ _ _ Hs) as Hb.
  destruct (push_store T lo n fr st p (le_bytes 8 num) 0 Hs) as (w & E & Hs' & Hp).
  { rewrite !length_app, length_le_bytes. simpl. lia. }
  change (le_bytes 8 num ++ replicate 0 0 ++ st) with (le_bytes 8 num ++ st) in *. eexists. unfold push_num.
  replace (get_sp p -w 8) with (lo + n * PAGE_SIZE - Z.of_nat (length (le_bytes 8 num ++ st))).
  - rewrite E. cbn [mbind outcome_bind]. split; [done|]. split; [exact Hs'|exact Hp].
  - rewrite (si_sp _ _ _ _ _ _ Hs), length_app, length_le_bytes. rewrite wsub_small; [lia|]. word_lia.
Qed.

Lemma push_word_spec T lo n fr st p num :
  stack_is T lo n fr st p → Z.of_nat (length st) + 8 ≤ n * PAGE_SIZE →
  ∃ p', push_word num p = Val (tt, p') ∧ stack_is T lo n fr (le_bytes 8 num ++ st) p' ∧ pushed p p'.
Proof.
  intros Hs Hn. destruct (push_num_spec T lo n fr st p num Hs Hn) as (p' & E & ?). exists p'. unfold push_word. by rewrite E.
Qed.

(** *** Sequences of pushes *)
Fixpoint strs_on (l : list (list Z)) (st : list Z) : list Z :=
  match l with [] => st | x :: l => strs_on l (str_block x ++ st) end.
Fixpoint ptrs_on (hi : Z) (l : list (list Z)) (st : list Z) : list Z :=
  match l with [] => [] | x :: l => (hi - Z.of_nat (length (str_block x ++ st))) :: ptrs_on hi l (str_block x ++ st) end.

Lemma strs_on_grows l : ∀ st, (length st ≤ length (strs_on l st))%nat.
Proof. induction l as [|x l IH]; intros st; simpl; [done|]. specialize (IH (str_block x ++ st)). rewrite length_app in IH. lia. Qed.

Lemma strs_on_app l k st : strs_on (l ++ k) st = strs_on k (strs_on l st).
Proof. revert st. induction l as [|x l IH]; intros st; simpl; [done|apply IH]. Qed.

Lemma push_strs_spec T lo n fr l : ∀ st p,
  stack_is T lo n fr st p → Z.of_nat (length (strs_on l st)) ≤ n * PAGE_SIZE →
  ∃ p', st_map push_str l p = Val (ptrs_on (lo + n * PAGE_SIZE) l st, p') ∧ stack_is T lo n fr (strs_on l st) p' ∧ pushed p p'.
Proof.
  induction l as [|x l IH]; intros st p Hs Hn; cbn [strs_on ptrs_on st_map] in *.
  { exists p. split; [done|]. by split. }
  pose proof (strs_on_grows l (str_block x ++ st)) as Hg.
  destruct (push_arr_spec T lo n fr st p x Hs) as (p1 & E1 & Hs1 & Hp1); [lia|].
  destruct (IH _ _ Hs1 Hn) as (p2 & E2 & Hs2 & Hp2). exists p2. unfold mbind, st_bind, push_str in *. rewrite E1, E2.
  split; [done|]. split; [done|by eapply pushed_trans].
Qed.

Lemma push_nums_spec T lo n fr l : ∀ st p,
  stack_is T lo n fr st p → Z.of_nat (length st) + 8 * Z.of_nat (length l) ≤ n * PAGE_SIZE →
  ∃ p', st_iter push_word l p = Val (tt, p') ∧ stack_is T lo n fr (words (rev l) ++ st) p' ∧ pushed p p'.
Proof.
  induction l as [|x l IH]; intros st p Hs Hn; cbn [st_iter length rev] in *.
  { exists p. split; [done|]. by split. }
  destruct (push_word_spec T lo n fr st p x Hs) as (p1 & E1 & Hs1 & Hp1); [lia|].
  destruct (IH _ _ Hs1) as (p2 & E2 & Hs2 & Hp2); [rewrite length_app, length_le_bytes; lia|].
  exists p2. unfold mbind, st_bind in *. rewrite E1, E2. split; [done|]. split; [|by eapply pushed_trans].
  by rewrite words_app, words_cons, <- !app_assoc.
Qed.

(** The auxiliary vector as it lies in memory. *)
Definition flat_aux (l : list (Z * Z)) : list Z := concat ((λ x, [x.1; x.2]) <$> l).

Lemma push_aux_spec T lo n fr l : ∀ st p,
  stack_is T lo n fr st p → Z.of_nat (length st) + 16 * Z.of_nat (length l) ≤ n * PAGE_SIZE →
  ∃ p', st_iter push_pair l p = Val (tt, p') ∧
    stack_is T lo n fr (words (flat_aux (rev l)) ++ st) p' ∧ pushed p p'.
Proof.
  induction l as [|x l IH]; intros st p Hs Hn; cbn [st_iter length rev] in *.
  { exists p. split; [done|]. by split. }
  destruct (push_word_spec T lo n fr st p x.2 Hs) as (p1 & E1 & Hs1 & Hp1); [lia|].
  destruct (push_word_spec T lo n fr _ p1 x.1 Hs1) as (p2 & E2 & Hs2 & Hp2); [rewrite length_app, length_le_bytes; lia|].
  destruct (IH _ _ Hs2) as (p3 & E3 & Hs3 & Hp3); [rewrite !length_app, !length_le_bytes; lia|].
  exists p3. unfold mbind, st_bind, push_pair at 1. rewrite E1. cbn [mbind outcome_bind]. rewrite E2, E3. split; [done|].
  split; [|eapply pushed_trans; [exact Hp1|by eapply pushed_trans]].
  unfold flat_aux. rewrite fmap_app, concat_app, words_app, <- app_assoc.
  change (concat ((λ x : Z * Z, [x.1; x.2]) <$> [x])) with [x.1; x.2]. by rewrite !words_cons, <- !app_assoc.
Qed.

(** *** Reading the stack *)
Lemma stack_read T lo n fr pre x post p :
  stack_is T lo n fr (pre ++ x ++ post) p →
  user_read p (lo + n * PAGE_SIZE - Z.of_nat (length (x ++ post))) (length x) = Some x.
Proof.
  intros [_ _ Hsp _ _ Hd]. apply user_read_spec. intros i Hk. destruct (lookup_lt_is_Some_2 x i Hk) as [b Hb]. rewrite Hb.
  specialize (Hd (length pre + i)%nat). rewrite !length_app in *. rewrite Hsp in Hd.
  rewrite lookup_app_r in Hd by lia. replace (length pre + i - length pre)%nat with i in Hd by lia.
  rewrite lookup_app_l, Hb in Hd by lia. rewrite <- Hd by lia.
  unfold peek. f_equal. lia.
Qed.

Lemma ptrs_on_lookup hi l : ∀ st i a x,
  ptrs_on hi l st !! i = Some a → l !! i = Some x →
  ∃ pre post, strs_on l st = pre ++ str_block x ++ post ∧ a = hi - Z.of_nat (length (str_block x ++ post)).
Proof.
  induction l as [|y l IH]; intros st i a x Ha Hx; [done|]. destruct i as [|i]; simpl in *.
  - injection Ha as <-. injection Hx as <-. exists (take (length (strs_on l (str_block y ++ st)) - length (str_block y ++ st)) (strs_on l (str_block y ++ st))), st.
    split; [|done]. assert (∃ pre, strs_on l (str_block y ++ st) = pre ++ str_block y ++ st) as [pre ->].
    { generalize (str_block y ++ st). clear. induction l as [|z l IH]; intros st; [by exists []|]. simpl.
      destruct (IH (str_block z ++ st)) as [pre ->]. exists (pre ++ str_block z). by rewrite app_assoc. }
    f_equal. rewrite (length_app pre), Nat.add_sub. by rewrite take_app_length.
  - by apply (IH _ i).
Qed.

Lemma length_ptrs_on hi l : ∀ st, length (ptrs_on hi l st) = length l.
Proof. induction l as [|x l IH]; intros st; simpl; [done|]. by rewrite IH. Qed.

Lemma ptrs_on_app hi l k : ∀ st, ptrs_on hi (l ++ k) st = ptrs_on hi l st ++ ptrs_on hi k (strs_on l st).
Proof. induction l as [|x l IH]; intros st; simpl; [done|]. by rewrite IH. Qed.

(** Room for a list of strings with their padding. *)
Definition strings_size (l : list (list Z)) : Z := foldr (λ s n, Z.of_nat (length s) + 8 + n) 0 l.

Lemma strings_size_app l k : strings_size (l ++ k) = strings_size l + strings_size k.
Proof. unfold strings_size. induction l as [|x l IH]; simpl; [done|]. rewrite IH. lia. Qed.

Lemma strings_size_rev l : strings_size (rev l) = strings_size l.
Proof. induction l as [|x l IH]; [done|]. simpl. rewrite strings_size_app, IH. simpl. lia. Qed.

Lemma strings_size_nonneg l : 0 ≤ strings_size l.
Proof. unfold strings_size. induction l; simpl; lia. Qed.

Lemma strs_on_size l : ∀ st, strings_size l + 9 < MAX64 →
  Z.of_nat (length (strs_on l st)) ≤ strings_size l + Z.of_nat (length st) ∧
  Z.of_nat (length (strs_on l st)) mod 8 = Z.of_nat (length st) mod 8.
Proof.
  induction l as [|x l IH]; intros st Hb; cbn [strs_on]; [simpl; lia|].
  pose proof (strings_size_nonneg l) as Hl. change (strings_size (x :: l)) with (Z.of_nat (length x) + 8 + strings_size l) in *.
  destruct (IH (str_block x ++ st)) as [H1 H2]; [lia|]. destruct (str_block_length x) as (_ & _ & Hx & Hm); [lia|].
  rewrite length_app in *. split; [lia|]. rewrite H2, Nat2Z.inj_add, Z.add_mod, Hm, Z.add_0_l, Z.mod_mod by lia. done.
Qed.

(** A string on the stack reads back, followed by a zero. *)
Lemma string_on_stack T lo n fr vec l p i a x :
  stack_is T lo n fr (vec ++ strs_on l []) p → strings_size l + 9 < MAX64 →
  ptrs_on (lo + n * PAGE_SIZE) l [] !! i = Some a → l !! i = Some x →
  user_read p a (length x + 1) = Some (x ++ [0]).
Proof.
  intros Hs Hb Ha Hx. destruct (ptrs_on_lookup _ _ _ _ _ _ Ha Hx) as (pre & post & E & ->). rewrite E in Hs.
  assert (0 < str_pad x)%nat as Hp.
  { apply str_block_length. apply list_elem_of_lookup_2 in Hx. clear - Hb Hx. revert Hb. induction Hx as [x l|x y l Hx IH]; intros Hb.
    - change (strings_size (x :: l)) with (Z.of_nat (length x) + 8 + strings_size l) in Hb. pose proof (strings_size_nonneg l). lia.
    - change (strings_size (y :: l)) with (Z.of_nat (length y) + 8 + strings_size l) in Hb. apply IH. lia. }
  assert (str_block x = (x ++ [0]) ++ replicate (str_pad x - 1) 0) as Eb.
  { unfold str_block. destruct (str_pad x) as [|k]; [lia|]. rewrite <- app_assoc. simpl. by rewrite Nat.sub_0_r. }
  rewrite Eb, <- app_assoc. replace (length x + 1)%nat with (length (x ++ [0])) by (by rewrite length_app).
  rewrite Eb, <- app_assoc, app_assoc in Hs. by eapply stack_read.
Qed.

(** *** Pushing everything *)
Definition stack_strings (libc_path : string) (args : list (list Z)) (path : list Z) : list (list Z) :=
  rev (init_envp libc_path) ++ rev args ++ [replicate 16 0; str_bytes "riscv"; path].

(** The words below the strings, as a program finds them at its stack pointer. *)
Definition start_words (argp envp : list Z) (aux : list (Z * Z)) : list Z :=
  [Z.of_nat (length argp)] ++ argp ++ [0] ++ envp ++ [0] ++ flat_aux (rev aux) ++ [0].

Lemma push_vectors_spec T lo n fr libc_path args path base entry_point ph_count ph_entry_size ph_addr p :
  let l := stack_strings libc_path args path in
  stack_is T lo n fr [] p → strings_size l + 8 * (Z.of_nat (length args) + 34) ≤ n * PAGE_SIZE →
  ∃ envp argp random platform execfn p',
    let aux := auxv_of base entry_point ph_count ph_entry_size ph_addr platform execfn random in
    push_vectors libc_path args path base entry_point ph_count ph_entry_size ph_addr p = Val (tt, p') ∧
    ptrs_on (lo + n * PAGE_SIZE) l [] = envp ++ argp ++ [random; platform; execfn] ∧
    length envp = 4%nat ∧ length argp = length args ∧
    stack_is T lo n fr (words (start_words (rev argp) (rev envp) aux) ++ strs_on l []) p' ∧ pushed p p'.
Proof.
  intros l Hs Hn. pose proof (stack_bound _ _ _ _ _ _ Hs) as Hb. set (hi := lo + n * PAGE_SIZE).
  assert (n * PAGE_SIZE < 2 ^ 38) as Hsz by lia.
  destruct (strs_on_size l []) as [Hst _]; [word_lia|]. cbn [length] in Hst. rewrite Z.add_0_r in Hst.
  assert (strs_on l [] = str_block path ++ str_block (str_bytes "riscv") ++ str_block (replicate 16 0) ++
            strs_on (rev args) (strs_on (rev (init_envp libc_path)) [])) as El.
  { unfold l, stack_strings. by rewrite !strs_on_app. }
  pose proof (strs_on_grows (rev args) (strs_on (rev (init_envp libc_path)) [])) as Hg.
  rewrite El in Hst. rewrite !length_app in Hst.
  destruct (push_strs_spec T lo n fr (rev (init_envp libc_path)) [] p Hs) as (p1 & E1 & Hs1 & Hp1); [lia|].
  destruct (push_strs_spec T lo n fr (rev args) _ p1 Hs1) as (p2 & E2 & Hs2 & Hp2); [lia|].
  set (envp := ptrs_on _ (rev (init_envp _)) _) in *. set (argp := ptrs_on _ (rev args) _) in *.
  destruct (push_arr_spec T lo n fr _ p2 (replicate 16 0) Hs2) as (p3 & E3 & Hs3 & Hp3); [rewrite !length_app; lia|].
  destruct (push_arr_spec T lo n fr _ p3 (str_bytes "riscv") Hs3) as (p4 & E4 & Hs4 & Hp4); [rewrite !length_app; lia|].
  destruct (push_arr_spec T lo n fr _ p4 path Hs4) as (p5 & E5 & Hs5 & Hp5); [rewrite !length_app; lia|].
  set (random := lo + _ - _) in E3. set (platform := lo + _ - _) in E4. set (execfn := lo + _ - _) in E5.
  rewrite <- El in Hs5. assert (Z.of_nat (length (strs_on l [])) ≤ strings_size l) as Hst' by (rewrite El, !length_app; lia).
  set (aux := auxv_of base entry_point ph_count ph_entry_size ph_addr platform execfn random).
  assert (length envp = 4%nat) as Le by (unfold envp; rewrite length_ptrs_on; by rewrite length_rev).
  assert (length argp = length args) as La by (unfold argp; rewrite length_ptrs_on; by rewrite length_rev).
  destruct (push_word_spec T lo n fr _ p5 0 Hs5) as (p6 & E6 & Hs6 & Hp6); [lia|].
  destruct (push_aux_spec T lo n fr aux _ p6 Hs6) as (p7 & E7 & Hs7 & Hp7); [rewrite length_app, length_le_bytes; change (length aux) with 13%nat; lia|].
  assert (length (words (flat_aux (rev aux))) = 208%nat) as Lx by (by rewrite length_words).
  destruct (push_word_spec T lo n fr _ p7 0 Hs7) as (p8 & E8 & Hs8 & Hp8); [rewrite !length_app, !length_le_bytes; lia|].
  destruct (push_nums_spec T lo n fr envp _ p8 Hs8) as (p9 & E9 & Hs9 & Hp9); [rewrite !length_app, !length_le_bytes; lia|].
  destruct (push_word_spec T lo n fr _ p9 0 Hs9) as (p10 & E10 & Hs10 & Hp10);
    [rewrite !length_app, !length_le_bytes, length_words, length_rev; lia|].
  destruct (push_nums_spec T lo n fr argp _ p10 Hs10) as (p11 & E11 & Hs11 & Hp11);
    [rewrite !length_app, !length_le_bytes, length_words, length_rev; lia|].
  destruct (push_word_spec T lo n fr _ p11 (Z.of_nat (length argp)) Hs11) as (p12 & E12 & Hs12 & Hp12);
    [rewrite !length_app, !length_le_bytes, Lx, !length_words, !length_rev; lia|].
  exists envp, argp, random, platform, execfn, p12. split.
  { unfold push_vectors, mbind, st_bind, push_str in *. rewrite E1, E2, E3, E4, E5, E6. fold aux. rewrite E7, E8, E9, E10, E11. exact E12. }
  split; [unfold l, stack_strings; rewrite !ptrs_on_app; reflexivity|]. split; [done|]. split; [done|]. split.
  - unfold start_words. rewrite !words_app. rewrite <- !app_assoc. fold aux. rewrite length_rev. exact Hs12.
  - repeat (eapply pushed_trans; [eassumption|]). by split.
Qed.

(** *** Mapping the stack *)
Definition frames_from (f0 k : Z) : Z := f0 + k * PAGE_SIZE.

Lemma evolves_trans_empty T ph T1 ph1 T2 ph2 :
  evolves ∅ T ph T1 ph1 → evolves ∅ T1 ph1 T2 ph2 → evolves ∅ T ph T2 ph2.
Proof. intros H1 H2. rewrite <- (union_idemp_L ∅). by eapply evolves_trans. Qed.

Lemma same_page_aligned v v' : v mod PAGE_SIZE = 0 → v' mod PAGE_SIZE = 0 → same_page v v' → v = v'.
Proof.
  unfold same_page, PAGE_SIZE. intros H1 H2 E. pose proof (Z.div_mod v 4096 ltac:(lia)). pose proof (Z.div_mod v' 4096 ltac:(lia)). lia.
Qed.

Definition mappable (x : MapTrack) : Prop :=
  user_addr (mt_vaddr x) ∧ mt_vaddr x mod PAGE_SIZE = 0 ∧ frame_ok (mt_tracker x).

Lemma map_list_spec flags l : ∀ T (p : Proc S H),
  world_ok T (p_world p) → Forall mappable l → NoDup (mt_vaddr <$> l) →
  (2 * length l ≤ size (fa_free (ph_alloc (w_phys (p_world p)))))%nat →
  ∃ T' w', st_iter (λ x, task_map (mt_tracker x) (mt_vaddr x) flags) l p = Val (tt, set_world w' p) ∧ world_ok T' w' ∧
    w_rc w' = w_rc (p_world p) ∧ evolves ∅ T (w_phys (p_world p)) T' (w_phys w') ∧
    (∀ x, x ∈ l → leaf T' (w_phys w') (mt_vaddr x) = pte_new_page (mt_tracker x) (pte_flags_of flags)) ∧
    (∀ v, user_addr v → v mod PAGE_SIZE = 0 → v ∉ (mt_vaddr <$> l) → leaf T' (w_phys w') v = leaf T (w_phys (p_world p)) v).
Proof.
  induction l as [|x l IH]; intros T p Hw Hl Hnd Hf.
  { exists T, (p_world p). assert (set_world (p_world p) p = p) as -> by (by destruct p).
    split_and!; try done; [apply evolves_refl|by intros x Hx%not_elem_of_nil]. }
  apply Forall_cons in Hl as [(Hv & Ha & Hok) Hl]. rewrite fmap_cons in Hnd. apply NoDup_cons in Hnd as [Hx Hnd]. cbn [length] in Hf.
  destruct (task_map_spec T (mt_tracker x) (mt_vaddr x) flags p) as (T1 & w1 & E1 & Hw1 & _ & _ & Hrc1 & Hev1 & Hl1 & Hs1); [done..|lia|].
  destruct (IH T1 (set_world w1 p)) as (T' & w' & E & Hw' & Hrc' & Hev & Hin & Hout); [done|done|done|simpl in *; lia|].
  exists T', w'. cbn [st_iter]. unfold mbind, st_bind. rewrite E1. split; [exact E|]. simpl in *. split; [done|]. split; [congruence|].
  split; [by eapply evolves_trans_empty|]. split.
  - intros y [->|Hy]%elem_of_cons; [|by apply Hin]. rewrite Hout, Hl1 by done. by rewrite bool_decide_eq_true_2.
  - intros v Hu Hva [Hne Hv']%not_elem_of_cons. rewrite Hout, Hl1 by done. rewrite bool_decide_eq_false_2; [done|].
    intros Hsp. by apply Hne, same_page_aligned.
Qed.

Lemma track_run_lookup lo n f0 i x :
  0 < lo → lo + n * PAGE_SIZE < 2 ^ 38 →
  track_run lo (page_run f0 n) !! i = Some x ↔
  ∃ k, 0 ≤ k < n ∧ i = Z.to_nat k ∧ x = mkMapTrack (lo + k * PAGE_SIZE) (f0 + k * PAGE_SIZE) 0.
Proof.
  intros Hlo Hhi. unfold track_run, page_run. rewrite list_lookup_imap. setoid_rewrite fmap_Some.
  assert (lo =? 0 = false) as -> by lia. setoid_rewrite list_lookup_fmap. setoid_rewrite fmap_Some. setoid_rewrite lookup_seq.
  assert (∀ k, 0 ≤ k < n → lo +w k *w PAGE_SIZE = lo + k * PAGE_SIZE) as Hw.
  { intros k Hk. unfold PAGE_SIZE in *. rewrite wmul_small, wadd_small by word_lia. done. }
  split.
  - intros (f & (k & [-> Hk] & ->) & ->). exists (Z.of_nat i). split; [lia|]. split; [lia|]. rewrite Hw by lia. f_equal; lia.
  - intros (k & Hk & -> & ->). exists (f0 + k * PAGE_SIZE). split; [|rewrite Z2Nat.id, Hw by lia; done].
    exists (Z.to_nat k). split; [lia|]. rewrite Z2Nat.id by lia. done.
Qed.

Lemma elem_of_track_run lo n f0 x :
  0 < lo → lo + n * PAGE_SIZE < 2 ^ 38 →
  x ∈ track_run lo (page_run f0 n) ↔ ∃ k, 0 ≤ k < n ∧ x = mkMapTrack (lo + k * PAGE_SIZE) (f0 + k * PAGE_SIZE) 0.
Proof.
  intros Hlo Hhi. rewrite list_elem_of_lookup. setoid_rewrite track_run_lookup; [|done|done]. naive_solver.
Qed.

Lemma track_run_mappable lo n f0 :
  lo mod PAGE_SIZE = 0 → 0 < lo → lo + n * PAGE_SIZE < 2 ^ 38 → 0 < n → Forall frame_ok (page_run f0 n) →
  Forall mappable (track_run lo (page_run f0 n)) ∧ NoDup (mt_vaddr <$> track_run lo (page_run f0 n)) ∧
  length (track_run lo (page_run f0 n)) = Z.to_nat n ∧
  filter (λ x, mt_vaddr x ≠ 0) (track_run lo (page_run f0 n)) = track_run lo (page_run f0 n).
Proof.
  intros Ha Hlo Hhi Hn Hok. pose proof (elem_of_track_run lo n f0) as Hl. split_and!.
  - apply Forall_forall. intros x (k & Hk & ->)%Hl; [|done|done]. split_and!; simpl.
    + unfold user_addr, PAGE_SIZE in *. lia.
    + by rewrite Z.mod_add.
    + apply (proj1 (Forall_forall frame_ok (page_run f0 n)) Hok), elem_of_page_run; [lia|eauto].
  - apply NoDup_fmap_2_strong.
    + intros x y (k & Hk & ->)%Hl (j & Hj & ->)%Hl E; try done. simpl in E. assert (k = j) as -> by (unfold PAGE_SIZE in E; lia). done.
    + apply NoDup_alt. intros i j x Hi Hj. apply track_run_lookup in Hi as (k & ? & -> & ->); [|done|done].
      apply track_run_lookup in Hj as (m & ? & -> & E); [|done|done]. injection E as E _. unfold PAGE_SIZE in E. f_equal. lia.
  - unfold track_run. rewrite length_imap. pose proof (length_page_run f0 n). lia.
  - apply filter_all. intros x (k & Hk & ->)%Hl; [|done|done]. simpl. unfold PAGE_SIZE. lia.
Qed.

(** Fresh frames mapped as a run of zeroed writable pages. *)
Lemma fresh_run T (p : Proc S H) lo n f0 w1 :
  world_ok T (p_world p) → lo mod PAGE_SIZE = 0 → 0 < lo → lo + n * PAGE_SIZE < 2 ^ 38 → 0 < n →
  alloc_frames n (p_world p) = Val (Some (page_run f0 n), w1) → 2 * n ≤ Z.of_nat (size (fa_free (ph_alloc (w_phys w1)))) →
  ∃ T' w', map_trackers lo (track_run lo (page_run f0 n)) MF_URWX (set_world w1 p) = Val (tt, set_world w' p) ∧
    run_ok T' lo n (frames_from f0) (set_world w' p) ∧ ∀ u, lo ≤ u < lo + n * PAGE_SIZE → peek (set_world w' p) u = Some 0.
Proof.
  intros Hw Ha Hlo Hhi Hn E1 Hfree.
  destruct (alloc_frames_spec T n (p_world p) Hw Hn) as (res & w1' & E1' & Hw1 & _ & _ & _ & Hram & Hres).
  rewrite E1 in E1'. injection E1' as <- <-. destruct Hres as (_ & Hin & Hfr & Hok & Hrc).
  destruct (track_run_mappable lo n f0) as (Hmp & Hnd & Hlen & Hfl); [done..|].
  assert (∀ k, 0 ≤ k < n → f0 + k * PAGE_SIZE ∈ page_run f0 n) as Hrun by (intros k Hk; apply elem_of_page_run; [lia|eauto]).
  destruct (map_list_spec MF_URWX (track_run lo (page_run f0 n)) T (set_world w1 p)) as (T' & w' & E2 & Hw' & Hrc' & Hev & Hleaf & _);
    [done|done|done|simpl; lia|]. simpl in Hrc', Hev.
  assert (∀ k, 0 ≤ k < n → ph_ram (w_phys w') !! (f0 + k * PAGE_SIZE) = Some zero_page ∧ strong_count (f0 + k * PAGE_SIZE) w' = 1%nat) as Hz.
  { intros k Hk. assert (w_rc w1 !! (f0 + k * PAGE_SIZE) = Some 1%nat) as Hc by (rewrite Hrc, bool_decide_eq_true_2; auto).
    destruct (wo_rc _ _ Hw1 _ _ Hc) as (_ & _ & Hnf & Hnt). split.
    - rewrite (ev_ram _ _ _ _ _ Hev), Hram by (done || apply not_elem_of_empty). apply (pi_zero _ _ _ (wo_pt _ _ Hw)).
      apply Hin, elem_of_list_to_set; auto.
    - unfold strong_count. by rewrite Hrc', Hc. }
  assert (run_ok T' lo n (frames_from f0) (set_world w' p)) as Hr.
  { split; [done|split_and!; lia| |intros j k _ _; unfold frames_from, PAGE_SIZE; lia].
    intros k Hk. destruct (Hz k Hk) as [Hz1 Hz2]. unfold frames_from. split_and!.
    - exists MF_URWX. split; [done|]. split; [done|].
      refine (Hleaf (mkMapTrack (lo + k * PAGE_SIZE) (f0 + k * PAGE_SIZE) 0) _). apply elem_of_track_run; eauto.
    - by apply (Forall_forall frame_ok (page_run f0 n)); [|apply Hrun].
    - simpl. rewrite Hz2. lia.
    - exists zero_page. split; [exact Hz1|]. unfold zero_page. apply length_replicate. }
  exists T', w'. split; [|split; [exact Hr|]].
  - unfold map_trackers. assert (lo =? 0 = false) as -> by lia. by rewrite Hfl, E2.
  - intros u Hun. destruct (run_page lo n u Ha Hun) as (k & o & Hk & Ho & -> & _ & _). rewrite (run_peek T' lo n (frames_from f0)) by done.
    destruct (Hz k Hk) as [Hz1 _]. unfold frames_from. simpl. rewrite Hz1. simpl. unfold zero_page. rewrite lookup_replicate_2; [done|].
    unfold PAGE_SIZE in *. lia.
Qed.

Lemma first_frame_run f0 n : 0 < n → first_frame (page_run f0 n) = Val f0.
Proof. intros Hn. unfold first_frame, page_run. destruct (Z.to_nat n) eqn:En; [lia|]. simpl. by rewrite Z.add_0_r. Qed.

(** [n] fresh zeroed pages below the top of the stack. *)
Lemma stack_frames_spec T (p : Proc S H) lo n ps w1 :
  world_ok T (p_world p) → pcb_memset (p_pcb p) = [] → lo mod PAGE_SIZE = 0 → 0 < lo → lo + n * PAGE_SIZE < 2 ^ 38 → 0 < n →
  alloc_frames n (p_world p) = Val (Some ps, w1) → 2 * n ≤ Z.of_nat (size (fa_free (ph_alloc (w_phys w1)))) →
  ∃ f0 T' w', task_frame_alloc lo Stack n p =
      Val (Some f0, map_pcb (with_memset [mkMemArea Stack (track_run lo ps) None 0 0x70000000 0x10000000]) (set_world w' p)) ∧
    run_ok T' lo n (frames_from f0) (set_world w' p) ∧ ∀ u, lo ≤ u < lo + n * PAGE_SIZE → peek (set_world w' p) u = Some 0.
Proof.
  intros Hw Hm Ha Hlo Hhi Hn E1 Hfree.
  destruct (alloc_frames_spec T n (p_world p) Hw Hn) as (res & w1' & E1' & _ & _ & _ & _ & _ & Hres).
  rewrite E1 in E1'. injection E1' as <- <-. destruct Hres as ([f0 ->] & _).
  destruct (fresh_run T p lo n f0 w1) as (T' & w' & E2 & Hr & Hz); [done..|].
  exists f0, T', w'. split; [|by split].
  unfold task_frame_alloc, map_frames, k_world. rewrite bool_decide_eq_false_2 by done.
  cbn [andb type_flags]. rewrite (proj2 (Z.ltb_lt _ _) Hn). cbn [assert_ mbind outcome_bind]. rewrite E1. cbn [mbind outcome_bind].
  rewrite E2. cbn [mbind outcome_bind]. rewrite first_frame_run by done. cbn [mbind outcome_bind]. rewrite decide_True by done.
  change (pcb_memset (p_pcb (set_world w' p))) with (pcb_memset (p_pcb p)). rewrite Hm. simpl. unfold push_area. simpl. by rewrite Hm.
Qed.

(** *** The whole stack *)
(** What a program finds at its stack pointer: the argument count, the
    arguments, the environment and the auxiliary vector, every pointer leading
    to its string. *)
Record start_stack (libc_path : string) (args : list (list Z)) (path : list Z) (auxv : Z → Z → Z → list (Z * Z)) (p : Proc S H) : Prop := {
  ss_words : ∃ argp envp random platform execfn,
    let ws := start_words argp envp (auxv platform execfn random) in
    user_read p (get_sp p) (8 * length ws) = Some (words ws) ∧
    length argp = length args ∧ (∀ i a s, argp !! i = Some a → args !! i = Some s → user_read p a (length s + 1) = Some (s ++ [0])) ∧
    length envp = length (init_envp libc_path) ∧
    (∀ i a s, envp !! i = Some a → init_envp libc_path !! i = Some s → user_read p a (length s + 1) = Some (s ++ [0])) ∧
    user_read p random 17 = Some (replicate 17 0) ∧ user_read p platform 6 = Some (str_bytes "riscv" ++ [0]) ∧
    user_read p execfn (length path + 1) = Some (path ++ [0]);
  ss_aligned : get_sp p mod 8 = 0
}.

Lemma rev_lookup {A} (l : list A) i : (i < length l)%nat → rev l !! i = l !! (length l - Datatypes.S i)%nat.
Proof. rewrite rev_alt. apply reverse_lookup. Qed.

Lemma rev_lookup_pair {A B} (l : list A) (k : list B) i a s :
  length l = length k → rev l !! i = Some a → k !! i = Some s → ∃ j, l !! j = Some a ∧ rev k !! j = Some s.
Proof.
  intros Hlen Ha Hs. apply lookup_lt_Some in Hs as Hi. exists (length l - Datatypes.S i)%nat.
  rewrite rev_lookup in Ha by lia. split; [done|]. rewrite rev_lookup by lia. rewrite <- Hs. f_equal. lia.
Qed.

(** Reading back through pointers that were pushed in reverse. *)
Lemma vector_reads T lo n fr vec l p pre k post ptrs before after :
  stack_is T lo n fr (vec ++ strs_on l []) p → strings_size l + 9 < MAX64 → l = pre ++ rev k ++ post →
  ptrs_on (lo + n * PAGE_SIZE) l [] = before ++ ptrs ++ after → length before = length pre → length ptrs = length k →
  ∀ i a s, rev ptrs !! i = Some a → k !! i = Some s → user_read p a (length s + 1) = Some (s ++ [0]).
Proof.
  intros Hs Hb El Ep Hlen Hk i a s Ha Hx. destruct (rev_lookup_pair _ _ _ _ _ Hk Ha Hx) as (j & Hj & Hj').
  apply lookup_lt_Some in Hj as Hlj. apply lookup_lt_Some in Hj' as Hlj'.
  apply (string_on_stack T lo n fr vec l p (length pre + j) a s Hs Hb).
  - rewrite Ep, lookup_app_r by lia. rewrite lookup_app_l by lia. rewrite <- Hj. f_equal. lia.
  - rewrite El, lookup_app_r by lia. rewrite lookup_app_l by lia. rewrite <- Hj'. f_equal. lia.
Qed.

Lemma start_stack_intro T lo n fr libc_path args path auxv envp argp random platform execfn p :
  let l := stack_strings libc_path args path in
  stack_is T lo n fr (words (start_words (rev argp) (rev envp) (auxv platform execfn random)) ++ strs_on l []) p →
  strings_size l ≤ n * PAGE_SIZE → lo mod 8 = 0 →
  ptrs_on (lo + n * PAGE_SIZE) l [] = envp ++ argp ++ [random; platform; execfn] → length envp = 4%nat → length argp = length args →
  start_stack libc_path args path auxv p.
Proof.
  intros l Hs Hsz Hlo Hp Le La. pose proof (stack_bound _ _ _ _ _ _ Hs) as Hb.
  assert (strings_size l + 9 < MAX64) as Hm by word_lia.
  assert (∀ i a s, [random; platform; execfn] !! i = Some a → [replicate 16 0; str_bytes "riscv"; path] !! i = Some s →
    user_read p a (length s + 1) = Some (s ++ [0])) as Hlast.
  { intros i a s Ha Hx. apply (string_on_stack T lo n fr _ l p (4 + length args + i) a s Hs Hm).
    - rewrite Hp, app_assoc, lookup_app_r by (rewrite length_app; lia). rewrite <- Ha. f_equal. rewrite length_app. lia.
    - unfold l, stack_strings. rewrite app_assoc, lookup_app_r by (rewrite length_app, !length_rev; simpl; lia).
      rewrite <- Hx. f_equal. rewrite length_app, !length_rev. simpl. lia. }
  split.
  - exists (rev argp), (rev envp), random, platform, execfn. cbv zeta. rewrite !length_rev. split_and!; try done.
    + rewrite <- (length_words (start_words _ _ _)).
      pose proof (stack_read T lo n fr [] _ _ p Hs) as Hr. rewrite (si_sp _ _ _ _ _ _ Hs). exact Hr.
    + eapply (vector_reads T lo n fr _ l p (rev (init_envp libc_path)) args _ argp envp); [done|done|reflexivity|exact Hp|by rewrite length_rev|done].
    + eapply (vector_reads T lo n fr _ l p [] (init_envp libc_path) _ envp []); [done|done|reflexivity|exact Hp|done|done].
    + by apply (Hlast 0%nat _ (replicate 16 0)).
    + by apply (Hlast 1%nat _ (str_bytes "riscv")).
    + by apply (Hlast 2%nat).
  - rewrite (si_sp _ _ _ _ _ _ Hs), length_app, length_words. destruct (strs_on_size l [] Hm) as [_ Hmod].
    change (Z.of_nat (length (@nil Z)) mod 8) with 0 in Hmod. apply Z.mod_divide in Hmod as [q Hq]; [|lia].
    apply Z.mod_divide in Hlo as [r Hr]; [|lia]. apply Z.mod_divide; [lia|].
    exists (r + n * 512 - Z.of_nat (length (start_words (rev argp) (rev envp) (auxv platform execfn random))) - q). unfold PAGE_SIZE. lia.
Qed.

(** C5: a program starts with the stack it expects.  When the strings and the
    vectors fit into the initial stack and its frames can be had,
    [init_task_stack] on an emptied address space maps the stack and leaves at
    the stack pointer the number of arguments, the argument pointers in order,
    a null pointer, the environment pointers, a null pointer and the auxiliary
    vector ended by a zero; reading through every pointer gives the string
    that was passed, followed by a zero; the stack pointer is a multiple of
    eight and the program counter is the entry point shifted by the load
    base. *)
Theorem exec_stack_roundtrip T (p : Proc S H) ps w1 libc_path args base path entry_point ph_count ph_entry_size ph_addr heap_bottom :
  world_ok T (p_world p) → pcb_memset (p_pcb p) = [] →
  alloc_frames 32 (p_world p) = Val (Some ps, w1) → 64 ≤ Z.of_nat (size (fa_free (ph_alloc (w_phys w1)))) →
  strings_size (stack_strings libc_path args path) + 8 * (Z.of_nat (length args) + 34) ≤ USER_STACK_INIT_SIZE →
  ∃ p', init_task_stack libc_path args base path entry_point ph_count ph_entry_size ph_addr heap_bottom p = Val (tt, p') ∧
    start_stack libc_path args path
      (λ platform execfn random, auxv_of base entry_point ph_count ph_entry_size ph_addr platform execfn random) p' ∧
    tf_sepc (tcb_cx (p_tcb p')) = base +w entry_point ∧ pcb_entry (p_pcb p') = base +w entry_point ∧
    pcb_heap (p_pcb p') = heap_bottom ∧ (∃ area, pcb_memset (p_pcb p') = [area] ∧ ma_mtype area = Stack).
Proof.
  intros Hw Hm E1 Hfree Hfit. set (lo := USER_STACK_TOP - USER_STACK_INIT_SIZE).
  destruct (stack_frames_spec T p lo 32 ps w1) as (f0 & T' & w' & E2 & Hr & Hz); [done|done|done|done|done|done|done|lia|].
  unfold init_task_stack. fold lo. change (USER_STACK_INIT_SIZE / PAGE_SIZE) with 32. rewrite E2. cbn [mbind outcome_bind].
  match goal with |- context [push_vectors _ _ _ _ _ _ _ _ ?q] => set (p0 := q) end.
  set (cx := tf_set (tf_set _ _ _) _ _) in p0. assert (tcb_cx (p_tcb p0) = cx) as Ecx by (unfold p0; simpl; by destruct (p_tcb p)).
  assert (get_sp p0 = USER_STACK_TOP) as Esp by (unfold get_sp; by rewrite Ecx).
  assert (stack_is T' lo 32 (frames_from f0) [] p0) as Hs.
  { split; [by destruct Hr; split|by rewrite Ecx|by rewrite Esp|done| |intros i Hi; simpl in Hi; lia].
    intros u Hu. refine (Hz u _). rewrite Esp in Hu. unfold lo, PAGE_SIZE, USER_STACK_INIT_SIZE in *. lia. }
  destruct (push_vectors_spec T' lo 32 (frames_from f0) libc_path args path base entry_point ph_count ph_entry_size ph_addr p0 Hs)
    as (envp & argp & random & platform & execfn & p' & E & Hp & Le & La & Hs' & [Hpcb Hsepc]); [exact Hfit|].
  exists p'. split; [exact E|]. split; [eapply (start_stack_intro T' lo 32 (frames_from f0)); [exact Hs'| |done|exact Hp|done|done]|].
  { change (32 * PAGE_SIZE) with USER_STACK_INIT_SIZE. lia. }
  rewrite Hpcb, Hsepc, Ecx. unfold p0. simpl. destruct (p_pcb p); simpl. split; [done|]. split; [done|]. split; [done|]. eauto.
Qed.

(** ** Segments *)
(** Frames for a new area that is not a stack. *)
Lemma mmap_frames_spec T (p : Proc S H) lo n ps w1 :
  world_ok T (p_world p) → lo mod PAGE_SIZE = 0 → 0 < lo → lo + n * PAGE_SIZE < 2 ^ 38 → 0 < n →
  alloc_frames n (p_world p) = Val (Some ps, w1) → 2 * n ≤ Z.of_nat (size (fa_free (ph_alloc (w_phys w1)))) →
  ∃ f0 T' w', task_frame_alloc lo Mmap n p = Val (Some f0, map_pcb
      (with_memset (pcb_memset (p_pcb p) ++ [mkMemArea Mmap (track_run lo ps) None 0 lo (n *w PAGE_SIZE)])) (set_world w' p)) ∧
    run_ok T' lo n (frames_from f0) (set_world w' p) ∧ ∀ u, lo ≤ u < lo + n * PAGE_SIZE → peek (set_world w' p) u = Some 0.
Proof.
  intros Hw Ha Hlo Hhi Hn E1 Hfree.
  destruct (alloc_frames_spec T n (p_world p) Hw Hn) as (res & w1' & E1' & _ & _ & _ & _ & _ & Hres).
  rewrite E1 in E1'. injection E1' as <- <-. destruct Hres as ([f0 ->] & _).
  destruct (fresh_run T p lo n f0 w1) as (T' & w' & E2 & Hr & Hz); [done..|].
  exists f0, T', w'. split; [|by split].
  unfold task_frame_alloc, map_frames, place_mmap, k_world. rewrite bool_decide_eq_true_2 by done. cbn [andb type_flags].
  destruct (1 <? n).
  - rewrite E1. cbn [mbind outcome_bind]. rewrite first_frame_run by done. cbn [mbind outcome_bind]. by rewrite E2.
  - rewrite (proj2 (Z.ltb_lt _ _) Hn). cbn [assert_ mbind outcome_bind]. rewrite E1. cbn [mbind outcome_bind]. rewrite E2.
    cbn [mbind outcome_bind]. rewrite first_frame_run by done. cbn [mbind outcome_bind]. by rewrite decide_False by done.
Qed.

(** Reading through the page table and reading the frames agree on a run. *)
Lemma run_reads T lo n f0 (p : Proc S H) v bs :
  run_ok T lo n (frames_from f0) p → lo ≤ v → v + Z.of_nat (length bs) ≤ lo + n * PAGE_SIZE → 0 ≤ f0 → f0 mod PAGE_SIZE = 0 →
  (∀ i, (i < length bs)%nat → peek p (v + Z.of_nat i) = bs !! i) →
  user_read p v (length bs) = Some bs ∧ phys_read (w_phys (p_world p)) (f0 + (v - lo)) (length bs) = Some bs.
Proof.
  intros Hr Hv Hn Hf0 Hf Hp. pose proof Hr as [_ (Hlo & _ & _) _ _]. split; [by apply user_read_spec|].
  apply mapM_Some_2, Forall2_same_length_lookup_2; [by rewrite length_seq|].
  intros i k b Hk Hb. apply lookup_seq in Hk as [-> Hk]. rewrite Nat.add_0_l.
  destruct (run_page lo n (v + Z.of_nat i) Hlo) as (k & o & Hk' & Ho & E & _ & _); [lia|].
  replace (f0 + (v - lo) + Z.of_nat i) with (f0 + k * PAGE_SIZE + o) by lia.
  specialize (Hp i Hk). rewrite E, (run_peek T lo n (frames_from f0)) in Hp by done. rewrite <- Hb, <- Hp.
  apply Z.mod_divide in Hf as [q Hq]; [|done]. unfold floor_page, frames_from.
  assert ((f0 + k * PAGE_SIZE + o) / PAGE_SIZE = q + k ∧ (f0 + k * PAGE_SIZE + o) mod PAGE_SIZE = o) as [-> ->].
  { replace (f0 + k * PAGE_SIZE + o) with (o + (q + k) * PAGE_SIZE) by lia. unfold PAGE_SIZE in *.
    rewrite Z.div_add, Z.mod_add, Z.div_small, Z.mod_small by lia. lia. }
  replace ((q + k) * PAGE_SIZE) with (f0 + k * PAGE_SIZE) by lia. done.
Qed.

(** The pages of a segment cover it. *)
Lemma segment_pages v m :
  0 ≤ v → 0 < m → v + m + PAGE_SIZE ≤ 2 ^ 38 →
  let n := div_ceil (v +w m) PAGE_SIZE -w v / PAGE_SIZE in
  0 < n ∧ floor_page v ≤ v < floor_page v + PAGE_SIZE ∧ v + m ≤ floor_page v + n * PAGE_SIZE < 2 ^ 38 ∧ v mod PAGE_SIZE = v - floor_page v.
Proof.
  intros Hv Hm Hb. cbv zeta. rewrite wadd_small by (unfold PAGE_SIZE in *; word_lia).
  pose proof (div_ceil_spec (v + m) PAGE_SIZE ltac:(lia) ltac:(done)) as Hc.
  pose proof (Z.div_mod v PAGE_SIZE ltac:(done)) as Hd. pose proof (Z.mod_pos_bound v PAGE_SIZE ltac:(done)) as Hmd.
  assert (0 ≤ v / PAGE_SIZE) by (apply Z.div_pos; unfold PAGE_SIZE in *; lia).
  unfold floor_page, PAGE_SIZE in *. rewrite wsub_small by word_lia. lia.
Qed.

Lemma segment_data (buffer : list Z) start len :
  0 ≤ start → 0 ≤ len → start + len ≤ Z.of_nat (length buffer) → start + len < MAX64 →
  ∃ data, slice buffer start (start +w len) = Val data ∧ data = take (Z.to_nat len) (drop (Z.to_nat start) buffer) ∧ Z.of_nat (length data) = len.
Proof.
  intros Hs Hl Hb Hm. rewrite wadd_small by word_lia. unfold slice.
  rewrite (proj2 (Z.leb_le _ _)), (proj2 (Z.leb_le _ _)) by lia. simpl. eexists. split; [done|].
  rewrite Z.add_simpl_l. split; [done|]. rewrite length_take, length_drop. lia.
Qed.

(** C6: loading a segment makes it readable where the program expects it.  When
    the frames can be had and the segment lies inside the file, [load_segment]
    does not fail any of its checks; afterwards the memory from the segment's
    address on holds the bytes of the file and then zeros up to the segment's
    size in memory, and the new area is recorded behind the others. *)
Theorem load_segment_correct T (p : Proc S H) base buffer ph ps w1 :
  let v := base +w ph_virtual_addr ph in
  let n := div_ceil (v +w ph_mem_size ph) PAGE_SIZE -w v / PAGE_SIZE in
  world_ok T (p_world p) → PAGE_SIZE ≤ v → v + ph_mem_size ph + PAGE_SIZE ≤ 2 ^ 38 →
  0 ≤ ph_file_size ph ≤ ph_mem_size ph → 0 < ph_mem_size ph →
  0 ≤ ph_offset ph → ph_offset ph + ph_file_size ph ≤ Z.of_nat (length buffer) < MAX64 →
  alloc_frames n (p_world p) = Val (Some ps, w1) → 2 * n ≤ Z.of_nat (size (fa_free (ph_alloc (w_phys w1)))) →
  ∃ p', load_segment base buffer ph p = Val (tt, p') ∧
    user_read p' v (Z.to_nat (ph_mem_size ph)) =
      Some (take (Z.to_nat (ph_file_size ph)) (drop (Z.to_nat (ph_offset ph)) buffer) ++
            replicate (Z.to_nat (ph_mem_size ph - ph_file_size ph)) 0) ∧
    (∃ area, pcb_memset (p_pcb p') = pcb_memset (p_pcb p) ++ [area] ∧ ma_start area = floor_page v ∧ ma_mtype area = Mmap).
Proof.
  intros v n Hw Hv Hhi Hfs Hms Hoff Hbuf E1 Hfree.
  destruct (segment_pages v (ph_mem_size ph)) as (Hn & Hfl & Hend & Hmod); [unfold PAGE_SIZE in *; lia|done|done|]. fold n in Hn, Hend.
  set (lo := floor_page v) in *.
  destruct (mmap_frames_spec T p lo n ps w1) as (f0 & T' & w' & E2 & Hr & Hz); [done|apply floor_page_aligned|unfold PAGE_SIZE in *; lia|lia|done|done|done|].
  destruct (segment_data buffer (ph_offset ph) (ph_file_size ph)) as (data & Ed & Edata & Hlen); [lia|lia|lia|word_lia|].
  unfold load_segment. fold v n lo. rewrite E2. cbn [mbind outcome_bind unwrap]. rewrite Ed. cbn [mbind outcome_bind].
  set (p1 := map_pcb _ _). assert (run_ok T' lo n (frames_from f0) p1) as Hr1 by (by destruct Hr; split).
  destruct (run_store ops T' lo n (frames_from f0) data v p1 Hr1) as (w2 & E3 & Hr2 & Hp2); [lia|lia|].
  rewrite E3. cbn [mbind outcome_bind]. set (p2 := set_world w2 p1) in *.
  destruct (ro_leaf _ _ _ _ _ Hr 0 ltac:(lia)) as (_ & Hf & _). unfold frames_from in Hf. rewrite Z.mul_0_l, Z.add_0_r in Hf. destruct Hf as [Hf0 Hfa].
  destruct (run_reads T' lo n f0 p2 v data) as [Ru Rp]; [done|lia|lia|lia|done| |].
  { intros i Hi. rewrite Hp2, bool_decide_eq_true_2 by lia. f_equal. lia. }
  rewrite Hmod, wadd_small by (unfold PAGE_SIZE in *; word_lia). rewrite Ru, Rp, !bool_decide_eq_true_2 by done. cbn [assert_ mbind outcome_bind].
  exists p2. split; [done|]. split.
  - set (bss := replicate (Z.to_nat (ph_mem_size ph - ph_file_size ph)) 0).
    rewrite <- Edata. replace (Z.to_nat (ph_mem_size ph)) with (length (data ++ bss)) by (unfold bss; rewrite length_app, length_replicate; lia).
    assert (Z.of_nat (length (data ++ bss)) = ph_mem_size ph) as Hl by (unfold bss; rewrite length_app, length_replicate; lia).
    apply (run_reads T' lo n f0 p2 v (data ++ bss)); [done|lia|lia|lia|done|]. intros i Hi. rewrite Hp2 by lia. case_bool_decide.
    + rewrite lookup_app_l by lia. f_equal. lia.
    + rewrite lookup_app_r by lia. unfold bss. rewrite lookup_replicate_2 by (rewrite length_app in Hi; unfold bss in Hi; rewrite length_replicate in Hi; lia).
      apply Hz. lia.
  - simpl. destruct (p_pcb p). simpl. eauto.
Qed.

(** ** Failing to start a program *)
Lemma k_world_pcb {A} (m : ST (World S) A) (p : Proc S H) a p' : k_world m p = Val (a, p') → p_pcb p' = p_pcb p.
Proof. unfold k_world. destruct (m (p_world p)) as [[? w]|]; [|done]. by intros [= _ <-]. Qed.
Lemma k_fs_pcb {A} (m : vfs S A) (p : Proc S H) a p' : k_fs m p = Val (a, p') → p_pcb p' = p_pcb p.
Proof. unfold k_fs. destruct (m (w_fs (p_world p))) as [[? w]|]; [|done]. by intros [= _ <-]. Qed.

Lemma exec_clear_empties p r p' : exec_clear p = Val (r, p') → pcb_memset (p_pcb p') = [].
Proof.
  unfold exec_clear. destruct (k_world _ p) as [[? p1]|]; [|done]. cbn [mbind outcome_bind]. unfold clear_memset, memset_clear, mbind, st_bind, outcome_bind.
  destruct (st_iter _ (pcb_memset (p_pcb p1)) _) as [[? w]|]; [|done]. simpl.
  intros ->%k_world_pcb. simpl. by destruct (p_pcb p1).
Qed.

Lemma read_program_pcb path p r p' : read_program path p = Val (r, p') → p_pcb p' = p_pcb p.
Proof.
  unfold read_program, vfs_bind. intros E. destruct (k_fs _ p) as [[[file|] p1]|] eqn:E1; [|by injection E as _ <-; eapply k_fs_pcb|done].
  apply k_fs_pcb in E1 as <-. destruct (k_fs _ p1) as [[[size|] p2]|] eqn:E2; [|by injection E as _ <-; eapply k_fs_pcb|done].
  apply k_fs_pcb in E2 as <-. destruct (k_world _ p2) as [[res p3]|] eqn:E3; [|done]. apply k_world_pcb in E3 as <-.
  cbn [mbind outcome_bind] in E. destruct res as [frames|]; [|done]. cbn [unwrap mbind outcome_bind] in E.
  destruct (head frames) as [f0|]; [|done]. cbn [unwrap mbind outcome_bind] in E.
  destruct (k_fs _ p3) as [[[bs|e] p4]|] eqn:E4; [| |done]; apply k_fs_pcb in E4 as <-; cbn [mbind outcome_bind] in E;
    destruct (k_world _ p4) as [[? p5]|] eqn:E5; try done; apply k_world_pcb in E5 as <-; cbn [mbind outcome_bind] in E.
  - destruct (assert_ _); [|done]. by injection E as _ <-.
  - by injection E as _ <-.
Qed.

(** A program that cannot be started costs the caller its memory: the old
    image is unmapped and dropped before the file is opened, so whenever
    [exec_with_process] returns an error, also through the shell that is
    started for a script or the dynamic linker, the process is left without a
    single memory area. *)
Theorem exec_error_loses_image fuel env : ∀ curr_dir path args p e p',
  exec_with_process fuel env curr_dir path args p = Val (Err e, p') → pcb_memset (p_pcb p') = [].
Proof.
  induction fuel as [|fuel IH]; intros curr_dir path args p e p' E; [done|]. cbn [exec_with_process] in E. cbv zeta in E.
  destruct (exec_clear p) as [[? p1]|] eqn:E1; [|done]. cbn [mbind outcome_bind] in E. apply exec_clear_empties in E1.
  destruct (list_find _ (ee_caches env)) as [[? c]|]; [by destruct (exec_cached _ _ _ _ _) as [[? ?]|]|].
  destruct (read_program _ p1) as [[r p2]|] eqn:E2; [|done]. cbn [mbind outcome_bind] in E. apply read_program_pcb in E2.
  destruct r as [[frames bs]|e']; [|injection E as _ <-; by rewrite E2].
  destruct (negb (elf_valid bs)).
  { destruct (exec_with_process fuel _ _ _ _ p2) as [[r p3]|] eqn:E3; [|done]. cbn [mbind outcome_bind] in E.
    destruct (k_world _ p3) as [[? p4]|] eqn:E4; [|done]. injection E as -> <-. apply k_world_pcb in E4 as ->. by eapply IH. }
  destruct (assert_ _); [|done]. cbn [mbind outcome_bind] in E.
  destruct (is_dynamic _).
  { destruct (k_world _ p2) as [[? p3]|]; [|done]. cbn [mbind outcome_bind] in E. by eapply IH. }
  destruct (exec_static _ _ _ _ p2) as [[? p3]|]; [|done]. cbn [mbind outcome_bind] in E. by destruct (k_world _ p3) as [[? ?]|].
Qed.

(** The C library of a dynamic program is never recognised: the buffer
    with the program is dropped, which clears its frames, before the
    interpreter's name is looked up in it, so that for every program the
    linker is the one of [get_dyn_path], musl programs included.  The
    hypothesis says that a file of zeros shows no program headers. *)
Theorem linker_ignores_interpreter (env : ExecEnv) bs :
  elf_phs (elf_at (replicate (length bs) 0)) = [] → linker_path env bs = ee_dyn_path env.
Proof. intros Hz. unfold linker_path, detect_libc_type. by rewrite Hz. Qed.
End exec.

(** ** A concrete start: two arguments, 128 pages of memory *)
Definition start_fa : FrameAllocator := [mkFrm [1; 0] 0x80000000 0x80080000].
Definition start_phys : Phys := mkPhys start_fa (list_to_map ((λ p, (p, zero_page)) <$> elements (fa_all start_fa))).
Definition start_world : World unit := mkWorld start_phys ∅ 0x80000000 tt.

Lemma start_fa_wf : fa_wf start_fa.
Proof.
  destruct (frm_new_spec 0x80000000 0x80080000) as (r & E & Hwf & _); [done..|].
  assert (frm_new 0x80000000 0x80080000 = Val (mkFrm [0; 0] 0x80000000 0x80080000)) as E' by (by vm_compute).
  rewrite E' in E. injection E as <-.
  destruct (fa_alloc_spec [mkFrm [0; 0] 0x80000000 0x80080000]) as (res & fa' & E & Hwf' & _).
  { apply fa_wf_cons; [exact Hwf|constructor..]. }
  vm_compute in E. injection E as _ <-. exact Hwf'.
Qed.

Lemma start_world_ok : world_ok {[ [] := 0x80000000 ]} start_world.
Proof.
  split; [|done]. apply fresh_table_inv.
  - apply start_fa_wf.
  - intros p Hp. simpl. apply elem_of_list_to_map_1.
    + rewrite <- list_fmap_compose. simpl. rewrite list_fmap_id. apply NoDup_elements.
    + apply list_elem_of_fmap. exists p. split; [done|]. by apply elem_of_elements.
  - intros p Hp. simpl in Hp. rewrite elem_of_union, elem_of_empty in Hp. destruct Hp as [Hp|[]].
    apply elem_of_frm_all in Hp as (i & -> & Hi). change (frm_pages (mkFrm [1; 0] 0x80000000 0x80080000)) with 128 in Hi.
    unfold frm_addr, frm_paddr, frame_ok, PAGE_SIZE. split; [lia|].
    replace (0x80000000 + i * 4096) with ((0x80000 + i) * 4096) by lia. by rewrite Z.mod_mul.
  - by vm_compute.
  - by vm_compute.
Qed.

Definition start_proc : Proc unit unit :=
  mkProc start_world [] {[ 7 := new_dev tt ]} (with_memset [] (demo_pcb [(1, true)])) demo_tcb0 1 1 None kern_new.

Lemma exec_stack_roundtrip_witness :
  ∃ p', init_task_stack any_ops "/lib" [str_bytes "ls"; str_bytes "-l"] 0 (str_bytes "/bin/ls") 0x10000 2 56 64 0x20000 start_proc = Val (tt, p') ∧
    start_stack "/lib" [str_bytes "ls"; str_bytes "-l"] (str_bytes "/bin/ls")
      (λ platform execfn random, auxv_of 0 0x10000 2 56 64 platform execfn random) p' ∧
    tf_sepc (tcb_cx (p_tcb p')) = 0x10000.
Proof.
  destruct (alloc_frames_spec _ 32 start_world start_world_ok) as (res & w1 & E1 & Hw1 & _ & _ & _ & _ & Hres); [done|].
  assert (match alloc_frames 32 start_world with Val (Some _, w) => get_free_pages (w_phys w) = 95 | _ => False end) as Hc by (by vm_compute).
  rewrite E1 in Hc. destruct res as [ps|]; [|done]. unfold get_free_pages in Hc. rewrite fa_count_free in Hc by apply Hw1.
  destruct (exec_stack_roundtrip any_ops _ start_proc ps w1 "/lib" [str_bytes "ls"; str_bytes "-l"] 0 (str_bytes "/bin/ls") 0x10000 2 56 64 0x20000
    start_world_ok eq_refl E1) as (p' & E & Hs & Hp & _); [lia|by vm_compute|].
  exists p'. split; [exact E|]. split; [exact Hs|exact Hp].
Defined.

Definition no_env : ExecEnv (H := unit) := mkEnv [] "/lib" "/lib/ld".
Definition no_elf : ElfFile := mkElf [] 0 0 0 0 [] NoSection NoSection.

(** The process has a page before, and nothing can be opened. *)
Lemma exec_error_loses_image_witness :
  pcb_memset (p_pcb one_proc) = [one_area] ∧
  ∃ e p', exec_with_process demo_ops (λ _, false) (λ _, no_elf) (λ _, true) 1 no_env pb_new "sh" [] one_proc = Val (Err e, p') ∧
    pcb_memset (p_pcb p') = [].
Proof.
  split; [reflexivity|].
  assert (match exec_with_process demo_ops (λ _, false) (λ _, no_elf) (λ _, true) 1 no_env pb_new "sh" [] one_proc with
          | Val (Err _, _) => true | _ => false end = true) as Hc by (vm_compute; reflexivity).
  destruct (exec_with_process demo_ops (λ _, false) (λ _, no_elf) (λ _, true) 1 no_env pb_new "sh" [] one_proc) as [[[?|e] p']|] eqn:E;
    [discriminate Hc| |discriminate Hc].
  exists e, p'. split; [reflexivity|exact (exec_error_loses_image _ _ _ _ _ _ _ _ _ _ _ _ E)].
Defined.

Lemma linker_ignores_interpreter_witness :
  linker_path (λ bs, if bool_decide (bs = [7]) then mkElf [] 0 1 56 64 [mkPh (Some PhInterp) 0 0 0 0 (Some (str_bytes "/lib/ld-musl.so"))] NoSection NoSection else no_elf)
    (λ _, true) no_env [7] = "/lib/ld"%string.
Proof. apply (linker_ignores_interpreter _ _ no_env [7]). vm_compute. reflexivity. Defined.

(** Three bytes of a file at 0x10010, ten in memory. *)
Definition start_segment : ProgramHeader := mkPh (Some PhLoad) 1 0x10010 3 10 None.

Lemma load_segment_correct_witness :
  ∃ p', load_segment any_ops 0 [9; 1; 2; 3; 9] start_segment start_proc = Val (tt, p') ∧
    user_read p' 0x10010 10 = Some [1; 2; 3; 0; 0; 0; 0; 0; 0; 0].
Proof.
  destruct (alloc_frames_spec _ 1 start_world start_world_ok) as (res & w1 & E1 & Hw1 & _ & _ & _ & _ & Hres); [done|].
  assert (match alloc_frames 1 start_world with Val (Some _, w) => get_free_pages (w_phys w) = 126 | _ => False end) as Hc by (by vm_compute).
  rewrite E1 in Hc. destruct res as [ps|]; [|done]. unfold get_free_pages in Hc. rewrite fa_count_free in Hc by apply Hw1.
  destruct (load_segment_correct any_ops _ start_proc 0 [9; 1; 2; 3; 9] start_segment ps w1 start_world_ok) as (p' & E & Hr & _);
    [by vm_compute|by vm_compute|simpl; lia|simpl; lia|simpl; lia|simpl; word_lia|exact E1| |exists p'; by split].
  change (div_ceil _ _ -w _) with 1. lia.
Defined.
