(* ===== verification/SysInfo.v ===== *)
(** * Limits, identity and other small calls ([kernel/src/syscall/sys.rs])

    Also the calls of [syscall/time.rs] and [syscall/task.rs] that report
    counters. *)

From S2P Require Import Prelude Bytes Frame PageTable Signal Path Vfs File Time Futex MemSet Process Mm Shm Fork Fd.
Local Open Scope Z_scope.

(** ** [uname] *)
Record UTSname := mkUTSname {
  uts_sysname : list Z; uts_nodename : list Z; uts_release : list Z;
  uts_version : list Z; uts_machine : list Z; uts_domainname : list Z
}.

(** [field[..name.len()].copy_from_slice(name)] *)
Definition copy_name (name field : list Z) : outcome (list Z) :=
  if (length name <=? length field)%nat then Val (name ++ drop (length name) field) else Panic.

Definition sys_uname (uts : UTSname) : outcome (result Z * UTSname) :=
  sysname ← copy_name (str_bytes "Linux") (uts_sysname uts);
  nodename ← copy_name (str_bytes "debian") (uts_nodename uts);
  release ← copy_name (str_bytes "5.10.0-7-riscv64") (uts_release uts);
  version ← copy_name (str_bytes "#1 SMP Debian 5.10.40-1 (2021-05-28)") (uts_version uts);
  machine ← copy_name (str_bytes "riscv qemu") (uts_machine uts);
  domainname ← copy_name [] (uts_domainname uts);
  Val (Ok 0, mkUTSname sysname nodename release version machine domainname).

(** ** [prlimit64] *)
Record Rlimit := mkRlimit { rl_curr : Z; rl_max : Z }.

Section sysinfo.
Context {S H : Type} (ops : INodeOps S H).
Notation M := (ST (Proc S H)).

(** [rlimits[i] = v], and reading [rlimits[i]] *)
Definition set_limit (i : nat) (v : Z) : M unit := λ p,
  let l := pcb_rlimits (p_pcb p) in
  _ ← unwrap (l !! i);
  Val (tt, map_pcb (with_rlimits (<[i := v]> l)) p).
Definition get_limit (i : nat) : M Z := λ p, v ← unwrap (pcb_rlimits (p_pcb p) !! i); Val (v, p).

(** [rlimits.resize(8, 0)] where the vector is too short. *)
Definition grow_limits : M unit := λ p,
  let l := pcb_rlimits (p_pcb p) in
  if (length l <=? 4)%nat then Val (tt, map_pcb (with_rlimits (l ++ replicate (8 - length l) 0)) p) else Val (tt, p).

Definition report_limit (i : nat) (old : bool) : M (option Rlimit) :=
  if old then v ← get_limit i; mret (Some (mkRlimit v v)) else mret None.

(** The same for the core limit, whose entry may be missing. *)
Definition set_core (v : Z) : M unit := _ ← grow_limits; set_limit 4 v.
Definition report_core (old : bool) : M (option Rlimit) := λ p,
  let l := pcb_rlimits (p_pcb p) in
  let v := if (length l <=? 4)%nat then usize_max else l !!! 4%nat in
  Val (if old then Some (mkRlimit v v) else None, p).

(** Set, then report; the result and what is stored through [old_limit]. *)
Definition limit_call (set : Z → M unit) (report : bool → M (option Rlimit)) (new_limit : option Rlimit) (old_limit : bool)
  : M (result Z * option Rlimit) :=
  _ ← match new_limit with Some r => set (rl_max r) | None => mret tt end;
  o ← report old_limit;
  mret (Ok 0, o).

Definition sys_prlimit64 (pid resource : Z) (new_limit : option Rlimit) (old_limit : bool) : M (result Z * option Rlimit) :=
  if resource =? 3 then limit_call (set_limit 3) (report_limit 3) new_limit old_limit
  else if resource =? 4 then limit_call set_core report_core new_limit old_limit
  else if resource =? 7 then limit_call (set_limit 7) (report_limit 7) new_limit old_limit
  else mret (Ok 0, None).

(** ** Counters *)
(** [Time::to_usec] of a raw counter is a parameter. *)
Definition timeval_of (usec : Z) : TimeVal := mkTimeVal (usec / 1000000) (usec mod 1000000).
Definition sys_getrusage (to_usec : Z → Z) : M (result Z * (TimeVal * TimeVal)) := λ p,
  let tms := pcb_tms (p_pcb p) in
  Val (Ok 0, (timeval_of (to_usec (tms_utime tms)), timeval_of (to_usec (tms_stime tms))), p).
Definition sys_times (raw : Z) : M (result Z * TMS) := λ p, Val (Ok raw, pcb_tms (p_pcb p), p).
End sysinfo.

Definition sys_gettimeofday (ns : Z) : result Z * TimeVal := (Ok 0, current_timeval ns).
Definition sys_clock_getres (valid : bool) : result Z * option TimeSpec :=
  (Ok 0, if valid then Some (mkTimeSpec 0 1) else None).

(** ** Calls that wait *)
(** [sys_clock_nanosleep]: the deadline, and a poll of the rest; a signal does
    not end it. *)
Definition clock_nanosleep_deadline (flags ns : Z) (req : TimeSpec) : Z :=
  if flags =? 1 then ts_sec req *w 1000000000 +w ts_nsec req else nanosleep_deadline ns req.
(** The result and what is stored through [rem_ptr]. *)
Definition clock_nanosleep_poll (flags deadline ns : Z) (rem : bool) : Poll (result Z * option TimeSpec) :=
  match wait_until_poll deadline ns with
  | Ready _ => Ready (Ok 0, if (flags =? 1) && rem then Some (mkTimeSpec 0 0) else None)
  | Pending => Pending
  end.

Definition sigtimedwait_poll (t : ThreadControlBlock) : Poll (result Z) :=
  match wait_signal_poll t with Ready _ => Ready (Ok 0) | Pending => Pending end.

(** One round of [sys_sigsuspend]: any pending signal ends it, and the set
    passed is not used. *)
Definition sigsuspend_poll (ns : Z) (sigset : Z) (timer : ProcessTimer) (t : ThreadControlBlock)
  : Poll (result Z) * ProcessTimer * ThreadControlBlock :=
  let '(timer, t) := check_timer ns timer t in
  (if has_signal (tcb_signal t) then Ready (Ok 0) else Pending, timer, t).

(** ** [getrandom] *)
Definition SEED0 : Z := 0xdeadbeefcafebabe.
Definition seed_step (seed : Z) : Z := seed *w 0x5851f42d4c957f2d.

(** The bytes and the new [SEED]. *)
Fixpoint random_bytes (n : nat) (seed : Z) : list Z * Z :=
  match n with
  | O => ([], seed)
  | S n =>
      let seed := seed_step seed in
      let '(l, seed') := random_bytes n seed in
      (Z.shiftr seed 33 mod 256 :: l, seed')
  end.
Definition sys_getrandom (buf_len : nat) (seed : Z) : result Z * list Z * Z :=
  let '(l, seed) := random_bytes buf_len seed in (Ok (Z.of_nat buf_len), l, seed).

(** ** Calls that only answer *)
Definition sys_geteuid : result Z := Ok 0.
Definition sys_getegid : result Z := Ok 0.
Definition sys_getgid : result Z := Ok 0.
Definition sys_getuid : result Z := Ok 0.
Definition sys_getpgid : result Z := Ok 0.
Definition sys_setpgid (pid pgid : Z) : result Z := Ok 0.
Definition sys_setuid (uid : Z) : result Z := Ok 0.
Definition sys_setgid (gid : Z) : result Z := Ok 0.
Definition sys_sched_getparam (pid param : Z) : result Z := Ok 0.
Definition sys_sched_setscheduler (pid policy param : Z) : result Z := Ok 0.
(** The byte stored at a valid pointer. *)
Definition sys_info (valid : bool) : result Z * option Z := (Ok 0, if valid then Some 3 else None).
Definition sys_getsid (tid pid : Z) : result Z := if pid =? 0 then Ok tid else Ok pid.

Definition sys_membarrier (cmd flags cpu_id : Z) : result Z :=
  if cmd =? 0 then
    Ok (foldr Z.lor 0 (Z.shiftl 1 <$> [1; 2; 3; 4; 5; 6; 7; 8; 9]))
  else Ok 0.

Definition sys_prctl (option arg2 arg3 arg4 arg5 : Z) : result Z := if option =? 3 then Ok 1 else Ok 0.

(** [get_cstr]: a null pointer is read as an address. *)
Definition check_cstr (s : UserStr) : outcome (result unit) :=
  match s with UStr _ => Val (Ok tt) | UBad => Val (Err EINVAL) | UNull => Panic end.
Definition sys_mknodat (dirfd : Z) (pathname : UserStr) (mode dev : Z) : outcome (result Z) :=
  r ← check_cstr pathname; Val (match r with Ok _ => Ok 0 | Err e => Err e end).
Definition sys_mknod (pathname : UserStr) (mode dev : Z) : outcome (result Z) :=
  r ← check_cstr pathname; Val (match r with Ok _ => Ok 0 | Err e => Err e end).
Definition sys_klogctl (log_type : Z) (buf : UserStr) (len : Z) : outcome (result Z) :=
  match buf with UBad => Panic | _ => Val (Ok 0) end.

(** ** Limits and the descriptor table *)
Section limits.
Context {S H : Type} (ops : INodeOps S H).

Lemma set_limit_spec i v (p : Proc S H) :
  is_Some (pcb_rlimits (p_pcb p) !! i) →
  set_limit i v p = Val (tt, map_pcb (with_rlimits (<[i := v]> (pcb_rlimits (p_pcb p)))) p).
Proof. intros [x Hx]. unfold set_limit. by rewrite Hx. Qed.

Lemma with_rlimits_eq l (p : Proc S H) :
  pcb_rlimits (p_pcb (map_pcb (with_rlimits l) p)) = l ∧ pcb_fd_table (p_pcb (map_pcb (with_rlimits l) p)) = pcb_fd_table (p_pcb p).
Proof. simpl. by destruct (p_pcb p). Qed.

(** A process can stop the kernel with two calls.  [prlimit64] accepts any
    number of descriptors, while the table keeps its length; descriptors are
    checked against the limit only, so that after the limit is raised a read
    of a descriptor between the table's end and the limit indexes the table
    out of its bounds and panics. *)
Theorem raised_limit_panics (p : Proc S H) pid (r : Rlimit) old fd n :
  length (pcb_rlimits (p_pcb p)) = 8%nat →
  Z.of_nat (length (pcb_fd_table (p_pcb p))) ≤ fd < rl_max r →
  ∃ o p', sys_prlimit64 pid 7 (Some r) old p = Val (Ok 0, o, p') ∧ sys_read ops fd n p' = Panic.
Proof.
  intros Hl Hfd. destruct (with_rlimits_eq (<[7%nat := rl_max r]> (pcb_rlimits (p_pcb p))) p) as [E1 E2].
  exists (if old then Some (mkRlimit (rl_max r) (rl_max r)) else None), (map_pcb (with_rlimits (<[7%nat := rl_max r]> (pcb_rlimits (p_pcb p)))) p).
  assert (is_Some (pcb_rlimits (p_pcb p) !! 7%nat)) as H7 by (apply lookup_lt_is_Some_2; lia).
  assert (pcb_rlimits (p_pcb (map_pcb (with_rlimits (<[7%nat := rl_max r]> (pcb_rlimits (p_pcb p)))) p)) !! 7%nat = Some (rl_max r)) as H7'
    by (rewrite E1; apply list_lookup_insert_eq; lia). split.
  - unfold sys_prlimit64, limit_call. simpl. unfold mbind, st_bind. rewrite set_limit_spec by done. unfold report_limit. destruct old; [|done].
    unfold mbind, st_bind, get_limit. rewrite H7'. done.
  - unfold sys_read, get_fd, nofile. rewrite H7'. cbn [unwrap mbind outcome_bind].
    rewrite (proj2 (Z.leb_gt _ _)) by lia. rewrite E2, lookup_ge_None_2 by lia. done.
Qed.

(** Asked for the old limit while it sets a new one, [prlimit64] answers
    with the new: the limit is written before it is read, so the caller can
    never learn what it replaced. *)
Theorem prlimit_reports_new (p : Proc S H) pid resource (r : Rlimit) :
  length (pcb_rlimits (p_pcb p)) = 8%nat → resource ∈ [3; 4; 7] →
  ∃ p', sys_prlimit64 pid resource (Some r) true p = Val (Ok 0, Some (mkRlimit (rl_max r) (rl_max r)), p') ∧
    pcb_rlimits (p_pcb p') = <[Z.to_nat resource := rl_max r]> (pcb_rlimits (p_pcb p)).
Proof.
  intros Hl Hr. set (l := pcb_rlimits (p_pcb p)) in *.
  exists (map_pcb (with_rlimits (<[Z.to_nat resource := rl_max r]> l)) p).
  destruct (with_rlimits_eq (<[Z.to_nat resource := rl_max r]> l) p) as [E1 _]. split; [|exact E1].
  assert (∀ i, (i < 8)%nat → i = Z.to_nat resource → ∀ q, q = map_pcb (with_rlimits (<[i := rl_max r]> l)) p →
    set_limit i (rl_max r) p = Val (tt, q) ∧ report_limit i true q = Val (Some (mkRlimit (rl_max r) (rl_max r)), q)) as Hi.
  { intros i Hi -> q ->. split; [apply set_limit_spec, lookup_lt_is_Some_2; unfold l in *; lia|].
    unfold report_limit, mbind, st_bind, get_limit. rewrite E1, list_lookup_insert_eq by lia. done. }
  rewrite !elem_of_cons, elem_of_nil in Hr. unfold sys_prlimit64, limit_call, set_core, mbind, st_bind.
  destruct Hr as [->|[->|[->|[]]]]; cbn [Z.eqb Pos.eqb].
  - destruct (Hi 3%nat ltac:(lia) eq_refl _ eq_refl) as [-> ->]. done.
  - unfold grow_limits. fold l. rewrite Hl. simpl. destruct (Hi 4%nat ltac:(lia) eq_refl _ eq_refl) as [-> _].
    unfold report_core. change (Z.to_nat 4) with 4%nat in *. rewrite E1, length_insert, Hl, list_lookup_total_insert_eq by lia. done.
  - destruct (Hi 7%nat ltac:(lia) eq_refl _ eq_refl) as [-> ->]. done.
Qed.
End limits.

(** ** The generator *)
(** The seed stays twice an odd number, so that it is never zero. *)
Definition seed_ok (seed : Z) : Prop := word64 seed ∧ seed mod 4 = 2.

Lemma seed_step_ok seed : seed_ok seed → seed_ok (seed_step seed).
Proof.
  intros [_ H2]. split; [apply wrap_range|]. unfold seed_step, wmul, wrap.
  rewrite <- Znumtheory.Zmod_div_mod; [|done|done|exists (2 ^ 62); reflexivity].
  rewrite Z.mul_mod, H2 by done. reflexivity.
Qed.

(** The generator behind [getrandom] never gets stuck at zero: from its
    first value on, whatever is asked for, the seed stays a nonzero word, the
    call fills the whole buffer with bytes, and asking for [a] and then [b]
    bytes gives the same bytes as asking for both at once. *)
Theorem getrandom_stream a b seed :
  seed_ok seed →
  let '(la, sa) := random_bytes a seed in
  let '(lb, sb) := random_bytes b sa in
  random_bytes (a + b) seed = (la ++ lb, sb) ∧ seed_ok sa ∧ sa ≠ 0 ∧ length la = a ∧ Forall (λ x, 0 ≤ x < 256) la.
Proof.
  intros Hs. assert (seed_ok (random_bytes a seed).2 ∧ length (random_bytes a seed).1 = a ∧ Forall (λ x, 0 ≤ x < 256) (random_bytes a seed).1 ∧
    random_bytes (a + b) seed = ((random_bytes a seed).1 ++ (random_bytes b (random_bytes a seed).2).1, (random_bytes b (random_bytes a seed).2).2))
    as (Hok & Hl & Hf & E).
  { revert seed Hs. induction a as [|a IH]; intros seed Hs; cbn [random_bytes Nat.add].
    { split_and!; [done|done|constructor|]. simpl. by destruct (random_bytes b seed). }
    destruct (IH (seed_step seed) (seed_step_ok seed Hs)) as (Hok & Hl & Hf & E). rewrite E.
    destruct (random_bytes a (seed_step seed)) as [la sa]. simpl in *. split_and!; [done|by rewrite Hl| |done].
    constructor; [|done]. apply Z.mod_pos_bound. done. }
  destruct (random_bytes a seed) as [la sa]. simpl in *. destruct (random_bytes b sa) as [lb sb]. simpl in *.
  split; [done|]. split; [done|]. split; [|done]. destruct Hok as [_ Hm]. by intros ->.
Qed.

(** ** Concrete calls *)
Lemma raised_limit_panics_witness :
  ∃ o p', sys_prlimit64 0 7 (Some (mkRlimit 1024 1024)) true one_proc = Val (Ok 0, o, p') ∧ sys_read any_ops 1000 4 p' = Panic.
Proof. apply (raised_limit_panics any_ops one_proc 0 (mkRlimit 1024 1024) true 1000 4); [reflexivity|]. split; [by vm_compute|done]. Defined.

Lemma prlimit_reports_new_witness :
  ∃ p', sys_prlimit64 0 3 (Some (mkRlimit 5 9)) true one_proc = Val (Ok 0, Some (mkRlimit 9 9), p').
Proof.
  destruct (prlimit_reports_new one_proc 0 3 (mkRlimit 5 9)) as (p' & E & _); [reflexivity|apply elem_of_cons; by left|]. exists p'. exact E.
Defined.

Lemma getrandom_stream_witness :
  let '(la, sa) := random_bytes 2 SEED0 in
  let '(lb, sb) := random_bytes 3 sa in random_bytes 5 SEED0 = (la ++ lb, sb) ∧ sa ≠ 0.
Proof.
  pose proof (getrandom_stream 2 3 SEED0) as H. destruct (random_bytes 2 SEED0) as [la sa]. destruct (random_bytes 3 sa) as [lb sb].
  destruct H as (E & _ & Hz & _); [split; [split; by vm_compute|reflexivity]|]. split; [exact E|exact Hz].
Defined.
