(* ===== verification/Socket.v ===== *)
(** * Sockets ([kernel/src/socket.rs], [user/socket_pair.rs], [syscall/socket.rs])

    A [Socket] wraps a connection of the network stack ([lose_net_stack], a
    third-party crate under [vendor]) with a buffer for what a short read left over; a socket
    pair is one queue behind two descriptors.  The stack is an instance of
    [NetStack]: its state [N], its connections [C] and the methods the kernel
    calls.  The syscalls work over any file-system store that contains the
    sockets ([Host]). *)

From S2P Require Import Prelude Bytes Frame PageTable Signal Path Vfs File Time Futex MemSet Process Mm Shm Fork Fd.
Local Open Scope Z_scope.

(** ** The network stack *)
Record SocketAddrV4 := mkAddr { sa_ip : list Z; sa_port : Z }.

Inductive NetServerError :=
  | Unsupported | EmptyClient | EmptyData | NoUdpRemoteAddress | ServerNotExists | PortWasUsed | Blocking.

Inductive SocketType := TCP | UDP | RAW_TYPE.

(** [Result<A, NetServerError>] *)
Definition NRes (A : Type) : Type := (A + NetServerError)%type.

Class NetStack (N C : Type) := {
  blank_tcp : N → C * N;
  blank_udp : N → C * N;
  tcp_is_used : Z → N → bool;
  udp_is_used : Z → N → bool;
  get_tcp : Z → N → option C;
  get_udp : Z → N → option C;
  si_sendto : C → list Z → option SocketAddrV4 → N → NRes Z * N;
  si_recv_from : C → N → NRes (list Z * SocketAddrV4) * N;
  si_bind : C → SocketAddrV4 → N → NRes unit * N;
  si_listen : C → N → NRes unit * N;
  si_connect : C → SocketAddrV4 → N → NRes unit * N;
  si_accept : C → N → NRes C * N;
  si_readable : C → N → NRes bool;
  si_get_local : C → N → NRes SocketAddrV4;
  si_get_protocol : C → N → NRes SocketType;
  si_get_remote : C → N → NRes SocketAddrV4;
  si_is_closed : C → N → NRes bool;
  si_close : C → N → NRes unit * N
}.

(** [Result::unwrap], [Result::expect] *)
Definition n_unwrap {A} (r : NRes A) : outcome A := match r with inl a => Val a | inr _ => Panic end.
Definition n_is_ok {A} (r : NRes A) : bool := match r with inl _ => true | inr _ => false end.

(** [u16::to_be] on a little-endian machine. *)
Definition to_be16 (x : Z) : Z := Z.lor (Z.shiftl (Z.land x 0xff) 8) (Z.shiftr x 8).

(** ** [socket.rs] *)
Inductive NetType := STEAM | DGRAME | RAW.

Definition net_type_from_usize (value : Z) : option NetType :=
  if value =? 1 then Some STEAM else if value =? 2 then Some DGRAME else None.

(** A socket; [so_wsize] and [so_rsize] are its [SocketOptions]. *)
Record Socket (C : Type) := mkSocket {
  so_domain : Z; so_net_type : NetType; so_inner : C; so_wsize : Z; so_rsize : Z; so_buf : list Z
}.
Arguments mkSocket {C}. Arguments so_domain {C}. Arguments so_net_type {C}. Arguments so_inner {C}.
Arguments so_wsize {C}. Arguments so_rsize {C}. Arguments so_buf {C}.

(** The stack, the sockets and the socket pairs by [Arc], and what a read of
    one byte printed on the console ([None]: the byte the caller's buffer held
    before). *)
Record SockStore (N C : Type) := mkSS {
  ss_net : N; ss_socks : gmap Z (Socket C); ss_pairs : gmap Z (list Z); ss_printed : list (option Z)
}.
Arguments mkSS {N C}. Arguments ss_net {N C}. Arguments ss_socks {N C}. Arguments ss_pairs {N C}. Arguments ss_printed {N C}.

Inductive SockNode := NSock (id : Z) | NPair (id : Z).

Section socket.
Context {N C : Type} `{!NetStack N C}.
Notation St := (SockStore N C).

Definition set_net (n : N) (s : St) : St := mkSS n (ss_socks s) (ss_pairs s) (ss_printed s).
Definition set_sock (id : Z) (k : Socket C) (s : St) : St :=
  mkSS (ss_net s) (<[id := k]> (ss_socks s)) (ss_pairs s) (ss_printed s).
Definition set_pair (id : Z) (q : list Z) (s : St) : St :=
  mkSS (ss_net s) (ss_socks s) (<[id := q]> (ss_pairs s)) (ss_printed s).

(** [Socket::new_with_inner] *)
Definition socket_with_inner (domain : Z) (net_type : NetType) (inner : C) : Socket C :=
  mkSocket domain net_type inner 0 0 [].

(** [Socket::new] *)
Definition socket_new (domain : Z) (net_type : NetType) (n : N) : outcome (Socket C * N) :=
  match net_type with
  | STEAM => let '(c, n) := blank_tcp n in Val (socket_with_inner domain net_type c, n)
  | DGRAME => let '(c, n) := blank_udp n in Val (socket_with_inner domain net_type c, n)
  | RAW => Panic
  end.

(** [Drop for Socket]; [strong] is the count of references to the connection. *)
Definition socket_drop (strong : nat) (k : Socket C) (n : N) : outcome N :=
  closed ← n_unwrap (si_is_closed (so_inner k) n);
  if negb closed && ((strong =? 2)%nat || (strong =? 1)%nat) then Val (si_close (so_inner k) n).2 else Val n.

(** [Socket::recv_from] *)
Definition socket_recv_from (k : Socket C) (n : N) : outcome (result (list Z * SocketAddrV4) * N) :=
  _ ← n_unwrap (si_get_local (so_inner k) n);
  match si_recv_from (so_inner k) n with
  | (inl r, n) => Val (Ok r, n)
  | (inr _, n) => Val (Err EWOULDBLOCK, n)
  end.

(** [Socket::reuse] *)
Definition socket_reuse (k : Socket C) (port : Z) (n : N) : outcome (Socket C) :=
  protocol ← n_unwrap (si_get_protocol (so_inner k) n);
  inner ← match protocol with
          | TCP => unwrap (get_tcp port n)
          | UDP => unwrap (get_udp port n)
          | RAW_TYPE => Panic
          end;
  Val (mkSocket (so_domain k) (so_net_type k) inner (so_wsize k) (so_rsize k) []).

(** *** [INodeInterface for Socket] *)
Definition after_read (k : Socket C) (data : list Z) (rlen : nat) : Socket C :=
  mkSocket (so_domain k) (so_net_type k) (so_inner k) (so_wsize k) (so_rsize k +w Z.of_nat rlen)
    (if (rlen <? length data)%nat then drop rlen data else []).

Definition socket_deliver (id : Z) (k : Socket C) (data : list Z) (n : nat) (s : St) : result (list Z) * St :=
  let rlen := Nat.min (length data) n in
  let s := if (n =? 1)%nat
           then mkSS (ss_net s) (ss_socks s) (ss_pairs s) (ss_printed s ++ [head (take rlen data)]) else s in
  (Ok (take rlen data), set_sock id (after_read k data rlen) s).

Definition socket_readat (id : Z) (n : nat) : vfs St (list Z) := λ s,
  k ← unwrap (ss_socks s !! id);
  let data := so_buf k in
  if (length data =? 0)%nat then
    match si_recv_from (so_inner k) (ss_net s) with
    | (inl (recv_data, _), m) => Val (socket_deliver id k recv_data n (set_net m s))
    | (inr _, m) => Val (Err EWOULDBLOCK, set_net m s)
    end
  else Val (socket_deliver id k data n s).

Definition after_write (k : Socket C) (len : Z) : Socket C :=
  mkSocket (so_domain k) (so_net_type k) (so_inner k) (so_wsize k +w len) (so_rsize k) (so_buf k).

Definition socket_writeat (id : Z) (buffer : list Z) : vfs St Z := λ s,
  k ← unwrap (ss_socks s !! id);
  match si_sendto (so_inner k) buffer None (ss_net s) with
  | (inl len, m) => Val (Ok len, set_sock id (after_write k len) (set_net m s))
  | (inr _, m) => Val (Err EPERM, set_net m s)
  end.

Definition socket_poll (id : Z) (events : Z) : vfs St Z := λ s,
  k ← unwrap (ss_socks s !! id);
  let c := so_inner k in
  out ← (if contains events POLLOUT then
           closed ← n_unwrap (si_is_closed c (ss_net s));
           Val (negb closed && n_is_ok (si_get_remote c (ss_net s)))
         else Val false);
  readable ← n_unwrap (si_readable c (ss_net s));
  let res := if (out : bool) then Z.lor POLL_NONE POLLOUT else POLL_NONE in
  Val (Ok (if readable && contains events POLLIN then Z.lor res POLLIN else res), s).

Definition socket_stat (stat : Stat) : vfs St Stat := vfs_ok (stat_set_mode SOCKET stat).

(** *** [socket_pair.rs]: one queue, whichever end it is used through *)
Definition PAIR_LIMIT : Z := 0x50000.

Definition pair_writeat (id : Z) (buffer : list Z) : vfs St Z := λ s,
  queue ← unwrap (ss_pairs s !! id);
  if PAIR_LIMIT <? Z.of_nat (length queue) then Val (Err EWOULDBLOCK, s)
  else Val (Ok (Z.of_nat (length buffer)), set_pair id (queue ++ buffer) s).

Definition pair_readat (id : Z) (n : nat) : vfs St (list Z) := λ s,
  queue ← unwrap (ss_pairs s !! id);
  let rlen := Nat.min (length queue) n in
  let s := set_pair id (drop rlen queue) s in
  if (rlen =? 0)%nat then Val (Err EWOULDBLOCK, s) else Val (Ok (take rlen queue), s).

Definition pair_poll (id : Z) (events : Z) : vfs St Z := λ s,
  queue ← unwrap (ss_pairs s !! id);
  let len := Z.of_nat (length queue) in
  let res := if contains events POLLOUT && (len <=? PAIR_LIMIT) then Z.lor POLL_NONE POLLOUT else POLL_NONE in
  let res := if contains events POLLIN && (0 <? len) then Z.lor res POLLIN else res in
  Val (Ok res, s).

(** [create_socket_pair] *)
Definition create_socket_pair (s : St) : Z * St :=
  let id := fresh (dom (ss_pairs s)) in (id, set_pair id [] s).

(** Sockets and pairs as inodes: the methods they override. *)
Definition sock_ops : INodeOps St SockNode :=
  let d := inode_default St SockNode in {|
  io_readat h off n := match h with NSock id => socket_readat id n | NPair id => pair_readat id n end;
  io_writeat h off b := match h with NSock id => socket_writeat id b | NPair id => pair_writeat id b end;
  io_create := io_create d; io_mkdir := io_mkdir d; io_rmdir := io_rmdir d;
  io_remove := io_remove d; io_read_dir := io_read_dir d; io_lookup := io_lookup d;
  io_truncate := io_truncate d; io_link := io_link d; io_unlink := io_unlink d;
  io_stat h st := match h with NSock _ => socket_stat st | NPair _ => io_stat d h st end;
  io_utimes := io_utimes d;
  io_poll h ev := match h with NSock id => socket_poll id ev | NPair id => pair_poll id ev end;
  io_ioctl := io_ioctl d; io_flush := io_flush d; io_resolve_link := io_resolve_link d;
  io_symlink := io_symlink d; io_mount := io_mount d; io_umount := io_umount d; io_statfs := io_statfs d
|}.
(** A poll of a socket or of a pair changes nothing. *)
Lemma sock_polls_stable (watched : SockNode → Prop) (I : St → Prop) :
  (∀ h ev s, watched h → I s → io_poll sock_ops h ev s ≠ Panic) → polls_stable sock_ops watched I.
Proof.
  intros Hnp. apply polls_stable_pure. intros h ev s Hh Hs. specialize (Hnp h ev s Hh Hs). revert Hnp.
  destruct h as [id|id]; cbn; [unfold socket_poll|unfold pair_poll]; intros Hnp.
  - destruct (ss_socks s !! id) as [k|]; [|done]. cbn [unwrap mbind outcome_bind] in *.
    destruct (if contains ev POLLOUT then _ else _) as [out|]; [|done]. cbn [mbind outcome_bind] in *.
    destruct (n_unwrap _) as [rd|]; [|done]. by eexists.
  - destruct (ss_pairs s !! id) as [q|]; [|done]. by eexists.
Qed.
End socket.

(** ** [syscall/socket.rs]

    The part of [sockaddr_in] the kernel reads and writes. *)
Record SocketAddrIn := mkAddrIn { sin_family : Z; sin_port : Z; sin_addr : list Z }.

(** [SocketAddrV4::new(addr.addr, addr.in_port.to_be())] and back. *)
Definition addr_of (a : SocketAddrIn) : SocketAddrV4 := mkAddr (sin_addr a) (to_be16 (sin_port a)).
Definition addr_in (a : SocketAddrV4) : SocketAddrIn := mkAddrIn 2 (to_be16 (sa_port a)) (sa_ip a).

Section sock_calls.
Context {N C S H : Type} `{!NetStack N C} `{!Host (SockStore N C) SockNode S H}.
Notation K := (K S H).
Notation M := (ST (Proc S H)).
Notation St := (SockStore N C).

(** An operation of the network stack. *)
Definition on_net {A} (f : N → A * N) : M A := on_host (λ s, let '(a, n) := f (ss_net s) in Val (a, set_net n s)).
Definition net_get {A} (f : N → A) : M A := on_net (λ n, (f n, n)).

(** [Arc::new] of a socket, and in a new open file. *)
Definition add_sock (k : Socket C) (s : St) : Z * St :=
  let id := fresh (dom (ss_socks s)) in (id, set_sock id k s).
Definition new_socket_file (k : Socket C) : M Z := λ p,
  '(id, p) ← on_host (λ s, Val (add_sock k s)) p;
  new_file (new_dev (host_node (NSock id))) p.

(** [get_bare_file().downcast_arc::<Socket>().map_err(|_| EINVAL)?] *)
Definition down_socket (file : Z) : K Z := λ p,
  '(r, p) ← down_file EINVAL file p;
  Val (match r with Ok (NSock id) => Ok id | _ => Err EINVAL end, p).
Definition sock_at (socket_fd : Z) : K Z := file ←? file_at socket_fd EINVAL; down_socket file.

(** The socket behind an [Arc]. *)
Definition get_sock (id : Z) : M (Socket C) := on_host (λ s, k ← unwrap (ss_socks s !! id); Val (k, s)).

Definition sys_socket (domain net_type : Z) : K Z :=
  fd ←? alloc_fd_or EMFILE;
  net_type ←? k_ret (ok_or (net_type_from_usize net_type) EINVAL);
  socket ←? k_of (on_host (λ s, '(k, n) ← socket_new domain net_type (ss_net s); Val (k, set_net n s)));
  file ←? k_of (new_socket_file socket);
  k_of (set_fd fd file) ;;?
  k_ret (Ok fd).

(** The result and what is stored in [fds]. *)
Definition sys_socket_pair : K (Z * Z) :=
  socket ←? k_of (on_host (λ s, Val (create_socket_pair s)));
  rx_fd ←? alloc_fd_or ENFILE;
  rx_file ←? k_of (new_file (new_dev (host_node (NPair socket))));
  k_of (set_fd rx_fd rx_file) ;;?
  tx_fd ←? alloc_fd_or ENFILE;
  tx_file ←? k_of (new_file (new_dev (host_node (NPair socket))));
  k_of (set_fd tx_fd tx_file) ;;?
  k_ret (Ok (as_u32 rx_fd, as_u32 tx_fd)).

(** The descriptor is given a socket over the connection that holds the port. *)
Definition bind_reuse (socket_fd : Z) (k : Socket C) (port : Z) : K Z :=
  sock ←? k_of (on_host (λ s, k ← socket_reuse k port (ss_net s); Val (k, s)));
  file ←? k_of (new_socket_file sock);
  k_of (set_fd socket_fd file) ;;?
  k_ret (Ok 0).

Definition port_used (k : Socket C) (port : Z) (n : N) : bool :=
  match so_net_type k with STEAM => tcp_is_used port n | DGRAME => udp_is_used port n | RAW => false end.

Definition sys_bind (socket_fd : Z) (addr : SocketAddrIn) : K Z :=
  id ←? sock_at socket_fd;
  k ←? k_of (get_sock id);
  let port := to_be16 (sin_port addr) in
  if negb (sin_family addr =? 0x02) then k_ret (Err EAFNOSUPPORT)
  else
    used ←? k_of (net_get (port_used k port));
    if (used : bool) then bind_reuse socket_fd k port
    else
      r ←? k_of (on_net (si_bind (so_inner k) (mkAddr (sin_addr addr) port)));
      k_ret (match r with inl _ => Ok 0 | inr _ => Err EALREADY end).

Definition sys_listen (socket_fd : Z) : K Z :=
  id ←? sock_at socket_fd;
  k ←? k_of (get_sock id);
  _ ←? k_of (on_net (si_listen (so_inner k)));
  k_ret (Ok 0).

(** Before the loop of [sys_accept]: the socket and the descriptor. *)
Definition accept_begin (socket_fd : Z) : K (Z * Z) :=
  file ←? file_at socket_fd EINVAL;
  id ←? down_socket file;
  fd ←? alloc_fd_or EMFILE;
  k_ret (Ok (id, fd)).

(** [socket.inner.accept()] *)
Definition try_accept (k : Socket C) : M (option C) :=
  on_net (λ n, match si_accept (so_inner k) n with (inl c, n) => (Some c, n) | (inr _, n) => (None, n) end).

(** One turn of the loop of [sys_accept]. *)
Definition sys_accept (id fd : Z) : M (Poll (result Z)) := λ p,
  '(k, p) ← get_sock id p;
  '(c, p) ← try_accept k p;
  match c with
  | Some new_socket =>
      '(file, p) ← new_socket_file (socket_with_inner (so_domain k) (so_net_type k) new_socket) p;
      '(_, p) ← set_fd fd file p;
      Val (Ready (Ok fd), p)
  | None => Val (if has_signal (tcb_signal (p_tcb p)) then Ready (Err EINTR) else Pending, p)
  end.

(** One turn of the loop of [sys_connect]. *)
Definition sys_connect (id : Z) (addr : SocketAddrIn) : M (Poll (result Z)) := λ p,
  '(k, p) ← get_sock id p;
  '(r, p) ← on_net (si_connect (so_inner k) (addr_of addr)) p;
  Val (match r with inr Blocking => Pending | _ => Ready (Ok 0) end, p).

(** One turn of [sys_recvfrom]: the bytes copied and what is stored through
    [addr]. *)
(** The part of a message that fits in the buffer; the rest is dropped. *)
Definition recv_part (len : nat) (data : list Z) : list Z := take (Nat.min (length data) len) data.

Definition sys_recvfrom (file id : Z) (len : nat) (addr : bool) : M (Poll (result (list Z * option SocketAddrIn))) := λ p,
  f ← unwrap (p_files p !! file);
  '(k, p) ← get_sock id p;
  '(r, p) ← on_host (λ s, '(r, n) ← socket_recv_from k (ss_net s); Val (r, set_net n s)) p;
  match r with
  | Ok (data, remote) =>
      Val (Ready (Ok (recv_part len data, if addr then Some (addr_in remote) else None)), p)
  | Err _ => Val (if contains (f_flags f) O_NONBLOCK then Ready (Err EAGAIN) else Pending, p)
  end.

(** [getsockname] and [getpeername]: what is stored through [addr_ptr]. *)
Definition name_call (get : C → N → NRes SocketAddrV4) (socket_fd : Z) (addr : bool) : K (option SocketAddrIn) :=
  id ←? sock_at socket_fd;
  k ←? k_of (get_sock id);
  if addr then
    a ←? k_of (on_host (λ s, a ← n_unwrap (get (so_inner k) (ss_net s)); Val (a, s)));
    k_ret (Ok (Some (addr_in a)))
  else k_ret (Ok None).
Definition sys_getsockname := name_call si_get_local.
Definition sys_getpeername := name_call si_get_remote.

Definition sys_setsockopt : K Z := k_ret (Ok 0).

(** The result and the value stored through [optval]. *)
Definition sys_getsockopt (optname : Z) : K (option Z) :=
  k_ret (if (optname =? 0x7) || (optname =? 0x8) then Ok (Some 32000)
         else if optname =? 0x2 then Ok (Some 2000)
         else if optname =? 0x4 then Err EPERM else Ok None).

(** [socket.inner.get_local().unwrap().port() == 0] *)
Definition no_port (k : Socket C) : M bool :=
  on_host (λ s, a ← n_unwrap (si_get_local (so_inner k) (ss_net s)); Val (sa_port a =? 0, s)).

Definition LOCAL_ANY : SocketAddrV4 := mkAddr [127; 0; 0; 1] 0.

Definition bind_any (k : Socket C) : K unit :=
  r ←? k_of (on_net (si_bind (so_inner k) LOCAL_ANY));
  k_ret (match r with inl _ => Ok tt | inr _ => Err EALREADY end).

Definition send_out (k : Socket C) (buffer : list Z) (remote : option SocketAddrV4) : M Z :=
  on_host (λ s, let '(r, n) := si_sendto (so_inner k) buffer remote (ss_net s) in
                 wlen ← n_unwrap r; Val (wlen, set_net n s)).

Definition sys_sendto (socket_fd : Z) (buffer : list Z) (addr : option SocketAddrIn) : K Z :=
  id ←? sock_at socket_fd;
  k ←? k_of (get_sock id);
  unbound ←? k_of (no_port k);
  (if (unbound : bool) then bind_any k else k_ret (Ok tt)) ;;?
  k_of (send_out k buffer (addr_of <$> addr)).

Definition sys_shutdown (socket_fd : Z) : K Z :=
  id ←? sock_at socket_fd;
  k ←? k_of (get_sock id);
  _ ←? k_of (on_net (si_close (so_inner k)));
  k_ret (Ok 0).

(** One turn of the loop of [sys_accept4]; the address stored keeps the port
    in the order of the stack. *)
Definition sys_accept4 (file id fd flags : Z) : M (Poll (result (Z * SocketAddrIn))) := λ p,
  f ← unwrap (p_files p !! file);
  '(k, p) ← get_sock id p;
  '(c, p) ← try_accept k p;
  match c with
  | Some new_socket =>
      '(remote, p) ← on_host (λ s, a ← n_unwrap (si_get_remote new_socket (ss_net s)); Val (a, s)) p;
      '(sid, p) ← on_host (λ s, Val (add_sock (socket_with_inner (so_domain k) (so_net_type k) new_socket) s)) p;
      '(new_id, p) ← new_file (set_flags (open_flags flags) (new_dev (host_node (NSock sid)))) p;
      '(_, p) ← set_fd fd new_id p;
      Val (Ready (Ok (fd, mkAddrIn 2 (sa_port remote) (sa_ip remote))), p)
  | None => Val (if contains (f_flags f) O_NONBLOCK then Ready (Err EAGAIN) else Pending, p)
  end.
End sock_calls.

(** ** What a socket delivers

    What the kernel relies on: a connection has a queue of messages; a receive
    takes the first and leaves the other connections alone, and fails when the
    queue is empty; a send takes no message away, it can only add some (to a
    connection of the same machine). *)
Class NetQueues (N C : Type) `{!NetStack N C} := {
  queue : C → N → list (list Z * SocketAddrV4);
  recv_some c n m q : queue c n = m :: q → ∃ n', si_recv_from c n = (inl m, n') ∧ queue c n' = q ∧
    ∀ c', c' ≠ c → queue c' n' = queue c' n;
  recv_none c n : queue c n = [] → ∃ e n', si_recv_from c n = (inr e, n') ∧ ∀ c', queue c' n' = queue c' n;
  send_adds c c' d a n : ∃ new, queue c' (si_sendto c d a n).2 = queue c' n ++ new
}.

(** Who took a message from the queue of a connection: a [read] through the
    socket [j], or a [recvfrom] with a buffer of [len] bytes. *)
Inductive Taker := ByRead (j : Z) | ByRecv (len : nat).

(** The messages the reads of [j] took. *)
Definition by_read (j : Z) (l : list (Taker * list Z)) : list (list Z) :=
  omap (λ x, match x.1 with ByRead i => if bool_decide (i = j) then Some x.2 else None | ByRecv _ => None end) l.
(** What the calls of [recvfrom] returned of the messages they took. *)
Definition by_recv (l : list (Taker * list Z)) : list (list Z) :=
  omap (λ x, match x.1 with ByRead _ => None | ByRecv len => Some (take len x.2) end) l.

Section stream.
Context {N C : Type} `{!NetStack N C} `{!NetQueues N C} (c : C).
Notation St := (SockStore N C).

(** The messages waiting in the stack, those a call took and those it added. *)
Definition waiting (n : N) : list (list Z) := fst <$> queue c n.
Definition gone (n n' : N) : list (list Z) := take (length (waiting n) - length (waiting n')) (waiting n).
Definition came (n n' : N) : list (list Z) := drop (length (waiting n)) (waiting n').

(** A state; the messages that arrived for the connection; those taken, in the
    order of taking, with the taker; the bytes read through each socket; and
    what the calls of [recvfrom] returned. *)
Record SockHistory := mkSockHist {
  sh_store : St; sh_arrived : list (list Z); sh_log : list (Taker * list Z); sh_read : gmap Z (list Z); sh_recv : list (list Z)
}.

(** Any number of sockets over the connection [c] and over others are read,
    received from, written, sent from and made, and messages arrive from
    outside. *)
Inductive sock_step : SockHistory → SockHistory → Prop :=
  | step_read s a l r v j k off n res s' :
      ss_socks s !! j = Some k → so_inner k = c → io_readat sock_ops (NSock j) off n s = Val (res, s') →
      sock_step (mkSockHist s a l r v)
        (mkSockHist s' a (l ++ (pair (ByRead j) <$> gone (ss_net s) (ss_net s')))
           (match res with Ok bs => <[j := default [] (r !! j) ++ bs]> r | Err _ => r end) v)
  | step_recvfrom s a l r v j k len res n' :
      ss_socks s !! j = Some k → so_inner k = c → socket_recv_from k (ss_net s) = Val (res, n') →
      sock_step (mkSockHist s a l r v)
        (mkSockHist (set_net n' s) a (l ++ (pair (ByRecv len) <$> gone (ss_net s) n')) r
           (v ++ match res with Ok (data, _) => [recv_part len data] | Err _ => [] end))
  | step_other s a l r v j k off n res s' :
      ss_socks s !! j = Some k → so_inner k ≠ c → io_readat sock_ops (NSock j) off n s = Val (res, s') →
      sock_step (mkSockHist s a l r v) (mkSockHist s' a l r v)
  | step_other_recvfrom s a l r v j k res n' :
      ss_socks s !! j = Some k → so_inner k ≠ c → socket_recv_from k (ss_net s) = Val (res, n') →
      sock_step (mkSockHist s a l r v) (mkSockHist (set_net n' s) a l r v)
  | step_write s a l r v j off buf res s' :
      io_writeat sock_ops (NSock j) off buf s = Val (res, s') →
      sock_step (mkSockHist s a l r v) (mkSockHist s' (a ++ came (ss_net s) (ss_net s')) l r v)
  | step_sendto s a l r v j k buf remote :
      ss_socks s !! j = Some k →
      let n' := (si_sendto (so_inner k) buf remote (ss_net s)).2 in
      sock_step (mkSockHist s a l r v) (mkSockHist (set_net n' s) (a ++ came (ss_net s) n') l r v)
  | step_open s a l r v domain net_type inner :
      sock_step (mkSockHist s a l r v) (mkSockHist (add_sock (socket_with_inner domain net_type inner) s).2 a l r v)
  | step_arrive s a l r v n' new :
      queue c n' = queue c (ss_net s) ++ new →
      sock_step (mkSockHist s a l r v) (mkSockHist (set_net n' s) (a ++ came (ss_net s) n') l r v).

Record sock_inv (h : SockHistory) : Prop := {
  sv_arrived : sh_arrived h = (sh_log h).*2 ++ waiting (ss_net (sh_store h));
  sv_read : ∀ j k, ss_socks (sh_store h) !! j = Some k → so_inner k = c →
    default [] (sh_read h !! j) ++ so_buf k = concat (by_read j (sh_log h));
  sv_new : ∀ j, ss_socks (sh_store h) !! j = None → sh_read h !! j = None ∧ by_read j (sh_log h) = [];
  sv_recv : sh_recv h = by_recv (sh_log h)
}.

Lemma by_read_app j l l' : by_read j (l ++ l') = by_read j l ++ by_read j l'.
Proof. apply omap_app. Qed.
Lemma by_recv_app l l' : by_recv (l ++ l') = by_recv l ++ by_recv l'.
Proof. apply omap_app. Qed.

Lemma gone_none n n' : queue c n' = queue c n → gone n n' = [].
Proof. intros E. unfold gone, waiting. by rewrite E, Nat.sub_diag. Qed.
Lemma gone_first n n' m q : queue c n = m :: q → queue c n' = q → gone n n' = [m.1].
Proof.
  intros E E'. unfold gone, waiting. rewrite E, E', fmap_cons. cbn [length].
  replace (S (length (fst <$> q)) - length (fst <$> q))%nat with 1%nat by lia. done.
Qed.
Lemma came_new n n' new : queue c n' = queue c n ++ new → waiting n' = waiting n ++ came n n'.
Proof. intros E. unfold came, waiting. rewrite E, fmap_app. by rewrite drop_app_length. Qed.

Lemma deliver_spec j k data n (s : St) :
  ∃ s', socket_deliver j k data n s = (Ok (take n data), s') ∧ ss_net s' = ss_net s ∧
    ss_socks s' = <[j := mkSocket (so_domain k) (so_net_type k) (so_inner k) (so_wsize k)
      (so_rsize k +w Z.of_nat (Nat.min (length data) n)) (drop n data)]> (ss_socks s).
Proof.
  unfold socket_deliver.
  assert (take (Nat.min (length data) n) data = take n data) as ->.
  { destruct (decide (n ≤ length data)%nat); [by rewrite Nat.min_r|]. by rewrite Nat.min_l, !take_ge by lia. }
  eexists. split; [done|]. split; [by destruct (n =? 1)%nat|].
  assert (after_read k data (Nat.min (length data) n) = mkSocket (so_domain k) (so_net_type k) (so_inner k) (so_wsize k)
    (so_rsize k +w Z.of_nat (Nat.min (length data) n)) (drop n data)) as ->; [|by destruct (n =? 1)%nat].
  unfold after_read. f_equal. destruct (Nat.ltb_spec (Nat.min (length data) n) (length data)).
  - by rewrite Nat.min_r by lia.
  - by rewrite drop_ge by lia.
Qed.

Lemma recv_part_take len data : recv_part len data = take len data.
Proof.
  unfold recv_part. destruct (decide (len ≤ length data)%nat); [by rewrite Nat.min_r|]. by rewrite Nat.min_l, !take_ge by lia.
Qed.

(** A read: what is buffered first, then the next message. *)
Lemma socket_readat_spec (s : St) j k n :
  ss_socks s !! j = Some k →
  match socket_readat j n s with
  | Val (Ok bs, s') => ∃ buf', ss_socks s' = <[j := mkSocket (so_domain k) (so_net_type k) (so_inner k) (so_wsize k)
        (so_rsize k +w Z.of_nat (length bs)) buf']> (ss_socks s) ∧
      ((so_buf k ≠ [] ∧ so_buf k = bs ++ buf' ∧ ss_net s' = ss_net s) ∨
       ∃ m q, so_buf k = [] ∧ queue (so_inner k) (ss_net s) = m :: q ∧ m.1 = bs ++ buf' ∧ queue (so_inner k) (ss_net s') = q ∧
         ∀ c', c' ≠ so_inner k → queue c' (ss_net s') = queue c' (ss_net s)) ∧
      bs = take n (if so_buf k then hd [] (fst <$> queue (so_inner k) (ss_net s)) else so_buf k)
  | Val (Err e, s') => e = EWOULDBLOCK ∧ ss_socks s' = ss_socks s ∧ so_buf k = [] ∧ queue (so_inner k) (ss_net s) = [] ∧
      ∀ c', queue c' (ss_net s') = queue c' (ss_net s)
  | Panic => False
  end.
Proof.
  intros Hk. unfold socket_readat. rewrite Hk. cbn [unwrap mbind outcome_bind].
  assert (∀ d : list Z, Z.of_nat (Nat.min (length d) n) = Z.of_nat (length (take n d))) as Hmin
    by (intros d; rewrite length_take; lia).
  destruct (so_buf k) as [|b buf] eqn:Eb; cbn [length Nat.eqb].
  - destruct (queue (so_inner k) (ss_net s)) as [|[d a] q] eqn:Hq.
    + destruct (recv_none _ (ss_net s) Hq) as (e & n' & -> & Hn'). by split_and!.
    + destruct (recv_some _ (ss_net s) _ _ Hq) as (n' & -> & Hn' & Ho).
      destruct (deliver_spec j k d n (set_net n' s)) as (s' & -> & En & Es). exists (drop n d). rewrite Es, Hmin. split; [done|]. split; [|done].
      right. exists (d, a), q. rewrite En. split_and!; [done|done|by rewrite take_drop|done|done].
  - destruct (deliver_spec j k (b :: buf) n s) as (s' & -> & En & Es). exists (drop n (b :: buf)). rewrite Es, Hmin. split; [done|]. split; [|done].
    left. rewrite En, take_drop. done.
Qed.

Lemma recv_from_spec (s : St) k res n' :
  socket_recv_from k (ss_net s) = Val (res, n') →
  match res with
  | Ok (d, a) => ∃ q, queue (so_inner k) (ss_net s) = (d, a) :: q ∧ queue (so_inner k) n' = q ∧
      ∀ c', c' ≠ so_inner k → queue c' n' = queue c' (ss_net s)
  | Err _ => ∀ c', queue c' n' = queue c' (ss_net s)
  end.
Proof.
  unfold socket_recv_from. destruct (n_unwrap _) as [loc|]; [|done]. cbn [mbind outcome_bind].
  destruct (queue (so_inner k) (ss_net s)) as [|[d a] q] eqn:Hq.
  - destruct (recv_none _ _ Hq) as (e & n1 & -> & Hn). by intros [= <- <-].
  - destruct (recv_some _ _ _ _ Hq) as (n1 & -> & Hn & Ho). intros [= <- <-]. by exists q.
Qed.

(** A write, on any socket, keeps what every socket has buffered. *)
Lemma socket_writeat_keeps (s : St) other buf res s' :
  socket_writeat other buf s = Val (res, s') →
  (∀ j, match ss_socks s !! j with
        | Some k => ∃ k', ss_socks s' !! j = Some k' ∧ so_inner k' = so_inner k ∧ so_buf k' = so_buf k
        | None => ss_socks s' !! j = None
        end) ∧ ∃ new, queue c (ss_net s') = queue c (ss_net s) ++ new.
Proof.
  unfold socket_writeat. destruct (ss_socks s !! other) as [ko|] eqn:Ho; [|done]. cbn [unwrap mbind outcome_bind].
  destruct (send_adds (so_inner ko) c buf None (ss_net s)) as [new Hnew].
  destruct (si_sendto _ _ _ _) as [[len|e] m]; intros [= <- <-]; (split; [|by exists new]); intros j; cbn [ss_socks set_sock set_net].
  - destruct (decide (other = j)) as [->|Hne].
    + rewrite Ho, lookup_insert_eq. by eexists.
    + rewrite lookup_insert_ne by done. destruct (ss_socks s !! j) as [k|]; [by exists k|done].
  - destruct (ss_socks s !! j) as [k|]; [by exists k|done].
Qed.

(** *** The steps *)
(** No message is taken and the sockets keep their buffers. *)
Lemma sock_inv_quiet s a l r v s' a' :
  sock_inv (mkSockHist s a l r v) →
  (∀ j, match ss_socks s !! j with
        | Some k => ∃ k', ss_socks s' !! j = Some k' ∧ so_inner k' = so_inner k ∧ (so_inner k = c → so_buf k' = so_buf k)
        | None => ∀ k', ss_socks s' !! j = Some k' → so_buf k' = []
        end) →
  (∃ x, waiting (ss_net s') = waiting (ss_net s) ++ x ∧ a' = a ++ x) →
  sock_inv (mkSockHist s' a' l r v).
Proof.
  intros [Ha Hr Hn Hv] Hs (x & Hw & ->). cbn [sh_store sh_arrived sh_log sh_read sh_recv] in *. split; cbn [sh_store sh_arrived sh_log sh_read sh_recv].
  - by rewrite Ha, Hw, app_assoc.
  - intros j k' Hk' Hc. specialize (Hs j). destruct (ss_socks s !! j) as [k|] eqn:Hk.
    + destruct Hs as (k1 & Hk1 & Hi & Hb). rewrite Hk' in Hk1. injection Hk1 as <-. rewrite Hb by congruence. apply Hr; congruence.
    + destruct (Hn j Hk) as [-> ->]. by rewrite (Hs k' Hk').
  - intros j Hj. apply Hn. specialize (Hs j). destruct (ss_socks s !! j) as [k|]; [|done]. destruct Hs as (k1 & ? & _). congruence.
  - done.
Qed.
Lemma sock_step_read s a l r v j k n res s' :
  ss_socks s !! j = Some k → so_inner k = c → socket_readat j n s = Val (res, s') →
  sock_inv (mkSockHist s a l r v) →
  sock_inv (mkSockHist s' a (l ++ (pair (ByRead j) <$> gone (ss_net s) (ss_net s')))
    (match res with Ok bs => <[j := default [] (r !! j) ++ bs]> r | Err _ => r end) v).
Proof.
  intros Hk Hc E Hi. pose proof (socket_readat_spec s j k n Hk) as Hs. rewrite E in Hs. rewrite Hc in Hs.
  destruct res as [bs|e].
  2: { destruct Hs as (_ & Es & _ & _ & Hq). rewrite gone_none, app_nil_r by done.
       apply (sock_inv_quiet s a l r v); [done| |].
       - intros i. rewrite Es. destruct (ss_socks s !! i) as [ki|]; [by exists ki|done].
       - exists []. unfold waiting. by rewrite Hq, !app_nil_r. }
  destruct Hs as (buf' & Es & Hcase & _). destruct Hi as [Ha Hr Hn Hv]. cbn [sh_store sh_arrived sh_log sh_read sh_recv] in *.
  assert (∃ g, gone (ss_net s) (ss_net s') = g ∧ waiting (ss_net s) = g ++ waiting (ss_net s') ∧ so_buf k ++ concat g = bs ++ buf')
    as (g & -> & Hw & Hb).
  { destruct Hcase as [(_ & Hb & En)|(m & q & Hb & Hq & Hm & Hq' & _)].
    - exists []. rewrite En, Hb, app_nil_r. split_and!; [by apply gone_none|done|done].
    - exists [m.1]. rewrite Hb. unfold waiting. rewrite Hq, Hq'. split_and!; [by eapply gone_first|done|]. simpl. by rewrite app_nil_r. }
  assert (by_read j (pair (ByRead j) <$> g) = g) as Hj.
  { clear. induction g as [|m g IH]; [done|]. unfold by_read in *. simpl. rewrite bool_decide_eq_true_2 by done. f_equal. exact IH. }
  assert (∀ i, i ≠ j → by_read i (pair (ByRead j) <$> g) = []) as Hij.
  { intros i Hne. clear -Hne. induction g as [|m g IH]; [done|]. unfold by_read in *. simpl. by rewrite bool_decide_eq_false_2 by done. }
  split; cbn [sh_store sh_arrived sh_log sh_read sh_recv].
  - rewrite Ha, Hw, fmap_app, app_assoc. do 2 f_equal. clear. induction g as [|m g IH]; [done|]. simpl. f_equal. exact IH.
  - intros i ki. rewrite Es, by_read_app, concat_app. destruct (decide (i = j)) as [->|Hne].
    + rewrite !lookup_insert_eq. intros [= <-] _. cbn [default so_buf]. rewrite Hj. rewrite <- (Hr j k) by done. rewrite <- app_assoc, Hb. unfold id. by rewrite <- app_assoc.
    + rewrite !lookup_insert_ne by done. intros Hki Hci. rewrite Hij by done. simpl. rewrite app_nil_r. by apply Hr.
  - intros i. rewrite Es. destruct (decide (i = j)) as [->|Hne]; [by rewrite lookup_insert_eq|]. rewrite !lookup_insert_ne by done.
    intros [? Hby]%Hn. by rewrite by_read_app, Hij, Hby by done.
  - rewrite by_recv_app, Hv. assert (by_recv (pair (ByRead j) <$> g) = []) as ->; [|by rewrite app_nil_r].
    clear. induction g as [|m g IH]; [done|]. exact IH.
Qed.

Lemma sock_step_recv s a l r v j k len res n' :
  ss_socks s !! j = Some k → so_inner k = c → socket_recv_from k (ss_net s) = Val (res, n') →
  sock_inv (mkSockHist s a l r v) →
  sock_inv (mkSockHist (set_net n' s) a (l ++ (pair (ByRecv len) <$> gone (ss_net s) n')) r
    (v ++ match res with Ok (data, _) => [recv_part len data] | Err _ => [] end)).
Proof.
  intros Hk Hc E Hi. pose proof (recv_from_spec s k res n' E) as Hs. rewrite Hc in Hs. destruct res as [[d x]|e].
  2: { rewrite gone_none, !app_nil_r by done. apply (sock_inv_quiet s a l r v); [done| |].
       - intros i. cbn [ss_socks set_net]. destruct (ss_socks s !! i) as [ki|]; [by exists ki|done].
       - exists []. cbn [ss_net set_net]. unfold waiting. by rewrite Hs, !app_nil_r. }
  destruct Hs as (q & Hq & Hq' & _). rewrite (gone_first _ _ (d, x) q) by done. destruct Hi as [Ha Hr Hn Hv].
  cbn [sh_store sh_arrived sh_log sh_read sh_recv fmap list_fmap fst] in *.
  assert (∀ i, by_read i (l ++ [(ByRecv len, d)]) = by_read i l) as Hby by (intros i; rewrite by_read_app; apply app_nil_r).
  split; cbn [sh_store sh_arrived sh_log sh_read sh_recv ss_socks ss_net set_net].
  - rewrite Ha, fmap_app, <- app_assoc. unfold waiting. by rewrite Hq, Hq'.
  - intros i ki Hki Hci. rewrite Hby. by apply Hr.
  - intros i Hi. rewrite Hby. by apply Hn.
  - by rewrite by_recv_app, Hv, recv_part_take.
Qed.

Lemma sock_step_inv h h' : sock_step h h' → sock_inv h → sock_inv h'.
Proof.
  destruct 1 as [s a l r v j k off n res s' Hk Hc E|s a l r v j k len res n' Hk Hc E|s a l r v j k off n res s' Hk Hne E
    |s a l r v j k res n' Hk Hne E|s a l r v j off buf res s' E|s a l r v j k buf remote Hk n'|s a l r v domain net_type inner|s a l r v n' new Hq]; intros Hi.
  - exact (sock_step_read s a l r v j k n res s' Hk Hc E Hi).
  - exact (sock_step_recv s a l r v j k len res n' Hk Hc E Hi).
  - pose proof (socket_readat_spec s j k n Hk) as Hs. cbn [io_readat sock_ops] in E. rewrite E in Hs.
    apply (sock_inv_quiet s a l r v); [done| |].
    + intros i. destruct res as [bs|e]; [|destruct Hs as (_ & -> & _); destruct (ss_socks s !! i) as [ki|]; [by exists ki|done]].
      destruct Hs as (buf' & -> & _). destruct (decide (i = j)) as [->|Hij].
      * rewrite Hk, lookup_insert_eq. eexists. by split_and!.
      * rewrite lookup_insert_ne by done. destruct (ss_socks s !! i) as [ki|]; [by exists ki|done].
    + exists []. rewrite !app_nil_r. split; [|done]. unfold waiting. f_equal.
      destruct res as [bs|e]; [|by destruct Hs as (_ & _ & _ & _ & Hq)].
      destruct Hs as (buf' & _ & [(_ & _ & ->)|(m & q & _ & _ & _ & _ & Hq)] & _); [done|by apply Hq].
  - pose proof (recv_from_spec s k res n' E) as Hs. apply (sock_inv_quiet s a l r v); [done| |].
    + intros i. cbn [ss_socks set_net]. destruct (ss_socks s !! i) as [ki|]; [by exists ki|done].
    + exists []. rewrite !app_nil_r. split; [|done]. cbn [ss_net set_net]. unfold waiting. f_equal.
      destruct res as [[d x]|e]; [|by apply Hs]. destruct Hs as (q & _ & _ & Hq). by apply Hq.
  - cbn [io_writeat sock_ops] in E. destruct (socket_writeat_keeps s j buf res s' E) as [Hs [new Hq]].
    apply (sock_inv_quiet s a l r v); [done| |exists (came (ss_net s) (ss_net s')); split; [by eapply came_new|done]].
    intros i. specialize (Hs i). destruct (ss_socks s !! i) as [ki|]; [destruct Hs as (k' & ? & ? & ?); by exists k'|congruence].
  - destruct (send_adds (so_inner k) c buf remote (ss_net s)) as [new Hq]. fold n' in Hq.
    apply (sock_inv_quiet s a l r v); [done| |exists (came (ss_net s) n'); split; [by eapply came_new|done]].
    intros i. cbn [ss_socks set_net]. destruct (ss_socks s !! i) as [ki|]; [by exists ki|done].
  - apply (sock_inv_quiet s a l r v); [done| |by exists []; rewrite !app_nil_r].
    unfold add_sock. cbn [snd ss_socks set_sock]. set (id := fresh _).
    assert (ss_socks s !! id = None) as Hid by (apply not_elem_of_dom, is_fresh).
    intros i. destruct (decide (i = id)) as [->|Hne].
    + rewrite Hid, lookup_insert_eq. by intros k' [= <-].
    + rewrite lookup_insert_ne by done. destruct (ss_socks s !! i) as [ki|]; [by exists ki|done].
  - apply (sock_inv_quiet s a l r v); [done| |exists (came (ss_net s) n'); split; [by eapply came_new|done]].
    intros i. cbn [ss_socks set_net]. destruct (ss_socks s !! i) as [ki|]; [by exists ki|done].
Qed.

Lemma by_read_all j l : Forall (λ x : Taker * list Z, x.1 = ByRead j) l → by_read j l = l.*2.
Proof.
  induction 1 as [|[t m] l Hx _ IH]; [done|]. simpl in Hx. subst t. unfold by_read in *. simpl.
  rewrite bool_decide_eq_true_2 by done. f_equal. exact IH.
Qed.

(** C27: Over every history of [read], [recvfrom], [write] and [sendto] on any
    number of sockets, some over the same connection and some over others, of
    sockets being made and messages arriving from outside: the messages of the
    connection are taken in the order of their arrival, each by one call, and
    those not taken wait in the stack; what was read through a socket and what
    it kept from a short read are exactly the messages its reads took; each
    [recvfrom] returned the part of its message that fits its buffer (the rest
    is lost).  So when one socket is the only reader, the bytes read, kept and
    waiting are the bytes that arrived, in order.  A read returns the first
    bytes of what is kept, else of the next message, and fails only when there
    is neither. *)
Theorem socket_stream_in_order (s0 : St) h :
  (∀ j k, ss_socks s0 !! j = Some k → so_inner k = c → so_buf k = []) → queue c (ss_net s0) = [] →
  rtc sock_step (mkSockHist s0 [] [] ∅ []) h →
  sh_arrived h = (sh_log h).*2 ++ waiting (ss_net (sh_store h)) ∧ sh_recv h = by_recv (sh_log h) ∧
  ∀ j k, ss_socks (sh_store h) !! j = Some k → so_inner k = c →
    default [] (sh_read h !! j) ++ so_buf k = concat (by_read j (sh_log h)) ∧
    (Forall (λ x, x.1 = ByRead j) (sh_log h) →
       concat (sh_arrived h) = default [] (sh_read h !! j) ++ so_buf k ++ concat (waiting (ss_net (sh_store h)))) ∧
    ∀ off n, match io_readat sock_ops (NSock j) off n (sh_store h) with
             | Val (Ok bs, s') => bs = take n (if so_buf k then hd [] (waiting (ss_net (sh_store h))) else so_buf k)
             | Val (Err e, _) => e = EWOULDBLOCK ∧ so_buf k = [] ∧ waiting (ss_net (sh_store h)) = []
             | Panic => False
             end.
Proof.
  intros Hb Hq Hs. assert (sock_inv h) as [Ha Hr _ Hv].
  { eapply rtc_ind_r with (P := λ h, sock_inv h); [| |exact Hs].
    - split; cbn [sh_store sh_arrived sh_log sh_read sh_recv].
      + unfold waiting. by rewrite Hq.
      + intros j k Hk Hc. by rewrite lookup_empty, (Hb j k).
      + intros j _. by rewrite lookup_empty.
      + done.
    - intros h1 h2 _ Hstep. by apply sock_step_inv. }
  split; [done|]. split; [done|]. intros j k Hk Hc. split; [by apply Hr|]. split.
  - intros Hall. by rewrite Ha, concat_app, <- (by_read_all j), <- (Hr j k), <- app_assoc by done.
  - intros off n. cbn [io_readat sock_ops]. pose proof (socket_readat_spec (sh_store h) j k n Hk) as Hrd.
    destruct (socket_readat j n (sh_store h)) as [[[bs|e] s']|]; [| |done].
    + destruct Hrd as (_ & _ & _ & ->). by rewrite Hc.
    + destruct Hrd as (-> & _ & Hb0 & Hq0 & _). rewrite Hc in Hq0. unfold waiting. by rewrite Hq0.
Qed.
End stream.

(** ** The calls *)
Section call_props.
Context {N C S H : Type} `{!NetStack N C} `{!Host (SockStore N C) SockNode S H} `{!HostLaws (SockStore N C) SockNode S H}.
Notation K := (K S H).
Notation St := (SockStore N C).

Notation socks := (hosted (T := SockStore N C) (X := SockNode)).

Lemma get_sock_spec id k (p : Proc S H) :
  ss_socks (socks p) !! id = Some k →
  ∃ p', get_sock id p = Val (k, p') ∧ socks p' = socks p ∧ p_files p' = p_files p ∧ p_pcb p' = p_pcb p ∧ p_tcb p' = p_tcb p.
Proof. intros E. unfold get_sock. apply on_host_spec. by rewrite E. Qed.

Lemma new_socket_file_spec (k : Socket C) (p : Proc S H) :
  ∃ file id p', new_socket_file k p = Val (file, p') ∧ ss_socks (socks p') = <[id := k]> (ss_socks (socks p)) ∧
    ss_socks (socks p) !! id = None ∧ ss_net (socks p') = ss_net (socks p) ∧
    p_files p !! file = None ∧ p_files p' = <[file := new_dev (host_node (NSock id))]> (p_files p) ∧
    p_pcb p' = p_pcb p ∧ p_tcb p' = p_tcb p.
Proof.
  unfold new_socket_file. 
  destruct (on_host_spec (λ s, Val (add_sock k s)) p (fresh (dom (ss_socks (socks p))))
    (set_sock (fresh (dom (ss_socks (socks p)))) k (socks p))) as (p1 & E & Hs & Hf & Hp & Ht); [done|].
  rewrite E. cbn [mbind outcome_bind]. unfold new_file. do 3 eexists. split; [done|].
  assert (socks (set_files (<[fresh (dom (p_files p1)) := new_dev (host_node (NSock (fresh (dom (ss_socks (socks p))))))]> (p_files p1)) p1)
    = socks p1) as -> by done.
  rewrite Hs. split_and!; [done| |done| |by rewrite Hf|done|done].
  - apply not_elem_of_dom, is_fresh.
  - rewrite Hf. apply not_elem_of_dom, is_fresh.
Qed.

(** One turn of [accept] with a connection waiting: the descriptor chosen
    before the wait is given the connection. *)
Lemma accept_turn n (p : Proc S H) id fd k c m :
  fd_wf n p → 0 ≤ fd < n → ss_socks (socks p) !! id = Some k → si_accept (so_inner k) (ss_net (socks p)) = (inl c, m) →
  ∃ file sid p', sys_accept id fd p = Val (Ready (Ok fd), p') ∧ fd_wf n p' ∧
    (∀ x, 0 ≤ x → fd_view n p' x = if bool_decide (x = fd) then Some file else fd_view n p x) ∧
    p_files p !! file = None ∧ p_files p' = <[file := new_dev (host_node (NSock sid))]> (p_files p) ∧
    ss_socks (socks p) !! sid = None ∧
    ss_socks (socks p') = <[sid := socket_with_inner (so_domain k) (so_net_type k) c]> (ss_socks (socks p)) ∧
    ss_net (socks p') = m.
Proof.
  intros Hw Hfd Hk Ha. unfold sys_accept. destruct (get_sock_spec id k p Hk) as (p1 & -> & Hs1 & Hf1 & Hp1 & _).
  cbn [mbind outcome_bind]. unfold try_accept, on_net.
  destruct (on_host_spec (λ s, let '(a, n0) := match si_accept (so_inner k) (ss_net s) with
       (inl c0, n0) => (Some c0, n0) | (inr _, n0) => (None, n0) end in Val (a, set_net n0 s)) p1 (Some c) (set_net m (socks p1)))
    as (p2 & -> & Hs2 & Hf2 & Hp2 & _); [by rewrite Hs1, Ha|]. cbn [mbind outcome_bind].
  destruct (new_socket_file_spec (socket_with_inner (so_domain k) (so_net_type k) c) p2)
    as (file & sid & p3 & -> & Hs3 & Hfresh & Hn3 & Hff & Hf3 & Hp3 & _). cbn [mbind outcome_bind].
  assert (p_pcb p3 = p_pcb p) as Hpcb by congruence.
  assert (fd_wf n p3) as Hw3 by (destruct Hw as [Hl Hn]; split; [unfold fd_limit in *|]; by rewrite Hpcb).
  destruct (set_fd_spec n p3 fd file Hw3 ltac:(lia)) as (p4 & -> & Hw4 & Hf4 & Hworld & Hv). cbn [mbind outcome_bind].
  assert (socks p4 = socks p3) as Hs4 by (unfold hosted; by rewrite Hworld).
  exists file, sid, p4. split; [done|]. split; [done|]. rewrite Hs2, Hs1 in *. cbn [ss_socks ss_net set_net] in *.
  split_and!; [|by rewrite Hf2, Hf1 in Hff|by rewrite Hf4, Hf3, Hf2, Hf1|done|by rewrite Hs4, Hs3|by rewrite Hs4, Hn3].
  intros x Hx. rewrite Hv by done. unfold fd_view. rewrite Hpcb. repeat case_bool_decide; done || (exfalso; lia).
Qed.

Lemma accept_begin_spec n (p : Proc S H) socket_fd file f id fd :
  fd_wf n p → 0 ≤ socket_fd → fd_view n p socket_fd = Some file → p_files p !! file = Some f →
  host_down (f_inner f) = Some (NSock id) → lowest_free n (fd_view n p) = Some fd →
  ∃ p', accept_begin socket_fd p = Val (Ok (id, fd), p') ∧ fd_wf n p' ∧ socks p' = socks p ∧ p_files p' = p_files p ∧
    ∀ x, 0 ≤ x → fd_view n p' x = fd_view n p x.
Proof.
  intros Hw Hfd Hv Hf Hd Hl. unfold accept_begin, vfs_bind. rewrite (file_at_spec n) by done. rewrite Hv. cbn [ok_or].
  unfold down_socket, down_file. rewrite Hf. cbn [unwrap mbind outcome_bind]. rewrite Hd.
  destruct (alloc_fd_view n p Hw) as (p' & E & Hw' & Hf' & Hworld & Hv'). unfold alloc_fd_or. rewrite E, Hl.
  cbn [mbind outcome_bind ok_or]. exists p'. split_and!; try done. unfold hosted. by rewrite Hworld.
Qed.

(** Two threads that wait in [accept] on one socket are given the same
    descriptor, because it is chosen before the wait and not reserved: when two
    connections arrive both calls report success with that descriptor, it
    names the second connection, and no descriptor of the process names the
    first. *)
Theorem accept_shares_descriptor n (p : Proc S H) socket_fd file f id fd k c1 c2 m1 m2 :
  fd_wf n p → 0 ≤ socket_fd → fd_view n p socket_fd = Some file → p_files p !! file = Some f →
  host_down (f_inner f) = Some (NSock id) → lowest_free n (fd_view n p) = Some fd →
  (∀ x g, 0 ≤ x → fd_view n p x = Some g → is_Some (p_files p !! g)) →
  ss_socks (socks p) !! id = Some k → si_accept (so_inner k) (ss_net (socks p)) = (inl c1, m1) →
  si_accept (so_inner k) m1 = (inl c2, m2) →
  ∃ p1 p2 p3 p4 g1 g2 s1 s2,
    accept_begin socket_fd p = Val (Ok (id, fd), p1) ∧ accept_begin socket_fd p1 = Val (Ok (id, fd), p2) ∧
    sys_accept id fd p2 = Val (Ready (Ok fd), p3) ∧ sys_accept id fd p3 = Val (Ready (Ok fd), p4) ∧
    p_files p4 !! g1 = Some (new_dev (host_node (NSock s1))) ∧ (so_inner <$> ss_socks (socks p4) !! s1) = Some c1 ∧
    p_files p4 !! g2 = Some (new_dev (host_node (NSock s2))) ∧ (so_inner <$> ss_socks (socks p4) !! s2) = Some c2 ∧
    fd_view n p4 fd = Some g2 ∧ ∀ x, 0 ≤ x → fd_view n p4 x ≠ Some g1.
Proof.
  intros Hw Hs Hv Hf Hd Hl Hopen Hk Ha1 Ha2.
  assert (0 ≤ fd < n) as Hfd.
  { unfold lowest_free in Hl. destruct (list_find _ _) as [[i y]|] eqn:Ef; [|done]. injection Hl as ->.
    apply list_find_Some in Ef as (Hi & _). rewrite lookup_seqZ in Hi. lia. }
  destruct (accept_begin_spec n p socket_fd file f id fd) as (p1 & E1 & Hw1 & Hs1 & Hf1 & Hv1); [done..|].
  destruct (accept_begin_spec n p1 socket_fd file f id fd) as (p2 & E2 & Hw2 & Hs2 & Hf2 & Hv2);
    [done|done|by rewrite Hv1|by rewrite Hf1|done|by rewrite (lowest_free_ext n _ (fd_view n p))|].
  destruct (accept_turn n p2 id fd k c1 m1) as (g1 & s1 & p3 & E3 & Hw3 & Hv3 & Hn3 & Hf3 & Hd3 & Hs3 & Hm3);
    [done|done|by rewrite Hs2, Hs1|by rewrite Hs2, Hs1|].
  assert (id ≠ s1) by (intros ->; rewrite Hs2, Hs1 in Hd3; congruence).
  destruct (accept_turn n p3 id fd k c2 m2) as (g2 & s2 & p4 & E4 & Hw4 & Hv4 & Hn4 & Hf4 & Hd4 & Hs4 & Hm4);
    [done|done|by rewrite Hs3, Hs2, Hs1, lookup_insert_ne|by rewrite Hm3|].
  assert (g1 ≠ g2) by (intros ->; by rewrite Hf3, lookup_insert_eq in Hn4).
  assert (s1 ≠ s2) by (intros ->; by rewrite Hs3, lookup_insert_eq in Hd4).
  exists p1, p2, p3, p4, g1, g2, s1, s2. split_and!; [done..| | | | | |].
  - by rewrite Hf4, lookup_insert_ne, Hf3, lookup_insert_eq.
  - by rewrite Hs4, lookup_insert_ne, Hs3, lookup_insert_eq.
  - by rewrite Hf4, lookup_insert_eq.
  - by rewrite Hs4, lookup_insert_eq.
  - by rewrite Hv4, bool_decide_eq_true_2 by lia.
  - intros x Hx. rewrite Hv4 by done. case_bool_decide; [congruence|]. rewrite Hv3 by done.
    rewrite bool_decide_eq_false_2 by done. rewrite Hv2, Hv1 by done. intros Hg.
    apply Hopen in Hg as [? Hg]; [|done]. by rewrite Hf2, Hf1, Hg in Hn3.
Qed.

(** A message longer than the buffer of [recvfrom] loses its tail, and the bytes
    a short [read] kept are passed over: they stay in the socket while later
    ones are returned. *)
Theorem recvfrom_drops_tail (p : Proc S H) file f id k len d a m :
  p_files p !! file = Some f → ss_socks (socks p) !! id = Some k →
  n_is_ok (si_get_local (so_inner k) (ss_net (socks p))) = true →
  si_recv_from (so_inner k) (ss_net (socks p)) = (inl (d, a), m) →
  ∃ p', sys_recvfrom file id len false p = Val (Ready (Ok (take len d, None)), p') ∧
    ss_net (socks p') = m ∧ ss_socks (socks p') !! id = Some k.
Proof.
  intros Hf Hk Hl Hr. unfold sys_recvfrom. rewrite Hf. cbn [unwrap mbind outcome_bind].
  destruct (get_sock_spec id k p Hk) as (p1 & -> & Hs1 & _). cbn [mbind outcome_bind].
  destruct (on_host_spec (λ s, '(r, n) ← socket_recv_from k (ss_net s); Val (r, set_net n s)) p1 (Ok (d, a)) (set_net m (socks p1)))
    as (p2 & -> & Hs2 & _).
  { rewrite Hs1. unfold socket_recv_from. destruct (si_get_local _ _); [|done]. cbn [n_unwrap mbind outcome_bind]. by rewrite Hr. }
  cbn [mbind outcome_bind]. exists p2. rewrite Hs2, Hs1. split_and!; [|done..]. by rewrite recv_part_take.
Qed.

(** A message the stack refuses ([sendto] on a UDP socket with no peer and no
    address) panics the kernel, where [write] reports EPERM. *)
Theorem refused_send_panics n (p : Proc S H) socket_fd file f id k buffer addr a e m :
  fd_wf n p → 0 ≤ socket_fd → fd_view n p socket_fd = Some file → p_files p !! file = Some f →
  host_down (f_inner f) = Some (NSock id) → ss_socks (socks p) !! id = Some k →
  si_get_local (so_inner k) (ss_net (socks p)) = inl a → sa_port a ≠ 0 →
  si_sendto (so_inner k) buffer (addr_of <$> addr) (ss_net (socks p)) = (inr e, m) →
  sys_sendto socket_fd buffer addr p = Panic.
Proof.
  intros Hw Hfd Hv Hf Hd Hk Hl Hp Hs. unfold sys_sendto, sock_at, vfs_bind. rewrite (file_at_spec n) by done. rewrite Hv.
  cbn [ok_or]. unfold down_socket, down_file. rewrite Hf. cbn [unwrap mbind outcome_bind]. rewrite Hd. cbn [ok_or]. unfold k_of.
  destruct (get_sock_spec id k p Hk) as (p1 & -> & Hs1 & _). cbn [mbind outcome_bind]. unfold no_port.
  destruct (on_host_spec (λ s, a ← n_unwrap (si_get_local (so_inner k) (ss_net s)); Val (sa_port a =? 0, s)) p1 false (socks p1))
    as (p2 & -> & Hs2 & _).
  { rewrite Hs1, Hl. cbn [n_unwrap mbind outcome_bind]. by rewrite (proj2 (Z.eqb_neq _ _) Hp). }
  cbn [mbind outcome_bind]. unfold k_ret, send_out, on_host. fold (hosted (X := SockNode) p2). by rewrite Hs2, Hs1, Hs.
Qed.
End call_props.

(** ** Socket pairs

    The two descriptors name the same queue, so a process that writes through
    one and then reads through the same one takes back its own bytes. *)
Lemma pair_fifo {N C} `{!NetStack N C} (s : SockStore N C) id q buf n :
  ss_pairs s !! id = Some q → Z.of_nat (length q) ≤ PAIR_LIMIT → (0 < n)%nat → q ++ buf ≠ [] →
  ∃ s1 s2, pair_writeat id buf s = Val (Ok (Z.of_nat (length buf)), s1) ∧
    pair_readat id n s1 = Val (Ok (take n (q ++ buf)), s2) ∧ ss_pairs s2 !! id = Some (drop n (q ++ buf)).
Proof.
  intros Hq Hl Hn Hne. unfold pair_writeat, pair_readat. rewrite Hq. cbn [unwrap mbind outcome_bind].
  rewrite (proj2 (Z.ltb_ge _ _)) by done. do 2 eexists. split; [done|]. cbn [ss_pairs set_pair].
  rewrite lookup_insert_eq. cbn [unwrap mbind outcome_bind].
  assert (length (q ++ buf) ≠ 0)%nat by (by intros ?%nil_length_inv).
  rewrite (proj2 (Nat.eqb_neq _ _)) by lia. split.
  - do 3 f_equal. destruct (decide (n ≤ length (q ++ buf))%nat); [by rewrite Nat.min_r|]. by rewrite Nat.min_l, !take_ge by lia.
  - cbn [ss_pairs set_pair]. rewrite lookup_insert_eq. f_equal.
    destruct (decide (n ≤ length (q ++ buf))%nat); [by rewrite Nat.min_r|]. by rewrite Nat.min_l, !drop_ge by lia.
Qed.

(** ** A concrete stack: queues by connection and connections to accept *)
Record DemoNet := mkDemoNet { dn_queues : list (list (list Z * SocketAddrV4)); dn_pending : list nat }.

Definition dn_queue (c : nat) (n : DemoNet) : list (list Z * SocketAddrV4) := default [] (dn_queues n !! c).
Definition dn_addr (c : nat) : SocketAddrV4 := mkAddr [10; 0; 2; 15] (Z.of_nat c + 1).
Definition dn_blank (n : DemoNet) : nat * DemoNet := (length (dn_queues n), mkDemoNet (dn_queues n ++ [[]]) (dn_pending n)).

#[export] Instance demo_net : NetStack DemoNet nat := {
  blank_tcp := dn_blank; blank_udp := dn_blank;
  tcp_is_used _ _ := false; udp_is_used _ _ := false; get_tcp _ _ := None; get_udp _ _ := None;
  si_sendto c d a n := match a with
    | Some a => let j := Z.to_nat (sa_port a - 1) in
                (inl (Z.of_nat (length d)), mkDemoNet (<[j := dn_queue j n ++ [(d, dn_addr c)]]> (dn_queues n)) (dn_pending n))
    | None => (inr NoUdpRemoteAddress, n) end;
  si_recv_from c n := match dn_queue c n with
    | m :: q => (inl m, mkDemoNet (<[c := q]> (dn_queues n)) (dn_pending n))
    | [] => (inr EmptyData, n) end;
  si_bind _ _ n := (inl tt, n); si_listen _ n := (inl tt, n); si_connect _ _ n := (inl tt, n);
  si_accept _ n := match dn_pending n with
    | c :: l => (inl c, mkDemoNet (dn_queues n) l) | [] => (inr EmptyClient, n) end;
  si_readable c n := inl (negb (length (dn_queue c n) =? 0)%nat);
  si_get_local c _ := inl (dn_addr c); si_get_protocol _ _ := inl UDP; si_get_remote _ _ := inr Unsupported;
  si_is_closed _ _ := inl false; si_close _ n := (inl tt, n)
}.

#[export] Program Instance demo_queues : NetQueues DemoNet nat := { queue := dn_queue }.
Next Obligation.
  intros c n m q Hq. cbn. rewrite Hq. eexists. split; [done|]. unfold dn_queue in *. cbn.
  destruct (dn_queues n !! c) as [l|] eqn:E; [|done].
  assert (c < length (dn_queues n))%nat by by eapply lookup_lt_Some.
  split; [by rewrite list_lookup_insert_eq|]. intros c' Hc. by rewrite list_lookup_insert_ne.
Qed.
Next Obligation. intros c n Hq. cbn. rewrite Hq. by do 2 eexists. Qed.
Next Obligation.
  intros c c' d a n. cbn. destruct a as [a|]; cbn; [|exists []; by rewrite app_nil_r].
  set (j := Z.to_nat (sa_port a - 1)). unfold dn_queue. cbn [dn_queues].
  destruct (decide (j = c')) as [->|Hne]; [|exists []; by rewrite list_lookup_insert_ne, app_nil_r].
  destruct (decide (c' < length (dn_queues n))%nat).
  - rewrite list_lookup_insert_eq by done. by eexists.
  - rewrite list_insert_ge by lia. exists []. by rewrite app_nil_r.
Qed.

Definition demo_store (pending : list nat) : SockStore DemoNet nat :=
  mkSS (mkDemoNet [[]; []] pending) {[ 1 := socket_with_inner 2 DGRAME 0%nat; 2 := socket_with_inner 2 DGRAME 1%nat ]} ∅ [].

(** Three messages arrive: the first is read in two pieces, the second taken by
    [recvfrom] with a buffer that is too small, the third waits. *)
Lemma socket_stream_in_order_witness :
  ∃ (h : SockHistory (N := DemoNet) (C := nat)) (k : Socket nat),
    sh_log h = [(ByRead 1, [7; 8; 9]); (ByRecv 1, [5; 6])] ∧ sh_read h !! 1 = Some [7; 8; 9] ∧ sh_recv h = [[5]] ∧
    [[7; 8; 9]; [5; 6]; [4]] = (sh_log h).*2 ++ waiting 0%nat (ss_net (sh_store h)) ∧
    ss_socks (sh_store h) !! 1 = Some k ∧ default [] (sh_read h !! 1) ++ so_buf k = [7; 8; 9].
Proof.
  set (n1 := mkDemoNet [[([7; 8; 9], dn_addr 1); ([5; 6], dn_addr 1); ([4], dn_addr 1)]; []] []).
  set (s1 := set_net n1 (demo_store [])).
  destruct (io_readat sock_ops (NSock 1) 0 2 s1) as [[r2 s2]|] eqn:E2; [|exfalso; vm_compute in E2; discriminate E2].
  destruct (io_readat sock_ops (NSock 1) 0 2 s2) as [[r3 s3]|] eqn:E3;
    [|exfalso; vm_compute in E2; injection E2 as <- <-; vm_compute in E3; discriminate E3].
  destruct (ss_socks s2 !! 1) as [k2|] eqn:K2; [|exfalso; vm_compute in E2; injection E2 as <- <-; vm_compute in K2; discriminate K2].
  destruct (ss_socks s3 !! 1) as [k3|] eqn:K3;
    [|exfalso; vm_compute in E2; injection E2 as <- <-; vm_compute in E3; injection E3 as <- <-; vm_compute in K3; discriminate K3].
  destruct (socket_recv_from k3 (ss_net s3)) as [[r4 n4]|] eqn:E4;
    [|exfalso; vm_compute in E2; injection E2 as <- <-; vm_compute in E3; injection E3 as <- <-; vm_compute in K3; injection K3 as <-;
      vm_compute in E4; discriminate E4].
  assert (rtc (sock_step 0%nat) (mkSockHist (demo_store []) [] [] ∅ [])
    (mkSockHist (set_net n4 s3) [[7; 8; 9]; [5; 6]; [4]] [(ByRead 1, [7; 8; 9]); (ByRecv 1, [5; 6])] {[ 1 := [7; 8; 9] ]} [[5]])) as Hrun.
  { vm_compute in E2. injection E2 as <- <-. vm_compute in K2. injection K2 as <-. vm_compute in E3. injection E3 as <- <-.
    vm_compute in K3. injection K3 as <-. vm_compute in E4. injection E4 as <- <-.
    eapply rtc_l; [exact (step_arrive 0%nat (demo_store []) [] [] ∅ [] n1 (dn_queue 0 n1) eq_refl)|].
    eapply rtc_l; [eapply (step_read 0%nat _ _ _ _ _ 1 _ 0 2); reflexivity|].
    eapply rtc_l; [eapply (step_read 0%nat _ _ _ _ _ 1 _ 0 2); reflexivity|].
    eapply rtc_l; [eapply (step_recvfrom 0%nat _ _ _ _ _ 1 _ 1); reflexivity|].
    vm_compute. apply rtc_refl. }
  destruct (socket_stream_in_order 0%nat (demo_store []) _ ltac:(intros j k Hj; simpl in Hj;
      apply lookup_insert_Some in Hj as [[_ <-]|[_ Hj]]; [reflexivity|apply lookup_singleton_Some in Hj as [_ <-]; reflexivity])
      eq_refl Hrun) as (Ha & Hv & Hk).
  destruct (Hk 1 k3) as (Hr & _ & _); [exact K3| |].
  { vm_compute in E2. injection E2 as <- <-. vm_compute in E3. injection E3 as <- <-. vm_compute in K3. injection K3 as <-. reflexivity. }
  eexists _, k3. split; [|split; [|split; [|split; [exact Ha|split; [exact K3|exact Hr]]]]]; reflexivity.
Defined.

(** Two connections wait; the listening socket is descriptor 0. *)
Definition sock_proc : Proc (SockStore DemoNet nat) SockNode :=
  mkProc (mkWorld (mkPhys [] ∅) ∅ 0 (demo_store [5%nat; 6%nat])) [] {[ 7 := new_dev (NSock 1) ]}
    (mkPcb [] (Some 7 :: replicate 254 None) 7 0 0 [] tms_default rlimits_new (replicate 65 sig_action_new) ∅ [] [] [] None None false 18)
    demo_tcb0 1 1 None kern_new.

Lemma accept_shares_descriptor_witness :
  ∃ p1 p2 p3 p4 g1 g2,
    accept_begin 0 sock_proc = Val (Ok (1, 1), p1) ∧ accept_begin 0 p1 = Val (Ok (1, 1), p2) ∧
    sys_accept 1 1 p2 = Val (Ready (Ok 1), p3) ∧ sys_accept 1 1 p3 = Val (Ready (Ok 1), p4) ∧
    fd_view 255 p4 1 = Some g2 ∧ is_Some (p_files p4 !! g1) ∧ ∀ x, 0 ≤ x → fd_view 255 p4 x ≠ Some g1.
Proof.
  destruct (accept_shares_descriptor 255 sock_proc 0 7 (new_dev (NSock 1)) 1 1 (socket_with_inner 2 DGRAME 0%nat) 5%nat 6%nat
    (mkDemoNet [[]; []] [6%nat]) (mkDemoNet [[]; []] []))
    as (p1 & p2 & p3 & p4 & g1 & g2 & s1 & s2 & E1 & E2 & E3 & E4 & Hg1 & _ & _ & _ & Hv & Hn).
  - split; [reflexivity|]. vm_compute. discriminate.
  - lia.
  - reflexivity.
  - reflexivity.
  - reflexivity.
  - vm_compute. reflexivity.
  - intros x g Hx Hg. assert (g = 7) as ->; [|by eexists].
    unfold fd_view in Hg. destruct (255 <=? x); [done|]. change (pcb_fd_table (p_pcb sock_proc)) with (Some 7 :: replicate 254 None) in Hg.
    destruct (Z.to_nat x) as [|j]; [by injection Hg|].
    change ((Some 7 :: replicate 254 None) !! Datatypes.S j) with (replicate 254 (None : option Z) !! j) in Hg.
    destruct (replicate 254 None !! j) as [e|] eqn:E; [|done].
    apply lookup_replicate in E as [-> _]. done.
  - reflexivity.
  - reflexivity.
  - reflexivity.
  - exists p1, p2, p3, p4, g1, g2. split_and!; [done..|by rewrite Hg1|done].
Defined.
