(* ===== verification/Epoll.v ===== *)
(** * Epoll ([kernel/src/syscall/types/poll.rs], [sys_epoll_*] of
      [kernel/src/syscall/fd.rs])

    An [EpollFile] is a map from descriptors to the events a program waits for;
    it is an inode with no methods of its own that the calls downcast to.  One
    turn of [sys_epoll_wait] polls every descriptor of the map, in the order in
    which the hash map iterates. *)

From S2P Require Import Prelude Bytes Frame PageTable Signal Path Vfs File DevFs Time Futex MemSet Process Mm Shm Fork Fd.
Local Open Scope Z_scope.

Record EpollEvent := mkEpollEvent { ev_events : Z; ev_data : Z }.

#[export] Instance EpollEvent_eq_dec : EqDecision EpollEvent.
Proof. solve_decision. Defined.

(** [EpollEventType::to_poll]: [PollEvent::from_bits_truncate(bits as u16)] *)
Definition to_poll (events : Z) : Z := Z.land (as_u16 events) 0x37ff.

Record EpollFile := mkEpollFile { ep_data : gmap Z EpollEvent; ep_flags : Z }.
Definition epoll_file_new (flags : Z) : EpollFile := mkEpollFile ∅ flags.

Inductive EpollCtl := ADD | DEL | MOD.
Definition epoll_ctl_of (op : Z) : option EpollCtl :=
  if op =? 1 then Some ADD else if op =? 2 then Some DEL else if op =? 3 then Some MOD else None.

Definition epoll_ctl (self : EpollFile) (ctl : EpollCtl) (fd : Z) (ev : EpollEvent) : EpollFile :=
  mkEpollFile
    match ctl with
    | ADD => <[fd := ev]> (ep_data self)
    | DEL => delete fd (ep_data self)
    | MOD => alter (λ _, ev) fd (ep_data self)
    end (ep_flags self).

(** The epoll files by [Arc]; the inode is the reference. *)
Definition Epolls : Type := gmap Z EpollFile.

Section epoll.
Context {S H : Type} (ops : INodeOps S H) `{!Host Epolls Z S H}.
(** The order in which the hash map is iterated. *)
Context (iter : gmap Z EpollEvent → list (Z * EpollEvent)).
Notation K := (K S H).
Notation M := (ST (Proc S H)).

(** [Arc::new(EpollFile::new(flags))] *)
Definition new_epoll (flags : Z) : M Z :=
  on_host (λ e : Epolls, let id := fresh (dom e) in Val (id, <[id := epoll_file_new flags]> e)).

Definition sys_epoll_create1 (flags : Z) : K Z :=
  file ←? k_of (new_epoll flags);
  fd ←? alloc_fd_or EMFILE;
  id ←? k_of (new_file (new_dev (host_node file)));
  k_of (set_fd fd id) ;;?
  k_ret (Ok fd).

(** [get_fd(epfd).ok_or(EBADF)?.inner.clone().downcast_arc().map_err(EINVAL)?] *)
Definition epoll_at (epfd : Z) : K Z := file ←? file_at epfd EBADF; down_file EINVAL file.

Definition get_epoll (id : Z) : M EpollFile := on_host (λ e : Epolls, f ← unwrap (e !! id); Val (f, e)).
Definition put_epoll (id : Z) (f : EpollFile) : M unit := on_host (λ e : Epolls, Val (tt, <[id := f]> e)).

Definition sys_epoll_ctl (epfd op fd : Z) (event : EpollEvent) : K Z :=
  ctl ←? k_ret (ok_or (epoll_ctl_of op) EINVAL);
  epfile ←? epoll_at epfd;
  _ ←? file_at fd EBADF;
  f ←? k_of (get_epoll epfile);
  k_of (put_epoll epfile (epoll_ctl f ctl fd event)) ;;?
  k_ret (Ok 0).

(** [end] of [sys_epoll_wait] *)
Definition epoll_deadline (stime timeout : Z) : Z :=
  if timeout =? usize_max then usize_max else stime +w timeout *w 0x1000000.

(** [file.poll(ev.events.to_poll())] of an open descriptor; the result is the
    events, [POLL_NONE] when the descriptor is closed or the poll fails. *)
Definition poll_fd (fd : Z) (ev : EpollEvent) : M Z := λ p,
  '(r, p) ← get_fd fd p;
  match r with
  | None => Val (POLL_NONE, p)
  | Some id =>
      '(r, p) ← on_inode id (λ f, file_poll ops f (to_poll (ev_events ev))) p;
      Val (match r with Ok pevent => pevent | Err _ => POLL_NONE end, p)
  end.

(** One pass over the map: the events stored in the buffer, which has room for
    [max_events]; storing beyond it panics. *)
Fixpoint epoll_pass (l : list (Z * EpollEvent)) (max_events num : nat) : M (list EpollEvent) := λ p,
  match l with
  | [] => Val ([], p)
  | (fd, ev) :: l =>
      '(pevent, p) ← poll_fd fd ev p;
      if pevent =? POLL_NONE then epoll_pass l max_events num p
      else if (num <? max_events)%nat then
        '(evs, p) ← epoll_pass l max_events (num + 1) p; Val (ev :: evs, p)
      else Panic
  end.

(** One turn of the loop, after the task was scheduled again at time [now]. *)
Definition sys_epoll_wait (epfile : Z) (max_events : nat) (end_ now : Z) : M (Poll (result (list EpollEvent))) := λ p,
  '(f, p) ← get_epoll epfile p;
  '(evs, p) ← epoll_pass (iter (ep_data f)) max_events 0 p;
  Val (if (end_ <=? now) || (0 <? length evs)%nat then Ready (Ok evs) else Pending, p).

(** ** What a wait reports *)
Context `{!HostLaws Epolls Z S H}.
Hypothesis iter_perm : ∀ m, iter m ≡ₚ map_to_list m.

(** The inode of an open descriptor. *)
Definition fd_inode_of (n : Z) (p : Proc S H) (fd : Z) : option H :=
  f_inner <$> (fd_view n p fd ≫= λ id, p_files p !! id).

(** The descriptor is open and its inode, polled in the store of [p], reports
    one of the events. *)
Definition ev_ready (n : Z) (p : Proc S H) (x : Z * EpollEvent) : bool :=
  match fd_inode_of n p x.1 with
  | Some h => match poll_answer ops h (to_poll (ev_events x.2)) (w_fs (p_world p)) with
              | Ok v => negb (v =? POLL_NONE)
              | Err _ => false
              end
  | None => false
  end.

(** Every open descriptor names an open file. *)
Definition fd_closed (n : Z) (p : Proc S H) : Prop := ∀ fd g, 0 ≤ fd → fd_view n p fd = Some g → is_Some (p_files p !! g).

(** The inodes the descriptors [fds] are open on are among [watched]. *)
Definition fds_watched (n : Z) (p : Proc S H) (watched : H → Prop) (fds : list Z) : Prop :=
  ∀ fd h, fd ∈ fds → fd_inode_of n p fd = Some h → watched h.

(** The state after polls: only the store differs. *)
Definition with_fs (s : S) (p : Proc S H) : Proc S H := set_world (set_fs s (p_world p)) p.

Lemma with_fs_same (p : Proc S H) : with_fs (w_fs (p_world p)) p = p.
Proof. by destruct p as [[] ? ? ? ? ? ? ? ?]. Qed.

Lemma fd_wf_with_fs n s p : fd_wf n p → fd_wf n (with_fs s p).
Proof. by intros []. Qed.

Section stable.
Context (watched : H → Prop) (I : S → Prop) (stable : polls_stable ops watched I).

Lemma poll_fd_spec n p fd ev :
  fd_wf n p → fd_closed n p → I (w_fs (p_world p)) → 0 ≤ fd → fds_watched n p watched [fd] →
  ∃ v s', poll_fd fd ev p = Val (v, with_fs s' p) ∧ (v =? POLL_NONE) = negb (ev_ready n p (fd, ev)) ∧ I s' ∧
    ∀ h ev, watched h → poll_answer ops h ev s' = poll_answer ops h ev (w_fs (p_world p)).
Proof.
  intros Hw Hc HI Hfd Hin. unfold poll_fd, ev_ready. cbn [fst snd]. specialize (Hin fd). revert Hin.
  unfold fd_inode_of. rewrite (get_fd_spec n) by done. cbn [mbind outcome_bind option_bind].
  destruct (fd_view n p fd) as [id|] eqn:Hv; cbn [mbind option_bind fmap option_fmap option_map];
    [|intros _; exists POLL_NONE, (w_fs (p_world p)); by rewrite with_fs_same].
  destruct (Hc fd id Hfd Hv) as [f Hf]. rewrite Hf. cbn [mbind option_bind fmap option_fmap option_map]. intros Hin.
  destruct (stable (f_inner f) (to_poll (ev_events ev)) (w_fs (p_world p))) as (r & s' & E & HI' & Hs);
    [by apply Hin; [left|]|done|].
  unfold on_inode, k_fs, file_poll. rewrite Hf. cbn [unwrap mbind outcome_bind]. rewrite E. cbn [mbind outcome_bind].
  unfold poll_answer at 1. rewrite E. exists (match r with Ok v => v | Err _ => POLL_NONE end), s'.
  split; [by destruct r|]. split; [|done]. destruct r; [by rewrite negb_involutive|done].
Qed.

Lemma ev_ready_with_fs n p s' x :
  fds_watched n p watched [x.1] → (∀ h ev, watched h → poll_answer ops h ev s' = poll_answer ops h ev (w_fs (p_world p))) →
  ev_ready n (with_fs s' p) x = ev_ready n p x.
Proof.
  intros Hin Hs. unfold ev_ready. change (fd_inode_of n (with_fs s' p)) with (fd_inode_of n p).
  destruct (fd_inode_of n p x.1) as [h|] eqn:E; [|done]. cbn [with_fs set_world set_fs p_world w_fs].
  rewrite Hs; [done|]. by apply (Hin x.1); [left|].
Qed.

Lemma epoll_pass_spec n max l : ∀ num p,
  fd_wf n p → fd_closed n p → I (w_fs (p_world p)) → Forall (λ x, 0 ≤ x.1) l → fds_watched n p watched (fst <$> l) →
  let evs := snd <$> filter (λ x, ev_ready n p x) l in
  if bool_decide (evs = [] ∨ (num + length evs ≤ max)%nat) then ∃ s', epoll_pass l max num p = Val (evs, with_fs s' p)
  else epoll_pass l max num p = Panic.
Proof.
  induction l as [|[fd ev] l IH]; intros num p Hw Hc HI Hl Hin; [by exists (w_fs (p_world p)); rewrite with_fs_same|].
  apply Forall_cons in Hl as [Hfd Hl]. cbn [epoll_pass fst] in *.
  destruct (poll_fd_spec n p fd ev Hw Hc HI Hfd) as (v & s1 & -> & Hv & HI1 & Hs1).
  { intros x h [->|[]%elem_of_nil]%elem_of_cons. apply Hin. by left. }
  cbn [mbind outcome_bind]. rewrite Hv.
  assert (fds_watched n p watched (fst <$> l)) as Hin' by (intros x h Hx; apply Hin; by right).
  assert (filter (λ x, ev_ready n (with_fs s1 p) x) l = filter (λ x, ev_ready n p x) l) as Hfl.
  { apply filter_ext_elem. intros x Hx. rewrite ev_ready_with_fs; [done| |done].
    intros y h [->|[]%elem_of_nil]%elem_of_cons. apply Hin'. by apply list_elem_of_fmap_2. }
  assert (∀ num, let evs := snd <$> filter (λ x, ev_ready n p x) l in
    if bool_decide (evs = [] ∨ (num + length evs ≤ max)%nat)
    then ∃ s', epoll_pass l max num (with_fs s1 p) = Val (evs, with_fs s' p)
    else epoll_pass l max num (with_fs s1 p) = Panic) as IH'.
  { intros k. specialize (IH k (with_fs s1 p) (fd_wf_with_fs n s1 p Hw) Hc HI1 Hl Hin'). rewrite Hfl in IH. exact IH. }
  clear IH Hfl. destruct (ev_ready n p (fd, ev)) eqn:Hr; cbn [negb].
  - rewrite filter_cons_True by (by rewrite Hr). rewrite fmap_cons. cbv zeta in *. cbn [length snd].
    set (evs := snd <$> filter (λ x, ev_ready n p x) l) in *.
    destruct (Nat.ltb_spec num max) as [Hlt|Hge]; [|by rewrite bool_decide_eq_false_2 by (intros [?|?]; [done|lia])].
    specialize (IH' (num + 1)%nat). destruct (decide (evs = [] ∨ (num + 1 + length evs ≤ max)%nat)) as [Hd|Hd].
    + rewrite (bool_decide_eq_true_2 _ Hd) in IH'. destruct IH' as [s' ->].
      rewrite bool_decide_eq_true_2 by (right; destruct Hd as [->|]; simpl; lia). by exists s'.
    + rewrite (bool_decide_eq_false_2 _ Hd) in IH'. rewrite IH'.
      rewrite bool_decide_eq_false_2; [done|]. intros [?|?]; [done|]. apply Hd. right. lia.
  - rewrite filter_cons_False by (rewrite Hr; by intros []). apply IH'.
Qed.
End stable.

Lemma get_epoll_spec id f p : hosted (T := Epolls) p !! id = Some f → get_epoll id p = Val (f, p).
Proof.
  intros E. unfold get_epoll, on_host. unfold hosted in E. rewrite E. cbn [unwrap mbind outcome_bind].
  rewrite host_put_get. fold (with_fs (w_fs (p_world p)) p). by rewrite with_fs_same.
Qed.

(** C31: One turn of [epoll_wait] reports the event of every registered
    descriptor that is open and, when the turn begins, ready for an event asked
    for, each once, and no other; it ends the call when there is one or the
    deadline has passed; and when more are ready than the caller's buffer holds
    it panics the kernel instead of reporting the first ones.  The polls may
    change the store, but none changes what another of the watched inodes
    answers ([polls_stable]): so it is for pipes, for sockets and for a
    terminal, though not for two terminals watched at once, which take the
    console's input from each other ([tty_poll_takes_input]). *)
Theorem epoll_wait_reports n (p : Proc S H) watched I epfile f max end_ now :
  fd_wf n p → fd_closed n p → polls_stable ops watched I → I (w_fs (p_world p)) →
  hosted (T := Epolls) p !! epfile = Some f →
  (∀ fd, is_Some (ep_data f !! fd) → 0 ≤ fd ∧ ∀ h, fd_inode_of n p fd = Some h → watched h) →
  ∃ evs, evs ≡ₚ (snd <$> filter (λ x, ev_ready n p x) (map_to_list (ep_data f))) ∧
    ((length evs ≤ max)%nat →
       ∃ s', sys_epoll_wait epfile max end_ now p =
         Val (if (end_ <=? now) || (0 <? length evs)%nat then Ready (Ok evs) else Pending, with_fs s' p)) ∧
    ((max < length evs)%nat → sys_epoll_wait epfile max end_ now p = Panic).
Proof.
  intros Hw Hc Hst HI Hf Hreg.
  assert (∀ x, x ∈ iter (ep_data f) → is_Some (ep_data f !! x.1)) as Hit.
  { intros [fd ev] Hx. rewrite iter_perm in Hx. apply elem_of_map_to_list in Hx. by eexists. }
  exists (snd <$> filter (λ x, ev_ready n p x) (iter (ep_data f))). split; [by rewrite iter_perm|].
  unfold sys_epoll_wait. rewrite (get_epoll_spec epfile f p Hf). cbn [mbind outcome_bind].
  pose proof (epoll_pass_spec watched I Hst n max (iter (ep_data f)) 0 p Hw Hc HI) as Hpass. cbv zeta in Hpass.
  lapply Hpass; [clear Hpass; intros Hpass|apply Forall_forall; intros x Hx; by apply Hreg, Hit].
  lapply Hpass; [clear Hpass; intros Hpass|].
  2: { intros fd h (x & -> & Hx)%list_elem_of_fmap. apply Hreg. by apply Hit. }
  split; intros Hmax.
  - rewrite bool_decide_eq_true_2 in Hpass by (right; lia). destruct Hpass as [s' ->]. by exists s'.
  - rewrite bool_decide_eq_false_2 in Hpass; [by rewrite Hpass|]. intros [E|?]; [|lia]. rewrite E in Hmax. simpl in Hmax. lia.
Qed.

(** The calls on an epoll descriptor act on the map of its file as [insert],
    [delete] and [alter]: another descriptor's entry is never touched, adding a
    registered descriptor replaces its event, and deleting or changing one that
    is not registered succeeds without effect. *)
Theorem epoll_ctl_updates n (p : Proc S H) epfd file g epfile f op ctl fd ev :
  fd_wf n p → 0 ≤ epfd → 0 ≤ fd → epoll_ctl_of op = Some ctl →
  fd_view n p epfd = Some file → p_files p !! file = Some g → host_down (f_inner g) = Some epfile →
  hosted p !! epfile = Some f →
  match fd_view n p fd with
  | None => sys_epoll_ctl epfd op fd ev p = Val (Err EBADF, p)
  | Some _ => ∃ p' f', sys_epoll_ctl epfd op fd ev p = Val (Ok 0, p') ∧ hosted p' = <[epfile := f']> (hosted p) ∧
      p_pcb p' = p_pcb p ∧ p_files p' = p_files p ∧
      ep_data f' !! fd = match ctl with ADD => Some ev | DEL => None | MOD => (λ _, ev) <$> ep_data f !! fd end ∧
      ∀ x, x ≠ fd → ep_data f' !! x = ep_data f !! x
  end.
Proof.
  intros Hw He Hfd Hop Hv Hg Hd Hf. unfold sys_epoll_ctl, epoll_at, vfs_bind. rewrite Hop. cbn [k_ret ok_or].
  rewrite (file_at_spec n) by done. rewrite Hv. cbn [ok_or]. unfold down_file. rewrite Hg. cbn [unwrap mbind outcome_bind].
  rewrite Hd. cbn [ok_or]. rewrite (file_at_spec n) by done. destruct (fd_view n p fd) as [?|]; cbn [ok_or]; [|done].
  unfold k_of, get_epoll.
  destruct (on_host_spec (λ e : Epolls, f ← unwrap (e !! epfile); Val (f, e)) p f (hosted p)) as (p1 & -> & Hh1 & Hf1 & Hp1 & _);
    [by rewrite Hf|]. cbn [mbind outcome_bind]. unfold put_epoll.
  destruct (on_host_spec (λ e : Epolls, Val (tt, <[epfile := epoll_ctl f ctl fd ev]> e)) p1 tt
    (<[epfile := epoll_ctl f ctl fd ev]> (hosted p1))) as (p2 & -> & Hh2 & Hf2 & Hp2 & _); [done|].
  cbn [mbind outcome_bind]. exists p2, (epoll_ctl f ctl fd ev). rewrite Hh2, Hh1. split_and!; [done|done|congruence..| |].
  - destruct ctl; simpl; [by rewrite lookup_insert_eq|by rewrite lookup_delete_eq|by rewrite lookup_alter_eq].
  - intros x Hx. destruct ctl; simpl; [by rewrite lookup_insert_ne|by rewrite lookup_delete_ne|by rewrite lookup_alter_ne].
Qed.
End epoll.

(** ** A concrete process: descriptor 0 is an epoll file that watches
    descriptor 1, the terminal, and descriptor 2, [/dev/null], which has no
    [poll]; one character was typed *)
Notation WatchStore := (Epolls * DevStore)%type.
Notation WatchNode := (Z + DevNode)%type.

#[export] Instance watch_host : Host Epolls Z WatchStore WatchNode := {
  host_get := fst; host_put e s := (e, s.2); host_node := inl; host_down h := match h with inl x => Some x | inr _ => None end
}.
#[export] Instance watch_host_laws : HostLaws Epolls Z WatchStore WatchNode.
Proof. split; [done|by intros []|done]. Qed.

(** An epoll file has the trait's [poll]. *)
Definition watch_poll (h : WatchNode) (ev : Z) : vfs WatchStore Z := λ s,
  match h with
  | inl _ => Val (Err EPERM, s)
  | inr d => '(r, t) ← io_poll (dev_ops no_mount no_mount no_arg) d ev s.2; Val (r, (s.1, t))
  end.

Definition watch_ops : INodeOps WatchStore WatchNode :=
  let d := inode_default WatchStore WatchNode in {|
  io_readat := io_readat d; io_writeat := io_writeat d;
  io_create := io_create d; io_mkdir := io_mkdir d; io_rmdir := io_rmdir d;
  io_remove := io_remove d; io_read_dir := io_read_dir d; io_lookup := io_lookup d;
  io_truncate := io_truncate d; io_link := io_link d; io_unlink := io_unlink d;
  io_stat := io_stat d; io_utimes := io_utimes d; io_poll := watch_poll;
  io_ioctl := io_ioctl d; io_flush := io_flush d; io_resolve_link := io_resolve_link d;
  io_symlink := io_symlink d; io_mount := io_mount d; io_umount := io_umount d; io_statfs := io_statfs d
|}.

Definition watch_file : EpollFile :=
  mkEpollFile {[ 1 := mkEpollEvent 1 100; 2 := mkEpollEvent 1 200 ]} 0.

Definition watch_proc : Proc WatchStore WatchNode :=
  mkProc (mkWorld (mkPhys [] ∅) ∅ 0 ({[ 3 := watch_file ]}, set_input [104] dev_store_new)) []
    {[ 7 := new_dev (inl 3); 8 := new_dev (inr (DTty 3)); 10 := new_dev (inr DNull) ]}
    (mkPcb [] (Some 7 :: Some 8 :: Some 10 :: replicate 252 None) 7 0 0 [] tms_default rlimits_new
      (replicate 65 sig_action_new) ∅ [] [] [] None None false 18)
    demo_tcb0 1 1 None kern_new.

(** One terminal and any other device. *)
Definition watch_nodes (h : WatchNode) : Prop := match h with inr (DTty k) => k = 3%nat | _ => True end.

Lemma watch_stable : polls_stable watch_ops watch_nodes (λ s, is_Some (ds_ttys s.2 !! 3%nat)).
Proof.
  intros [x|d] ev [e t] Hh Ht; [by eexists _, (e, t)|]. cbn [io_poll watch_ops snd] in *. unfold watch_poll. cbn [fst snd].
  destruct (tty_polls_stable no_mount no_mount no_arg 3 d ev t) as (r & t' & E & Ht' & Hs); [by destruct d|done|].
  rewrite E. exists r, (e, t'). split; [done|]. split; [done|]. intros [x|d'] ev' Hd'; [done|].
  specialize (Hs d' ev'). unfold poll_answer in *. cbn [io_poll watch_ops]. unfold watch_poll. cbn [fst snd].
  lapply Hs; [clear Hs; intros Hs|by destruct d'].
  destruct (io_poll _ d' ev' t') as [[]|], (io_poll _ d' ev' t) as [[]|]; by cbn in *.
Qed.

Lemma watch_wf : fd_wf 255 watch_proc.
Proof. split; [reflexivity|]. vm_compute. discriminate. Qed.

Lemma watch_closed : fd_closed 255 watch_proc.
Proof.
  intros fd g Hfd Hg. unfold fd_view in Hg. destruct (255 <=? fd); [done|].
  change (pcb_fd_table (p_pcb watch_proc)) with (Some 7 :: Some 8 :: Some 10 :: replicate 252 None) in Hg.
  destruct (Z.to_nat fd) as [|[|[|j]]]; [by injection Hg as <-..|].
  change ((Some 7 :: Some 8 :: Some 10 :: replicate 252 None) !! Datatypes.S (Datatypes.S (Datatypes.S j)))
    with (replicate 252 (None : option Z) !! j) in Hg.
  destruct (replicate 252 None !! j) as [e|] eqn:E; [|done]. apply lookup_replicate in E as [-> _]. done.
Qed.

Lemma epoll_wait_reports_witness :
  (∃ p', sys_epoll_wait watch_ops map_to_list 3 1 0 5 watch_proc = Val (Ready (Ok [mkEpollEvent 1 100]), p')) ∧
  sys_epoll_wait watch_ops map_to_list 3 0 0 5 watch_proc = Panic.
Proof.
  assert (∀ max, ∃ evs, evs ≡ₚ [mkEpollEvent 1 100] ∧
    ((length evs ≤ max)%nat → ∃ s', sys_epoll_wait watch_ops map_to_list 3 max 0 5 watch_proc = Val (Ready (Ok evs), with_fs s' watch_proc)) ∧
    ((max < length evs)%nat → sys_epoll_wait watch_ops map_to_list 3 max 0 5 watch_proc = Panic)) as Hw.
  { intros max. apply (epoll_wait_reports watch_ops map_to_list (λ m, reflexivity _) 255 watch_proc watch_nodes
      (λ s, is_Some (ds_ttys s.2 !! 3%nat)) 3 watch_file max 0 5).
    - exact watch_wf.
    - exact watch_closed.
    - exact watch_stable.
    - by eexists.
    - reflexivity.
    - intros fd [x Hx]. cbn [ep_data watch_file] in Hx.
      apply lookup_insert_Some in Hx as [[<- _]|[_ Hx]]; [|apply lookup_singleton_Some in Hx as [<- _]];
        (split; [lia|intros h Eh; injection Eh as <-; reflexivity || exact Logic.I]). }
  split.
  - destruct (Hw 1%nat) as (evs & He & Hok & _). apply Permutation_singleton_r in He as ->. destruct Hok as [s' E]; [simpl; lia|].
    exists (with_fs s' watch_proc). exact E.
  - destruct (Hw 0%nat) as (evs & He & _ & Hp). apply Permutation_singleton_r in He as ->. apply Hp. simpl. lia.
Defined.

Lemma epoll_ctl_updates_witness :
  ∃ p' f', sys_epoll_ctl 0 2 1 (mkEpollEvent 0 0) watch_proc = Val (Ok 0, p') ∧ hosted p' = {[ 3 := f' ]} ∧
    ep_data f' !! 1 = None ∧ ep_data f' !! 2 = Some (mkEpollEvent 1 200).
Proof.
  destruct (epoll_ctl_updates 255 watch_proc 0 7 (new_dev (inl 3)) 3 watch_file 2 DEL 1 (mkEpollEvent 0 0))
    as (p' & f' & E & Hh & _ & _ & Hd & Ho).
  - exact watch_wf.
  - lia.
  - lia.
  - reflexivity.
  - reflexivity.
  - reflexivity.
  - reflexivity.
  - reflexivity.
  - exists p', f'. split_and!; [exact E| |exact Hd|by rewrite Ho by lia].
    rewrite Hh. change (hosted watch_proc) with ({[ 3 := watch_file ]} : Epolls). apply insert_singleton_eq.
Defined.
