(* ===== verification/Tasks.v ===== *)
(** * Tasks of the whole system ([kernel/src/syscall/task.rs], [WaitPid])

    Several tasks at once: the shared memory and file system, the control
    blocks of all processes and threads, and the executor's tables.  A call
    runs on behalf of one task; calls that concern only the caller are those of
    the other files, run in its view of the system ([on_task]). *)

From S2P Require Import Prelude Bytes Frame PageTable Signal Path Vfs File Time Futex Executor MemSet Process Mm Shm Fork Fd.
Local Open Scope Z_scope.

(** ** [CloneFlags] *)
Definition CLONE_THREAD : Z := 0x00010000.
Definition CLONE_SETTLS : Z := 0x00080000.
Definition CLONE_PARENT_SETTID : Z := 0x00100000.
Definition CLONE_CHILD_CLEARTID : Z := 0x00200000.
Definition CLONE_CHILD_SETTID : Z := 0x01000000.
(** [CloneFlags::from_bits_truncate]: all bits up to [CLONE_IO] are declared. *)
Definition clone_flags (bits : Z) : Z := Z.land bits 0xffffffff.

Definition set_clear_child_tid (v : Z) (t : ThreadControlBlock) : ThreadControlBlock :=
  let '(mkTcb a1 a2 _ a4 a5 a6 a7 a8 a9 a10) := t in mkTcb a1 a2 v a4 a5 a6 a7 a8 a9 a10.
Definition set_exit_signal (v : Z) (t : ThreadControlBlock) : ThreadControlBlock :=
  let '(mkTcb a1 a2 a3 a4 a5 a6 _ a8 a9 a10) := t in mkTcb a1 a2 a3 a4 a5 a6 v a8 a9 a10.

Section tasks.
Context {S H : Type} (ops : INodeOps S H).

(** A task: its page table, the process whose control block it shares, its
    (weak) parent and its own control block. *)
Record UserTask := mkUserTask {
  ut_root : Z;
  ut_pid : Z;
  ut_parent : option Z;
  ut_tcb : ThreadControlBlock
}.

(** [sy_calls] are tasks that suspended calls keep a reference to: the new task
    of a [clone] that has not been spawned yet. *)
Record Sys := mkSys {
  sy_world : World S;
  sy_mounted : MOUNTED_FS H;
  sy_files : gmap Z (File H);
  sy_kern : Kern;
  sy_pcbs : gmap Z (ProcessControlBlock H);
  sy_tasks : gmap Z UserTask;
  sy_exec : Exec (Fut := unit);
  sy_calls : list Z
}.
Notation Y := (ST Sys).

Definition set_pcbs (m : gmap Z (ProcessControlBlock H)) (s : Sys) : Sys :=
  mkSys (sy_world s) (sy_mounted s) (sy_files s) (sy_kern s) m (sy_tasks s) (sy_exec s) (sy_calls s).
Definition set_tasks (m : gmap Z UserTask) (s : Sys) : Sys :=
  mkSys (sy_world s) (sy_mounted s) (sy_files s) (sy_kern s) (sy_pcbs s) m (sy_exec s) (sy_calls s).
Definition set_exec (e : Exec) (s : Sys) : Sys :=
  mkSys (sy_world s) (sy_mounted s) (sy_files s) (sy_kern s) (sy_pcbs s) (sy_tasks s) e (sy_calls s).
Definition set_calls (l : list Z) (s : Sys) : Sys :=
  mkSys (sy_world s) (sy_mounted s) (sy_files s) (sy_kern s) (sy_pcbs s) (sy_tasks s) (sy_exec s) l.
Definition set_ut_tcb (t : ThreadControlBlock) (u : UserTask) : UserTask :=
  mkUserTask (ut_root u) (ut_pid u) (ut_parent u) t.
Definition set_ut_parent (q : option Z) (u : UserTask) : UserTask :=
  mkUserTask (ut_root u) (ut_pid u) q (ut_tcb u).

(** ** References *)
(** Tasks the executor or a suspended call holds. *)
Definition task_held (s : Sys) (tid : Z) : bool :=
  bool_decide (tid ∈ (ex_queue (sy_exec s)).*1) || bool_decide (Some tid ∈ ex_cores (sy_exec s)) ||
  bool_decide (tid ∈ sy_calls s).

(** A task lives while it is held, or is a child of a process with a live
    task; [n] bounds the length of the chain of parents. *)
Fixpoint alive (n : nat) (s : Sys) (tid : Z) : bool :=
  task_held s tid ||
  match n with
  | O => false
  | Datatypes.S n =>
      existsb (λ x : Z * ProcessControlBlock H,
          bool_decide (tid ∈ pcb_children x.2) &&
          existsb (λ y : Z * UserTask, (ut_pid y.2 =? x.1) && alive n s y.1) (map_to_list (sy_tasks s)))
        (map_to_list (sy_pcbs s))
  end.

(** [Weak::upgrade] *)
Definition upgrade (s : Sys) (tid : Z) : option UserTask :=
  if alive (size (sy_tasks s)) s tid then sy_tasks s !! tid else None.

(** ** The view of one task *)
Definition parent_tcb (s : Sys) (u : UserTask) : option ThreadControlBlock :=
  q ← ut_parent u; ut_tcb <$> upgrade s q.

Definition enter (tid : Z) (s : Sys) : option (Proc S H) :=
  u ← sy_tasks s !! tid;
  b ← sy_pcbs s !! ut_pid u;
  Some (mkProc (with_root (ut_root u) (sy_world s)) (sy_mounted s) (sy_files s)
          (with_threads ((λ x : Z * bool, (x.1, bool_decide (is_Some (upgrade s x.1)))) <$> pcb_threads b) b)
          (ut_tcb u) tid (ut_pid u) (parent_tcb s u) (sy_kern s)).

(** Back from the view: the parent's control block may have a new signal. *)
Definition commit (tid : Z) (p : Proc S H) (s : Sys) : Sys :=
  let tasks := alter (set_ut_tcb (p_tcb p)) tid (sy_tasks s) in
  let tasks := match sy_tasks s !! tid ≫= ut_parent, p_parent p with
               | Some q, Some t => alter (set_ut_tcb t) q tasks
               | _, _ => tasks
               end in
  mkSys (p_world p) (p_mounted p) (p_files p) (p_kern p) (<[p_pid p := p_pcb p]> (sy_pcbs s)) tasks
    (sy_exec s) (sy_calls s).

Definition on_task {A} (tid : Z) (m : ST (Proc S H) A) : Y A := λ s,
  p ← unwrap (enter tid s);
  '(a, p) ← m p;
  Val (a, commit tid p s).

(** ** Identity *)
Definition sys_getpid (tid : Z) : Y (result Z) := λ s,
  u ← unwrap (sy_tasks s !! tid); Val (Ok (ut_pid u), s).
Definition sys_gettid (tid : Z) : Y (result Z) := λ s, Val (Ok tid, s).
Definition sys_getppid (tid : Z) : Y (result Z) := λ s,
  u ← unwrap (sy_tasks s !! tid);
  Val (ok_or (q ← ut_parent u; ut_pid <$> upgrade s q) EPERM, s).
Definition sys_set_tid_address (tid tid_ptr : Z) : Y (result Z) := λ s,
  u ← unwrap (sy_tasks s !! tid);
  Val (Ok tid, set_tasks (<[tid := set_ut_tcb (set_clear_child_tid tid_ptr (ut_tcb u)) u]> (sy_tasks s)) s).
(** After the yield the call returns 0. *)
Definition sys_sched_yield : Y (result Z) := mret (Ok 0).
Definition sys_sched_getaffinity : Y (result Z) := mret (Ok 0).

(** ** Directories *)
Definition sys_chdir (path_ptr : UserStr) : K S H Z :=
  path ←? cstr path_ptr;
  new_dir ←? fd_open ops AT_CWD path O_RDONLY;
  ty ←? k_fs (file_type ops new_dir);
  if bool_decide (ty = FT_Directory) then
    id ←? k_of (new_file new_dir);
    λ p, Val (Ok 0, map_pcb (with_curr_dir id) p)
  else k_ret (Err ENOTDIR).

(** The buffer: the path cut to [size] bytes, then zeros. *)
Definition sys_getcwd (size : nat) : ST (Proc S H) (list Z) := λ p,
  file ← unwrap (p_files p !! pcb_curr_dir (p_pcb p));
  let bytes := str_bytes (pb_path (f_path_buf file)) in
  let len := Nat.min (length bytes) size in
  Val (take len bytes ++ replicate (size - len) 0, p).

(** ** Leaving *)
Definition sys_exit (tid exit_code : Z) : Y (result Z) :=
  _ ← on_task tid (thread_exit ops (as_usize exit_code)); mret (Ok 0).
Definition sys_exit_group (tid exit_code : Z) : Y (result Z) :=
  _ ← on_task tid (exit_ ops exit_code); mret (Ok 0).

(** ** [clone] *)
(** What the new task starts with beside what it inherits. *)
Definition clone_tcb (flags sig stack tls ctid : Z) (t : ThreadControlBlock) : ThreadControlBlock :=
  let t := set_clear_child_tid (if contains flags CLONE_CHILD_CLEARTID then ctid else 0) t in
  let t := if stack =? 0 then t else set_cx (tf_set (tcb_cx t) SP stack) t in
  let t := if contains flags CLONE_SETTLS then set_cx (tf_set (tcb_cx t) TLS tls) t else t in
  set_exit_signal (sig mod 2 ^ 8) t.

(** The new task and, unless it is a thread, the control block of the new
    process; the caller is [tid]. *)
Definition clone_new (tid id : Z) (thread : bool) : Y (UserTask * option (ProcessControlBlock H)) := λ s,
  u ← unwrap (sy_tasks s !! tid);
  if thread then
    '(t, s) ← on_task tid (λ p, let '(t, p) := thread_clone id p in Val (t, p)) s;
    Val ((mkUserTask (ut_root u) (ut_pid u) (ut_parent u) t, None), s)
  else
    '(c, s) ← on_task tid (cow_fork ops id) s;
    Val ((mkUserTask (tk_root c) (tk_pid c) (Some tid) (tk_tcb c), Some (tk_pcb c)), s).

(** [sys_clone] up to the point where it yields ... *)
Definition clone_start (tid flags stack ptid tls ctid : Z) : Y Z := λ s,
  let sig := Z.land flags 0xff in
  let flags := clone_flags flags in
  let '(id, e) := task_id_alloc (sy_exec s) in
  '((u, b), s) ← clone_new tid id (contains flags CLONE_THREAD) (set_exec e s);
  let u := set_ut_tcb (clone_tcb flags sig stack tls ctid (ut_tcb u)) u in
  let s := set_tasks (<[id := u]> (sy_tasks s)) s in
  let s := set_pcbs (match b with Some b => <[ut_pid u := b]> (sy_pcbs s) | None => sy_pcbs s end) s in
  let s := set_calls (id :: sy_calls s) s in
  '(_, s) ← (if contains flags CLONE_PARENT_SETTID
             then on_task tid (user_store ops (le_bytes 4 (as_u32 id)) ptid) s else Val (tt, s));
  '(_, s) ← (if contains flags CLONE_CHILD_SETTID && negb (ctid =? 0)
             then on_task tid (user_store ops (le_bytes 4 (as_u32 id)) ctid) s else Val (tt, s));
  Val (id, s).

(** ... and after it. *)
Definition clone_finish (id : Z) : Y (result Z) := λ s,
  Val (Ok id, set_calls (filter (λ x, x ≠ id) (sy_calls s)) (set_exec (spawn id tt (sy_exec s)) s)).

(** ** [wait4] *)
Definition children_of (tid : Z) (s : Sys) : outcome (list Z) :=
  u ← unwrap (sy_tasks s !! tid); b ← unwrap (sy_pcbs s !! ut_pid u); Val (pcb_children b).

(** [exit_code] of a task. *)
Definition exit_code_of (s : Sys) (tid : Z) : option Z :=
  u ← sy_tasks s !! tid; b ← sy_pcbs s !! ut_pid u; pcb_exit_code b.

(** The [WaitPid] future. *)
Definition wait_pid_poll (tid pid : Z) (s : Sys) : outcome (Poll Z) :=
  children ← children_of tid s;
  match list_find (λ c, (pid = -1 ∨ c = as_usize pid) ∧ is_Some (exit_code_of s c)) children with
  | Some (_, c) => Val (Ready c)
  | None => Val Pending
  end.

(** The status word: the signal that killed the process with the core-dump
    bit, or the exit code in the second byte. *)
Definition wait_status (b : ProcessControlBlock H) (code : Z) : Z :=
  match pcb_exit_signal b with
  | Some signal => if pcb_core_dumped b then Z.lor (as_i32 signal) 0x80 else as_i32 signal
  | None => as_i32 (Z.shiftl (as_i32 code) 8)
  end.

(** [children.retain(|x| x.task_id != child)] of the process [pid]. *)
Definition forget_child (pid child : Z) (s : Sys) : Sys :=
  set_pcbs (alter (λ b, with_children (filter (λ c, c ≠ child) (pcb_children b)) b) pid (sy_pcbs s)) s.

(** [UserTask::release] *)
Definition release_sys (tid : Z) : Y unit := λ s,
  u ← unwrap (sy_tasks s !! tid);
  b ← unwrap (sy_pcbs s !! ut_pid u);
  _ ← assert_ (bool_decide (is_Some (pcb_exit_code b)) || bool_decide (is_Some (tcb_thread_exit_code (ut_tcb u))));
  Val (tt, set_exec (release_task tid (sy_exec s)) s).

(** The ended child [c] is released and its status stored; [code] is what the
    status shows for a normal exit. *)
Definition reap (tid c status : Z) (code : ProcessControlBlock H → Z) : Y (result Z) := λ s,
  u ← unwrap (sy_tasks s !! tid);
  '(_, s) ← release_sys c (forget_child (ut_pid u) c s);
  '(_, s) ← (if status =? 0 then Val (tt, s) else
               v ← unwrap (sy_tasks s !! c);
               b ← unwrap (sy_pcbs s !! ut_pid v);
               on_task tid (user_store ops (le_bytes 4 (as_u32 (wait_status b (code b)))) status) s);
  Val (Ok c, s).

(** A poll of the blocking [wait4]. *)
Definition wait4_poll (tid pid status : Z) : Y (Poll (result Z)) := λ s,
  r ← wait_pid_poll tid pid s;
  match r with
  | Pending => Val (Pending, s)
  | Ready c => '(r, s) ← reap tid c status (λ b, default 0 (pcb_exit_code b)) s; Val (Ready r, s)
  end.

Definition WNOHANG : Z := 1.

(** [options == 1]: one look at the first matching child. *)
Definition wait4_nohang (tid pid status : Z) : Y (result Z) := λ s,
  children ← children_of tid s;
  match list_find (λ c, c = as_usize pid ∨ pid = -1) children with
  | None => Val (Ok 0, s)
  | Some (_, c) =>
      match exit_code_of s c with
      | None => Val (Ok 0, s)
      | Some t1 => reap tid c status (λ _, t1) s
      end
  end.

Definition sys_wait4 (tid pid status options : Z) : Y (Poll (result Z)) := λ s,
  children ← children_of tid s;
  if bool_decide (children = []) then Val (Ready (Err ECHILD), s)
  else if negb (pid =? -1) && negb (bool_decide (as_usize pid ∈ children)) then Val (Ready (Err ECHILD), s)
  else if bool_decide (options ∈ [0; 2; 3; 10]) then wait4_poll tid pid status s
  else if options =? WNOHANG then '(r, s) ← wait4_nohang tid pid status s; Val (Ready r, s)
  else Val (Ready (Err EPERM), s).

(** ** Signals to other tasks *)
Definition send_to (tid signum : Z) : Y unit := λ s,
  u ← unwrap (sy_tasks s !! tid);
  t ← tcb_send signum (ut_tcb u);
  Val (tt, set_tasks (<[tid := set_ut_tcb t u]> (sy_tasks s)) s).

Definition threads_of (tid : Z) (s : Sys) : outcome (list Z) :=
  u ← unwrap (sy_tasks s !! tid); b ← unwrap (sy_pcbs s !! ut_pid u); Val ((pcb_threads b).*1).

Definition sys_tkill (tid target signum : Z) : Y (result Z) := λ s,
  threads ← threads_of tid s;
  let child := snd <$> list_find (λ x, x = target ∧ is_Some (upgrade s x)) threads in
  let child := if target =? tid then Some tid else child in
  match child with
  | Some c => '(_, s) ← send_to c signum s; Val (Ok 0, s)
  | None => Val (Err ECHILD, s)
  end.

Definition sys_tgkill (tid tgid target signum : Z) : Y (result Z) := λ s,
  u ← unwrap (sy_tasks s !! tid);
  threads ← threads_of tid s;
  let found :=
    if (target =? tid) && (tgid =? ut_pid u) then Some tid
    else snd <$> list_find (λ x, x = target ∧ ut_pid <$> upgrade s x = Some tgid) threads in
  match found with
  | Some c => '(_, s) ← send_to c signum s; Val (Ok 0, s)
  | None => Val (Err ESRCH, s)
  end.

(** [tid2task] *)
Definition tid2task (tid : Z) (s : Sys) : option UserTask :=
  if bool_decide (tid ∈ ex_map (sy_exec s)) then upgrade s tid else None.

Definition sys_kill (pid signum : Z) : Y (result Z) := λ s,
  match tid2task pid s with
  | Some u =>
      Val (Ok 0, set_tasks (<[pid := set_ut_tcb (tcb_add_signal (from_num signum) (ut_tcb u)) u]> (sy_tasks s)) s)
  | None => Val (Err ESRCH, s)
  end.

Definition sys_setsid (tid : Z) : Y (result Z) := λ s,
  u ← unwrap (sy_tasks s !! tid);
  match ut_parent u ≫= λ q, upgrade s q with
  | Some v => Val (Ok tid, set_tasks (<[tid := set_ut_parent None u]> (sy_tasks s)) (forget_child (ut_pid v) tid s))
  | None => Val (Ok tid, s)
  end.

(** The future of a task whose exit was noticed is dropped. *)
Definition task_done (tid : Z) (s : Sys) : Sys :=
  let e := sy_exec s in
  set_exec (mkExec (filter (λ x : Z * unit, x.1 ≠ tid) (ex_queue e)) (ex_map e) (ex_next e) (ex_cores e)) s.

(** ** What operations of one task do to the family of processes *)
(** The task stays, and it only loses children. *)
Definition same_family (p p' : Proc S H) : Prop :=
  p_pid p' = p_pid p ∧ pcb_children (p_pcb p') `sublist_of` pcb_children (p_pcb p).

Definition quiet {A} (m : ST (Proc S H) A) : Prop := ∀ p a p', m p = Val (a, p') → same_family p p'.

Lemma sf_refl p : same_family p p.
Proof. by split. Qed.
Lemma sf_trans p p' p'' : same_family p p' → same_family p' p'' → same_family p p''.
Proof. intros [E1 H1] [E2 H2]. split; [congruence|by etrans]. Qed.
Lemma sf_same p p' : p_pid p' = p_pid p → pcb_children (p_pcb p') = pcb_children (p_pcb p) → same_family p p'.
Proof. intros E1 E2. split; [done|by rewrite E2]. Qed.
Lemma sf_none p p' : p_pid p' = p_pid p → pcb_children (p_pcb p') = [] → same_family p p'.
Proof. intros E1 E2. split; [done|]. rewrite E2. apply sublist_nil_l. Qed.

Lemma quiet_world {A} (m : ST (World S) A) : quiet (k_world m).
Proof. intros p a p'. unfold k_world. destruct (m (p_world p)) as [[? w]|]; [|done]. intros [= _ <-]. by apply sf_same. Qed.
Lemma quiet_fs {A} (m : vfs S A) : quiet (k_fs m).
Proof. intros p a p'. unfold k_fs. destruct (m (w_fs (p_world p))) as [[? w]|]; [|done]. intros [= _ <-]. by apply sf_same. Qed.
Lemma quiet_ret {A} (a : A) : quiet (mret a).
Proof. intros p ? p' [= _ <-]. apply sf_refl. Qed.
Lemma quiet_bind {A B} (m : ST (Proc S H) A) (f : A → ST (Proc S H) B) : quiet m → (∀ a, quiet (f a)) → quiet (m ≫= f).
Proof.
  intros Hm Hf p b p'. unfold mbind, st_bind. destruct (m p) as [[a p1]|] eqn:E; [|done]. intros E'.
  eapply sf_trans; [by eapply Hm|by eapply Hf].
Qed.
Lemma quiet_iter {A} (f : A → ST (Proc S H) unit) l : (∀ x, quiet (f x)) → quiet (st_iter f l).
Proof. intros Hf. induction l as [|x l IH]; [apply quiet_ret|]. apply quiet_bind; [done|]. by intros _. Qed.
End tasks.

Create HintDb quiet.
#[export] Hint Resolve quiet_world quiet_fs quiet_ret quiet_bind quiet_iter : quiet.

(** Follow an operation through its branches, using what is known of the
    operations it calls. *)
Ltac quiet_step :=
  match goal with
  | E : Val _ = Val _ |- _ => injection E as ? ?; subst
  | E : Panic = Val _ |- _ => discriminate E
  | E : _ = Val ?x |- _ => is_var x; destruct x
  | E : ?m ?p = Val (?a, ?p') |- _ =>
      let Hq := fresh "Hq" in
      assert (same_family p p') as Hq by
        (refine ((_ : quiet m) p a p' E); solve [eauto with quiet nocore]);
      clear E
  | E : match ?x with _ => _ end = Val _ |- _ => 
      let E' := fresh "E" in destruct x eqn:E'; lazymatch type of E' with _ = Val _ => idtac | _ => clear E' end
  end.
Ltac quiet_start := intros p ? p' E; cbv beta in E; unfold mbind, outcome_bind, st_bind, mret, st_ret in E.
Lemma quiet_pcb {S H} (f : ProcessControlBlock H → ProcessControlBlock H) (p : Proc S H) :
  (∀ b, pcb_children (f b) = pcb_children b) → same_family p (map_pcb f p).
Proof. intros Hf. by apply sf_same; [|apply Hf]. Qed.
Lemma quiet_tcb {S H} t (p : Proc S H) : same_family p (set_tcb t p).
Proof. by apply sf_same. Qed.
Lemma quiet_kern {S H} k (p : Proc S H) : same_family p (set_kern k p).
Proof. by apply sf_same. Qed.

Ltac quiet_chain :=
  repeat match goal with
  | |- same_family ?q ?q => apply sf_refl
  | Hq : same_family _ ?q |- same_family _ ?q => refine (sf_trans _ _ _ _ Hq); clear Hq
  | |- same_family _ (map_pcb _ ?q) => refine (sf_trans _ q _ _ _); [|apply quiet_pcb; by intros []]
  | |- same_family _ (set_tcb _ ?q) => refine (sf_trans _ q _ _ (quiet_tcb _ q))
  | |- same_family _ (set_kern _ ?q) => refine (sf_trans _ q _ _ (quiet_kern _ q))
  end.
Ltac quiet_tac := quiet_start; repeat quiet_step; quiet_chain.

Section tasks.
Context {S H : Type} (ops : INodeOps S H).

Notation quiet := (quiet (S := S) (H := H)).

Lemma quiet_task_map f v fl : quiet (task_map f v fl).
Proof. unfold task_map. quiet_tac. Qed.
Hint Resolve quiet_task_map : quiet.
Lemma quiet_map_trackers v l fl : quiet (map_trackers v l fl).
Proof. unfold map_trackers. destruct (v =? 0); eauto with quiet. Qed.
Lemma quiet_push_area a : quiet (push_area a).
Proof. unfold push_area. quiet_tac. Qed.
Hint Resolve quiet_map_trackers quiet_push_area : quiet.
Lemma quiet_map_frames v ty n f o st len fl : quiet (map_frames v ty n f o st len fl).
Proof. unfold map_frames. quiet_tac. Qed.
Lemma quiet_place_mmap v n l fl : quiet (place_mmap v n l fl).
Proof. unfold place_mmap. quiet_tac. Qed.
Lemma quiet_alloc_segments fuel : ∀ r v acc, quiet (alloc_segments fuel r v acc).
Proof.
  induction fuel as [|fuel IH]; intros r v acc; cbn [alloc_segments]; [quiet_tac|].
  quiet_start. repeat quiet_step; quiet_chain. Qed.
Hint Resolve quiet_map_frames quiet_place_mmap quiet_alloc_segments : quiet.
Lemma quiet_task_frame_alloc v ty n : quiet (task_frame_alloc v ty n).
Proof. unfold task_frame_alloc. quiet_tac. Qed.
Lemma quiet_raise_signal sg : quiet (raise_signal sg).
Proof. unfold raise_signal. quiet_tac. Qed.
Lemma quiet_read_frame f o n fr : quiet (read_frame ops f o n fr).
Proof. unfold read_frame. quiet_tac. Qed.
Lemma quiet_update_area i a : quiet (update_area i a).
Proof. unfold update_area. quiet_tac. Qed.
Hint Resolve quiet_task_frame_alloc quiet_raise_signal quiet_read_frame quiet_update_area : quiet.
Lemma quiet_fault_tracked i ar j x : quiet (fault_tracked i ar j x).
Proof. unfold fault_tracked. quiet_tac. Qed.
Lemma quiet_fault_new i ar v : quiet (fault_new ops i ar v).
Proof. unfold fault_new. quiet_tac. Qed.
Hint Resolve quiet_fault_tracked quiet_fault_new : quiet.
Lemma quiet_fault_in_area i ar v : quiet (fault_in_area ops i ar v).
Proof. unfold fault_in_area. quiet_tac. Qed.
Lemma quiet_fault_load_elf v : quiet (fault_load_elf ops v).
Proof. unfold fault_load_elf. quiet_tac. Qed.
Lemma quiet_fault_blank v ty n : quiet (fault_blank v ty n).
Proof. unfold fault_blank. quiet_tac. Qed.
Hint Resolve quiet_fault_in_area quiet_fault_load_elf quiet_fault_blank : quiet.
Lemma quiet_fault_program v : quiet (fault_program ops v).
Proof. unfold fault_program. quiet_tac. Qed.
Hint Resolve quiet_fault_program : quiet.

Lemma quiet_notify_exit : quiet notify_exit.
Proof. unfold notify_exit. quiet_start. repeat quiet_step; quiet_chain. Qed.
Lemma quiet_clear_memset : quiet (clear_memset ops).
Proof. unfold clear_memset. quiet_start. repeat quiet_step. apply sf_same; [done|]. simpl. by destruct (p_pcb p). Qed.
Hint Resolve quiet_notify_exit quiet_clear_memset : quiet.
Lemma quiet_cleanup_process code sg : quiet (cleanup_process ops code sg).
Proof.
  unfold cleanup_process. quiet_start. repeat quiet_step. eapply sf_trans; [done|].
  apply sf_none; [done|]. simpl. by destruct (p_pcb _).
Qed.
Hint Resolve quiet_cleanup_process : quiet.
Lemma quiet_leave code sg : quiet (leave ops code sg).
Proof. unfold leave. quiet_tac. Qed.
Hint Resolve quiet_leave : quiet.
Lemma quiet_exit code : quiet (exit_ ops code).
Proof. unfold exit_. quiet_tac. Qed.
Lemma quiet_thread_exit code : quiet (thread_exit ops code).
Proof. unfold thread_exit. quiet_tac. Qed.
Hint Resolve quiet_exit quiet_thread_exit : quiet.
Lemma quiet_exit_with_signal sg : quiet (exit_with_signal ops sg).
Proof. unfold exit_with_signal. quiet_tac. Qed.
Lemma quiet_fault_null : quiet (fault_null ops).
Proof. unfold fault_null. quiet_tac. Qed.
Lemma quiet_fault_tls v : quiet (fault_tls ops v).
Proof. unfold fault_tls, set_tls. quiet_start. destruct (_ =? _) in E; repeat quiet_step; quiet_chain. Qed.
Hint Resolve quiet_fault_null quiet_fault_tls : quiet.
Lemma quiet_fault_outside v : quiet (fault_outside ops v).
Proof. unfold fault_outside. quiet_tac. Qed.
Hint Resolve quiet_fault_outside : quiet.
Lemma quiet_user_cow_int v : quiet (user_cow_int ops v).
Proof. unfold user_cow_int. quiet_tac. Qed.
Hint Resolve quiet_user_cow_int : quiet.
Lemma quiet_user_store1 v b : quiet (user_store1 ops v b).
Proof. unfold user_store1. quiet_tac. Qed.
Hint Resolve quiet_user_store1 : quiet.
Lemma quiet_user_store bs : ∀ v, quiet (user_store ops bs v).
Proof. induction bs as [|b bs IH]; intros v; cbn [user_store]; eauto with quiet. Qed.
Hint Resolve quiet_exit_with_signal quiet_user_store : quiet.

Lemma quiet_new_file f : quiet (new_file f).
Proof. unfold new_file. quiet_start. repeat quiet_step. by apply sf_same. Qed.
Hint Resolve quiet_new_file : quiet.
Lemma quiet_open_new path fl : quiet (open_new ops path fl).
Proof. unfold open_new, expect. quiet_tac. Qed.
Hint Resolve quiet_open_new : quiet.
Lemma quiet_user_task_new id dir : quiet (user_task_new ops id dir).
Proof. unfold user_task_new. quiet_tac. Qed.
Lemma quiet_map_in r f v fl : quiet (map_in r f v fl).
Proof. unfold map_in. quiet_tac. Qed.
Lemma quiet_seg_clone id : quiet (seg_clone id).
Proof. unfold seg_clone, map_kern. quiet_tac. Qed.
Hint Resolve quiet_user_task_new quiet_map_in quiet_seg_clone : quiet.
Lemma quiet_fork_page r fl x : quiet (fork_page r fl x).
Proof. unfold fork_page. eauto with quiet. Qed.
Hint Resolve quiet_fork_page : quiet.
Lemma quiet_fork_area r ar : quiet (fork_area r ar).
Proof. unfold fork_area. eauto with quiet. Qed.
Lemma quiet_fork_shm r m : quiet (fork_shm r m).
Proof. unfold fork_shm. quiet_tac. Qed.
Hint Resolve quiet_fork_area quiet_fork_shm : quiet.

(** A new process is the last child of its parent and has none itself. *)
Lemma user_task_new_family id dir p c p' :
  user_task_new ops id dir p = Val (c, p') → tk_pid c = id ∧ pcb_children (tk_pcb c) = [].
Proof.
  unfold user_task_new, mbind, outcome_bind. intros E.
  repeat match goal with
  | E : match ?x with _ => _ end = Val _ |- _ => destruct x; [|discriminate E] || destruct x
  end. by injection E as <- _.
Qed.

Lemma cow_fork_family id p c p' :
  cow_fork ops id p = Val (c, p') →
  p_pid p' = p_pid p ∧ pcb_children (p_pcb p') `sublist_of` pcb_children (p_pcb p) ++ [id] ∧
  tk_pid c = id ∧ pcb_children (tk_pcb c) = [].
Proof.
  unfold cow_fork, mbind at 1 2, outcome_bind at 1 2. intros E.
  destruct (unwrap _) as [cwd|]; [|done]. destruct (user_task_new _ _ _ p) as [[c0 p1]|] eqn:E1; [|done].
  destruct (user_task_new_family _ _ _ _ _ E1) as [Hid Hch]. apply quiet_user_task_new in E1 as [Hp Hc].
  unfold mbind, outcome_bind in E. destruct (st_iter _ _ p1) as [[[] p2]|] eqn:E2; [|done].
  assert (same_family p1 p2) as [Hp2 Hc2] by (eapply quiet_iter, E2; intros ?; apply quiet_seg_clone).
  set (p3 := map_pcb _ p2) in E. destruct (st_iter (fork_area _) _ p3) as [[[] p4]|] eqn:E4; [|done].
  assert (same_family p3 p4) as [Hp4 Hc4] by (eapply quiet_iter, E4; intros ?; apply quiet_fork_area).
  destruct (st_iter (fork_shm _) _ p4) as [[[] p5]|] eqn:E5; [|done].
  assert (same_family p4 p5) as [Hp5 Hc5] by (eapply quiet_iter, E5; intros ?; apply quiet_fork_shm).
  injection E as <- <-. simpl. split_and!; [|etrans; [exact Hc5|etrans; [exact Hc4|]]|done|].
  - rewrite Hp5, Hp4. simpl. by rewrite Hp2.
  - simpl. destruct (p_pcb p2). simpl. by apply sublist_app.
  - by destruct (tk_pcb c0).
Qed.

(** ** Histories *)
Notation Sys := (Sys (S := S) (H := H)).

Inductive task_event :=
  | TClone (tid flags stack ptid tls ctid : Z)
  | TSpawn (id : Z)
  | TWait (tid pid status options : Z)
  | TPoll (tid pid status : Z)
  | TExit (tid code : Z)
  | TExitGroup (tid code : Z)
  | TKilled (tid sig : Z)
  | TSetsid (tid : Z)
  | TKill (pid sig : Z)
  | TTkill (tid target sig : Z)
  | TTgkill (tid tgid target sig : Z)
  | TDone (tid : Z)
  | TCall (tid : Z) (call : ST (Proc S H) unit).

(** The child a [wait4] reports. *)
Definition reported (r : Poll (result Z)) : list Z :=
  match r with Ready (Ok c) => if c =? 0 then [] else [c] | _ => [] end.

Definition silent {A} (m : ST Sys A) : ST Sys (list Z) := λ s, '(_, s) ← m s; Val ([], s).

Definition task_step (e : task_event) : ST Sys (list Z) :=
  match e with
  | TClone tid flags stack ptid tls ctid => silent (clone_start ops tid flags stack ptid tls ctid)
  | TSpawn id => silent (clone_finish id)
  | TWait tid pid status options => λ s, '(r, s) ← sys_wait4 ops tid pid status options s; Val (reported r, s)
  | TPoll tid pid status => λ s, '(r, s) ← wait4_poll ops tid pid status s; Val (reported r, s)
  | TExit tid code => silent (sys_exit ops tid code)
  | TExitGroup tid code => silent (sys_exit_group ops tid code)
  | TKilled tid sig => silent (on_task tid (exit_with_signal ops sig))
  | TSetsid tid => silent (sys_setsid tid)
  | TKill pid sig => silent (sys_kill pid sig)
  | TTkill tid target sig => silent (sys_tkill tid target sig)
  | TTgkill tid tgid target sig => silent (sys_tgkill tid tgid target sig)
  | TDone tid => λ s, Val ([], task_done tid s)
  | TCall tid call => silent (on_task tid call)
  end.

(** The children reported over a history, in order. *)
Fixpoint task_run (es : list task_event) : ST Sys (list Z) :=
  match es with
  | [] => mret []
  | e :: es => log ← task_step e; rest ← task_run es; mret (log ++ rest)
  end.

(** ** The family tree *)
Definition family (s : Sys) : gmap Z (list Z) := pcb_children <$> sy_pcbs s.
Definition next_id (s : Sys) : Z := ex_next (sy_exec s).

(** No child has two entries, no id is ahead of the counter. *)
Record family_ok (s : Sys) : Prop := {
  fo_nodup : ∀ pid l, family s !! pid = Some l → NoDup l;
  fo_disj : ∀ pid pid' l l' c, family s !! pid = Some l → family s !! pid' = Some l' → c ∈ l → c ∈ l' → pid = pid';
  fo_next : ∀ pid l c, family s !! pid = Some l → c ∈ l → c ≤ next_id s;
  fo_word : 0 ≤ next_id s
}.

(** Children only leave. *)
Definition shrinks (s s' : Sys) : Prop :=
  next_id s' = next_id s ∧
  ∀ pid l', family s' !! pid = Some l' → ∃ l, family s !! pid = Some l ∧ l' `sublist_of` l.

Lemma shrinks_refl s : shrinks s s.
Proof. split; [done|]. eauto. Qed.
Lemma shrinks_trans s s' s'' : shrinks s s' → shrinks s' s'' → shrinks s s''.
Proof.
  intros [E1 H1] [E2 H2]. split; [congruence|]. intros pid l'' Hl.
  destruct (H2 pid l'' Hl) as (l' & Hl' & ?). destruct (H1 pid l' Hl') as (l & ? & ?). exists l. split; [done|by etrans].
Qed.
Lemma shrinks_same s s' : next_id s' = next_id s → sy_pcbs s' = sy_pcbs s → shrinks s s'.
Proof. intros E1 E2. split; [done|]. unfold family. rewrite E2. eauto. Qed.

Lemma shrinks_ok s s' : shrinks s s' → family_ok s → family_ok s'.
Proof.
  intros [En Hs] [H1 H2 H3 H4]. split.
  - intros pid l' Hl. destruct (Hs _ _ Hl) as (l & Hl0 & Hsub). eapply sublist_NoDup; [|exact Hsub]. eauto.
  - intros pid pid' l l' c Hl Hl' Hc Hc'. destruct (Hs _ _ Hl) as (k & Hk & Hsub). destruct (Hs _ _ Hl') as (k' & Hk' & Hsub').
    eapply (H2 pid pid' k k' c); [done..|by eauto using elem_of_sublist|by eauto using elem_of_sublist].
  - intros pid l c Hl Hc. rewrite En. destruct (Hs _ _ Hl) as (k & Hk & Hsub). eapply H3; [done|by eauto using elem_of_sublist].
  - by rewrite En.
Qed.

(** The ids that can still be reported. *)
Definition waiting (s : Sys) (c : Z) : Prop := ∃ pid l, family s !! pid = Some l ∧ c ∈ l.

Lemma shrinks_waiting s s' c : shrinks s s' → waiting s' c → waiting s c.
Proof.
  intros [_ Hs] (pid & l' & Hl & Hc). destruct (Hs _ _ Hl) as (l & Hl0 & Hsub). exists pid, l. split; [done|by eauto using elem_of_sublist].
Qed.

(** *** Operations of one task *)
Lemma on_task_inv {A} tid (m : ST (Proc S H) A) s a s' :
  on_task tid m s = Val (a, s') →
  ∃ u b p p', sy_tasks s !! tid = Some u ∧ sy_pcbs s !! ut_pid u = Some b ∧ enter tid s = Some p ∧ m p = Val (a, p') ∧
    p_pid p = ut_pid u ∧ pcb_children (p_pcb p) = pcb_children b ∧ s' = commit tid p' s.
Proof.
  unfold on_task. destruct (enter tid s) as [p|] eqn:Ee; [|done]. cbn [unwrap mbind outcome_bind].
  destruct (m p) as [[a1 p']|] eqn:Em; [|done]. intros [= <- <-]. unfold enter in Ee.
  destruct (sy_tasks s !! tid) as [u|] eqn:Eu; [|done]. cbn [mbind option_bind] in Ee.
  destruct (sy_pcbs s !! ut_pid u) as [b|] eqn:Eb; [|done]. cbn [mbind option_bind] in Ee.
  exists u, b, p, p'. injection Ee as <-. split_and!; try done. simpl. by destruct b.
Qed.

Lemma on_task_shrinks {A} tid (m : ST (Proc S H) A) s a s' :
  quiet m → on_task tid m s = Val (a, s') → shrinks s s'.
Proof.
  intros Hm (u & b & p & p' & Hu & Hb & _ & E & Hp & Hc & ->)%on_task_inv.
  apply Hm in E as [Ep Es]. split; [done|]. unfold family, commit. simpl. rewrite Ep, Hp.
  intros pid l'. rewrite fmap_insert, lookup_insert_Some. intros [[<- <-]|[? Hl]]; [|eauto].
  exists (pcb_children b). rewrite lookup_fmap, Hb. split; [done|]. by rewrite <- Hc.
Qed.

Lemma family_forget pid c s q l' :
  family (forget_child pid c s) !! q = Some l' →
  ∃ l, family s !! q = Some l ∧ l' = if bool_decide (q = pid) then filter (λ x, x ≠ c) l else l.
Proof.
  unfold family, forget_child. simpl. rewrite !lookup_fmap. case_bool_decide as Hq.
  - subst q. rewrite lookup_alter_eq. destruct (sy_pcbs s !! pid) as [b|]; [|done]. simpl. intros [= <-].
    eexists. split; [done|]. by destruct b.
  - rewrite lookup_alter_ne by done. intros ->. eauto.
Qed.

Lemma forget_shrinks pid c s : shrinks s (forget_child pid c s).
Proof.
  split; [done|]. intros q l' (l & Hl & ->)%family_forget. exists l. split; [done|].
  case_bool_decide; [apply sublist_filter|done].
Qed.

(** A child the process forgets is nobody's child any more. *)
Lemma forget_waiting pid c s l :
  family_ok s → family s !! pid = Some l → c ∈ l → ¬ waiting (forget_child pid c s) c.
Proof.
  intros Hok Hl Hc (q & l' & (k & Hk & ->)%family_forget & Hc'). case_bool_decide as Hq.
  - by apply list_elem_of_filter in Hc' as [? _].
  - destruct Hq. by eapply (fo_disj s Hok q pid k l c).
Qed.

Lemma release_shrinks tid s u s' : release_sys tid s = Val (u, s') → shrinks s s'.
Proof.
  unfold release_sys, mbind, outcome_bind. intros E. repeat case_match; try done. injection E as _ <-. by apply shrinks_same.
Qed.

Lemma reap_spec tid c status code s r s' :
  reap ops tid c status code s = Val (r, s') →
  r = Ok c ∧ ∃ u, sy_tasks s !! tid = Some u ∧ shrinks (forget_child (ut_pid u) c s) s'.
Proof.
  unfold reap, mbind, outcome_bind. destruct (sy_tasks s !! tid) as [u|] eqn:Eu; [|done]. cbn [unwrap].
  destruct (release_sys c _) as [[[] s1]|] eqn:E1; [|done]. apply release_shrinks in E1.
  intros E. destruct (status =? 0).
  { injection E as <- <-. split; [done|]. exists u. done. }
  destruct (unwrap (sy_tasks s1 !! c)) as [v|]; [|done]. destruct (unwrap _) as [b|]; [|done].
  destruct (on_task _ _ s1) as [[[] s2]|] eqn:E2; [|done]. injection E as <- <-. split; [done|].
  exists u. split; [done|]. eapply shrinks_trans; [exact E1|]. eapply on_task_shrinks; [|exact E2]. apply quiet_user_store.
Qed.

Lemma children_of_family tid s l :
  children_of tid s = Val l → ∃ u, sy_tasks s !! tid = Some u ∧ family s !! ut_pid u = Some l.
Proof.
  unfold children_of. destruct (sy_tasks s !! tid) as [u|] eqn:Eu; [|done]. cbn [unwrap mbind outcome_bind].
  destruct (sy_pcbs s !! ut_pid u) as [b|] eqn:Eb; [|done]. intros [= <-]. exists u. split; [done|].
  unfold family. by rewrite lookup_fmap, Eb.
Qed.

(** What a call of [wait4] does to the family when it reports [c]. *)
Definition wait_outcome (tid : Z) (r : Poll (result Z)) (s s' : Sys) : Prop :=
  match r with
  | Ready (Ok c) => s' = s ∧ c = 0 ∨ is_Some (exit_code_of s c) ∧
      ∃ u l, sy_tasks s !! tid = Some u ∧ family s !! ut_pid u = Some l ∧ c ∈ l ∧ shrinks (forget_child (ut_pid u) c s) s'
  | _ => s' = s
  end.

Lemma reap_outcome tid c status code s r s' l :
  children_of tid s = Val l → c ∈ l → is_Some (exit_code_of s c) →
  reap ops tid c status code s = Val (r, s') → wait_outcome tid (Ready r) s s'.
Proof.
  intros (u & Hu & Hl)%children_of_family Hc Hx (-> & v & Hv & Hs)%reap_spec. simplify_eq.
  right. split; [done|]. by exists u, l.
Qed.

Lemma wait4_poll_outcome tid pid status s r s' :
  wait4_poll ops tid pid status s = Val (r, s') → wait_outcome tid r s s'.
Proof.
  unfold wait4_poll, wait_pid_poll. destruct (children_of tid s) as [l|] eqn:El; [|done]. cbn [mbind outcome_bind].
  destruct (list_find _ l) as [[i c]|] eqn:Ef; cbn [mbind outcome_bind].
  - apply list_find_Some in Ef as (Hi & [_ Hx] & _). destruct (reap _ _ _ _ _ s) as [[r1 s1]|] eqn:Er; [|done].
    intros [= <- <-]. eapply reap_outcome; [done|by eapply list_elem_of_lookup_2|done|exact Er].
  - by intros [= <- <-].
Qed.

Lemma sys_wait4_outcome tid pid status options s r s' :
  sys_wait4 ops tid pid status options s = Val (r, s') → wait_outcome tid r s s'.
Proof.
  unfold sys_wait4, wait4_nohang. destruct (children_of tid s) as [l|] eqn:El; [|done]. cbn [mbind outcome_bind].
  case_bool_decide; [by intros [= <- <-]|]. destruct (_ && _); [by intros [= <- <-]|].
  case_bool_decide; [apply wait4_poll_outcome|]. destruct (options =? WNOHANG); [|by intros [= <- <-]].
  destruct (list_find _ l) as [[i c]|] eqn:Ef; cbn [mbind outcome_bind].
  2: { intros [= <- <-]. by left. }
  apply list_find_Some in Ef as (Hi & _ & _). destruct (exit_code_of s c) as [t|] eqn:Ex; cbn [mbind outcome_bind].
  2: { intros [= <- <-]. by left. }
  destruct (reap _ _ _ _ _ s) as [[r1 s1]|] eqn:Er; [|done]. intros [= <- <-].
  eapply reap_outcome; [done|by eapply list_elem_of_lookup_2|by rewrite Ex|exact Er].
Qed.

(** *** [clone] adds one child with a new id *)
Definition grows (s s' : Sys) : Prop :=
  next_id s' = next_id s + 1 ∧
  ∃ q, ∀ pid l', family s' !! pid = Some l' →
    l' = [] ∨ ∃ l, family s !! pid = Some l ∧ (l' `sublist_of` l ∨ pid = q ∧ l' `sublist_of` l ++ [next_id s + 1]).

Lemma grows_old s s' c : grows s s' → waiting s' c → c ≤ next_id s → waiting s c.
Proof.
  intros [_ [q Hg]] (pid & l' & Hl & Hc) Hn. destruct (Hg pid l' Hl) as [->|(l & Hl0 & [Hs|[_ Hs]])].
  - by apply elem_of_nil in Hc.
  - exists pid, l. split; [done|by eauto using elem_of_sublist].
  - assert (c ∈ l ++ [next_id s + 1]) as [?|?%list_elem_of_singleton]%elem_of_app by (by eauto using elem_of_sublist); [|lia].
    by exists pid, l.
Qed.

Lemma grows_ok s s' : grows s s' → family_ok s → family_ok s'.
Proof.
  intros [En [q Hg]] [H1 H2 H3 H4]. set (n := next_id s + 1) in *.
  assert (∀ pid l, family s !! pid = Some l → n ∉ l) as Hfresh.
  { intros pid l Hl Hn. specialize (H3 pid l n Hl Hn). lia. }
  assert (∀ pid l' c, family s' !! pid = Some l' → c ∈ l' →
            (∃ l, family s !! pid = Some l ∧ c ∈ l) ∨ c = n ∧ pid = q) as Hin.
  { intros pid l' c Hl Hc. destruct (Hg pid l' Hl) as [->|(l & Hl0 & [Hs|[-> Hs]])]; [by apply elem_of_nil in Hc|..].
    - left. exists l. split; [done|by eauto using elem_of_sublist].
    - assert (c ∈ l ++ [n]) as [?|?%list_elem_of_singleton]%elem_of_app by (by eauto using elem_of_sublist); eauto. }
  split.
  - intros pid l' Hl. destruct (Hg pid l' Hl) as [->|(l & Hl0 & [Hs|[_ Hs]])]; [constructor|..];
      (eapply sublist_NoDup; [|exact Hs]); [by eapply H1|].
    apply NoDup_app. split_and!; [by eapply H1| |apply NoDup_singleton].
    intros x Hx ->%list_elem_of_singleton. by eapply Hfresh.
  - intros pid pid' l l' c Hl Hl' Hc Hc'.
    destruct (Hin _ _ _ Hl Hc) as [(k & Hk & Hkc)|[-> ->]], (Hin _ _ _ Hl' Hc') as [(k' & Hk' & Hkc')|[E ->]]; [|subst c| |done].
    + by eapply (H2 pid pid' k k' c).
    + by destruct (Hfresh _ _ Hk).
    + by destruct (Hfresh _ _ Hk').
  - intros pid l c Hl Hc. rewrite En. destruct (Hin _ _ _ Hl Hc) as [(k & Hk & Hkc)|[-> _]]; [|lia].
    specialize (H3 pid k c Hk Hkc). lia.
  - lia.
Qed.

Lemma quiet_thread_clone id : quiet (λ p, let '(t, p) := thread_clone id p in Val (t, p)).
Proof. unfold thread_clone. quiet_tac. Qed.

Lemma shrinks_grows s s' s'' : grows s s' → shrinks s' s'' → grows s s''.
Proof.
  intros [En [q Hg]] [Es Hs]. split; [lia|]. exists q. intros pid l'' Hl.
  destruct (Hs pid l'' Hl) as (l' & Hl' & Hsub). destruct (Hg pid l' Hl') as [->|(l & Hl0 & [?|[-> ?]])].
  - left. by apply sublist_nil_r in Hsub.
  - right. exists l. split; [done|]. left. by etrans.
  - right. exists l. split; [done|]. right. split; [done|by etrans].
Qed.

(** The state with the counter moved on. *)
Lemma clone_new_grows tid thread s (r : UserTask * option (ProcessControlBlock H)) s' u' :
  0 ≤ next_id s → next_id s + 1 < MAX64 →
  let '(id, e) := task_id_alloc (sy_exec s) in
  clone_new ops tid id thread (set_exec e s) = Val (r, s') →
  grows s (set_pcbs (match r.2 with Some b => <[ut_pid r.1 := b]> (sy_pcbs s') | None => sy_pcbs s' end)
             (set_tasks (<[id := u']> (sy_tasks s')) s')).
Proof.
  intros H0 Hn. unfold task_id_alloc. set (id := ex_next (sy_exec s) +w 1).
  assert (id = next_id s + 1) as Hid by (unfold id; change (ex_next (sy_exec s)) with (next_id s); no_wrap; done).
  set (s0 := set_exec _ s). assert (next_id s0 = next_id s + 1 ∧ family s0 = family s) as [En Ef] by done.
  unfold clone_new. destruct (unwrap _) as [u|]; cbn [mbind outcome_bind]; [|done]. destruct thread.
  - destruct (on_task _ _ s0) as [[t s1]|] eqn:E1; cbn [mbind outcome_bind]; [|done]. intros [= <- <-].
    apply on_task_shrinks in E1 as [E1 Hs]; [|apply quiet_thread_clone]. split; [unfold next_id in *; simpl; lia|].
    exists 0. intros pid l' Hl. right. destruct (Hs pid l' Hl) as (l & Hl0 & ?). rewrite Ef in Hl0. eauto.
  - destruct (on_task _ _ s0) as [[c s1]|] eqn:E1; cbn [mbind outcome_bind]; [|done]. intros [= <- <-].
    apply on_task_inv in E1 as (v & b & p & p' & Hv & Hb & _ & E & Hp & Hc & ->).
    destruct (cow_fork_family _ _ _ _ E) as (Ep & Hsub & _ & Hch). split; [exact En|]. exists (ut_pid v).
    intros pid l'. unfold family. cbn. rewrite Ep, Hp, !fmap_insert, Hch. rewrite lookup_insert_Some.
    intros [[<- <-]|[_ Hl]]; [by left|]. right. apply lookup_insert_Some in Hl as [[<- <-]|[_ Hl]]; [|eauto].
    exists (pcb_children b). change (sy_pcbs s0) with (sy_pcbs s) in Hb. rewrite lookup_fmap, Hb. split; [done|].
    right. split; [done|]. by rewrite <- Hc, <- Hid.
Qed.

Lemma clone_grows tid flags stack ptid tls ctid s r s' :
  0 ≤ next_id s → next_id s + 1 < MAX64 →
  clone_start ops tid flags stack ptid tls ctid s = Val (r, s') → grows s s'.
Proof.
  intros H0 Hn. unfold clone_start.
  pose proof (λ r s', clone_new_grows tid (contains (clone_flags flags) CLONE_THREAD) s r s') as Hg.
  destruct (task_id_alloc (sy_exec s)) as [id e]. destruct (clone_new _ _ _ _ _) as [[[u b] s1]|]; cbn [mbind outcome_bind]; [|done].
  set (u' := set_ut_tcb _ u). specialize (Hg (u, b) s1 u' H0 Hn eq_refl). cbn [fst snd] in Hg.
  match goal with |- context [set_calls (id :: ?c) ?x] => set (s2 := set_calls (id :: c) x) end.
  assert (grows s s2) as Hg2 by (destruct b; eapply shrinks_grows; [exact Hg|by apply shrinks_same|exact Hg|by apply shrinks_same]).
  clearbody s2. clear Hg. unfold mbind, outcome_bind. intros E.
  destruct (if contains _ CLONE_PARENT_SETTID then _ else _) as [[[] s3]|] eqn:E3; [|done].
  assert (shrinks s2 s3) as Hs3.
  { destruct (contains _ CLONE_PARENT_SETTID); [|injection E3 as <-; apply shrinks_refl].
    eapply on_task_shrinks, E3. apply quiet_user_store. }
  destruct (if _ && _ then _ else _) as [[[] s4]|] eqn:E4; [|done]. injection E as _ <-.
  eapply shrinks_grows; [exact Hg2|]. eapply shrinks_trans; [exact Hs3|].
  destruct (_ && _); [|injection E4 as <-; apply shrinks_refl]. eapply on_task_shrinks, E4. apply quiet_user_store.
Qed.

(** *** Steps *)
Definition quiet_call (e : task_event) : Prop := match e with TCall _ call => quiet call | _ => True end.

(** A step reports at most one child, which waited before and does not after;
    no other id becomes a child again. *)
Definition step_outcome (log : list Z) (s s' : Sys) : Prop :=
  family_ok s' ∧ next_id s ≤ next_id s' ≤ next_id s + 1 ∧
  (∀ c, waiting s' c → c ≤ next_id s → waiting s c) ∧
  (log = [] ∨ ∃ c, log = [c] ∧ waiting s c ∧ ¬ waiting s' c).

Lemma shrinks_outcome s s' : family_ok s → shrinks s s' → step_outcome [] s s'.
Proof.
  intros Hok Hs. split_and!; [by eapply shrinks_ok|destruct Hs; lia..| |by left].
  intros c Hc _. by eapply shrinks_waiting.
Qed.

Lemma silent_inv {A} (m : ST Sys A) s log s' : silent m s = Val (log, s') → log = [] ∧ ∃ a, m s = Val (a, s').
Proof.
  unfold silent. destruct (m s) as [[a s1]|]; cbn [mbind outcome_bind]; [|done]. intros [= <- <-]. eauto.
Qed.

Lemma silent_outcome {A} (m : ST Sys A) s log s' :
  family_ok s → (∀ a s', m s = Val (a, s') → shrinks s s') → silent m s = Val (log, s') → step_outcome log s s'.
Proof. intros Hok Hm (-> & a & E)%silent_inv. apply shrinks_outcome; [done|]. by eapply Hm. Qed.

Lemma reported_outcome tid r s s' : family_ok s → wait_outcome tid r s s' → step_outcome (reported r) s s'.
Proof.
  intros Hok. destruct r as [[c|e]|]; simpl; [|intros ->; apply shrinks_outcome; [done|apply shrinks_refl]..].
  intros [[-> ->]|(_ & u & l & Hu & Hl & Hc & Hs)]; [apply shrinks_outcome; [done|apply shrinks_refl]|].
  assert (shrinks s s') as Hs' by (eapply shrinks_trans; [apply forget_shrinks|exact Hs]).
  destruct (shrinks_outcome s s' Hok Hs') as (? & ? & ? & _). split_and!; try done; try lia.
  destruct (c =? 0); [by left|]. right. exists c. split_and!; [done|by exists (ut_pid u), l|].
  intros Hw. apply (forget_waiting (ut_pid u) c s l Hok Hl Hc). by eapply shrinks_waiting.
Qed.

Lemma send_shrinks tid sg s u s' : send_to tid sg s = Val (u, s') → shrinks s s'.
Proof. unfold send_to, mbind, outcome_bind. intros E. repeat case_match; try done. injection E as _ <-. by apply shrinks_same. Qed.

Lemma task_step_outcome e s log s' :
  family_ok s → next_id s + 1 < MAX64 → quiet_call e → task_step e s = Val (log, s') → step_outcome log s s'.
Proof.
  intros Hok Hn Hq. destruct e; simpl.
  - intros (-> & a & E)%silent_inv. apply clone_grows in E; [|apply Hok|done].
    split_and!; [by eapply grows_ok|destruct E; lia..|intros c; by apply grows_old|by left].
  - apply silent_outcome; [done|]. unfold clone_finish. intros a s1 [= _ <-]. by apply shrinks_same.
  - destruct (sys_wait4 _ _ _ _ _ s) as [[r s1]|] eqn:E; cbn [mbind outcome_bind]; [|done]. intros [= <- <-].
    eapply reported_outcome; [done|by eapply sys_wait4_outcome].
  - destruct (wait4_poll _ _ _ _ s) as [[r s1]|] eqn:E; cbn [mbind outcome_bind]; [|done]. intros [= <- <-].
    eapply reported_outcome; [done|by eapply wait4_poll_outcome].
  - apply silent_outcome; [done|]. unfold sys_exit, mbind, st_bind. intros a s1.
    destruct (on_task _ _ s) as [[? s2]|] eqn:E; [|done]. intros [= _ <-]. eapply on_task_shrinks, E. apply quiet_thread_exit.
  - apply silent_outcome; [done|]. unfold sys_exit_group, mbind, st_bind. intros a s1.
    destruct (on_task _ _ s) as [[? s2]|] eqn:E; [|done]. intros [= _ <-]. eapply on_task_shrinks, E. apply quiet_exit.
  - apply silent_outcome; [done|]. intros a s1. apply on_task_shrinks, quiet_exit_with_signal.
  - apply silent_outcome; [done|]. unfold sys_setsid. intros a s1. destruct (unwrap _) as [u|]; cbn [mbind outcome_bind]; [|done].
    destruct (_ ≫= _) as [v|]; intros [= _ <-]; [|apply shrinks_refl].
    eapply shrinks_trans; [apply (forget_shrinks (ut_pid v) tid)|by apply shrinks_same].
  - apply silent_outcome; [done|]. unfold sys_kill. intros a s1. destruct (tid2task pid s); intros [= _ <-]; by apply shrinks_same.
  - apply silent_outcome; [done|]. unfold sys_tkill, mbind, outcome_bind. intros a s1 E.
    destruct (threads_of tid s); [|done]. destruct (if _ =? _ then _ else _) as [c|]; [|injection E as _ <-; apply shrinks_refl].
    destruct (send_to c sig s) as [[u s2]|] eqn:Es; [|done]. injection E as _ <-. by eapply send_shrinks.
  - apply silent_outcome; [done|]. unfold sys_tgkill, mbind, outcome_bind. intros a s1 E.
    destruct (unwrap _) as [u|]; [|done]. destruct (threads_of tid s); [|done].
    destruct (if _ && _ then _ else _) as [c|]; [|injection E as _ <-; apply shrinks_refl].
    destruct (send_to c sig s) as [[u' s2]|] eqn:Es; [|done]. injection E as _ <-. by eapply send_shrinks.
  - intros [= <- <-]. apply shrinks_outcome; [done|]. by apply shrinks_same.
  - apply silent_outcome; [done|]. intros a s1. by apply on_task_shrinks.
Qed.

Lemma task_run_outcome es : ∀ s log s',
  family_ok s → next_id s + Z.of_nat (length es) < MAX64 → Forall quiet_call es → task_run es s = Val (log, s') →
  family_ok s' ∧ next_id s ≤ next_id s' ∧ NoDup log ∧
  (∀ c, waiting s' c → c ≤ next_id s → waiting s c) ∧
  ∀ c, c ∈ log → ¬ waiting s' c ∧ c ≤ next_id s' ∧ (c ≤ next_id s → waiting s c).
Proof.
  induction es as [|e es IH]; intros s log s' Hok Hn Hq; cbn [task_run].
  { intros [= <- <-]. split_and!; [done|lia|constructor|done|]. by intros c ?%elem_of_nil. }
  apply Forall_cons in Hq as [Hqe Hq]. unfold mbind, st_bind. cbn [length] in Hn.
  destruct (task_step e s) as [[log1 s1]|] eqn:E; [|done]. destruct (task_run es s1) as [[log2 s2]|] eqn:E2; [|done].
  intros [= <- <-]. destruct (task_step_outcome e s log1 s1) as (Hok1 & Hn1 & Hold1 & Hlog1); [done|lia|done|done|].
  destruct (IH s1 log2 s2) as (Hok2 & Hn2 & Hnd & Hold2 & Hlog2); [done|lia|done|done|].
  assert (∀ c, c ≤ next_id s → waiting s2 c → waiting s c) as Hold by (intros c ? Hw; apply Hold1; [apply Hold2|]; auto with lia).
  split_and!; [done|lia| |auto|].
  - destruct Hlog1 as [->|(c & -> & Hw & Hnw)]; [done|]. simpl. apply NoDup_cons. split; [|done].
    intros Hc. destruct (Hlog2 c Hc) as (_ & _ & Hc2). apply Hnw, Hc2.
    destruct Hw as (pid & l & Hl & Hcl). pose proof (fo_next s Hok pid l c Hl Hcl). lia.
  - intros c [Hc|Hc]%elem_of_app.
    + destruct Hlog1 as [->|(c1 & -> & Hw & Hnw)]; [by apply elem_of_nil in Hc|]. apply list_elem_of_singleton in Hc as ->.
      assert (c1 ≤ next_id s) by (destruct Hw as (pid & l & Hl & Hcl); by apply (fo_next s Hok pid l c1 Hl Hcl)).
      split_and!; [|lia|done]. intros Hw2. apply Hnw, Hold2; [done|lia].
    + destruct (Hlog2 c Hc) as (Hnw & Hle & Hw). split_and!; [done|done|]. intros Hcs. apply Hold1; [|done]. apply Hw. lia.
Qed.

(** C13: A child is waited for at most once: over every history of clones,
    exits, kills, session changes, waits and other calls in any interleaving,
    the children that [wait4] reports are all different, to one parent each,
    were children when the history began or were cloned since, and are nobody's
    children afterwards. *)
Theorem wait_reports_once es s log s' :
  family_ok s → next_id s + Z.of_nat (length es) < MAX64 → Forall quiet_call es → task_run es s = Val (log, s') →
  NoDup log ∧ family_ok s' ∧ ∀ c, c ∈ log → ¬ waiting s' c ∧ (waiting s c ∨ next_id s < c ≤ next_id s').
Proof.
  intros Hok Hn Hq E. destruct (task_run_outcome es s log s' Hok Hn Hq E) as (Hok' & Hle & Hnd & _ & Hlog).
  split_and!; [done|done|]. intros c Hc. destruct (Hlog c Hc) as (Hnw & Hcn & Hw). split; [done|].
  destruct (decide (c ≤ next_id s)); [left; by apply Hw|right; lia].
Qed.

(** ** From exit to [wait4] *)
Inductive ending := Exited (code : Z) | Killed (sig : Z).

Definition end_process (e : ending) : ST (Proc S H) unit :=
  match e with Exited code => exit_ ops code | Killed sig => exit_with_signal ops sig end.

(** What the macros of [wait.h] read from a status word. *)
Definition wait_decode (st : Z) : ending :=
  if Z.land st 0x7f =? 0 then Exited (Z.land (Z.shiftr st 8) 0xff) else Killed (Z.land st 0x7f).

Lemma as_i32_cong x : ∃ k, as_i32 x = x + k * 2 ^ 32.
Proof.
  unfold as_i32. pose proof (Z.div_mod x (2 ^ 32) ltac:(lia)) as E. destruct (x mod 2 ^ 32 <? 2 ^ 31).
  - exists (- (x / 2 ^ 32)). lia.
  - exists (- (x / 2 ^ 32) - 1). lia.
Qed.

Lemma wait_decode_exit code : wait_decode (as_i32 (Z.shiftl (as_i32 code) 8)) = Exited (code mod 256).
Proof.
  destruct (as_i32_cong code) as [j Ej]. destruct (as_i32_cong (Z.shiftl (as_i32 code) 8)) as [k Ek].
  unfold wait_decode. rewrite Ek, Z.shiftl_mul_pow2, Ej, Z.shiftr_div_pow2 by lia.
  change 0x7f with (Z.ones 7). change 0xff with (Z.ones 8). rewrite !Z.land_ones by lia.
  replace ((code + j * 2 ^ 32) * 2 ^ 8 + k * 2 ^ 32) with (((code + j * 2 ^ 32) * 2 + k * 2 ^ 25) * 2 ^ 7) at 1 by lia.
  rewrite Z.mod_mul by lia. simpl (0 =? 0). cbv iota. f_equal.
  replace ((code + j * 2 ^ 32) * 2 ^ 8 + k * 2 ^ 32) with ((code + (j * 2 ^ 24 + k * 2 ^ 16) * 2 ^ 8) * 2 ^ 8) by lia.
  rewrite Z.div_mul by lia. rewrite Z.mod_add by lia. done.
Qed.

Lemma wait_decode_signal sig (core : bool) :
  0 < sig < 0x7f → wait_decode (if core then Z.lor (as_i32 sig) 0x80 else as_i32 sig) = Killed sig.
Proof.
  intros Hs. assert (as_i32 sig = sig) as ->.
  { unfold as_i32. rewrite Z.mod_small by lia. by rewrite (proj2 (Z.ltb_lt sig (2 ^ 31))) by lia. }
  assert (Z.land (if core then Z.lor sig 0x80 else sig) 0x7f = sig) as E.
  { change 0x7f with (Z.ones 7). destruct core; [rewrite Z.land_lor_distr_l; change (Z.land 0x80 (Z.ones 7)) with 0; rewrite Z.lor_0_r|];
      rewrite Z.land_ones, Z.mod_small by lia; done. }
  unfold wait_decode. rewrite E. by rewrite (proj2 (Z.eqb_neq sig 0)) by lia.
Qed.

(** The control block a process ends with. *)
Lemma end_process_spec T p e :
  tid_word_ok T p → p_tid p = p_pid p → other_threads p = [] → mem_ok T p →
  pcb_exit_signal (p_pcb p) = None → match e with Exited _ => True | Killed sig => 0 < sig < 0x7f end →
  ∃ p' code, end_process e p = Val (tt, p') ∧ pcb_exit_code (p_pcb p') = Some code ∧ p_pid p' = p_pid p ∧
    p_parent p' = tcb_add_signal (if tcb_exit_signal (p_tcb p) =? 0 then SIGCHLD else from_num (tcb_exit_signal (p_tcb p)))
                    <$> p_parent p ∧
    wait_decode (wait_status (p_pcb p') code) = match e with Exited code => Exited (code mod 256) | Killed sig => Killed sig end.
Proof.
  intros Hc Ht Ho Hm Hs He. destruct e as [code|sig]; simpl.
  - destruct (exit_last_spec ops T p code Hc Ht Ho Hm) as (p' & E & _ & _ & _ & Hx & _ & Hp & (Hg & _ & Hi & _) & _).
    exists p', code. split_and!; try done. unfold wait_status. rewrite Hg, Hs. apply wait_decode_exit.
  - unfold exit_with_signal. set (p1 := map_pcb _ p).
    assert (p_tcb p1 = p_tcb p ∧ p_tid p1 = p_pid p1 ∧ other_threads p1 = [] ∧ p_parent p1 = p_parent p ∧ p_pid p1 = p_pid p ∧
            pcb_exit_signal (p_pcb p1) = Some sig ∧ mem_ok T p1) as (Et & Ht1 & Ho1 & Hp1 & Hi1 & Hg1 & Hm1).
    { unfold p1, other_threads in *. destruct p as [? ? ? b]; destruct b; destruct Hm; simpl in *. split_and!; try done; by split. }
    destruct (exit_last_spec ops T p1 0) as (p' & E & _ & _ & _ & Hx & _ & Hp & (Hg & _ & Hi & _) & _);
      [by apply (tid_word_same T p)|done..|].
    exists p', 0. rewrite Et, Hp1 in Hp. split_and!; try done.
    unfold wait_status. rewrite Hg, Hg1. by apply wait_decode_signal.
Qed.

(** The process of [c] is a child of the task [q]. *)
Record parent_child (q c : Z) (uq uc : UserTask) (bq : ProcessControlBlock H) (s : Sys) : Prop := {
  pc_parent : sy_tasks s !! q = Some uq;
  pc_pcb : sy_pcbs s !! ut_pid uq = Some bq;
  pc_child : sy_tasks s !! c = Some uc;
  pc_main : ut_pid uc = c;
  pc_weak : ut_parent uc = Some q;
  pc_alive : upgrade s q = Some uq;
  pc_other : ut_pid uq ≠ c;
  pc_word : word64 c;
  pc_in : c ∈ pcb_children bq
}.

(** A [wait4] that has to report [c]: for this child, with any option the call
    knows, or for any child while no other one has ended; without WNOHANG in
    that case, which looks at the first child only. *)
Definition waits_for (c pid options : Z) (bq : ProcessControlBlock H) (s : Sys) : Prop :=
  pid = c ∧ options ∈ [0; 2; 3; 10; WNOHANG] ∨
  pid = -1 ∧ options ∈ [0; 2; 3; 10] ∧
    ∀ x, x ∈ pcb_children bq → x ≠ c → (ut_pid <$> sy_tasks s !! x) ≠ Some c ∧ exit_code_of s x = None.

Lemma exit_code_of_pid (s : Sys) x : exit_code_of s x = (ut_pid <$> sy_tasks s !! x) ≫= λ pid, sy_pcbs s !! pid ≫= pcb_exit_code.
Proof. unfold exit_code_of. by destruct (sy_tasks s !! x). Qed.

Lemma alter_tcb_pid t q (m : gmap Z UserTask) x : ut_pid <$> alter (set_ut_tcb t) q m !! x = ut_pid <$> m !! x.
Proof. destruct (decide (q = x)) as [->|]; [rewrite lookup_alter_eq|by rewrite lookup_alter_ne]. by destruct (m !! x). Qed.

(** Releasing the ended child [c] of [q] and storing its status. *)
Lemma reap_ended q c uq uc bq b code s status f :
  sy_tasks s !! q = Some uq → sy_pcbs s !! ut_pid uq = Some bq → sy_tasks s !! c = Some uc → ut_pid uc = c →
  sy_pcbs s !! c = Some b → ut_pid uq ≠ c → pcb_exit_code b = Some code → f b = code →
  let s2 := set_exec (release_task c (sy_exec s)) (forget_child (ut_pid uq) c s) in
  reap ops q c status f s =
    if status =? 0 then Val (Ok c, s2)
    else '(_, s) ← on_task q (user_store ops (le_bytes 4 (as_u32 (wait_status b code))) status) s2; Val (Ok c, s).
Proof.
  intros Hq Hbq Hc Hm Hb Hne Hx Hf s2. unfold reap, release_sys. rewrite Hq. cbn [unwrap mbind outcome_bind].
  assert (sy_pcbs (forget_child (ut_pid uq) c s) !! c = Some b) as Hb' by (simpl; by rewrite lookup_alter_ne).
  change (sy_tasks (forget_child (ut_pid uq) c s)) with (sy_tasks s). rewrite Hc. cbn [unwrap mbind outcome_bind]. rewrite Hm, Hb'.
  cbn [unwrap mbind outcome_bind]. rewrite bool_decide_eq_true_2 by (rewrite Hx; by eexists). cbn [orb assert_ mbind outcome_bind].
  change (set_exec _ (forget_child (ut_pid uq) c s)) with s2.
  destruct (status =? 0); [done|]. change (sy_tasks s2) with (sy_tasks s). rewrite Hc. cbn [unwrap mbind outcome_bind].
  change (sy_pcbs s2) with (sy_pcbs (forget_child (ut_pid uq) c s)). rewrite Hm, Hb'. cbn [unwrap mbind outcome_bind]. by rewrite Hf.
Qed.

(** [wait4] of [q] for its ended child [c]. *)
Lemma wait4_ended q c uq uc bq b code s pid status options :
  sy_tasks s !! q = Some uq → sy_pcbs s !! ut_pid uq = Some bq → sy_tasks s !! c = Some uc → ut_pid uc = c →
  sy_pcbs s !! c = Some b → ut_pid uq ≠ c → pcb_exit_code b = Some code → word64 c → c ∈ pcb_children bq →
  pid = c ∧ options ∈ [0; 2; 3; 10; WNOHANG] ∨
    pid = -1 ∧ options ∈ [0; 2; 3; 10] ∧ (∀ x, x ∈ pcb_children bq → x ≠ c → exit_code_of s x = None) →
  let s2 := set_exec (release_task c (sy_exec s)) (forget_child (ut_pid uq) c s) in
  sys_wait4 ops q pid status options s =
    if status =? 0 then Val (Ready (Ok c), s2)
    else '(_, s) ← on_task q (user_store ops (le_bytes 4 (as_u32 (wait_status b code))) status) s2; Val (Ready (Ok c), s).
Proof.
  intros Hq Hbq Hc Hm Hb Hne Hx Hw Hin Hpid s2. unfold sys_wait4.
  assert (children_of q s = Val (pcb_children bq)) as Ech.
  { unfold children_of. rewrite Hq. cbn [unwrap mbind outcome_bind]. by rewrite Hbq. }
  assert (as_usize c = c) as Ew by (by apply wrap_small).
  assert (exit_code_of s c = Some code) as Exc.
  { unfold exit_code_of. rewrite Hc. cbn [mbind option_bind]. rewrite Hm, Hb. done. }
  rewrite Ech. cbn [mbind outcome_bind]. rewrite bool_decide_eq_false_2 by (intros E; rewrite E in Hin; by apply elem_of_nil in Hin).
  assert (negb (pid =? -1) && negb (bool_decide (as_usize pid ∈ pcb_children bq)) = false) as ->.
  { destruct Hpid as [[-> _]|[-> _]]; [|done]. rewrite Ew, (bool_decide_eq_true_2 (c ∈ _)), andb_false_r by done. done. }
  case_bool_decide as Ho.
  - unfold wait4_poll, wait_pid_poll. rewrite Ech. cbn [mbind outcome_bind].
    destruct (list_find _ (pcb_children bq)) as [[i x]|] eqn:Ef.
    2: { exfalso. apply list_find_None in Ef. rewrite Forall_forall in Ef. apply (Ef c Hin). rewrite Exc. split; [|by eexists].
         destruct Hpid as [[-> _]|[-> _]]; [by right|by left]. }
    apply list_find_Some in Ef as (Hi & [Hxp Hxe] & _). assert (x = c) as ->.
    { destruct (decide (x = c)) as [|Hxc]; [done|]. exfalso. destruct Hpid as [[-> _]|(-> & _ & Hrun)].
      - destruct Hxp as [->|Hxp]; [by destruct Hw|]. by rewrite Ew in Hxp.
      - rewrite (Hrun x) in Hxe; [by destruct Hxe|by eapply list_elem_of_lookup_2|done]. }
    cbn [mbind outcome_bind]. rewrite (reap_ended q c uq uc bq b code) by (done || by rewrite Hx). fold s2.
    destruct (status =? 0); [done|]. by destruct (on_task _ _ s2) as [[[] s3]|].
  - destruct Hpid as [[-> Hop]|(_ & Hop & _)]; [|done].
    assert (options = WNOHANG) as -> by (unfold WNOHANG in *; set_solver). rewrite Z.eqb_refl.
    unfold wait4_nohang. rewrite Ech. cbn [mbind outcome_bind].
    destruct (list_find _ (pcb_children bq)) as [[i x]|] eqn:Ef.
    2: { exfalso. apply list_find_None in Ef. rewrite Forall_forall in Ef. apply (Ef c Hin). by left. }
    apply list_find_Some in Ef as (_ & Hxp & _). assert (x = c) as ->.
    { destruct Hxp as [->| ->]; [done|]. by destruct Hw. }
    rewrite Exc, (reap_ended q c uq uc bq b code) by done. fold s2.
    destruct (status =? 0); [done|]. by destruct (on_task _ _ s2) as [[[] s3]|].
Qed.

(** C14: From exit to [wait4]: when the main thread of a child process, the only
    one left, exits or is killed, the process ends without panic and signals
    its parent; the parent's [wait4] for this child (with any known option,
    WNOHANG too), or for any child while no other child has ended (without
    WNOHANG), then reports it at once and takes it from the children, and the
    status word it stores at the caller's pointer decodes to the exit code (its
    low byte) or the signal.  The child's memory is anonymous and its
    [clear_child_tid] word, if it has one, can be reached. *)
Theorem exit_wait_roundtrip T q c uq uc bq p e s :
  parent_child q c uq uc bq s → enter c s = Some p →
  tid_word_ok T p → other_threads p = [] → mem_ok T p → pcb_exit_signal (p_pcb p) = None →
  match e with Exited _ => True | Killed sig => 0 < sig < 0x7f end →
  ∃ s1 st s2, on_task c (end_process e) s = Val (tt, s1) ∧
    sy_tasks s1 !! q = Some (set_ut_tcb (tcb_add_signal (if tcb_exit_signal (ut_tcb uc) =? 0 then SIGCHLD
                               else from_num (tcb_exit_signal (ut_tcb uc))) (ut_tcb uq)) uq) ∧
    (∀ pid status options, waits_for c pid options bq s → sys_wait4 ops q pid status options s1 =
       if status =? 0 then Val (Ready (Ok c), s2)
       else '(_, s) ← on_task q (user_store ops (le_bytes 4 (as_u32 st)) status) s2; Val (Ready (Ok c), s)) ∧
    family s2 !! ut_pid uq = Some (filter (λ x, x ≠ c) (pcb_children bq)) ∧
    wait_decode st = match e with Exited code => Exited (code mod 256) | Killed sig => Killed sig end.
Proof.
  intros [Hq Hbq Hc Hm Hwk Hal Hne Hw Hin] He Hct Ho Hmem Hs Hv.
  assert (p_tcb p = ut_tcb uc ∧ p_tid p = c ∧ p_pid p = c ∧ p_parent p = Some (ut_tcb uq)) as (Etcb & Etid & Epid & Epar).
  { unfold enter in He. rewrite Hc in He. cbn [mbind option_bind] in He. destruct (sy_pcbs s !! ut_pid uc); [|done].
    cbn [mbind option_bind] in He. injection He as <-. simpl. unfold parent_tcb. rewrite Hwk. cbn [mbind option_bind]. by rewrite Hal. }
  destruct (end_process_spec T p e) as (p' & code & E & Hx & Hi & Hpar & Hd); [done|congruence|done..|].
  set (s1 := commit c p' s). assert (c ≠ q) as Hcq by congruence.
  assert (sy_tasks s1 = alter (set_ut_tcb (tcb_add_signal (if tcb_exit_signal (ut_tcb uc) =? 0 then SIGCHLD
            else from_num (tcb_exit_signal (ut_tcb uc))) (ut_tcb uq))) q (alter (set_ut_tcb (p_tcb p')) c (sy_tasks s))) as Ets.
  { unfold s1, commit. simpl. rewrite Hc. cbn [mbind option_bind]. rewrite Hwk, Hpar, Epar, Etcb. done. }
  assert (sy_pcbs s1 = <[c := p_pcb p']> (sy_pcbs s)) as Eps by (unfold s1, commit; simpl; by rewrite Hi, Epid).
  exists s1, (wait_status (p_pcb p') code), (set_exec (release_task c (sy_exec s1)) (forget_child (ut_pid uq) c s1)). split_and!.
  - unfold on_task. rewrite He. cbn [unwrap mbind outcome_bind]. by rewrite E.
  - rewrite Ets, lookup_alter_eq, lookup_alter_ne, Hq by done. done.
  - intros pid status options Hpid.
    eapply (wait4_ended q c (set_ut_tcb _ uq) (set_ut_tcb (p_tcb p') uc) bq (p_pcb p') code s1 pid status options); try done.
    + by rewrite Ets, lookup_alter_eq, lookup_alter_ne, Hq by done.
    + by rewrite Eps, lookup_insert_ne by done.
    + by rewrite Ets, lookup_alter_ne, lookup_alter_eq, Hc by done.
    + by rewrite Eps, lookup_insert_eq.
    + destruct Hpid as [?|(? & ? & Hrun)]; [by left|right]. split_and!; [done|done|].
      intros x Hxin Hxc. destruct (Hrun x Hxin Hxc) as [Hp Hnone]. rewrite exit_code_of_pid in *. rewrite Ets, Eps, !alter_tcb_pid.
      destruct (ut_pid <$> sy_tasks s !! x) as [pid'|]; [|done]. cbn [mbind option_bind] in *.
      rewrite lookup_insert_ne by congruence. done.
  - unfold family, forget_child. cbn [sy_pcbs set_pcbs set_exec]. rewrite Eps, lookup_fmap, lookup_alter_eq, lookup_insert_ne, Hbq by done.
    simpl. f_equal. by destruct bq.
  - done.
Qed.

(** ** Calls that surprise their callers *)
(** [wait4] with WNOHANG for any child looks at the first child only: while
    that one runs the call answers 0, although another child has ended and the
    blocking [wait4] would report it. *)
Theorem wnohang_looks_at_first_child q c l c2 s status :
  children_of q s = Val (c :: l) → exit_code_of s c = None → c2 ∈ l → is_Some (exit_code_of s c2) →
  sys_wait4 ops q (-1) status WNOHANG s = Val (Ready (Ok 0), s) ∧
  ∃ c', wait_pid_poll q (-1) s = Val (Ready c') ∧ is_Some (exit_code_of s c').
Proof.
  intros Hch Hc Hin Hx. split.
  - unfold sys_wait4. rewrite Hch. cbn [mbind outcome_bind]. rewrite bool_decide_eq_false_2 by done. cbn [andb negb Z.eqb Pos.eqb].
    rewrite bool_decide_eq_false_2 by (unfold WNOHANG; set_solver by lia). change (WNOHANG =? WNOHANG) with true. cbv iota.
    unfold wait4_nohang. rewrite Hch. cbn [mbind outcome_bind list_find]. rewrite decide_True by (by right). cbn. by rewrite Hc.
  - unfold wait_pid_poll. rewrite Hch. cbn [mbind outcome_bind].
    destruct (list_find _ (c :: l)) as [[i c']|] eqn:Ef.
    + apply list_find_Some in Ef as (_ & [_ ?] & _). eauto.
    + exfalso. apply list_find_None in Ef. rewrite Forall_forall in Ef. apply (Ef c2); [set_solver|]. split; [by left|done].
Qed.

(** [exit_group] while other threads live, or from a thread that is not the
    main one, records the exit code, so every thread leaves at its next check,
    but the process keeps its memory, descriptors and children and the parent
    is never signalled: no later step of the leaving threads does it. *)
Theorem exit_group_not_last p code :
  tcb_clear_child_tid (p_tcb p) = 0 → p_tid p ≠ p_pid p ∨ other_threads p ≠ [] →
  ∃ p', exit_ ops code p = Val (tt, p') ∧ p_parent p' = p_parent p ∧
    p_pcb p' = with_threads (other_threads p) (with_exit_code (Some code) (p_pcb p)) ∧
    ∀ tid t, check_thread_exit (switch_thread tid t p') = Some code.
Proof.
  intros Hc Hn. unfold exit_. rewrite notify_exit_none by done. cbn [mbind outcome_bind]. unfold leave.
  assert ((p_tid p =? p_pid p) && bool_decide (other_threads p = []) = false) as Hb.
  { destruct Hn as [Hn|Hn]; [by rewrite (proj2 (Z.eqb_neq _ _) Hn)|]. rewrite bool_decide_eq_false_2 by done. apply andb_false_r. }
  unfold other_threads in *. destruct p as [w m f b t i j par kn]; destruct b. simpl in *. rewrite Hb.
  eexists. split; [done|]. done.
Qed.

(** What a load of task [tid] at [u] reads. *)
Definition task_load (tid : Z) (s : Sys) (u : Z) : option Z :=
  t ← sy_tasks s !! tid; load (w_phys (sy_world s)) (ut_root t) u.

(** Stores of one process, seen by all. *)
Lemma parent_stores K bs : ∀ T1 v (p : Proc S H),
  spaces_inv (mkSpace T1 (w_root (p_world p)) (pcb_memset (p_pcb p)) :: K) (w_phys (p_world p)) (w_rc (p_world p)) →
  0 ≤ v → v + Z.of_nat (length bs) < MAX64 →
  (∀ u, v ≤ u < v + Z.of_nat (length bs) → user_addr u ∧ floor_page u = floor_page v) →
  floor_page v ∈ vaddrs (pcb_memset (p_pcb p)) →
  (user_frame v p = None → 3 ≤ size (fa_free (ph_alloc (w_phys (p_world p)))))%nat →
  ∃ p', user_store ops bs v p = Val (tt, p') ∧ p_pid p' = p_pid p ∧
    (∀ s u, s ∈ K → user_addr u → floor_page u ∈ vaddrs (sp_areas s) →
      load (w_phys (p_world p')) (sp_root s) u = load (w_phys (p_world p)) (sp_root s) u) ∧
    ∀ u, user_addr u → floor_page u ∈ vaddrs (pcb_memset (p_pcb p)) →
      load (w_phys (p_world p')) (w_root (p_world p)) u =
        if bool_decide (v ≤ u < v + Z.of_nat (length bs)) then bs !! Z.to_nat (u - v)
        else load (w_phys (p_world p)) (w_root (p_world p)) u.
Proof.
  induction bs as [|b bs IH]; intros T1 v p Hti H0 Hv Hu Hfv Hf.
  { exists p. split_and!; [done..|]. intros u _ _. rewrite bool_decide_eq_false_2; [done|]. simpl. lia. }
  cbn [length] in *. destruct (Hu v) as [Hu1 _]; [lia|].
  destruct (store_isolated ops T1 K p v b) as (T1' & p1 & E1 & Hti1 & Hva1 & Hr1 & Hp1 & _ & _ & _ & _ & Hwr & Hl1 & Hl2); [done..|].
  destruct (decide (bs = [])) as [->|Hne0].
  { exists p1. cbn [user_store]. unfold mbind, st_bind. rewrite E1. split; [done|]. split; [rewrite Hp1; done|]. split; [done|].
    intros u Huu Huf. rewrite Hl1 by done. simpl.
    repeat case_bool_decide; try lia; [|done]. subst u. by rewrite Z.sub_diag. }
  assert (0 < length bs)%nat by (destruct bs; [done|simpl; lia]).
  destruct (Hu (v + 1)) as [Hu2 Hu3]; [lia|].
  destruct (IH T1' (v +w 1) p1) as (p' & E & Hpid & Hlo & Hl); [done|no_wrap; lia..| | | |].
  { no_wrap. intros u Hu'. rewrite Hu3. apply Hu. lia. }
  { no_wrap. by rewrite Hu3, Hva1. }
  { no_wrap. intros Hnone. destruct (Hwr (v + 1) Hu2 Hu3) as [f Ef]. congruence. }
  exists p'. cbn [user_store]. unfold mbind, st_bind. rewrite E1. split; [exact E|]. split; [rewrite Hpid, Hp1; done|].
  split; [intros s u Hs Huu Huf; rewrite Hlo, Hl2; done|].
  rewrite Hva1, Hr1 in Hl. revert Hl. no_wrap. intros Hl u Huu Huf. rewrite (Hl u Huu Huf).
  rewrite Hl1 by done. destruct (decide (u = v)) as [->|Hne].
  - rewrite bool_decide_eq_false_2, !bool_decide_eq_true_2, Z.sub_diag by lia. done.
  - rewrite (bool_decide_eq_false_2 (u = v)) by done. destruct (decide (v + 1 ≤ u < v + 1 + Z.of_nat (length bs))).
    + rewrite !bool_decide_eq_true_2 by lia. replace (Z.to_nat (u - v)) with (Datatypes.S (Z.to_nat (u - (v + 1)))) by lia. done.
    + rewrite !bool_decide_eq_false_2 by lia. done.
Qed.

(** A task after a commit: same page table and process. *)
Lemma commit_task tid (p : Proc S H) s t u :
  sy_tasks s !! t = Some u →
  ∃ u', sy_tasks (commit tid p s) !! t = Some u' ∧ ut_root u' = ut_root u ∧ ut_pid u' = ut_pid u.
Proof.
  intros Hu.
  assert (∀ tcb k (m : gmap Z UserTask) v, m !! t = Some v →
            ∃ v', alter (set_ut_tcb tcb) k m !! t = Some v' ∧ ut_root v' = ut_root v ∧ ut_pid v' = ut_pid v) as Halt.
  { intros tcb k m v Hv. destruct (decide (k = t)) as [->|]; [rewrite lookup_alter_eq|rewrite lookup_alter_ne by done]; rewrite Hv; eauto. }
  unfold commit. simpl. destruct (Halt (p_tcb p) tid _ u Hu) as (u1 & H1 & Er1 & Ep1).
  destruct (sy_tasks s !! tid ≫= ut_parent) as [q|]; [|eauto]. destruct (p_parent p) as [tp|]; [|eauto].
  destruct (Halt tp q _ u1 H1) as (u2 & H2 & Er2 & Ep2). exists u2. split_and!; [done|congruence..].
Qed.

Lemma enter_inv tid (s : Sys) p :
  enter tid s = Some p →
  ∃ u b, sy_tasks s !! tid = Some u ∧ sy_pcbs s !! ut_pid u = Some b ∧ p_world p = with_root (ut_root u) (sy_world s) ∧
    p_pid p = ut_pid u ∧ pcb_memset (p_pcb p) = pcb_memset b.
Proof.
  unfold enter. destruct (sy_tasks s !! tid) as [u|]; [|done]. cbn [mbind option_bind].
  destruct (sy_pcbs s !! ut_pid u) as [b|] eqn:Eb; [|done]. cbn [mbind option_bind]. intros [= <-].
  exists u, b. split_and!; try done. by destruct b.
Qed.

Lemma enter_some tid (s : Sys) u b :
  sy_tasks s !! tid = Some u → sy_pcbs s !! ut_pid u = Some b → ∃ p, enter tid s = Some p.
Proof. intros Hu Hb. unfold enter. rewrite Hu. cbn [mbind option_bind]. rewrite Hb. eauto. Qed.

Lemma existsb_pointwise {A} (f g : A → bool) l : (∀ x, f x = g x) → existsb f l = existsb g l.
Proof. intros E. induction l as [|x l IH]; [done|]. simpl. by rewrite E, IH. Qed.

(** Only the queue and the cores of the executor matter. *)
Lemma alive_exec e (s : Sys) n : ∀ t, ex_queue e = ex_queue (sy_exec s) → ex_cores e = ex_cores (sy_exec s) →
  alive n (set_exec e s) t = alive n s t.
Proof.
  induction n as [|n IH]; intros t Eq Ec; cbn [alive]; unfold task_held; cbn [sy_exec set_exec sy_calls]; rewrite Eq, Ec; [done|].
  f_equal. apply existsb_pointwise. intros x. f_equal. apply existsb_pointwise. intros y. by rewrite IH.
Qed.

Lemma enter_exec e (s : Sys) tid : ex_queue e = ex_queue (sy_exec s) → ex_cores e = ex_cores (sy_exec s) →
  enter tid (set_exec e s) = enter tid s.
Proof.
  intros Eq Ec. unfold enter, parent_tcb. cbn [sy_tasks sy_pcbs sy_world sy_mounted sy_files sy_kern set_exec].
  assert (∀ t, upgrade (set_exec e s) t = upgrade s t) as Hup by (intros t; unfold upgrade; simpl; by rewrite alive_exec).
  destruct (sy_tasks s !! tid) as [u|]; [|done]. cbn [mbind option_bind]. destruct (sy_pcbs s !! ut_pid u) as [b|]; [|done].
  cbn [mbind option_bind]. do 2 f_equal.
  - f_equal. apply list_fmap_ext. intros i x _. by rewrite Hup.
  - destruct (ut_parent u) as [v|]; [|done]. cbn [mbind option_bind]. by rewrite Hup.
Qed.

(** The flags of [fork] in the GNU C library, less the clearing of the word. *)
Definition FORK_SETTID : Z := 0x01000011.

(** [clone] with CLONE_CHILD_SETTID on a fork stores the child's id in the
    parent's memory: the parent then reads the id of its child at [ctid], and
    the child reads there what the parent had before. *)
Theorem clone_settid_in_parent T K tid p fs' s ctid :
  enter tid s = Some p → fork_ready ops T K p fs' → 0 ≤ next_id s → next_id s + 1 < MAX64 →
  tid ≤ next_id s → p_pid p ≤ next_id s → 0 < ctid → ctid + 4 < MAX64 →
  (∀ u, ctid ≤ u < ctid + 4 → user_addr u ∧ floor_page u = floor_page ctid) → floor_page ctid ∈ vaddrs (pcb_memset (p_pcb p)) →
  (4 * length (trackers_of (pcb_memset (p_pcb p))) + 3 < size (fa_free (ph_alloc (w_phys (p_world p)))))%nat →
  let id := next_id s + 1 in
  ∃ s', clone_start ops tid FORK_SETTID 0 0 0 ctid s = Val (id, s') ∧
    ∀ i, (i < 4)%nat →
      task_load tid s' (ctid + Z.of_nat i) = le_bytes 4 (as_u32 id) !! i ∧
      task_load id s' (ctid + Z.of_nat i) = task_load tid s (ctid + Z.of_nat i).
Proof.
  intros He Hr H0 Hn Htid Hpid Hc0 Hc4 Hpg Hcp Hfree id.
  destruct (enter_inv _ _ _ He) as (u & b & Hu & Hb & Hw & Epid & _).
  destruct (cow_fork_spec ops T K p fs' id Hr)
    as (c & p' & T1 & T2 & E & [Hti _ Hroot _ Hpcb _ _ Hm2 _ _ _ _ _ _ Hld _ Hs]).
  assert (pcb_memset (p_pcb p') = pcb_memset (p_pcb p)) as Hm1 by (rewrite Hpcb; by destruct (p_pcb p)).
  pose proof (cow_fork_family _ _ _ _ E) as (Ep & _ & Ecp & _).
  unfold clone_start, task_id_alloc. change (ex_next (sy_exec s)) with (next_id s). rewrite (wadd_small (next_id s) 1) by word_lia.
  fold id. set (s0 := set_exec _ s). change (contains (clone_flags FORK_SETTID) CLONE_THREAD) with false.
  assert (enter tid s0 = Some p) as He0 by (unfold s0; by rewrite enter_exec).
  unfold clone_new. change (sy_tasks s0 !! tid) with (sy_tasks s !! tid). rewrite Hu. cbn [unwrap mbind outcome_bind].
  assert (on_task tid (cow_fork ops id) s0 = Val (c, commit tid p' s0)) as ->.
  { unfold on_task. rewrite He0. cbn [unwrap mbind outcome_bind]. by rewrite E. }
  cbn [mbind outcome_bind ut_pid ut_tcb].
  change (contains (clone_flags FORK_SETTID) CLONE_PARENT_SETTID) with false.
  change (contains (clone_flags FORK_SETTID) CLONE_CHILD_SETTID) with true.
  rewrite (proj2 (Z.eqb_neq ctid 0)) by lia. cbn [negb andb mbind outcome_bind].
  match goal with |- context [on_task tid (user_store ops _ _) ?x] => set (s2 := x) end.
  assert (∃ u2, sy_tasks s2 !! tid = Some u2 ∧ ut_root u2 = ut_root u ∧ ut_pid u2 = ut_pid u) as (u2 & Hu2 & Er2 & Ep2).
  { unfold s2. simpl. rewrite lookup_insert_ne by (unfold id; lia). by apply (commit_task tid p' s0 tid u). }
  assert (sy_pcbs s2 !! ut_pid u2 = Some (p_pcb p')) as Hb2.
  { unfold s2. simpl. rewrite Ecp, lookup_insert_ne by (unfold id; rewrite Ep2; lia). rewrite Ep, Epid, Ep2. apply lookup_insert_eq. }
  destruct (enter_some _ _ _ _ Hu2 Hb2) as [q Hq]. destruct (enter_inv _ _ _ Hq) as (u3 & b3 & Hu3 & Hb3 & Hqw & Eqp & Hqm).
  rewrite Hu2 in Hu3. injection Hu3 as <-. rewrite Hb2 in Hb3. injection Hb3 as <-.
  assert (p_world q = p_world p') as Eqw.
  { rewrite Hqw, Er2. unfold s2. simpl. unfold with_root. rewrite Hw in Hroot. simpl in Hroot. rewrite <- Hroot. by destruct (p_world p'). }
  destruct (parent_stores (mkSpace T2 (tk_root c) (pcb_memset (tk_pcb c)) :: K) (le_bytes 4 (as_u32 id)) T1 ctid q) as (q' & Es & Eqp' & Hlo & Hl).
  { rewrite Eqw, Hqm, Hroot, Hm1, Hm2. exact Hti. }
  { lia. }
  { rewrite length_le_bytes. lia. }
  { rewrite length_le_bytes. exact Hpg. }
  { by rewrite Hqm, Hm1. }
  { intros _. rewrite Eqw. lia. }
  rewrite Eqw in Hlo. rewrite Eqw, Hqm, Hm1, length_le_bytes in Hl.
  unfold on_task. rewrite Hq. cbn [unwrap mbind outcome_bind]. rewrite Es. cbn [mbind outcome_bind].
  eexists. split; [reflexivity|]. intros i Hi. destruct (Hpg (ctid + Z.of_nat i)) as [Hu1 Hu2']; [lia|]. rewrite <- Hu2' in Hcp. clear Hu2'.
  pose proof (Hl _ Hu1 Hcp) as Hlp. destruct (Hld _ Hu1 Hcp) as [_ Hldc].
  pose proof (Hlo (mkSpace T2 (tk_root c) (pcb_memset (tk_pcb c))) _ (list_elem_of_here _ _) Hu1 ltac:(simpl; by rewrite Hm2)) as Hlc. simpl in Hlc.
  assert (sy_tasks s2 !! id = Some (set_ut_tcb (clone_tcb (clone_flags FORK_SETTID) (Z.land FORK_SETTID 255) 0 0 ctid (tk_tcb c))
            (mkUserTask (tk_root c) (tk_pid c) (Some tid) (tk_tcb c)))) as Hid2 by (unfold s2; simpl; apply lookup_insert_eq).
  destruct (commit_task tid q' s2 tid u2 Hu2) as (v1 & Hv1 & Hvr1 & _). destruct (commit_task tid q' s2 id _ Hid2) as (v2 & Hv2 & Hvr2 & _).
  unfold task_load. rewrite Hv1, Hv2, Hu. cbn [mbind option_bind]. rewrite Hvr1, Hvr2, Er2. cbn [ut_root set_ut_tcb].
  change (sy_world (commit tid q' s2)) with (p_world q'). rewrite Hlc, Hldc. rewrite Hw in *. cbn [with_root w_root w_phys] in *.
  split; [|done]. rewrite Hroot in Hlp. rewrite Hlp, bool_decide_eq_true_2 by lia. f_equal. lia.
Qed.
End tasks.

(** ** A concrete system: process 1 with the children 2 and 3 *)
Definition fam_pcb (children : list Z) (tid : Z) (code : option Z) : ProcessControlBlock unit :=
  with_exit_code code (with_children children (with_memset [] (demo_pcb [(tid, true)]))).

Definition fam_sys (w : World unit) (code3 : option Z) : Sys (S := unit) (H := unit) :=
  mkSys w [] {[ 7 := new_dev tt ]} kern_new
    {[ 1 := fam_pcb [2; 3] 1 None; 2 := fam_pcb [] 2 None; 3 := fam_pcb [] 3 code3 ]}
    {[ 1 := mkUserTask 0x80000000 1 None demo_tcb0; 2 := mkUserTask 0x80000000 2 (Some 1) demo_tcb0;
       3 := mkUserTask 0x80000000 3 (Some 1) demo_tcb0 ]}
    (mkExec [(1, tt); (2, tt); (3, tt)] {[ 1; 2; 3 ]} 3 [None]) [].

Definition no_world : World unit := mkWorld (mkPhys [] ∅) ∅ 0 tt.

Lemma fam_family w code3 : family (fam_sys w code3) = {[ 1 := [2; 3]; 2 := []; 3 := [] ]}.
Proof. reflexivity. Qed.

Lemma fam_ok w code3 : family_ok (fam_sys w code3).
Proof.
  assert (∀ pid l, family (fam_sys w code3) !! pid = Some l → l = [] ∨ pid = 1 ∧ l = [2; 3]) as Hf.
  { intros pid l. rewrite fam_family. intros Hl. repeat (apply lookup_insert_Some in Hl as [[<- <-]|[_ Hl]]; [auto|]).
    apply lookup_singleton_Some in Hl as [<- <-]. auto. }
  split.
  - intros pid l [->|[_ ->]]%Hf; [constructor|]. by apply (bool_decide_unpack _).
  - intros pid pid' l l' c [->|[-> ->]]%Hf [->|[-> ->]]%Hf Hc Hc'; [by apply elem_of_nil in Hc..|by apply elem_of_nil in Hc'|done].
  - intros pid l c [->|[-> ->]]%Hf Hc; [by apply elem_of_nil in Hc|]. unfold next_id. simpl.
    rewrite elem_of_cons, list_elem_of_singleton in Hc. lia.
  - done.
Qed.

(** Two exits and three waits: each child is reported once. *)
Lemma wait_reports_once_witness :
  ∃ s', task_run demo_ops [TExitGroup 3 7; TWait 1 (-1) 0 0; TKilled 2 9; TWait 1 (-1) 0 0; TWait 1 (-1) 0 0] (fam_sys no_world None)
        = Val ([3; 2], s') ∧ NoDup [3; 2] ∧ ¬ waiting s' 3.
Proof.
  destruct (task_run demo_ops [TExitGroup 3 7; TWait 1 (-1) 0 0; TKilled 2 9; TWait 1 (-1) 0 0; TWait 1 (-1) 0 0] (fam_sys no_world None))
    as [[log s']|] eqn:E; [|exfalso; vm_compute in E; discriminate].
  assert (log = [3; 2]) as ->.
  { apply (f_equal (λ o, match o with Val (l, _) => l | _ => [] end)) in E. vm_compute in E. congruence. }
  destruct (wait_reports_once demo_ops [TExitGroup 3 7; TWait 1 (-1) 0 0; TKilled 2 9; TWait 1 (-1) 0 0; TWait 1 (-1) 0 0]
    (fam_sys no_world None) [3; 2] s') as (Hnd & _ & Hw);
    [apply fam_ok|vm_compute; reflexivity|repeat constructor|exact E|].
  exists s'. split; [done|]. split; [exact Hnd|]. apply (Hw 3). apply list_elem_of_here.
Defined.

(** The parent has the pages of [demo_area], where the status goes. *)
Definition fam_demo : Sys (S := unit) (H := unit) :=
  mkSys demo_world [] {[ 7 := new_dev tt ]} kern_new
    {[ 1 := with_memset [demo_area] (fam_pcb [2; 3] 1 None); 2 := fam_pcb [] 2 None; 3 := fam_pcb [] 3 None ]}
    {[ 1 := mkUserTask 0x80000000 1 None demo_tcb0; 2 := mkUserTask 0x80000000 2 (Some 1) demo_tcb0;
       3 := mkUserTask 0x80000000 3 (Some 1) demo_tcb0 ]}
    (mkExec [(1, tt); (2, tt); (3, tt)] {[ 1; 2; 3 ]} 3 [None]) [].

(** Child 2 ends, and the parent reads the status [259 << 8] at [0x10004]. *)
Definition fam_waited : outcome (Sys (S := unit) (H := unit) * Sys (S := unit) (H := unit) * list (option Z)) :=
  '(_, s1) ← on_task 2 (end_process demo_ops (Exited 259)) fam_demo;
  '(_, s3) ← sys_wait4 demo_ops 1 (-1) 0x10004 0 s1;
  Val (s1, s3, task_load 1 s3 <$> [0x10004; 0x10005; 0x10006; 0x10007]).

Lemma exit_wait_roundtrip_witness :
  ∃ s1 st s2 s3, on_task 2 (end_process demo_ops (Exited 259)) fam_demo = Val (tt, s1) ∧
    sys_wait4 demo_ops 1 (-1) 0x10004 0 s1 =
      ('(_, s) ← on_task 1 (user_store demo_ops (le_bytes 4 (as_u32 st)) 0x10004) s2; Val (Ready (Ok 2), s)) ∧
    sys_wait4 demo_ops 1 (-1) 0x10004 0 s1 = Val (Ready (Ok 2), s3) ∧
    task_load 1 s3 <$> [0x10004; 0x10005; 0x10006; 0x10007] = [Some 0; Some 3; Some 1; Some 0] ∧
    wait_decode st = Exited 3.
Proof.
  destruct demo_world_ok as [[T HT] _].
  destruct (enter 2 fam_demo) as [p|] eqn:Ev; [|discriminate].
  destruct (exit_wait_roundtrip demo_ops T 1 2 (mkUserTask 0x80000000 1 None demo_tcb0)
    (mkUserTask 0x80000000 2 (Some 1) demo_tcb0) (with_memset [demo_area] (fam_pcb [2; 3] 1 None)) p
    (Exited 259) fam_demo) as (s1 & st & s2 & E & _ & Hw & _ & Hd).
  - split; try reflexivity; [discriminate|split; [discriminate|reflexivity]|apply list_elem_of_here].
  - exact Ev.
  - injection Ev as <-. left. reflexivity.
  - injection Ev as <-. reflexivity.
  - injection Ev as <-. split; [constructor|exact HT|]. intros q. exact (Nat.le_0_l _).
  - injection Ev as <-. reflexivity.
  - exact I.
  - assert (waits_for 2 (-1) 0 (with_memset [demo_area] (fam_pcb [2; 3] 1 None)) fam_demo) as Hc.
    { right. split; [reflexivity|]. split; [apply list_elem_of_here|]. intros x Hx Hne. simpl in Hx.
      rewrite elem_of_cons, list_elem_of_singleton in Hx. destruct Hx as [->| ->]; [done|]. split; [discriminate|reflexivity]. }
    pose proof (Hw (-1) 0x10004 0 Hc) as Hs. change (0x10004 =? 0) with false in Hs. cbv iota in Hs. clear Hw Hc Ev HT.
    assert (match fam_waited with Val (_, _, l) => l | Panic => [] end = [Some 0; Some 3; Some 1; Some 0]) as Hl
      by (vm_compute; reflexivity).
    unfold fam_waited in Hl. rewrite E in Hl. cbn [mbind outcome_bind] in Hl.
    exists s1, st, s2. destruct (sys_wait4 demo_ops 1 (-1) 0x10004 0 s1) as [[r s3]|] eqn:Ew; [|discriminate].
    exists s3. split; [exact E|]. split; [exact Hs|]. split; [|split; [exact Hl|exact Hd]].
    destruct (on_task 1 _ s2) as [[[] s4]|]; [|discriminate]. cbn [mbind outcome_bind] in Hs. congruence.
Defined.

Lemma wnohang_looks_at_first_child_witness :
  sys_wait4 demo_ops 1 (-1) 0 WNOHANG (fam_sys no_world (Some 5)) = Val (Ready (Ok 0), fam_sys no_world (Some 5)).
Proof.
  apply (wnohang_looks_at_first_child demo_ops 1 2 [3] 3 (fam_sys no_world (Some 5)) 0);
    [reflexivity|reflexivity|set_solver|by eexists].
Defined.

Lemma exit_group_not_last_witness :
  ∃ p', exit_ demo_ops 4 (demo_proc [(1, true); (2, true)]) = Val (tt, p') ∧ p_parent p' = Some demo_tcb0.
Proof.
  destruct (exit_group_not_last demo_ops (demo_proc [(1, true); (2, true)]) 4) as (p' & E & Hp & _); [reflexivity|by right|].
  exists p'. split; [exact E|exact Hp].
Defined.

(** The process of the concrete fork, as task 1. *)
Definition one_sys : Sys (S := unit) (H := unit) :=
  mkSys one_world [(pb_new, tt)] {[ 7 := new_dev tt ]} kern_new
    {[ 1 := with_memset [one_area] (demo_pcb [(1, true)]) ]} {[ 1 := mkUserTask 0x80000000 1 None demo_tcb0 ]}
    (mkExec [(1, tt)] {[ 1 ]} 1 [None]) [].

#[local] Opaque one_world.
Lemma one_view : enter 1 one_sys = Some one_proc.
Proof.
  assert (with_root 0x80000000 one_world = one_world) as E by (rewrite <- one_root; by destruct one_world).
  unfold enter. change (sy_tasks one_sys !! 1) with (Some (mkUserTask 0x80000000 1 None demo_tcb0)). cbn [mbind option_bind ut_pid ut_root sy_world one_sys].
  rewrite E. reflexivity.
Qed.

Lemma clone_settid_in_parent_witness :
  ∃ s', clone_start any_ops 1 FORK_SETTID 0 0 0 0x10004 one_sys = Val (2, s') ∧ task_load 1 s' 0x10004 = Some 2.
Proof.
  destruct one_fork_ready as [T HT]. destruct one_world_ok as (T0 & Hw & _).
  pose proof one_free as Hfree. unfold get_free_pages in Hfree. rewrite fa_count_free in Hfree by apply Hw.
  destruct (clone_settid_in_parent any_ops T [] 1 one_proc tt one_sys 0x10004) as (s' & E & Hl);
    [exact one_view|exact HT|done|done|done|done|done|done| | |simpl; lia|].
  - intros u Hu. split; [split; lia|]. unfold floor_page, PAGE_SIZE. f_equal. change (0x10004 / 4096) with 16.
    symmetry. apply (Z.div_unique_pos _ _ _ (u - 0x10000)); lia.
  - apply list_elem_of_singleton. reflexivity.
  - exists s'. split; [exact E|]. exact (proj1 (Hl 0%nat ltac:(lia))).
Defined.

