(* ===== verification/Isolation.v ===== *)
(** * Processes and their memory

    Any number of processes in one physical memory, storing, forking and
    ending in any order, refine processes with a memory each: the frame
    allocator, the reference counts, the page tables, copy on write and the
    executor's tables do not let one see the stores of another, and frames
    that go back to the allocator and out again carry nothing over. *)

From S2P Require Import Prelude Bytes Frame PageTable Signal Path Vfs File Time Executor MemSet Process Mm Shm Fork Fd Tasks.
Local Open Scope Z_scope.

(** ** Giving up the frames of a process *)
Section drops.
Context {S H : Type} (ops : INodeOps S H).

(** The references of [l] are gone, frames without a reference are free, and
    nothing else in memory is different. *)
Record drops (l : list MapTrack) (w w' : World S) : Prop := {
  dr_root : w_root w' = w_root w;
  dr_fs : w_fs w' = w_fs w;
  dr_all : fa_all (ph_alloc (w_phys w')) = fa_all (ph_alloc (w_phys w));
  dr_count : ∀ q, strong_count q w' = (strong_count q w - refs l q)%nat;
  dr_ram : ∀ q, (strong_count q w = 0 ∨ 0 < strong_count q w')%nat → ph_ram (w_phys w') !! q = ph_ram (w_phys w) !! q;
  dr_free : ∀ q, q ∈ fa_free (ph_alloc (w_phys w')) → q ∈ fa_free (ph_alloc (w_phys w)) ∨ (0 < strong_count q w)%nat;
  dr_more : fa_free (ph_alloc (w_phys w)) ⊆ fa_free (ph_alloc (w_phys w'))
}.

Lemma drops_refl w : drops [] w w.
Proof. split; try done; [intros q; unfold refs; simpl; lia|by left]. Qed.

Lemma drops_app l k w w1 w2 : drops l w w1 → drops k w1 w2 → drops (l ++ k) w w2.
Proof.
  intros [? ? ? Hc1 Hr1 Hf1 Hm1] [? ? ? Hc2 Hr2 Hf2 Hm2]. split; [congruence..| | | |by etrans].
  - intros q. rewrite Hc2, Hc1, refs_app. lia.
  - intros q Hq. pose proof (Hc1 q). pose proof (Hc2 q). rewrite Hr2, Hr1 by lia. done.
  - intros q [Hq|Hq]%Hf2; [by apply Hf1|]. pose proof (Hc1 q). right. lia.
Qed.

Lemma arc_drop_drops T x w :
  world_ok T w → (0 < strong_count (mt_tracker x) w)%nat →
  ∃ w', arc_drop (mt_tracker x) w = Val (tt, w') ∧ world_ok T w' ∧ drops [x] w w'.
Proof.
  intros Hw Hc. destruct (arc_drop_spec T _ w Hw Hc) as (w' & E & Hw' & Er & Ef & _ & Hcnt & Hsub & _).
  exists w'. split; [done|]. split; [done|]. unfold arc_drop in E.
  assert (∀ q, refs [x] q = if bool_decide (mt_tracker x = q) then 1%nat else 0%nat) as Hrefs.
  { intros q. rewrite refs_cons. unfold refs at 1. simpl. lia. }
  assert (∀ q, strong_count q w' = (strong_count q w - refs [x] q)%nat) as Hcnt' by (intros q; by rewrite Hcnt, Hrefs).
  assert ((w_phys w' = w_phys w ∧ (1 < strong_count (mt_tracker x) w)%nat) ∨
          ∃ ph', tracker_drop (mt_tracker x) (w_phys w) = Val ph' ∧ w_phys w' = ph' ∧ strong_count (mt_tracker x) w = 1%nat) as Hcase.
  { unfold strong_count in *. destruct (w_rc w !! mt_tracker x) as [[|[|n]]|] eqn:En; simpl in Hc; try lia.
    - right. destruct (tracker_drop _ _) as [ph'|]; [|done]. exists ph'. cbn [mbind outcome_bind] in E. injection E as <-. done.
    - left. injection E as <-. split; [done|]. simpl. lia. }
  destruct Hcase as [[Ep H1]|(ph' & Ed & Ep & H1)].
  - split; rewrite ?Ep; try done. intros q Hq. by left.
  - destruct (wo_rc _ _ Hw (mt_tracker x) 1%nat) as (_ & Hall & _ & HnT); [apply rc_count; [lia|done]|].
    destruct (pt_inv_tracker_drop (w_root w) T (w_phys w) (mt_tracker x)) as (ph'' & Ed' & _ & _ & Ha & Hfree & Hram); [apply Hw|done|done|].
    rewrite Ed in Ed'. injection Ed' as <-. split; rewrite ?Ep; try done.
    + intros q Hq. apply Hram. intros ->. specialize (Hcnt' (mt_tracker x)). rewrite Hrefs, bool_decide_eq_true_2 in Hcnt' by done. lia.
    + intros q. rewrite Hfree, elem_of_union, elem_of_singleton. intros [->|Hq]; [right; lia|by left].
    + rewrite Hfree. set_solver.
Qed.

Lemma drop_trackers_drops T l : ∀ w, world_ok T w → owned l w →
  ∃ w', drop_trackers l w = Val (tt, w') ∧ world_ok T w' ∧ drops l w w'.
Proof.
  induction l as [|x l IH]; intros w Hw Ho; [exists w; split_and!; [done|done|apply drops_refl]|].
  destruct (arc_drop_drops T x w Hw) as (w1 & E1 & Hw1 & Hd1).
  { pose proof (Ho (mt_tracker x)) as Hx. rewrite refs_cons, bool_decide_eq_true_2 in Hx by done. lia. }
  destruct (IH w1 Hw1) as (w' & E & Hw' & Hd).
  { intros q. specialize (Ho q). rewrite (dr_count _ _ _ Hd1). change (x :: l) with ([x] ++ l) in Ho. rewrite refs_app in Ho. lia. }
  exists w'. split_and!; [|done|by apply (drops_app [x] l w w1)].
  unfold drop_trackers in *. cbn [st_iter]. unfold mbind, st_bind. by rewrite E1.
Qed.

Lemma st_iter_app {St A} (f : A → ST St unit) l k s : st_iter f (l ++ k) s = '(_, s) ← st_iter f l s; st_iter f k s.
Proof.
  revert s. induction l as [|x l IH]; intros s; [done|]. simpl. unfold mbind at 1 3, st_bind, outcome_bind.
  destruct (f x s) as [[[] s1]|]; [apply IH|done].
Qed.

(** Clearing the areas of a process that shares no file. *)
Lemma memset_clear_trackers (areas : MemSet H) (w : World S) :
  Forall private areas → memset_clear ops areas w = '(_, w) ← drop_trackers (trackers_of areas) w; Val ([], w).
Proof.
  intros Hp. assert (∀ w, st_iter (ma_drop ops) areas w = drop_trackers (trackers_of areas) w) as E.
  { clear w. induction Hp as [|a areas [_ Ha] Hp IH]; intros w; [done|].
    change (trackers_of (a :: areas)) with (ma_mtrackers a ++ trackers_of areas). unfold drop_trackers. rewrite st_iter_app.
    cbn [st_iter]. unfold mbind at 1, st_bind, outcome_bind, mbind, outcome_bind.
    assert (ma_drop ops a w = drop_trackers (ma_mtrackers a) w) as -> by (unfold ma_drop; by destruct (ma_mtype a)).
    unfold drop_trackers. destruct (st_iter _ (ma_mtrackers a) w) as [[[] w1]|]; [apply IH|done]. }
  unfold memset_clear, mbind at 1, st_bind, outcome_bind, mbind, outcome_bind. rewrite E. by destruct (drop_trackers _ w) as [[[] ?]|].
Qed.

(** The other spaces keep their memory. *)
Lemma drops_spaces T r (m : MemSet H) K (w w' : World S) :
  spaces_inv (mkSpace T r m :: K) (w_phys w) (w_rc w) → world_ok T w' → drops (trackers_of m) w w' →
  spaces_inv K (w_phys w') (w_rc w') ∧
  (∀ q, (0 < refs (all_trackers K) q)%nat → ph_ram (w_phys w') !! q = ph_ram (w_phys w) !! q).
Proof.
  intros Hs Hw' Hd.
  assert (∀ q, refs (all_trackers K) q ≤ strong_count q w')%nat as Hown.
  { intros q. rewrite (dr_count _ _ _ Hd). pose proof (si_refs Hs q). unfold strong_count. lia. }
  assert (∀ q, (0 < refs (all_trackers K) q)%nat → ph_ram (w_phys w') !! q = ph_ram (w_phys w) !! q) as Hram.
  { intros q Hq. apply (dr_ram _ _ _ Hd). right. pose proof (Hown q). lia. }
  assert (∀ s q, s ∈ K → ∀ t, sp_tree s !! q = Some t → t ∉ fa_free (ph_alloc (w_phys w')) ∧
            ph_ram (w_phys w') !! t = ph_ram (w_phys w) !! t) as Htab.
  { intros s q Hsk t Ht. destruct (pi_tab _ _ _ (mi_pt _ _ _ _ _ (si_other Hs s Hsk)) q t Ht) as (_ & Hnf & _).
    assert (strong_count t w = 0%nat) as H0.
    { unfold strong_count. destruct (w_rc w !! t) as [n|] eqn:E; [|done]. exfalso. by apply (si_counted Hs t n E) in Ht. }
    split; [intros [?|?]%(dr_free _ _ _ Hd); [done|lia]|]. apply (dr_ram _ _ _ Hd). by left. }
  split; [|done]. split.
  - apply Forall_forall. intros s Hsk. destruct (si_other Hs s Hsk) as [Hpt ? ? ? ? Hr Hl].
    destruct (pt_inv_other (sp_root s) (sp_tree s) (w_phys w) (w_phys w')) as [Hpt' Hl']; [done|apply Hw'|apply Hd|apply Hw'|intros q t Ht; by apply (Htab s q Hsk)|].
    assert (∀ x, x ∈ trackers_of (sp_areas s) → (0 < refs (all_trackers K) (mt_tracker x))%nat) as Hpos.
    { intros x Hx. apply refs_pos, elem_of_all_trackers. eauto. }
    split; try done.
    + intros x Hx. rewrite Hram by (by apply Hpos). by apply Hr.
    + intros x Hx. destruct (Hl x Hx) as (fl & El & Hfl). exists fl. rewrite Hl'. split; [done|].
      destruct Hfl as [?|[? H1]]; [by left|right]. split; [done|]. apply rc_count; [lia|].
      pose proof (Hown (mt_tracker x)) as Ho. pose proof (Hpos x Hx). rewrite (dr_count _ _ _ Hd) in *.
      assert (strong_count (mt_tracker x) w = 1%nat) as Ec by (unfold strong_count; by rewrite H1). lia.
  - exact (si_others_apart Hs).
  - intros f n Hf. destruct (wo_rc _ _ Hw' f n Hf) as (Hn & ? & ? & _). split_and!; try done. intros s q Hsk.
    assert (strong_count f w' = n) as Ec by (unfold strong_count; by rewrite Hf). rewrite (dr_count _ _ _ Hd) in Ec.
    apply (si_counted Hs f (strong_count f w)); [apply rc_count; [lia|done]|done].
  - intros f. apply Hown.
Qed.
End drops.

(** ** Histories of the system *)
(** A store of user code, [set_tid_address], [clone] as the C library calls it
    for [fork] up to the point where it yields and after it, and [exit_group]. *)
Inductive mem_op :=
  | MStore (tid v b : Z)
  | MSetTid (tid ptr : Z)
  | MFork (tid : Z)
  | MSpawn (id : Z)
  | MExit (tid code : Z).

Definition FORK : Z := 0x11.

(** *** The specification: a memory for each process *)
(** The pages, the bytes, the word to clear at the end ([clear_child_tid], 0 for
    none) and the pages the process has stored to since its last fork. *)
Record Memory := mkMemory { my_pages : list Z; my_bytes : Z → option Z; my_clear : Z; my_own : list Z }.
Record Machine := mkMachine { mc_next : Z; mc_procs : gmap Z Memory }.

Definition store_byte (v b : Z) (m : Memory) : Memory :=
  mkMemory (my_pages m) (λ u, if bool_decide (u = v) then Some b else my_bytes m u) (my_clear m) (floor_page v :: my_own m).
Definition set_word (ptr : Z) (m : Memory) : Memory := mkMemory (my_pages m) (my_bytes m) ptr (my_own m).
(** The two sides of a fork. *)
Definition fork_parent (m : Memory) : Memory := mkMemory (my_pages m) (my_bytes m) (my_clear m) [].
Definition fork_child (m : Memory) : Memory := mkMemory (my_pages m) (my_bytes m) 0 [].

Definition abs_step (a : Machine) (o : mem_op) : Machine :=
  match o with
  | MStore tid v b => mkMachine (mc_next a) (alter (store_byte v b) tid (mc_procs a))
  | MSetTid tid ptr => mkMachine (mc_next a) (alter (set_word ptr) tid (mc_procs a))
  | MFork tid =>
      mkMachine (mc_next a + 1)
        (match mc_procs a !! tid with
         | Some m => <[mc_next a + 1 := fork_child m]> (<[tid := fork_parent m]> (mc_procs a))
         | None => mc_procs a
         end)
  | MSpawn _ => a
  | MExit tid _ => mkMachine (mc_next a) (delete tid (mc_procs a))
  end.

(** The word the process asked to be cleared at its end, if any, is on a page it
    has stored to since its last fork. *)
Definition word_own (m : Memory) : Prop :=
  my_clear m = 0 ∨
  user_addr (my_clear m) ∧ my_clear m mod PAGE_SIZE + 4 ≤ PAGE_SIZE ∧ floor_page (my_clear m) ∈ my_own m.

(** Operations of processes that exist, stores to pages they have, and no end of
    a process whose word to clear may be on a page shared by a fork. *)
Definition op_ok (a : Machine) (o : mem_op) : Prop :=
  match o with
  | MStore tid v _ => ∃ m, mc_procs a !! tid = Some m ∧ on_pages (my_pages m) v
  | MSetTid tid _ => is_Some (mc_procs a !! tid)
  | MFork tid => is_Some (mc_procs a !! tid) ∧ mc_next a + 1 < MAX64
  | MSpawn _ => True
  | MExit tid _ => ∃ m, mc_procs a !! tid = Some m ∧ word_own m
  end.

Fixpoint ops_ok (a : Machine) (l : list mem_op) : Prop :=
  match l with [] => True | o :: l => op_ok a o ∧ ops_ok (abs_step a o) l end.

Section isolation.
Context {S H : Type} (ops : INodeOps S H).
Notation Sys := (Sys (S := S) (H := H)).
Notation Space := (Space (H := H)).

Definition mem_step (o : mem_op) : ST Sys unit :=
  match o with
  | MStore tid v b => on_task tid (user_store1 ops v b)
  | MSetTid tid ptr => _ ← sys_set_tid_address tid ptr; mret tt
  | MFork tid => _ ← clone_start ops tid FORK 0 0 0 0; mret tt
  | MSpawn id => _ ← clone_finish id; mret tt
  | MExit tid code => _ ← sys_exit_group ops tid code; mret tt
  end.
Definition mem_run (l : list mem_op) : ST Sys unit := st_iter mem_step l.

(** What the file system has to give: the directories of the processes and the
    terminal open, now and after they were opened. *)
Context (fs_ok : S → Prop) (mnt : MOUNTED_FS H) (is_dir : PathBuf → Prop).
Record fs_opens : Prop := {
  fo_dir : ∀ s path, fs_ok s → is_dir path → ∃ d s', file_open ops mnt path O_DIRECTORY s = Val (Ok d, s') ∧ fs_ok s';
  fo_tty : ∀ s, fs_ok s → ∃ f s', file_open ops mnt (pb_from "/dev/ttyv0") O_RDWR s = Val (Ok f, s') ∧ fs_ok s'
}.

(** *** The relation between the system and the specification *)
(** [N] bounds the pages of a process. *)
Context (N : nat).

(** A process with one thread and no System V segment, its space and its
    memory; the pages it has to itself are on frames with one reference. *)
Record member (s : Sys) (a : Machine) (x : Z * Space) : Prop := {
  mb_task : ∃ u m, sy_tasks s !! x.1 = Some u ∧ ut_pid u = x.1 ∧ ut_root u = sp_root x.2 ∧
    mc_procs a !! x.1 = Some m ∧ tcb_clear_child_tid (ut_tcb u) = my_clear m;
  mb_pcb : ∃ b cwd, sy_pcbs s !! x.1 = Some b ∧ pcb_memset b = sp_areas x.2 ∧ pcb_shms b = [] ∧ (pcb_threads b).*1 = [x.1] ∧
    sy_files s !! pcb_curr_dir b = Some cwd ∧ is_dir (f_path_buf cwd);
  mb_mem : ∃ m, mc_procs a !! x.1 = Some m ∧ my_pages m = vaddrs (sp_areas x.2) ∧ (length (my_pages m) ≤ N)%nat ∧
    ∀ v, on_pages (my_pages m) v → load (w_phys (sy_world s)) (sp_root x.2) v = my_bytes m v;
  mb_own : ∀ m A, mc_procs a !! x.1 = Some m → A ∈ my_own m → A ∈ my_pages m ∧
    ∀ y, y ∈ trackers_of (sp_areas x.2) → mt_vaddr y = A → w_rc (sy_world s) !! mt_tracker y = Some 1%nat;
  mb_id : x.1 ≤ mc_next a
}.

Record refines (s : Sys) (a : Machine) (L : list (Z * Space)) : Prop := {
  rf_next : next_id s = mc_next a;
  rf_word : 0 ≤ mc_next a;
  rf_nodup : NoDup L.*1;
  rf_procs : ∀ tid, is_Some (mc_procs a !! tid) → tid ∈ L.*1;
  rf_member : Forall (member s a) L;
  rf_spaces : spaces_inv L.*2 (w_phys (sy_world s)) (w_rc (sy_world s));
  rf_fs : fs_ok (w_fs (sy_world s));
  rf_mnt : sy_mounted s = mnt
}.

Definition free_frames (s : Sys) : nat := size (fa_free (ph_alloc (w_phys (sy_world s)))).

#[local] Instance refines_perm s a : Proper ((≡ₚ) ==> impl) (refines s a).
Proof.
  intros L L' Hp [? ? Hnd Hpr Hm Hs ? ?]. split; try done.
  - by rewrite <- Hp.
  - intros tid Ht. rewrite <- Hp. by apply Hpr.
  - by rewrite <- Hp.
  - by rewrite <- Hp.
Qed.

(** The process an operation is of comes first. *)
Lemma refines_focus s a L tid :
  refines s a L → is_Some (mc_procs a !! tid) → ∃ T r m L', refines s a ((tid, mkSpace T r m) :: L') ∧ L ≡ₚ (tid, mkSpace T r m) :: L'.
Proof.
  intros Hr Ht. apply (rf_procs _ _ _ Hr) in Ht. apply list_elem_of_fmap in Ht as ([tid' [T r m]] & -> & Hin).
  apply elem_of_Permutation in Hin as [L' HL]. exists T, r, m, L'. split; [by rewrite <- HL|done].
Qed.

(** *** Tasks other than the one that runs *)
Definition task_same (u u' : UserTask) : Prop :=
  ut_pid u' = ut_pid u ∧ ut_root u' = ut_root u ∧ tcb_clear_child_tid (ut_tcb u') = tcb_clear_child_tid (ut_tcb u).

Lemma member_kept s s' a a' x :
  member s a x → (∀ u, sy_tasks s !! x.1 = Some u → ∃ u', sy_tasks s' !! x.1 = Some u' ∧ task_same u u') →
  sy_pcbs s' !! x.1 = sy_pcbs s !! x.1 → sy_files s ⊆ sy_files s' →
  mc_procs a' !! x.1 = mc_procs a !! x.1 → mc_next a ≤ mc_next a' →
  (∀ v, user_addr v → floor_page v ∈ vaddrs (sp_areas x.2) →
     load (w_phys (sy_world s')) (sp_root x.2) v = load (w_phys (sy_world s)) (sp_root x.2) v) →
  (∀ y, y ∈ trackers_of (sp_areas x.2) → w_rc (sy_world s) !! mt_tracker y = Some 1%nat →
     w_rc (sy_world s') !! mt_tracker y = Some 1%nat) →
  member s' a' x.
Proof.
  intros [(u & m0 & Hu & ? & ? & ? & ?) (b & cwd & Hb & ? & ? & ? & Hf & ?) (m & Hm & Hpg & ? & Hl) Hown ?] Ht Ep Ef Em En Hld Hone. split.
  - destruct (Ht u Hu) as (u' & Hu' & ? & ? & ?). exists u', m0. split_and!; congruence.
  - exists b, cwd. rewrite Ep. split_and!; try done. by eapply lookup_weaken.
  - exists m. rewrite Em. split_and!; try done. intros v [Hv Hvp]. rewrite Hpg in Hvp. rewrite Hld by done. apply Hl. split; [done|]. by rewrite Hpg.
  - rewrite Em. intros m1 A Hm1 HA. destruct (Hown m1 A Hm1 HA) as [? Ho]. split; [done|]. intros y Hy Ey. apply Hone, Ho; done.
  - lia.
Qed.

(** The view of a task. *)
Definition view (tid : Z) (u : UserTask) (b : ProcessControlBlock H) (s : Sys) : Proc S H :=
  mkProc (with_root (ut_root u) (sy_world s)) (sy_mounted s) (sy_files s)
    (with_threads ((λ x : Z * bool, (x.1, bool_decide (is_Some (upgrade s x.1)))) <$> pcb_threads b) b)
    (ut_tcb u) tid (ut_pid u) (parent_tcb s u) (sy_kern s).

Lemma enter_view tid u b s : sy_tasks s !! tid = Some u → sy_pcbs s !! ut_pid u = Some b → enter tid s = Some (view tid u b s).
Proof. intros Hu Hb. unfold enter. rewrite Hu. cbn [mbind option_bind]. by rewrite Hb. Qed.

Lemma view_pcb tid u b s :
  let q := p_pcb (view tid u b s) in
  pcb_memset q = pcb_memset b ∧ pcb_shms q = pcb_shms b ∧ pcb_curr_dir q = pcb_curr_dir b ∧ (pcb_threads q).*1 = (pcb_threads b).*1.
Proof. destruct b. simpl. rewrite <- list_fmap_compose. by split_and!. Qed.

(** Back from the view: no task changes its process, page table or the word to
    clear, when the running one does not and its parent only gets signals. *)
Lemma commit_same tid u b s p f :
  sy_tasks s !! tid = Some u → p_tcb p = ut_tcb u →
  p_parent p = f <$> p_parent (view tid u b s) → (∀ t, tcb_clear_child_tid (f t) = tcb_clear_child_tid t) →
  ∀ t v, sy_tasks s !! t = Some v → ∃ v', sy_tasks (commit tid p s) !! t = Some v' ∧ task_same v v'.
Proof.
  intros Hu Ht Hpar Hf t v Hv. unfold commit. cbn [sy_tasks]. rewrite Hu, Ht. cbn [mbind option_bind].
  assert (alter (set_ut_tcb (ut_tcb u)) tid (sy_tasks s) = sy_tasks s) as ->.
  { apply map_eq. intros k. destruct (decide (k = tid)) as [->|]; [|by rewrite lookup_alter_ne]. rewrite lookup_alter_eq, Hu. simpl. by destruct u. }
  rewrite Hpar. cbn [p_parent view]. unfold parent_tcb. destruct (ut_parent u) as [q|]; [|by exists v]. cbn [mbind option_bind].
  unfold upgrade. destruct (alive _ _ _); [|by exists v]. destruct (sy_tasks s !! q) as [w|] eqn:Hq; [|by exists v].
  cbn [fmap option_fmap option_map]. destruct (decide (t = q)) as [->|]; simplify_map_eq; [|by exists v].
  eexists. split; [done|]. split_and!; [done|done|]. simpl. by rewrite Hf.
Qed.

(** Members other than the running process [tid], from [s] to [s']. *)
Lemma members_kept s s' a a' tid (L : list (Z * Space)) :
  Forall (member s a) L → (∀ x, x ∈ L → x.1 ≠ tid) →
  (∀ t u, t ≠ tid → sy_tasks s !! t = Some u → t ≤ mc_next a → ∃ u', sy_tasks s' !! t = Some u' ∧ task_same u u') →
  (∀ t, t ≠ tid → t ≤ mc_next a → sy_pcbs s' !! t = sy_pcbs s !! t ∧ mc_procs a' !! t = mc_procs a !! t) →
  sy_files s ⊆ sy_files s' → mc_next a ≤ mc_next a' →
  (∀ x v, x ∈ L.*2 → user_addr v → floor_page v ∈ vaddrs (sp_areas x) →
     load (w_phys (sy_world s')) (sp_root x) v = load (w_phys (sy_world s)) (sp_root x) v) →
  (∀ x y, x ∈ L.*2 → y ∈ trackers_of (sp_areas x) → w_rc (sy_world s) !! mt_tracker y = Some 1%nat →
     w_rc (sy_world s') !! mt_tracker y = Some 1%nat) →
  Forall (member s' a') L.
Proof.
  intros Hm Hne Ht Hpa Hf Hn Hl Ho. rewrite Forall_forall in *. intros x Hx.
  pose proof (mb_id _ _ _ (Hm x Hx)) as Hid. destruct (Hpa x.1 (Hne x Hx) Hid) as [Hp Ha].
  apply (member_kept s s' a a'); try done; [by apply Hm|intros u Hu; apply Ht; [by apply Hne|done|done]| |].
  - intros v Hv Hvp. apply Hl; [|done..]. by apply list_elem_of_fmap_2.
  - intros y Hy. apply (Ho x.2); [|done]. by apply list_elem_of_fmap_2.
Qed.

Lemma focus_others tid sp (L : list (Z * Space)) : NoDup ((tid, sp) :: L).*1 → NoDup L.*1 ∧ ∀ x, x ∈ L → x.1 ≠ tid.
Proof.
  intros [Hni Hnd]%NoDup_cons. split; [done|]. intros x Hx <-. apply Hni. exact (list_elem_of_fmap_2 fst _ _ Hx).
Qed.

(** A frame of another space with one reference is not among the frames of [m],
    so it keeps the reference when those are shared or given up. *)
Lemma single_count K (m : MemSet H) (w w' : World S) (x : Space) y :
  (∀ f, refs (trackers_of m) f + refs (all_trackers K) f ≤ strong_count f w)%nat → x ∈ K → y ∈ trackers_of (sp_areas x) →
  w_rc w !! mt_tracker y = Some 1%nat →
  strong_count (mt_tracker y) w' = (strong_count (mt_tracker y) w + refs (trackers_of m) (mt_tracker y))%nat ∨
  strong_count (mt_tracker y) w' = (strong_count (mt_tracker y) w - refs (trackers_of m) (mt_tracker y))%nat →
  w_rc w' !! mt_tracker y = Some 1%nat.
Proof.
  intros Hr Hx Hy H1 Hc. specialize (Hr (mt_tracker y)).
  assert (0 < refs (all_trackers K) (mt_tracker y))%nat by (apply refs_pos, elem_of_all_trackers; eauto).
  assert (strong_count (mt_tracker y) w = 1%nat) as E by (unfold strong_count; by rewrite H1).
  apply rc_count; [lia|]. rewrite E in *. lia.
Qed.

(** *** Stores *)
Lemma refines_store s a tid T r m L v b :
  refines s a ((tid, mkSpace T r m) :: L) → op_ok a (MStore tid v b) → (3 ≤ free_frames s)%nat →
  ∃ s' L', mem_step (MStore tid v b) s = Val (tt, s') ∧ refines s' (abs_step a (MStore tid v b)) L' ∧
    (free_frames s ≤ free_frames s' + 3)%nat.
Proof.
  intros [Hnx Hw0 Hnd Hpr Hmem Hsp Hfs Hmnt] (mm & Hmm & Hon) Hfree. destruct (focus_others _ _ _ Hnd) as [_ Hne].
  apply Forall_cons in Hmem as [[(u & m0 & Hu & Hup & Hur & Hm0 & Huc) (bb & cwd & Hb & Hbm & Hsh & Hth & Hcd & Hdir) (m1 & Hm1 & Hpg & HN & Hl) Hown Hid] HL].
  simpl in *. rewrite Hmm in Hm1, Hm0. injection Hm1 as <-. injection Hm0 as <-. set (p := view tid u bb s).
  assert (enter tid s = Some p) as He by (apply enter_view; [done|by rewrite Hup]).
  destruct (view_pcb tid u bb s) as (Hpm & Hps & Hpc & Hpt). fold p in Hpm, Hps, Hpc, Hpt. rewrite Hbm in Hpm.
  assert (w_root (p_world p) = r) as Hpr0 by done. destruct Hon as [Huv Hvp]. rewrite Hpg, <- Hpm in Hvp.
  destruct (store_isolated ops T L.*2 p v b) as (T' & p' & E & Hsp' & Hva & Hroot & Hp' & Hfs' & Hpcb & [Hone Htr] & Hsz & _ & Hl1 & Hl2);
    [by rewrite Hpm, Hpr0|done|done|done|].
  assert (p_tcb p' = ut_tcb u ∧ p_parent p' = id <$> p_parent p ∧ p_files p' = sy_files s ∧ p_mounted p' = sy_mounted s ∧
          p_kern p' = sy_kern s ∧ p_pid p' = tid) as (Etcb & Epar & Efs & Emn & Ekn & Epid).
  { rewrite Hp'. unfold p. simpl. rewrite option_fmap_id. by split_and!. }
  rewrite Hroot, Hpr0, Hpm in *. set (m' := pcb_memset (p_pcb p')) in *.
  exists (commit tid p' s), ((tid, mkSpace T' r m') :: L). split.
  { cbn [mem_step]. unfold on_task. rewrite He. cbn [unwrap mbind outcome_bind]. by rewrite E. }
  split; [|unfold free_frames; simpl; simpl in Hsz; destruct (user_frame v p); lia].
  split; try done.
  - intros t. simpl. rewrite lookup_alter_is_Some. apply Hpr.
  - constructor.
    + split; cbn [fst snd sp_root sp_areas].
      * destruct (commit_same tid u bb s p' id Hu Etcb Epar (λ _, eq_refl) tid u Hu) as (u' & ? & ? & ? & ?).
        exists u', (store_byte v b mm). cbn [abs_step mc_procs]. rewrite lookup_alter_eq, Hmm. split_and!; [done|congruence|congruence|done|simpl; congruence].
      * exists (p_pcb p'), cwd. cbn [sy_pcbs commit sy_files]. rewrite Epid, lookup_insert_eq, Efs. split_and!; try done.
        -- rewrite <- Hpcb, <- Hsh, <- Hps. by destruct (p_pcb p).
        -- rewrite <- Hpcb, <- Hth, <- Hpt. by destruct (p_pcb p).
        -- rewrite <- Hcd, <- Hpc, <- Hpcb. by destruct (p_pcb p).
      * exists (store_byte v b mm). cbn [mc_procs abs_step]. rewrite lookup_alter_eq, Hmm. split_and!; try done; [by rewrite Hva|].
        intros v' [Hv' Hvp']. cbn [my_pages store_byte] in Hvp'. simpl. rewrite Hl1; [|done|by rewrite <- Hpg].
        case_bool_decide; [done|]. by apply Hl.
      * cbn [abs_step mc_procs sy_world commit]. rewrite lookup_alter_eq, Hmm. intros m2 A [= <-] HA. cbn [my_own my_pages store_byte] in *.
        assert (A ∈ my_pages mm) as HAp.
        { apply elem_of_cons in HA as [->|HA]; [by rewrite Hpg|]. by apply (Hown mm A Hmm HA). }
        split; [done|]. intros y Hy Ey. destruct (Htr y Hy) as [?|[Hy' Hyv]]; [done|]. apply Hone.
        apply elem_of_cons in HA as [->|HA]; [done|]. destruct (Hown mm A Hmm HA) as [_ Ho]. by apply Ho.
      * done.
    + apply (members_kept s _ a _ tid); try done.
      * intros t v0 _ Hv0 _. by apply (commit_same tid u bb s p' id).
      * intros t Ht _. simpl. rewrite Epid, lookup_insert_ne, lookup_alter_ne; done.
      * simpl. by rewrite Efs.
      * intros x y _ _. apply Hone.
  - simpl. by rewrite Hfs'.
  - simpl. congruence.
Qed.

(** *** The word to clear *)
Lemma refines_set_tid s a tid T r m L ptr :
  refines s a ((tid, mkSpace T r m) :: L) →
  ∃ s' L', mem_step (MSetTid tid ptr) s = Val (tt, s') ∧ refines s' (abs_step a (MSetTid tid ptr)) L' ∧
    (free_frames s ≤ free_frames s')%nat.
Proof.
  intros [Hnx Hw0 Hnd Hpr Hmem Hsp Hfs Hmnt]. destruct (focus_others _ _ _ Hnd) as [_ Hne].
  apply Forall_cons in Hmem as [[(u & m0 & Hu & Hup & Hur & Hm0 & _) Hpcb (m1 & Hm1 & Hpg & HN & Hl) Hown Hid] HL].
  simpl in *. rewrite Hm0 in Hm1. injection Hm1 as <-.
  eexists _, ((tid, mkSpace T r m) :: L). split.
  { cbn [mem_step]. unfold mbind at 1, st_bind, sys_set_tid_address. rewrite Hu. reflexivity. }
  split; [|done]. split; try done.
  - intros t. simpl. rewrite lookup_alter_is_Some. apply Hpr.
  - constructor.
    + split; cbn [fst snd sp_root sp_areas]; [|done| | |done].
      * eexists _, (set_word ptr m0). cbn [sy_tasks set_tasks abs_step mc_procs]. rewrite lookup_insert_eq, lookup_alter_eq, Hm0.
        split_and!; [done|done|done|done|]. simpl. by destruct (ut_tcb u).
      * exists (set_word ptr m0). cbn [abs_step mc_procs]. rewrite lookup_alter_eq, Hm0. by split_and!.
      * cbn [abs_step mc_procs]. rewrite lookup_alter_eq, Hm0. intros m2 A [= <-] HA. exact (Hown m0 A Hm0 HA).
    + apply (members_kept s _ a _ tid); try done.
      * intros t v Htt Hv _. exists v. simpl. rewrite lookup_insert_ne by done. done.
      * intros t Ht _. simpl. by rewrite lookup_alter_ne.
Qed.

(** *** Forks *)
(** The system after [clone] has made the task [c] of the new process. *)
Definition forked (tid id : Z) (c : Task) (p' : Proc S H) (s : Sys) : Sys :=
  let s := commit tid p' (set_exec (mkExec (ex_queue (sy_exec s)) (ex_map (sy_exec s)) id (ex_cores (sy_exec s))) s) in
  let u := mkUserTask (tk_root c) id (Some tid) (clone_tcb (clone_flags FORK) (Z.land FORK 255) 0 0 0 (tk_tcb c)) in
  set_calls (id :: sy_calls s) (set_pcbs (<[id := tk_pcb c]> (sy_pcbs s)) (set_tasks (<[id := u]> (sy_tasks s)) s)).

Lemma fork_step s tid u b c p' :
  sy_tasks s !! tid = Some u → sy_pcbs s !! ut_pid u = Some b → 0 ≤ next_id s → next_id s + 1 < MAX64 →
  cow_fork ops (next_id s + 1) (view tid u b s) = Val (c, p') → tk_pid c = next_id s + 1 →
  mem_step (MFork tid) s = Val (tt, forked tid (next_id s + 1) c p' s).
Proof.
  intros Hu Hb H0 Hmax E Hpid. set (id := next_id s + 1) in *.
  cbn [mem_step]. unfold mbind at 1, st_bind, clone_start, task_id_alloc. change (ex_next (sy_exec s)) with (next_id s).
  rewrite (wadd_small (next_id s) 1) by word_lia. fold id. set (s0 := set_exec _ s).
  change (contains (clone_flags FORK) CLONE_THREAD) with false. change (contains (clone_flags FORK) CLONE_PARENT_SETTID) with false.
  change (contains (clone_flags FORK) CLONE_CHILD_SETTID) with false.
  unfold clone_new. change (sy_tasks s0 !! tid) with (sy_tasks s !! tid). rewrite Hu. cbn [unwrap mbind outcome_bind].
  assert (on_task tid (cow_fork ops id) s0 = Val (c, commit tid p' s0)) as ->.
  { assert (enter tid s0 = Some (view tid u b s)) as He by (unfold s0; rewrite enter_exec by done; by apply enter_view).
    unfold on_task. rewrite He. cbn [unwrap mbind outcome_bind]. by rewrite E. }
  cbn [mbind outcome_bind]. rewrite Hpid. reflexivity.
Qed.

(** What [fork_post] says of the view. *)
Lemma fork_view s tid u b T1 T2 K p' fs' id c :
  fork_post T1 T2 K (view tid u b s) p' fs' id c →
  p_tcb p' = ut_tcb u ∧ p_parent p' = Datatypes.id <$> p_parent (view tid u b s) ∧ p_mounted p' = sy_mounted s ∧
  p_kern p' = sy_kern s ∧ p_pid p' = ut_pid u.
Proof. intros Hk. rewrite (fk_rest _ _ _ _ _ _ _ _ Hk). simpl. rewrite option_fmap_id. by split_and!. Qed.

Section forked.
Context (s : Sys) (a : Machine) (tid : Z) (u : UserTask) (b : ProcessControlBlock H) (T T1 T2 : Tree) (r : Z) (m : MemSet H)
  (K : list Space) (p' : Proc S H) (fs' : S) (c : Task (H := H)).
Notation id := (mc_next a + 1).
Notation s' := (forked tid id c p' s).
Notation a' := (abs_step a (MFork tid)).
Hypothesis Hu : sy_tasks s !! tid = Some u.
Hypothesis Hb : sy_pcbs s !! tid = Some b.
Hypothesis Hm : member s a (tid, mkSpace T r m).
Hypothesis Hk : fork_post T1 T2 K (view tid u b s) p' fs' id c.

Lemma forked_task t v : sy_tasks s !! t = Some v → t ≤ mc_next a → ∃ v', sy_tasks s' !! t = Some v' ∧ task_same v v'.
Proof.
  intros Hv Ht. unfold forked. cbn [sy_tasks set_calls set_pcbs set_tasks]. rewrite lookup_insert_ne by lia.
  destruct (fork_view _ _ _ _ _ _ _ _ _ _ _ Hk) as (Etcb & Epar & _). set (s0 := set_exec _ s).
  apply (commit_same tid u b s0 p' Datatypes.id); [done|done| |done|done]. rewrite Epar. f_equal. cbn [view p_parent].
  unfold parent_tcb, upgrade, s0. destruct (ut_parent u) as [q|]; [|done]. cbn [mbind option_bind]. by rewrite alive_exec.
Qed.

Lemma forked_facts : u.(ut_pid) = tid ∧ ut_root u = r ∧ pcb_memset b = m ∧ tid ≤ mc_next a ∧
  ∃ mm, mc_procs a !! tid = Some mm ∧ mc_procs a' = <[id := fork_child mm]> (<[tid := fork_parent mm]> (mc_procs a)) ∧ my_pages mm = vaddrs m ∧ (length (my_pages mm) ≤ N)%nat ∧
  (∀ v, on_pages (my_pages mm) v → load (w_phys (sy_world s')) r v = my_bytes mm v ∧ load (w_phys (sy_world s')) (tk_root c) v = my_bytes mm v) ∧
  ∃ cwd, sy_files s' !! pcb_curr_dir b = Some cwd ∧ is_dir (f_path_buf cwd) ∧ pcb_shms b = [] ∧ (pcb_threads b).*1 = [tid].
Proof.
  destruct Hm as [(u0 & m0 & Hu0 & Hup & Hur & _) (b0 & cwd & Hb0 & Hbm & Hsh & Hth & Hcd & Hdir) (mm & Hmm & Hpg & HN & Hl) _ Hid]. simpl in *.
  rewrite Hu in Hu0. injection Hu0 as <-. rewrite Hb in Hb0. injection Hb0 as <-.
  split_and!; try done. exists mm. rewrite Hmm. split_and!; try done.
  - intros v [Hv Hvp]. pose proof Hvp as Hvp'. rewrite Hpg, <- Hbm, <- (proj1 (view_pcb tid u b s)) in Hvp.
    destruct (fk_load _ _ _ _ _ _ _ _ Hk v Hv Hvp) as [L1 L2]. cbn [view p_world with_root w_root w_phys] in L1, L2. rewrite Hur in *.
    unfold forked. cbn [sy_world set_calls set_pcbs set_tasks commit]. rewrite L1, L2, Hl by done. done.
  - exists cwd. split_and!; try done. eapply lookup_weaken; [exact Hcd|]. exact (fk_files _ _ _ _ _ _ _ _ Hk).
Qed.

Lemma forked_parent : member s' a' (tid, mkSpace T1 r m).
Proof.
  destruct forked_facts as (Hup & Hur & Hbm & Hid & mm & Hmm & Ha' & Hpg & HN & Hl & cwd & Hcd & Hdir & Hsh & Hth).
  destruct (view_pcb tid u b s) as (Hpm & Hps & Hpc & Hpt). destruct (fork_view _ _ _ _ _ _ _ _ _ _ _ Hk) as (_ & _ & _ & _ & Epid).
  pose proof (fk_pcb _ _ _ _ _ _ _ _ Hk) as Hpcb. split; cbn [fst snd sp_root sp_areas].
  - destruct Hm as [(u0 & m0 & Hu0 & _ & _ & Hm0 & Huc) _ _ _ _]. simpl in Hu0, Hm0. rewrite Hu in Hu0. injection Hu0 as <-.
    destruct (forked_task tid u Hu Hid) as (u' & ? & ? & ? & ?). exists u', (fork_parent mm).
    rewrite Ha', lookup_insert_ne, lookup_insert_eq by lia. split_and!; [done|congruence|congruence|done|simpl; congruence].
  - exists (p_pcb p'), cwd. unfold forked at 1. cbn [sy_pcbs set_calls set_pcbs commit set_tasks].
    rewrite Epid, Hup, lookup_insert_ne, lookup_insert_eq by lia. rewrite Hpcb. split_and!; [done|..|done].
    + rewrite <- Hbm, <- Hpm. by destruct (p_pcb (view tid u b s)).
    + rewrite <- Hsh, <- Hps. by destruct (p_pcb (view tid u b s)).
    + rewrite <- Hth, <- Hpt. by destruct (p_pcb (view tid u b s)).
    + rewrite <- Hcd, <- Hpc. by destruct (p_pcb (view tid u b s)).
  - exists (fork_parent mm). rewrite Ha', lookup_insert_ne, lookup_insert_eq by lia. split_and!; try done. intros v Hv. by apply Hl.
  - rewrite Ha', lookup_insert_ne, lookup_insert_eq by lia. by intros m0 A [= <-] []%elem_of_nil.
  - simpl. lia.
Qed.

Lemma forked_child : member s' a' (id, mkSpace T2 (tk_root c) m).
Proof.
  destruct forked_facts as (_ & _ & _ & _ & mm & Hmm & Ha' & Hpg & HN & Hl & cwd & Hcd & Hdir & Hsh & _).
  destruct (view_pcb tid u b s) as (Hpm & Hps & Hpc & _). destruct Hk as [_ _ _ _ _ _ _ Hm2 Hs2 Hc2 _ Hth2 _ Htc _ _ _].
  split; cbn [fst snd sp_root sp_areas].
  - eexists _, (fork_child mm). unfold forked. cbn [sy_tasks set_calls set_pcbs set_tasks]. rewrite Ha', !lookup_insert_eq.
    split_and!; [done..|]. simpl. by destruct (tk_tcb c).
  - exists (tk_pcb c), cwd. unfold forked at 1. cbn [sy_pcbs set_calls set_pcbs set_tasks]. rewrite lookup_insert_eq, Hm2, Hs2, Hth2, Hc2, Hpm, Hps, Hpc.
    destruct forked_facts as (_ & _ & Hbm & _). by split_and!.
  - exists (fork_child mm). rewrite Ha', lookup_insert_eq. split_and!; try done. intros v Hv. by apply Hl.
  - rewrite Ha', lookup_insert_eq. by intros m0 A [= <-] []%elem_of_nil.
  - simpl. lia.
Qed.
End forked.

Lemma refines_fork s a tid T r m L :
  fs_opens → refines s a ((tid, mkSpace T r m) :: L) → op_ok a (MFork tid) → (4 * N < free_frames s)%nat →
  ∃ s' L', mem_step (MFork tid) s = Val (tt, s') ∧ refines s' (abs_step a (MFork tid)) L' ∧
    (free_frames s ≤ free_frames s' + 4 * N + 1)%nat.
Proof.
  intros [Hod Hot] [Hnx Hw0 Hnd Hpr Hmem Hsp Hfs Hmnt] ([mm Hmm] & Hmax) Hfree. destruct (focus_others _ _ _ Hnd) as [HndL Hne].
  apply Forall_cons in Hmem as [Hmb HL].
  pose proof Hmb as [(u & m0 & Hu & Hup & Hur & _) (b & cwd & Hb & Hbm & Hsh & Hth & Hcd & Hdir) (m1 & Hm1 & Hpg & HN & _) _ Hid].
  simpl in *. destruct (view_pcb tid u b s) as (Hpm & Hps & Hpc & Hpt). rewrite Hbm in Hpm.
  destruct (Hod _ _ Hfs Hdir) as (d & fs1 & Ho1 & Hfs1). destruct (Hot _ Hfs1) as (tty & fs2 & Ho2 & Hfs2).
  assert (length (trackers_of m) ≤ N)%nat as Hlen by (etrans; [|exact HN]; rewrite Hpg; unfold vaddrs; by rewrite length_fmap).
  set (id := mc_next a + 1) in *. assert (w_root (p_world (view tid u b s)) = r) as Hpr0 by done.
  destruct (cow_fork_spec ops T L.*2 (view tid u b s) fs2 id) as (c & p' & T1 & T2 & E & Hk).
  { split; [by rewrite Hpm, Hpr0|by rewrite Hps|exists cwd, d, tty, fs1; rewrite Hpc; by rewrite <- Hmnt in Ho1, Ho2|].
    rewrite Hpm. unfold free_frames in Hfree. simpl. lia. }
  exists (forked tid id c p' s), ((tid, mkSpace T1 r m) :: (id, mkSpace T2 (tk_root c) m) :: L). split.
  { assert (id = next_id s + 1) as Eid by (unfold id; lia). pose proof (fk_pid _ _ _ _ _ _ _ _ Hk) as Hpid. rewrite Eid in *.
    apply (fork_step s tid u b c p'); [done|by rewrite Hup|lia|lia|exact E|exact Hpid]. }
  destruct (fork_view _ _ _ _ _ _ _ _ _ _ _ Hk) as (_ & _ & Emn & Ekn & Epid). pose proof (fk_size _ _ _ _ _ _ _ _ Hk) as Hsz. rewrite Hpm in Hsz.
  split; [|unfold free_frames; simpl in *; lia].
  assert (∀ x, x ∈ L → x.1 < id) as HLid.
  { intros x Hx. rewrite Forall_forall in HL. pose proof (mb_id _ _ _ (HL x Hx)). unfold id. lia. }
  split.
  - done.
  - simpl. lia.
  - rewrite !fmap_cons. cbn [fst]. constructor; [|constructor; [|done]].
    + rewrite elem_of_cons. intros [?|Hin]; [lia|]. apply list_elem_of_fmap in Hin as (x & Ex & Hx). by apply (Hne x).
    + intros Hin. apply list_elem_of_fmap in Hin as (x & Ex & Hx). specialize (HLid x Hx). lia.
  - intros t. cbn [abs_step mc_procs]. rewrite Hmm. fold id. rewrite !lookup_insert_is_Some. intros [<-|[_ [<-|[_ Ht]]]]; [set_solver|set_solver|].
    apply Hpr in Ht. set_solver.
  - constructor; [by eapply forked_parent|]. constructor; [by eapply forked_child|]. apply (members_kept s _ a _ tid); try done.
    + intros t v _ Hv Ht. by eapply forked_task.
    + intros t Ht Htn. unfold forked. simpl. rewrite Hmm, Epid, !lookup_insert_ne by (fold id; lia). done.
    + exact (fk_files _ _ _ _ _ _ _ _ Hk).
    + simpl. lia.
    + intros x v. exact (fk_others _ _ _ _ _ _ _ _ Hk x v).
    + intros x y Hx Hy H1. apply (single_count L.*2 m (sy_world s) (p_world p') x y); [intros f; apply (si_refs Hsp)|exact Hx|exact Hy|exact H1|].
      pose proof (fk_count _ _ _ _ _ _ _ _ Hk (mt_tracker y)) as Hc. rewrite Hpm in Hc. left. exact Hc.
  - pose proof (fk_spaces _ _ _ _ _ _ _ _ Hk) as Hs'. rewrite Hpm, Hpr0 in Hs'. exact Hs'.
  - simpl. by rewrite (fk_fs _ _ _ _ _ _ _ _ Hk).
  - simpl. congruence.
Qed.

(** *** Exits *)
Lemma exit_last_world code (p : Proc S H) ft w1 w' :
  notify_exit p = Val (tt, map_pcb (with_futex_table ft) (set_world w1 p)) → p_tid p = p_pid p → other_threads p = [] →
  memset_clear ops (pcb_memset (p_pcb p)) w1 = Val ([], w') →
  ∃ b', exit_ ops code p = Val (tt, signal_parent (tcb_exit_signal (p_tcb p)) (set_pcb b' (set_world w' p))).
Proof.
  intros Hn Ht Ho E. unfold exit_. rewrite Hn. clear Hn. cbn [mbind outcome_bind].
  destruct p as [w m fs b t i j par kn]; destruct b. simpl in *. subst j.
  unfold leave, other_threads, map_pcb, set_pcb in *. simpl in *. rewrite Ho, Z.eqb_refl. simpl.
  unfold cleanup_process, clear_memset. simpl. rewrite E. cbn [mbind outcome_bind]. eexists. reflexivity.
Qed.

(** Clearing a word on a page of its own changes no frame of the others. *)
Lemma notify_own T r (m : MemSet H) (K : list Space) (p : Proc S H) (mm : Memory) :
  spaces_inv (mkSpace T r m :: K) (w_phys (p_world p)) (w_rc (p_world p)) → w_root (p_world p) = r →
  tcb_clear_child_tid (p_tcb p) = my_clear mm → word_own mm →
  (∀ A, A ∈ my_own mm → A ∈ vaddrs m ∧
     ∀ y, y ∈ trackers_of m → mt_vaddr y = A → w_rc (p_world p) !! mt_tracker y = Some 1%nat) →
  ∃ ph ft, notify_exit p = Val (tt, map_pcb (with_futex_table ft) (set_world (set_phys ph (p_world p)) p)) ∧
    spaces_inv (mkSpace T r m :: K) ph (w_rc (p_world p)) ∧ ph_alloc ph = ph_alloc (w_phys (p_world p)) ∧
    ∀ q, (0 < refs (all_trackers K) q)%nat → ph_ram ph !! q = ph_ram (w_phys (p_world p)) !! q.
Proof.
  intros Hsp Hr Ec Hown Hmy. pose proof (spaces_world _ _ _ _ _ Hsp Hr) as Hw.
  destruct Hown as [H0|(Hu & Hfit & HA)].
  { destruct (notify_exit_spec T p Hw) as (ph & ft & E & _ & Hn & _); [left; congruence|].
    destruct Hn as [(-> & _)|(e & page & n & [Hue _ _ _ _] & _)]; [by exists (w_phys (p_world p)), ft|].
    exists (w_phys (p_world p)), (pcb_futex_table (p_pcb p)). split; [|done]. rewrite notify_exit_none by congruence.
    by destruct p as [[] ? ? []]. }
  destruct (Hmy _ HA) as [HAm Hone]. destruct (vaddr_tracked _ _ HAm) as (y & Hy & Hyv).
  specialize (Hone y Hy Hyv). rewrite <- Ec in Hu, Hfit, Hyv. set (uaddr := tcb_clear_child_tid (p_tcb p)) in *.
  pose proof (si_first Hsp) as Hm. destruct (mi_leaf _ _ _ _ _ Hm y Hy) as (fl & Hlf & Hfl).
  destruct (mi_ram _ _ _ _ _ Hm y Hy) as (page & Hpage & Hlen).
  destruct (si_counted Hsp _ _ Hone) as (_ & Hall & _ & HnT & _).
  pose proof (pi_frames _ _ _ (mi_pt _ _ _ _ _ Hm) _ Hall) as Hfok.
  set (e := pte_new_page (mt_tracker y) (pte_flags_of fl)) in *.
  assert (pte_address e = mt_tracker y) as Ea by (unfold e; apply pte_address_new_page; [done|apply pte_flags_of_range]).
  assert (mmu (p_world p) uaddr = Some e) as Hmmu.
  { rewrite (mmu_leaf T) by done. rewrite (leaf_same_page _ _ uaddr (mt_vaddr y)), Hlf;
      [|done|rewrite Hyv; by apply floor_page_user|by apply floor_same_page].
    unfold e. rewrite new_page_V; [done|done|by eapply tracked_flags]. }
  destruct (notify_exit_spec T p Hw) as (ph & ft & E & _ & Hn & _).
  { right. right. exists e. split; rewrite ?Ea; done. }
  destruct Hn as [(-> & _ & _)|(e' & page' & n & [_ _ Hm' _ _] & Hp' & -> & _)].
  { exists (w_phys (p_world p)), ft. by split_and!. }
  fold uaddr in Hm'. rewrite Hmmu in Hm'. injection Hm' as <-. rewrite Ea, Hpage in Hp'. injection Hp' as <-.
  exists (clear_word p e page), ft. unfold clear_word in *. rewrite Ea in *. split; [exact E|]. split_and!; [|done|].
  - apply (spaces_write _ _ _ _ 1); [done|done|]. by rewrite length_inserts.
  - intros q Hq. unfold set_frame. cbn [ph_ram]. apply lookup_insert_ne. intros <-.
    pose proof (si_refs Hsp (mt_tracker y)) as Hrf. rewrite Hone in Hrf. pose proof (refs_pos _ _ Hy). simpl in Hrf. lia.
Qed.

Lemma spaces_tail x K ph rc : spaces_inv (x :: K) ph rc → spaces_inv (H := H) K ph rc.
Proof.
  destruct x as [T r m]. intros Hs. split.
  - apply Forall_forall. intros s Hsk. exact (si_other Hs s Hsk).
  - exact (si_others_apart Hs).
  - intros f n Hf. destruct (si_counted Hs f n Hf) as (? & ? & ? & _ & ?). by split_and!.
  - intros f. pose proof (si_refs Hs f). lia.
Qed.

Lemma refines_exit s a tid T r m L code :
  refines s a ((tid, mkSpace T r m) :: L) → op_ok a (MExit tid code) →
  ∃ s' L', mem_step (MExit tid code) s = Val (tt, s') ∧ refines s' (abs_step a (MExit tid code)) L' ∧
    (free_frames s ≤ free_frames s')%nat.
Proof.
  intros [Hnx Hw0 Hnd Hpr Hmem Hsp Hfs Hmnt] (mm & Hmm & Hword). destruct (focus_others _ _ _ Hnd) as [HndL Hne].
  apply Forall_cons in Hmem as [[(u & m0 & Hu & Hup & Hur & Hm0 & Huc) (bb & cwd & Hb & Hbm & Hsh & Hth & _ & _) (m1 & Hm1 & Hpg & _) Hown Hid] HL].
  simpl in *. rewrite Hmm in Hm0, Hm1. injection Hm0 as <-. injection Hm1 as <-. set (p := view tid u bb s).
  assert (enter tid s = Some p) as He by (apply enter_view; [done|by rewrite Hup]).
  destruct (view_pcb tid u bb s) as (Hpm & _ & _ & Hpt). fold p in Hpm, Hpt. rewrite Hbm in Hpm.
  assert (w_root (p_world p) = r) as Hpr0 by done.
  destruct (notify_own T r m L.*2 p mm) as (ph & ft & En & Hsp1 & Eal & Hram1); [done|done|exact Huc|done| |].
  { intros A HA. destruct (Hown mm A Hmm HA) as [HA1 HA2]. rewrite Hpg in HA1. split; [done|exact HA2]. }
  set (w1 := set_phys ph (p_world p)) in *.
  destruct (drop_trackers_drops T (trackers_of m) w1) as (w' & Ed & Hw' & Hd).
  { by apply (spaces_world T r m L.*2). }
  { intros q. pose proof (si_refs Hsp1 q). change (strong_count q w1) with (default 0%nat (w_rc (p_world p) !! q)). lia. }
  assert (memset_clear ops (pcb_memset (p_pcb p)) w1 = Val ([], w')) as Ec.
  { rewrite Hpm, memset_clear_trackers, Ed by apply (mi_private _ _ _ _ _ (si_first Hsp1)). done. }
  destruct (exit_last_world code p ft w1 w') as [b' E]; [done|by simpl; rewrite Hup| |done|].
  { unfold other_threads. rewrite Hth in Hpt. destruct (pcb_threads (p_pcb p)) as [|[t f] [|]]; try done.
    simpl in Hpt. injection Hpt as ->. rewrite filter_cons_False; [done|]. by intros [_ ?]. }
  set (sig := tcb_exit_signal (p_tcb p)) in *. set (p' := signal_parent sig (set_pcb b' (set_world w' p))) in *.
  destruct (drops_spaces T r m L.*2 w1 w') as [HsL Hram]; [done|done|done|].
  exists (commit tid p' s), L. split.
  { cbn [mem_step]. unfold sys_exit_group, on_task, mbind, st_bind, outcome_bind. rewrite He. cbn [unwrap]. by rewrite E. }
  split; [|unfold free_frames; simpl; apply subseteq_size; etrans; [|apply (dr_more _ _ _ Hd)]; simpl; by rewrite Eal].
  assert (∀ t, is_Some (mc_procs (abs_step a (MExit tid code)) !! t) → t ≠ tid ∧ is_Some (mc_procs a !! t)) as Hdel.
  { intros t. simpl. rewrite lookup_delete_is_Some. naive_solver. }
  split; try done.
  - intros t [Htt Ht%Hpr]%Hdel. set_solver.
  - apply (members_kept s _ a _ tid); try done.
    + intros t v0 _ Hv0 _. apply (commit_same tid u bb s p' (tcb_add_signal (if negb (sig =? 0) then from_num sig else SIGCHLD))); try done.
      intros []. done.
    + intros t Ht _. simpl. rewrite Hup, lookup_insert_ne, lookup_delete_ne; done.
    + intros x v Hx Hv Hvx. eapply (same_load x x L.*2 L.*2); try done; [by eapply spaces_tail|].
      intros q Hq. etrans; [by apply Hram|by apply Hram1].
    + intros x y Hx Hy H1. apply (single_count L.*2 m (sy_world s) w' x y); [|done|done|done|].
      * intros f. apply (si_refs Hsp).
      * right. exact (dr_count _ _ _ Hd _).
  - simpl. by rewrite (dr_fs _ _ _ Hd).
Qed.

(** *** Any operation *)
(** Frames an operation may take: a copy and two tables, or a root and two
    tables in each space for every page. *)
Definition op_cost (o : mem_op) : nat :=
  match o with MStore _ _ _ => 3 | MFork _ => 4 * N + 1 | _ => 0 end.

Lemma refines_step s a L o :
  fs_opens → refines s a L → op_ok a o → (op_cost o ≤ free_frames s)%nat →
  ∃ s' L', mem_step o s = Val (tt, s') ∧ refines s' (abs_step a o) L' ∧ (free_frames s ≤ free_frames s' + op_cost o)%nat.
Proof.
  intros Hfs Hr Ho Hfree. destruct o as [tid v b|tid ptr|tid|id|tid code]; cbn [op_cost] in *.
  - assert (is_Some (mc_procs a !! tid)) as Ht by (destruct Ho as (m & -> & _); done).
    destruct (refines_focus s a L tid Hr Ht) as (T & r & m & L0 & Hf & _).
    destruct (refines_store s a tid T r m L0 v b Hf Ho) as (s' & L' & E & Hr' & Hs); [lia|]. exists s', L'. split_and!; [done|done|lia].
  - destruct (refines_focus s a L tid Hr Ho) as (T & r & m & L0 & Hf & _).
    destruct (refines_set_tid s a tid T r m L0 ptr Hf) as (s' & L' & E & Hr' & Hs). exists s', L'. split_and!; [done|done|lia].
  - destruct (refines_focus s a L tid Hr) as (T & r & m & L0 & Hf & _); [apply Ho|].
    destruct (refines_fork s a tid T r m L0 Hfs Hf Ho) as (s' & L' & E & Hr' & Hs); [lia|]. exists s', L'. split_and!; [done|done|lia].
  - eexists _, L. split; [reflexivity|]. split; [|unfold free_frames; simpl; lia].
    destruct Hr as [? ? ? ? Hm ? ? ?]. split; try done. eapply Forall_impl; [exact Hm|]. intros x Hx. apply (member_kept s _ a a); try done.
    intros u Hu. by exists u.
  - destruct (refines_focus s a L tid Hr) as (T & r & m & L0 & Hf & _); [destruct Ho as (m & -> & _); done|].
    destruct (refines_exit s a tid T r m L0 code Hf Ho) as (s' & L' & E & Hr' & Hs). exists s', L'. split_and!; [done|done|lia].
Qed.

Lemma refines_run l : ∀ s a L,
  fs_opens → refines s a L → ops_ok a l → (sum_list_with op_cost l ≤ free_frames s)%nat →
  ∃ s' L', mem_run l s = Val (tt, s') ∧ refines s' (foldl abs_step a l) L'.
Proof.
  induction l as [|o l IH]; intros s a L Hfs Hr Ho Hfree; [by exists s, L|]. destruct Ho as [Ho Hl]. cbn [sum_list_with] in Hfree.
  destruct (refines_step s a L o Hfs Hr Ho) as (s1 & L1 & E1 & Hr1 & Hs1); [lia|].
  destruct (IH s1 (abs_step a o) L1 Hfs Hr1 Hl) as (s' & L' & E & Hr'); [lia|].
  exists s', L'. split; [|done]. unfold mem_run in *. cbn [st_iter]. unfold mbind, st_bind. by rewrite E1.
Qed.

(** C2: Every process has a memory of its own.  Processes with one thread each,
    private areas and no System V segment, that store, name a word to clear,
    fork and end in any order and number, on one memory with one frame
    allocator, refine a machine with a separate memory for each: while frames
    last, no operation fails, a load of a process reads its own last store or
    what its parent had when it was forked, never a store of another process,
    and frames of ended processes are reused without carrying anything over.
    A process that ends has no word to clear or has stored to the word's page
    since its last fork; without that the claim is false
    ([exit_clears_shared_word]). *)
Theorem processes_isolated s a L l :
  fs_opens → refines s a L → ops_ok a l → (sum_list_with op_cost l ≤ free_frames s)%nat →
  ∃ s', mem_run l s = Val (tt, s') ∧
    ∀ tid m v, mc_procs (foldl abs_step a l) !! tid = Some m → on_pages (my_pages m) v → task_load tid s' v = my_bytes m v.
Proof.
  intros Hfs Hr Ho Hfree. destruct (refines_run l s a L Hfs Hr Ho Hfree) as (s' & L' & E & Hr'). exists s'. split; [done|].
  intros tid m v Hm Hv. destruct (refines_focus s' _ L' tid Hr') as (T & r & mm & L0 & [_ _ _ _ Hmem _ _ _] & _); [by eexists|].
  apply Forall_cons in Hmem as [[(u & m0 & Hu & _ & Hur & _) _ (m1 & Hm1 & _ & _ & Hl) _ _] _]. simpl in *.
  rewrite Hm in Hm1. injection Hm1 as <-. unfold task_load. rewrite Hu. cbn [mbind option_bind]. rewrite Hur. by apply Hl.
Qed.
End isolation.

(** ** A concrete history: a fork, stores of both and the end of the parent,
    which has a word to clear *)
#[local] Opaque one_world.

Definition one_machine : Machine :=
  mkMachine 1 {[ 1 := mkMemory [0x10000] (load (w_phys one_world) 0x80000000) 0 [0x10000] ]}.

Lemma one_refines : ∃ T, refines (λ _, True) [(pb_new, tt)] (λ p, p = pb_new) 1 one_sys one_machine [(1, mkSpace T 0x80000000 [one_area])].
Proof.
  destruct one_fork_ready as [T [Hsp _ _ _]]. exists T. cbn [p_world one_proc] in Hsp. rewrite one_root in Hsp. split.
  - reflexivity.
  - discriminate.
  - apply NoDup_singleton.
  - intros tid Ht. simpl in Ht. destruct (decide (tid = 1)) as [->|Hne]; [apply list_elem_of_here|].
    rewrite lookup_singleton_ne in Ht by done. destruct Ht as [? [=]].
  - apply Forall_singleton. split.
    + eexists _, _. split; [reflexivity|]. split; [reflexivity|]. split; [reflexivity|]. split; reflexivity.
    + eexists _, (new_dev tt). split; [reflexivity|]. split; [reflexivity|]. split; [reflexivity|]. split; [reflexivity|]. split; reflexivity.
    + eexists. split; [reflexivity|]. split; [reflexivity|]. split; [simpl; lia|]. intros v _. reflexivity.
    + intros m A Hm HA. simpl in Hm. rewrite lookup_singleton_eq in Hm. injection Hm as <-.
      split; [exact HA|]. intros y Hy _. destruct one_world_ok as (T0 & _ & _ & Hrc).
      apply list_elem_of_singleton in Hy as ->. change (sy_world one_sys) with one_world. rewrite Hrc. reflexivity.
    + simpl. lia.
  - exact Hsp.
  - done.
  - reflexivity.
Qed.

Lemma any_opens : fs_opens any_ops (λ _, True) [(pb_new, tt)] (λ p, p = pb_new).
Proof. split; [intros s path _ ->|intros s _]; eexists _, _; (split; [reflexivity|done]). Qed.

Definition one_history : list mem_op :=
  [MSetTid 1 0x10008; MFork 1; MSpawn 2; MStore 1 0x10001 5; MStore 2 0x10001 6; MExit 1 0].

Lemma one_history_ok : ops_ok one_machine one_history.
Proof.
  assert (on_pages [0x10000] 0x10001) as Hon by (split; [split; lia|]; apply list_elem_of_singleton; reflexivity).
  split; [by eexists|]. split; [split; [by eexists|reflexivity]|]. split; [done|].
  split; [eexists; split; [reflexivity|exact Hon]|]. split; [eexists; split; [reflexivity|exact Hon]|].
  split; [|done]. eexists. split; [reflexivity|]. right. split; [split; simpl; lia|]. split; [discriminate|]. apply list_elem_of_here.
Qed.

Lemma processes_isolated_witness :
  ∃ s', mem_run any_ops one_history one_sys = Val (tt, s') ∧ task_load 2 s' 0x10001 = Some 6.
Proof.
  destruct one_refines as [T HT].
  destruct (processes_isolated any_ops (λ _, True) [(pb_new, tt)] (λ p, p = pb_new) 1 one_sys one_machine
    [(1, mkSpace T 0x80000000 [one_area])] one_history) as (s' & E & Hl).
  - exact any_opens.
  - exact HT.
  - exact one_history_ok.
  - destruct one_world_ok as (T0 & Hw & _). pose proof one_free as Hfree. unfold get_free_pages in Hfree.
    rewrite fa_count_free in Hfree by apply Hw. unfold free_frames. change (sum_list_with (op_cost 1) one_history) with 11%nat.
    change (sy_world one_sys) with one_world. lia.
  - exists s'. split; [exact E|].
    refine (Hl 2 (mkMemory [0x10000] (λ u, if bool_decide (u = 0x10001) then Some 6 else load (w_phys one_world) 0x80000000 u) 0 [0x10000])
      0x10001 eq_refl _).
    split; [split; lia|]. apply list_elem_of_singleton. reflexivity.
Defined.

(** Why the word has to be on a page of its own: the end of a process clears the
    word through the physical address [translate] gives, without the copy a
    store of the process would make.  Process 1 stores 5, forks and ends; its
    child, which shares the page, reads 0 where the machine with separate
    memories has 5. *)
Theorem exit_clears_shared_word :
  let l := [MSetTid 1 0x10000; MStore 1 0x10001 5; MFork 1; MSpawn 2; MExit 1 0] in
  (∃ s', mem_run any_ops l one_sys = Val (tt, s') ∧ task_load 2 s' 0x10001 = Some 0) ∧
  (mc_procs (foldl abs_step one_machine l) !! 2 ≫= λ m, my_bytes m 0x10001) = Some 5.
Proof.
  intros l. split; [|reflexivity].
  assert (match mem_run any_ops l one_sys with Val (_, s') => task_load 2 s' 0x10001 | Panic => None end = Some 0) as H
    by (vm_compute; reflexivity).
  destruct (mem_run any_ops l one_sys) as [[[] s']|]; [|discriminate]. exists s'. split; [reflexivity|exact H].
Qed.
