(* ===== verification/Dispatch.v ===== *)
(** * System calls by number ([kernel/src/syscall/mod.rs])

    [UserTaskContainer::syscall] turns a call number and six registers into a
    call of a handler, each register converted to the type of the handler's
    parameter.  The numbers are those of the riscv64 target; the arms for other
    targets are left out. *)

From S2P Require Import Prelude Vfs.
Local Open Scope Z_scope.

(** The handlers; [Zero] is an arm that answers 0. *)
Inductive Handler :=
  | H_getcwd | H_chdir | H_openat | H_dup | H_dup3 | H_close | H_mkdir_at | H_umask | H_fchmodat | H_fchown
  | H_fchownat | H_read | H_write | H_execve | H_exit | H_brk | H_getpid | H_pipe2 | H_set_robust_list | H_tgkill
  | H_gettimeofday | H_nanosleep | H_uname | H_unlinkat | H_symlinkat | H_linkat | H_fstat | H_wait4 | H_sched_yield
  | H_getppid | H_mount | H_umount2 | H_mmap | H_munmap | H_times | H_getdents64 | H_set_tid_address | H_gettid
  | H_lseek | H_clock_gettime | H_sigtimedwait | H_sigsuspend | H_prlimit64 | H_readv | H_writev | H_statfs | H_pread
  | H_pwrite | H_fstatat | H_statx | H_geteuid | H_getegid | H_getgid | H_getuid | H_getpgid | H_getsid | H_prctl
  | H_mknodat | H_ioctl | H_fcntl | H_utimensat | H_sigprocmask | H_sigaction | H_mprotect | H_futex | H_readlinkat
  | H_sendfile | H_tkill | H_sigreturn | H_get_robust_list | H_ppoll | H_getrusage | H_setpgid | H_pselect | H_kill
  | H_fsync | H_fdatasync | H_flock | H_faccess_at | Zero | H_socket | H_socket_pair | H_bind | H_listen | H_accept
  | H_accept4 | H_connect | H_recvfrom | H_sendto | H_klogctl | H_info | H_msync | H_exit_group | H_truncate
  | H_setuid | H_setgid | H_ftruncate | H_shmget | H_shmat | H_shmctl | H_msgget | H_msgctl | H_msgrcv | H_msgsnd
  | H_semget | H_semctl | H_semop | H_setitimer | H_setsockopt | H_getsockopt | H_getsockname | H_getpeername
  | H_setsid | H_shutdown | H_sched_getparam | H_sched_setscheduler | H_clock_getres | H_clock_nanosleep
  | H_epoll_create1 | H_epoll_ctl | H_epoll_wait | H_copy_file_range | H_getrandom | H_sched_getaffinity
  | H_renameat2 | H_clone | H_membarrier.

#[export] Instance Handler_eq_dec : EqDecision Handler.
Proof. solve_decision. Defined.

(** The types of the handlers' parameters; a [UserRef] keeps the address. *)
Inductive ArgType := Usize | Isize | I32 | U32 | I64 | Ptr.

Definition signed (bits x : Z) : Z := let y := x mod 2 ^ bits in if y <? 2 ^ (bits - 1) then y else y - 2 ^ bits.

(** [args[i] as _], [args[i].into()] *)
Definition cast (ty : ArgType) (x : Z) : Z :=
  match ty with
  | Usize | Ptr => x
  | Isize | I64 => signed 64 x
  | I32 => signed 32 x
  | U32 => x mod 2 ^ 32
  end.

Inductive ArgSrc := Reg (i : nat) | Const (z : Z).

Record Entry := mkEntry { en_sysno : Z; en_handler : Handler; en_args : list (ArgSrc * ArgType) }.

(** The types of parameters filled from the registers 0, 1, ... in order. *)
Definition regs (tys : list ArgType) : list (ArgSrc * ArgType) := imap (λ i ty, (Reg i, ty)) tys.

(** The arms from [getcwd] to [gettid], in the order of the source. *)
Definition ARMS_getcwd : list Entry := [
  mkEntry 17 H_getcwd (regs [Ptr; Usize]);
  mkEntry 49 H_chdir (regs [Ptr]);
  mkEntry 56 H_openat (regs [Isize; Ptr; Usize; Usize]);
  mkEntry 23 H_dup (regs [Usize]);
  mkEntry 24 H_dup3 (regs [Usize; Usize]);
  mkEntry 57 H_close (regs [Usize]);
  mkEntry 34 H_mkdir_at (regs [Isize; Ptr; Usize]);
  mkEntry 166 H_umask (regs [Usize]);
  mkEntry 53 H_fchmodat (regs [Isize; Ptr; Usize; Usize]);
  mkEntry 55 H_fchown (regs [Usize; Usize; Usize]);
  mkEntry 54 H_fchownat (regs [Isize; Ptr; Usize; Usize; Usize]);
  mkEntry 63 H_read (regs [Usize; Ptr; Usize]);
  mkEntry 64 H_write (regs [Usize; Ptr; Usize]);
  mkEntry 221 H_execve (regs [Ptr; Ptr; Ptr]);
  mkEntry 93 H_exit (regs [Isize]);
  mkEntry 214 H_brk (regs [Usize]);
  mkEntry 172 H_getpid (regs []);
  mkEntry 59 H_pipe2 (regs [Ptr; Usize]);
  mkEntry 99 H_set_robust_list (regs [Usize; Usize]);
  mkEntry 131 H_tgkill (regs [Usize; Usize; Usize]);
  mkEntry 169 H_gettimeofday (regs [Ptr; Usize]);
  mkEntry 101 H_nanosleep (regs [Ptr; Ptr]);
  mkEntry 160 H_uname (regs [Ptr]);
  mkEntry 35 H_unlinkat (regs [Isize; Ptr; Usize]);
  mkEntry 36 H_symlinkat (regs [Ptr; Isize; Ptr]);
  mkEntry 37 H_linkat (regs [Isize; Ptr; Isize; Ptr; Usize]);
  mkEntry 80 H_fstat (regs [Usize; Usize]);
  mkEntry 260 H_wait4 (regs [Isize; Ptr; Usize]);
  mkEntry 124 H_sched_yield (regs []);
  mkEntry 173 H_getppid (regs []);
  mkEntry 40 H_mount (regs [Ptr; Ptr; Ptr; Usize; Usize]);
  mkEntry 39 H_umount2 (regs [Ptr; Usize]);
  mkEntry 222 H_mmap (regs [Usize; Usize; Usize; Usize; Usize; Usize]);
  mkEntry 215 H_munmap (regs [Usize; Usize]);
  mkEntry 153 H_times (regs [Ptr]);
  mkEntry 61 H_getdents64 (regs [Usize; Ptr; Usize]);
  mkEntry 96 H_set_tid_address (regs [Usize]);
  mkEntry 178 H_gettid (regs [])
].

(** The arms from [lseek] to [accept], in the order of the source. *)
Definition ARMS_lseek : list Entry := [
  mkEntry 62 H_lseek (regs [Usize; Usize; Usize]);
  mkEntry 113 H_clock_gettime (regs [Usize; Ptr]);
  mkEntry 137 H_sigtimedwait (regs []);
  mkEntry 133 H_sigsuspend (regs [Ptr]);
  mkEntry 261 H_prlimit64 (regs [Usize; Usize; Ptr; Ptr]);
  mkEntry 65 H_readv (regs [Usize; Ptr; Usize]);
  mkEntry 66 H_writev (regs [Usize; Ptr; Usize]);
  mkEntry 43 H_statfs (regs [Ptr; Ptr]);
  mkEntry 67 H_pread (regs [Usize; Ptr; Usize; Usize]);
  mkEntry 68 H_pwrite (regs [Usize; Ptr; Usize; Usize]);
  mkEntry 79 H_fstatat (regs [Isize; Ptr; Ptr]);
  mkEntry 291 H_statx (regs [Isize; Ptr; U32; U32; Ptr]);
  mkEntry 175 H_geteuid (regs []);
  mkEntry 177 H_getegid (regs []);
  mkEntry 176 H_getgid (regs []);
  mkEntry 174 H_getuid (regs []);
  mkEntry 155 H_getpgid (regs []);
  mkEntry 156 H_getsid (regs [Usize]);
  mkEntry 167 H_prctl (regs [Usize; Usize; Usize; Usize; Usize]);
  mkEntry 33 H_mknodat (regs [Usize; Ptr; Usize; Usize]);
  mkEntry 29 H_ioctl (regs [Usize; Usize; Usize; Usize; Usize]);
  mkEntry 25 H_fcntl (regs [Usize; Usize; Usize]);
  mkEntry 88 H_utimensat (regs [Isize; Ptr; Ptr; Usize]);
  mkEntry 135 H_sigprocmask (regs [Usize; Ptr; Ptr]);
  mkEntry 134 H_sigaction (regs [Usize; Ptr; Ptr]);
  mkEntry 226 H_mprotect (regs [Usize; Usize; U32]);
  mkEntry 98 H_futex (regs [Ptr; Usize; Usize; Usize; Usize; Usize]);
  mkEntry 78 H_readlinkat (regs [Isize; Ptr; Ptr; Usize]);
  mkEntry 71 H_sendfile (regs [Usize; Usize; Usize; Usize]);
  mkEntry 130 H_tkill (regs [Usize; Usize]);
  mkEntry 139 H_sigreturn (regs []);
  mkEntry 100 H_get_robust_list (regs [I32; Usize; Usize]);
  mkEntry 73 H_ppoll (regs [Ptr; Usize; Ptr; Usize]);
  mkEntry 165 H_getrusage (regs [Usize; Ptr]);
  mkEntry 154 H_setpgid (regs [Usize; Usize]);
  mkEntry 72 H_pselect (regs [Usize; Ptr; Ptr; Ptr; Ptr; Usize]);
  mkEntry 129 H_kill (regs [Usize; Usize]);
  mkEntry 82 H_fsync (regs [Usize]);
  mkEntry 83 H_fdatasync (regs [Usize]);
  mkEntry 32 H_flock (regs [Usize; Usize]);
  mkEntry 48 H_faccess_at (regs [Isize; Ptr; Usize; Usize]);
  mkEntry 439 Zero (regs []);
  mkEntry 198 H_socket (regs [Usize; Usize; Usize]);
  mkEntry 199 H_socket_pair (regs [Usize; Usize; Usize; Ptr]);
  mkEntry 200 H_bind (regs [Usize; Ptr; Usize]);
  mkEntry 201 H_listen (regs [Usize; Usize]);
  mkEntry 202 H_accept (regs [Usize; Usize; Usize])
].

(** The arms from [accept4] to [epoll_pwait], in the order of the source. *)
Definition ARMS_accept4 : list Entry := [
  mkEntry 242 H_accept4 (regs [Usize; Ptr; Usize; Usize]);
  mkEntry 203 H_connect (regs [Usize; Ptr; Usize]);
  mkEntry 207 H_recvfrom (regs [Usize; Ptr; Usize; Usize; Ptr; Ptr]);
  mkEntry 206 H_sendto (regs [Usize; Ptr; Usize; Usize; Ptr; Usize]);
  mkEntry 116 H_klogctl (regs [Usize; Ptr; Usize]);
  mkEntry 179 H_info (regs [Ptr]);
  mkEntry 227 H_msync (regs [Usize; Usize; U32]);
  mkEntry 94 H_exit_group (regs [Usize]);
  mkEntry 45 H_truncate (regs [Ptr; Usize]);
  mkEntry 146 H_setuid (regs [Usize]);
  mkEntry 144 H_setgid (regs [Usize]);
  mkEntry 46 H_ftruncate (regs [Usize; Usize]);
  mkEntry 194 H_shmget (regs [Usize; Usize; Usize]);
  mkEntry 196 H_shmat (regs [Usize; Usize; Usize]);
  mkEntry 195 H_shmctl (regs [Usize; Usize; Usize]);
  mkEntry 186 H_msgget (regs [Usize; Usize]);
  mkEntry 187 H_msgctl (regs [Usize; Usize; Usize]);
  mkEntry 188 H_msgrcv (regs [Usize; Usize; Usize; I64; Usize]);
  mkEntry 189 H_msgsnd (regs [Usize; Usize; Usize; Usize]);
  mkEntry 190 H_semget (regs [Usize; Usize; Usize]);
  mkEntry 191 H_semctl (regs [Usize; Usize; Usize; Usize]);
  mkEntry 193 H_semop (regs [Usize; Usize; Usize]);
  mkEntry 103 H_setitimer (regs [Usize; Ptr; Ptr]);
  mkEntry 208 H_setsockopt (regs [Usize; Usize; Usize; Usize; Usize]);
  mkEntry 209 H_getsockopt (regs [Usize; Usize; Usize; Ptr; Ptr]);
  mkEntry 204 H_getsockname (regs [Usize; Ptr; Usize]);
  mkEntry 205 H_getpeername (regs [Usize; Ptr; Usize]);
  mkEntry 157 H_setsid (regs []);
  mkEntry 210 H_shutdown (regs [Usize; Usize]);
  mkEntry 121 H_sched_getparam (regs [Usize; Usize]);
  mkEntry 119 H_sched_setscheduler (regs [Usize; Usize; Usize]);
  mkEntry 114 H_clock_getres (regs [Usize; Ptr]);
  mkEntry 115 H_clock_nanosleep (regs [Usize; Usize; Ptr; Ptr]);
  mkEntry 20 H_epoll_create1 (regs [Usize]);
  mkEntry 21 H_epoll_ctl (regs [Usize; Usize; Usize; Ptr]);
  mkEntry 22 H_epoll_wait (regs [Usize; Ptr; Usize; Usize; Usize])
].

(** The arms from [copy_file_range] to [membarrier], in the order of the source. *)
Definition ARMS_copy_file_range : list Entry := [
  mkEntry 285 H_copy_file_range (regs [Usize; Ptr; Usize; Ptr; Usize; Usize]);
  mkEntry 278 H_getrandom (regs [Ptr; Usize; Usize]);
  mkEntry 122 Zero (regs []);
  mkEntry 120 Zero (regs []);
  mkEntry 123 H_sched_getaffinity (regs [Usize; Usize; Ptr]);
  mkEntry 159 Zero (regs []);
  mkEntry 276 H_renameat2 (regs [Isize; Ptr; Isize; Ptr; Usize]);
  mkEntry 38 H_renameat2 (regs [Isize; Ptr; Isize; Ptr] ++ [(Const O_RDWR, Usize)]);
  mkEntry 220 H_clone (regs [Usize; Usize; Ptr; Usize; Ptr]);
  mkEntry 283 H_membarrier (regs [Usize; Usize; Usize])
].

Definition TABLE : list Entry := ARMS_getcwd ++ ARMS_lseek ++ ARMS_accept4 ++ ARMS_copy_file_range.

(** [Sysno::new]: the numbers the target knows. *)
Definition SYSNO_RANGES : list (Z * Z) := [(0, 243); (258, 294); (403, 414); (416, 462)].
Definition sysno_valid (call_id : Z) : bool := existsb (λ r, (r.1 <=? call_id) && (call_id <=? r.2)) SYSNO_RANGES.

Definition arg_value (args : list Z) (a : ArgSrc * ArgType) : outcome Z :=
  match a.1 with
  | Reg i => x ← unwrap (args !! i); Val (cast a.2 x)
  | Const z => Val z
  end.

Fixpoint arg_values (args : list Z) (l : list (ArgSrc * ArgType)) : outcome (list Z) :=
  match l with
  | [] => Val []
  | a :: l => x ← arg_value args a; xs ← arg_values args l; Val (x :: xs)
  end.

(** The call that is made, or the error that is returned. *)
Definition dispatch (call_id : Z) (args : list Z) : outcome (result (Handler * list Z)) :=
  if negb (sysno_valid call_id) then Val (Err EINVAL)
  else match list_find (λ e, en_sysno e = call_id) TABLE with
       | Some (_, e) => xs ← arg_values args (en_args e); Val (Ok (en_handler e, xs))
       | None => Val (Err EPERM)
       end.

Section syscall.
(** The handlers, over their converted arguments. *)
Context {St : Type} (run : Handler → list Z → vfs St Z).

Definition syscall (call_id : Z) (args : list Z) : vfs St Z := λ s,
  r ← dispatch call_id args;
  match r with
  | Err e => Val (Err e, s)
  | Ok (Zero, _) => Val (Ok 0, s)
  | Ok (h, xs) => run h xs s
  end.
End syscall.

(** ** What the table says *)
(** A parameter takes the register of its own position, or a constant. *)
Definition arg_ok (x : nat * (ArgSrc * ArgType)) : bool :=
  match x.2.1 with Reg i => (i =? x.1)%nat && (i <? 6)%nat | Const _ => true end.
Definition in_order (l : list (ArgSrc * ArgType)) : bool :=
  forallb arg_ok (imap (λ i a, (i, a)) l).

Lemma table_numbers : NoDup (en_sysno <$> TABLE).
Proof. apply (bool_decide_unpack _). vm_compute. exact I. Qed.

Lemma table_valid : Forall (λ e, sysno_valid (en_sysno e) = true ∧ in_order (en_args e) = true) TABLE.
Proof. repeat (constructor; [by vm_compute|]). constructor. Qed.

Lemma in_order_values args l :
  length args = 6%nat → in_order l = true →
  ∃ xs, arg_values args l = Val xs ∧ length xs = length l ∧
    ∀ i ty, l !! i = Some (Reg i, ty) → xs !! i = cast ty <$> args !! i.
Proof.
  intros Hlen. unfold in_order.
  assert (∀ k, forallb arg_ok (imap (λ i a, ((k + i)%nat, a)) l) = true →
    ∃ xs, arg_values args l = Val xs ∧ length xs = length l ∧
      ∀ i ty, l !! i = Some (Reg (k + i), ty) → xs !! i = cast ty <$> args !! (k + i)%nat) as H.
  2: { intros Ho. apply (H 0%nat). exact Ho. }
  induction l as [|[src ty] l IH]; intros k Ho; cbn [arg_values]; [by exists []|].
  cbn [imap forallb] in Ho. apply andb_true_iff in Ho as [H1 H2]. unfold arg_ok in H1. cbn [fst snd] in H1.
  destruct (IH (S k)) as (xs & Exs & Hl & Hx).
  { erewrite imap_ext; [exact H2|]. intros i a _. simpl. f_equal. lia. }
  assert (∃ x, arg_value args (src, ty) = Val x ∧ ∀ j, src = Reg j → Some x = cast ty <$> args !! j) as (x & Ex & Hxj).
  { unfold arg_value. cbn [fst snd]. destruct src as [j|z]; [|by eexists].
    apply andb_true_iff in H1 as [_ Hj%Nat.ltb_lt].
    destruct (lookup_lt_is_Some_2 args j) as [y Hy]; [lia|]. rewrite Hy. eexists. split; [done|]. intros ? [= ->]. by rewrite Hy. }
  rewrite Ex. cbn [mbind outcome_bind]. rewrite Exs. cbn [mbind outcome_bind]. eexists. split; [done|].
  split; [simpl; by rewrite Hl|]. intros [|i] ty' Hi; simpl in Hi.
  - injection Hi as -> ->. simpl. by apply Hxj.
  - simpl. rewrite (Hx i ty') by (rewrite Hi; do 3 f_equal; lia). do 2 f_equal. lia.
Qed.

(** A call number selects at most one handler: a number the target does not
    know is answered EINVAL, a known number with no arm EPERM, and any other
    number calls the handler of its one arm, without panicking, each parameter
    taken from the register of the same position and converted to the
    parameter's type. *)
Theorem dispatch_spec call_id args :
  length args = 6%nat →
  match list_find (λ e, en_sysno e = call_id) TABLE with
  | None => dispatch call_id args = Val (Err (if sysno_valid call_id then EPERM else EINVAL))
  | Some (_, e) => (∀ e', e' ∈ TABLE → en_sysno e' = call_id → e' = e) ∧
      ∃ xs, dispatch call_id args = Val (Ok (en_handler e, xs)) ∧ length xs = length (en_args e) ∧
        ∀ i ty, en_args e !! i = Some (Reg i, ty) → xs !! i = cast ty <$> args !! i
  end.
Proof.
  intros Hlen. unfold dispatch. destruct (list_find _ TABLE) as [[k e]|] eqn:Hf.
  - apply list_find_Some in Hf as (Hk & He & _).
    assert (e ∈ TABLE) as Hin by (by eapply list_elem_of_lookup_2).
    pose proof table_valid as Hv. rewrite Forall_forall in Hv. destruct (Hv e Hin) as [Hs Ho]. rewrite He in Hs.
    split.
    + intros e' Hin' He'. apply list_elem_of_lookup_1 in Hin' as [k' Hk'].
      assert (k = k') as ->; [|congruence].
      apply (NoDup_lookup (en_sysno <$> TABLE) k k' call_id table_numbers); rewrite list_lookup_fmap; [rewrite Hk|rewrite Hk']; simpl; by f_equal.
    + rewrite Hs. cbn [negb]. destruct (in_order_values args (en_args e) Hlen Ho) as (xs & Exs & Hl & Hx).
      rewrite Exs. cbn [mbind outcome_bind]. by exists xs.
  - by destruct (sysno_valid call_id).
Qed.

(** [dup3] with the high half of a register set, and [shmdt], which has no arm. *)
Lemma dispatch_spec_witness :
  dispatch 24 [3; 9; 0; 0; 0; 0] = Val (Ok (H_dup3, [3; 9])) ∧ dispatch 197 [1; 0; 0; 0; 0; 0] = Val (Err EPERM).
Proof.
  split.
  - destruct (dispatch_spec 24 [3; 9; 0; 0; 0; 0] eq_refl) as (_ & xs & E & Hl & Hx). pose proof E as E'. vm_compute in E'. injection E' as <-. exact E.
  - exact (dispatch_spec 197 [1; 0; 0; 0; 0; 0] eq_refl).
Defined.
