(* ===== verification/InitProc.v ===== *)
(** * Command lines of the first process ([kernel/src/tasks/initproc.rs])

    [command] splits a line into the program and its arguments before it starts
    the program; the lines themselves, the test programs the first process
    runs, are data. *)

From Stdlib Require Import Ascii.
From S2P Require Import Prelude.
Local Open Scope Z_scope.

Definition space : ascii := " ".
Definition backslash : ascii := "\".
Definition single_quote : ascii := "'".
Definition double_quote : ascii := ascii_of_nat 34.

(** The variables of the loop over the characters of the line; an argument is a
    list of characters. *)
Record Split := mkSplit { sp_args : list (list ascii); sp_current : list ascii; sp_in_quotes : bool; sp_escape_next : bool }.

Definition push_arg (s : Split) : list (list ascii) :=
  if bool_decide (sp_current s = []) then sp_args s else sp_args s ++ [sp_current s].

Definition split_char (s : Split) (ch : ascii) : Split :=
  if sp_escape_next s then mkSplit (sp_args s) (sp_current s ++ [ch]) (sp_in_quotes s) false
  else if bool_decide (ch = backslash) then mkSplit (sp_args s) (sp_current s) (sp_in_quotes s) true
  else if bool_decide (ch = single_quote ∨ ch = double_quote) then
    mkSplit (sp_args s) (sp_current s) (negb (sp_in_quotes s)) (sp_escape_next s)
  else if bool_decide (ch = space) && negb (sp_in_quotes s) then mkSplit (push_arg s) [] (sp_in_quotes s) (sp_escape_next s)
  else mkSplit (sp_args s) (sp_current s ++ [ch]) (sp_in_quotes s) (sp_escape_next s).

(** The arguments of a command line. *)
Definition command_args (cmd : list ascii) : list (list ascii) := push_arg (foldl split_char (mkSplit [] [] false false) cmd).

(** What [command] does with the line: nothing for an empty one, else the
    program to open and the arguments it is given, its own name first. *)
Definition command_start (cmd : list ascii) : option (list ascii * list (list ascii)) :=
  match command_args cmd with
  | [] => None
  | filename :: remaining => Some (filename, filename :: remaining)
  end.

(** ** Writing a command line

    A backslash before every character makes a line that splits into given
    arguments. *)
Definition quote (arg : list ascii) : list ascii := concat ((λ c, [backslash; c]) <$> arg).
Fixpoint command_line (args : list (list ascii)) : list ascii :=
  match args with
  | [] => []
  | [a] => quote a
  | a :: args => quote a ++ space :: command_line args
  end.

Lemma split_escaped args cur c :
  split_char (split_char (mkSplit args cur false false) backslash) c = mkSplit args (cur ++ [c]) false false.
Proof. done. Qed.

Lemma split_quote arg args cur :
  foldl split_char (mkSplit args cur false false) (quote arg) = mkSplit args (cur ++ arg) false false.
Proof.
  revert cur. induction arg as [|c arg IH]; intros cur; [by rewrite app_nil_r|].
  change (quote (c :: arg)) with ([backslash; c] ++ quote arg). rewrite foldl_app. cbn [foldl].
  rewrite split_escaped. rewrite IH. by rewrite <- app_assoc.
Qed.

Lemma split_space args cur :
  split_char (mkSplit args cur false false) space = mkSplit (push_arg (mkSplit args cur false false)) [] false false.
Proof. done. Qed.

Lemma split_line args : ∀ done_,
  Forall (λ a, a ≠ []) args →
  push_arg (foldl split_char (mkSplit done_ [] false false) (command_line args)) = done_ ++ args.
Proof.
  induction args as [|a args IH]; intros done_ Hne; [by rewrite app_nil_r|].
  apply Forall_cons in Hne as [Ha Hne]. destruct args as [|b args].
  - cbn [command_line]. rewrite split_quote. unfold push_arg. cbn [sp_current sp_args app].
    by rewrite bool_decide_eq_false_2.
  - cbn [command_line]. rewrite foldl_app, split_quote. cbn [app foldl]. rewrite split_space.
    unfold push_arg at 2. cbn [sp_current sp_args]. rewrite bool_decide_eq_false_2 by done.
    rewrite IH by done. by rewrite <- app_assoc.
Qed.

(** Splitting a command line undoes writing it: the line made of any
    arguments, none of them empty, with a backslash before every character and
    spaces between them, is split into exactly these arguments. *)
Theorem command_args_roundtrip args :
  Forall (λ a, a ≠ []) args → command_args (command_line args) = args.
Proof. intros Hne. unfold command_args. by rewrite split_line. Qed.

Lemma command_args_roundtrip_witness :
  command_args (command_line [String.list_ascii_of_string "/bin/sh"; String.list_ascii_of_string "a b"])
  = [String.list_ascii_of_string "/bin/sh"; String.list_ascii_of_string "a b"].
Proof. apply (command_args_roundtrip [String.list_ascii_of_string "/bin/sh"; String.list_ascii_of_string "a b"]). repeat constructor; discriminate. Defined.

(** An empty argument cannot be given: quotes leave no trace of themselves. *)
Example empty_argument_lost :
  command_args (String.list_ascii_of_string "echo '' x") = [String.list_ascii_of_string "echo"; String.list_ascii_of_string "x"].
Proof. vm_compute. done. Qed.
