(* ===== verification/Launch.v ===== *)
(** * Starting programs from the kernel ([tasks/initproc.rs], [tasks::add_user_task])

    The first process is a task of the kernel: it has no address space and no
    control block of its own.  [command] makes a task for a program, loads it,
    hands it to the executor and waits for its end. *)

From Stdlib Require Import Ascii.
From S2P Require Import Prelude Bytes Frame PageTable Signal Path Vfs File Time Futex Executor MemSet Process Mm Shm Fork Fd Exec Tasks InitProc.
Local Open Scope Z_scope.

(** ** Task types ([executor::task]) *)
Inductive TaskType :=
  | BlankKernel | MonolithicTask | MicroTask | UnikernelTask | RTOSTask | UserDefinedTask1 | UserDefinedTask2.
#[export] Instance task_type_eq_dec : EqDecision TaskType.
Proof. solve_decision. Defined.

Section launch.
Context {S H : Type} (ops : INodeOps S H).
Context (elf_valid : list Z → bool) (elf_at : list Z → ElfFile) (utf8 : list Z → bool).
Notation Sys := (Sys (S := S) (H := H)).
Notation Y := (ST Sys).

(** ** The kernel's view *)
(** A kernel task has no control blocks; the operations run in this view use
    the memory, the file systems and the page table only (see
    [user_task_new_blank]). *)
Definition blank_pcb : ProcessControlBlock H :=
  mkPcb [] [] 0 0 0 [] tms_default rlimits_new [] ∅ [] [] [] None None false 0.

Definition kernel_view (s : Sys) : Proc S H :=
  mkProc (sy_world s) (sy_mounted s) (sy_files s) blank_pcb tcb_new 0 0 None (sy_kern s).

Definition in_kernel {A} (m : ST (Proc S H) A) : Y A := λ s,
  '(a, p) ← m (kernel_view s);
  Val (a, mkSys (p_world p) (p_mounted p) (p_files p) (p_kern p) (sy_pcbs s) (sy_tasks s) (sy_exec s) (sy_calls s)).

(** [BlankKernelTask::before_run] and [UserTask::before_run]: the page table in
    use. *)
Definition use_table (root : Z) (s : Sys) : Sys :=
  mkSys (with_root root (sy_world s)) (sy_mounted s) (sy_files s) (sy_kern s) (sy_pcbs s) (sy_tasks s) (sy_exec s) (sy_calls s).
Definition blank_before_run (s : Sys) : Sys := use_table (kn_boot_root (sy_kern s)) s.
Definition user_before_run (u : UserTask) (s : Sys) : Sys := use_table (ut_root u) s.

(** ** Making a task *)
(** [UserTask::new(Weak::new(), work_dir)]: a process of its own, without a
    parent, kept by the caller; its id. *)
Definition add_task (work_dir : PathBuf) : Y Z := λ s,
  let '(id, e) := task_id_alloc (sy_exec s) in
  '(c, s) ← in_kernel (user_task_new ops id work_dir) (set_exec e s);
  let u := mkUserTask (tk_root c) (tk_pid c) None (tk_tcb c) in
  let s := set_tasks (<[id := u]> (sy_tasks s)) s in
  let s := set_pcbs (<[tk_pid c := tk_pcb c]> (sy_pcbs s)) s in
  Val (id, user_before_run u (set_calls (id :: sy_calls s) s)).

(** The caller's reference is dropped.  When it was the last one the task's
    memory goes back with it; no count of references is kept here, so that is
    left out. *)
Definition let_go (id : Z) (s : Sys) : Sys := set_calls (filter (λ x, x ≠ id) (sy_calls s)) s.

Definition exec_new (fuel : nat) (env : ExecEnv) (id : Z) (dir : PathBuf) (filename : string) (args : list string) :
    Y (result unit) :=
  on_task id (exec_with_process ops elf_valid elf_at utf8 fuel env dir filename args).

(** [tasks::add_user_task]: a program that cannot be loaded stops the kernel. *)
Definition add_user_task (fuel : nat) (env : ExecEnv) (USER_WORK_DIR : PathBuf) (filename : string) (args : list string) : Y Z := λ s,
  '(id, s) ← add_task USER_WORK_DIR s;
  '(r, s) ← exec_new fuel env id pb_new filename args s;
  _ ← expect r;
  let s := blank_before_run s in
  Val (id, let_go id (set_exec (spawn id tt (sy_exec s)) s)).

(** ** [command] *)
(** How far a line got; a started task is still kept by [command]. *)
Inductive Launched := EmptyCommand | UnknownCommand | ExecFailed (e : Errno) | Started (id : Z).

Definition program_of (cmd : string) : option (string * list string) :=
  match command_start (String.list_ascii_of_string cmd) with
  | Some (filename, args) => Some (String.string_of_list_ascii filename, map String.string_of_list_ascii args)
  | None => None
  end.

(** Up to the loop that waits. *)
Definition command (fuel : nat) (env : ExecEnv) (cmd : string) (work_dir : PathBuf) : Y Launched := λ s,
  match program_of cmd with
  | None => Val (EmptyCommand, s)
  | Some (filename, args) =>
      '(r, s) ← in_kernel (k_fs (file_open ops (sy_mounted s) (pb_from filename) O_RDONLY)) s;
      match r with
      | Err _ => Val (UnknownCommand, s)
      | Ok _ =>
          '(id, s) ← add_task work_dir s;
          '(r, s) ← exec_new fuel env id work_dir filename args s;
          match r with
          | Err e => Val (ExecFailed e, let_go id s)
          | Ok _ =>
              let s := blank_before_run s in
              let s := set_exec (spawn id tt (sy_exec s)) s in
              _ ← unwrap (tid2task id s);
              Val (Started id, s)
          end
      end
  end.

(** One turn of the loop: the task is released when it has ended. *)
Definition command_poll (id : Z) (s : Sys) : Poll unit * Sys :=
  match exit_code_of s id with
  | Some _ => (Ready tt, set_exec (release_task id (sy_exec s)) s)
  | None => (Pending, s)
  end.

(** [command] returns and drops the task. *)
Definition command_return (id : Z) (s : Sys) : Sys := let_go id s.

(** ** [kill_all_tasks] *)
(** Tasks of [TASK_MAP] that are still there; user tasks are the ones with a
    control block.  [order] is the order in which the hash map yields its
    keys. *)
Definition get_task_type (s : Sys) (id : Z) : TaskType :=
  match sy_tasks s !! id with Some _ => MonolithicTask | None => BlankKernel end.

Definition kill_task (id : Z) : Y unit := λ s,
  match upgrade s id with
  | Some _ => if bool_decide (get_task_type s id = MonolithicTask) then on_task id (exit_ ops 100) s else Val (tt, s)
  | None => Val (tt, s)
  end.

Definition kill_all_tasks (order : gset Z → list Z) : Y unit := λ s,
  st_iter kill_task (order (ex_map (sy_exec s))) s.

(** [command_iperf] up to the loop that waits for the program; the second
    clean-up follows [command_return]. *)
Definition command_iperf (order : gset Z → list Z) (fuel : nat) (env : ExecEnv) (cmd : string) (work_dir : PathBuf) : Y Launched :=
  _ ← kill_all_tasks order;
  command fuel env cmd work_dir.

(** Whether only tasks of the kernel are left. *)
Definition only_kernel_tasks (order : gset Z → list Z) (s : Sys) : bool :=
  match list_find (λ id, is_Some (upgrade s id) ∧ get_task_type s id ≠ BlankKernel) (order (ex_map (sy_exec s))) with
  | Some _ => false
  | None => true
  end.

(** ** What making and loading a task does to the others *)
(** Making a task does not look at the control blocks of the caller. *)
Lemma user_task_new_blank id dir p c q b t tid pid parent :
  user_task_new ops id dir p = Val (c, q) →
  user_task_new ops id dir (mkProc (p_world p) (p_mounted p) (p_files p) b t tid pid parent (p_kern p)) =
    Val (c, mkProc (p_world q) (p_mounted q) (p_files q) b t tid pid parent (p_kern q)).
Proof.
  destruct p as [w mo fi b0 t0 tid0 pid0 par0 k]. unfold user_task_new, open_new, k_fs, k_world, lift_phys, new_file, set_files, set_world. simpl.
  unfold mbind, outcome_bind.
  destruct (file_open _ _ dir _ _) as [[[f1|?] fs1]|]; simpl; [|done..].
  destruct (file_open _ _ _ _ _) as [[[f2|?] fs2]|]; simpl; [|done..].
  destruct (pt_alloc _ _) as [[root ph]|]; simpl; [|done]. by intros [= <- <-].
Qed.

Lemma on_task_spec {A} id (m : ST (Proc S H) A) s a s' u :
  quiet m → sy_tasks s !! id = Some u → ut_parent u = None → on_task id m s = Val (a, s') →
  sy_exec s' = sy_exec s ∧ sy_calls s' = sy_calls s ∧
  (∃ t, sy_tasks s' = <[id := set_ut_tcb t u]> (sy_tasks s)) ∧
  (∃ b b', sy_pcbs s !! ut_pid u = Some b ∧ sy_pcbs s' = <[ut_pid u := b']> (sy_pcbs s) ∧
     pcb_children b' `sublist_of` pcb_children b).
Proof.
  intros Hq Hu Hp. unfold on_task, enter. rewrite Hu. cbn [mbind option_bind].
  destruct (sy_pcbs s !! ut_pid u) as [b|]; [|done]. cbn [mbind option_bind unwrap outcome_bind].
  destruct (m _) as [[a' p']|] eqn:E; [|done]. cbn [mbind outcome_bind]. intros [= <- <-].
  apply Hq in E as [Epid Hch]. cbn [p_pid p_pcb] in Epid, Hch. unfold commit. cbn [sy_exec sy_calls sy_tasks sy_pcbs].
  rewrite Hu. cbn [mbind option_bind]. rewrite Hp, Epid. split_and!; [done..| |].
  2: { exists b, (p_pcb p'). split_and!; [done..|]. by destruct b. }
  exists (p_tcb p'). apply map_eq. intros i.
  destruct (decide (i = id)) as [->|]; by simplify_map_eq.
Qed.

Lemma add_task_spec dir s id s' :
  add_task dir s = Val (id, s') →
  id = next_id s +w 1 ∧ sy_exec s' = (task_id_alloc (sy_exec s)).2 ∧ sy_calls s' = id :: sy_calls s ∧
  ∃ root b, sy_tasks s' = <[id := mkUserTask root id None tcb_new]> (sy_tasks s) ∧
    sy_pcbs s' = <[id := b]> (sy_pcbs s) ∧ pcb_children b = [] ∧ pcb_threads b = [(id, true)] ∧ pcb_exit_code b = None.
Proof.
  unfold add_task, in_kernel. simpl. unfold user_task_new, open_new, k_fs, k_world, lift_phys, new_file, set_files, set_world. simpl.
  unfold mbind, outcome_bind.
  destruct (file_open _ _ dir _ _) as [[[f1|?] fs1]|]; simpl; [|done..].
  destruct (file_open _ _ _ _ _) as [[[f2|?] fs2]|]; simpl; [|done..].
  destruct (pt_alloc _ _) as [[root ph]|]; simpl; [|done]. intros [= <- <-].
  simpl. split_and!; [done..|]. by eexists _, _.
Qed.

(** Loading a program keeps the process and adds no child. *)
Hint Resolve quiet_user_store quiet_task_frame_alloc quiet_clear_memset quiet_task_map quiet_push_area : quiet.
Lemma quiet_push_arr l : quiet (push_arr ops l).
Proof. unfold push_arr, set_sp. quiet_tac. Qed.
Lemma quiet_push_num n : quiet (push_num ops n).
Proof. unfold push_num, set_sp. quiet_tac. Qed.
Hint Resolve quiet_push_arr quiet_push_num : quiet.
Lemma quiet_push_word n : quiet (push_word ops n).
Proof. unfold push_word. quiet_tac. Qed.
Hint Resolve quiet_push_word : quiet.
Lemma quiet_push_pair x : quiet (push_pair ops x).
Proof. unfold push_pair. quiet_tac. Qed.
Hint Resolve quiet_push_pair : quiet.
Lemma quiet_st_map {A B} (f : A → ST (Proc S H) B) l : (∀ x, quiet (f x)) → quiet (st_map f l).
Proof. intros Hf. induction l as [|x l IH]; cbn [st_map]; eauto with quiet. Qed.
Hint Resolve quiet_st_map : quiet.
Lemma quiet_push_vectors libc args path b e c z a : quiet (push_vectors ops libc args path b e c z a).
Proof. unfold push_vectors, push_str. eauto 30 with quiet. Qed.
Hint Resolve quiet_push_vectors : quiet.
Lemma quiet_init_task_stack libc args b path e c z a h : quiet (init_task_stack ops libc args b path e c z a h).
Proof. unfold init_task_stack. quiet_tac. Qed.
Hint Resolve quiet_init_task_stack : quiet.
Lemma quiet_load_segment b buf ph : quiet (load_segment ops b buf ph).
Proof. unfold load_segment. quiet_tac. Qed.
Lemma quiet_exec_clear : quiet (exec_clear ops).
Proof. unfold exec_clear. quiet_tac. Qed.
Lemma quiet_sub_area a b : quiet (sub_area ops a b).
Proof. unfold sub_area. quiet_start. repeat quiet_step. apply sf_same; [done|]. simpl. by destruct (p_pcb p). Qed.
Hint Resolve quiet_load_segment quiet_exec_clear quiet_sub_area : quiet.
Lemma quiet_exec_area a : quiet (exec_area ops a).
Proof. unfold exec_area. quiet_tac. Qed.
Hint Resolve quiet_exec_area : quiet.
Lemma quiet_exec_cached env c args path : quiet (exec_cached ops env c args path).
Proof. unfold exec_cached. eauto with quiet. Qed.
Lemma quiet_exec_static env bs args path : quiet (exec_static ops elf_at env bs args path).
Proof. unfold exec_static. quiet_tac. Qed.
Hint Resolve quiet_exec_cached quiet_exec_static : quiet.
Lemma quiet_read_program path : quiet (read_program ops path).
Proof. unfold read_program, vfs_bind. quiet_tac. Qed.
Hint Resolve quiet_read_program : quiet.
Lemma quiet_exec fuel env : ∀ dir path args, quiet (exec_with_process ops elf_valid elf_at utf8 fuel env dir path args).
Proof.
  induction fuel as [|fuel IH]; intros dir path args; cbn [exec_with_process]; [quiet_tac|]. quiet_tac.
Qed.

(** ** What [command] does *)
(** No task, reference or child has an id ahead of the counter. *)
Record ids_below (s : Sys) : Prop := {
  ib_tasks : ∀ i, is_Some (sy_tasks s !! i) → i ≤ next_id s;
  ib_queue : ∀ i, i ∈ (ex_queue (sy_exec s)).*1 → i ≤ next_id s;
  ib_cores : ∀ i, Some i ∈ ex_cores (sy_exec s) → i ≤ next_id s;
  ib_calls : ∀ i, i ∈ sy_calls s → i ≤ next_id s;
  ib_children : ∀ pid b c, sy_pcbs s !! pid = Some b → c ∈ pcb_children b → c ≤ next_id s;
  ib_next : 0 ≤ next_id s ∧ next_id s + 1 < MAX64
}.

(** A task that nothing refers to is gone. *)
Lemma alive_unreferenced n (s : Sys) id :
  task_held s id = false → (∀ pid b, sy_pcbs s !! pid = Some b → id ∉ pcb_children b) → alive n s id = false.
Proof.
  intros Hh Hc. destruct n as [|n]; cbn [alive]; rewrite Hh; [done|]. cbn [orb].
  apply not_true_is_false. rewrite existsb_exists. intros ([pid b] & Hin & [Hid%bool_decide_eq_true _]%andb_prop).
  apply list_elem_of_In, elem_of_map_to_list in Hin. by apply (Hc _ _ Hin).
Qed.

Lemma held_exec (s : Sys) id : id ∈ (ex_queue (sy_exec s)).*1 → upgrade s id = sy_tasks s !! id.
Proof.
  intros Hq. unfold upgrade. assert (alive (size (sy_tasks s)) s id = true) as ->; [|done].
  assert (task_held s id = true) as Hh by (unfold task_held; by rewrite bool_decide_eq_true_2).
  destruct (size _); cbn [alive]; by rewrite Hh.
Qed.

(** A task that was just spawned is found by its id. *)
Lemma spawned_task (s : Sys) id u : sy_tasks s !! id = Some u → tid2task id (set_exec (spawn id tt (sy_exec s)) s) = Some u.
Proof.
  intros Hu. unfold tid2task. rewrite bool_decide_eq_true_2 by (simpl; set_solver). rewrite held_exec; [done|].
  simpl. rewrite fmap_app. apply elem_of_app. right. by apply list_elem_of_singleton.
Qed.

(** The task of a program that was not loaded is gone. *)
Lemma dropped_task (s s2 : Sys) id b :
  ids_below s → next_id s < id → sy_exec s2 = (task_id_alloc (sy_exec s)).2 → sy_calls s2 = sy_calls s →
  pcb_children b = [] → sy_pcbs s2 = <[id := b]> (sy_pcbs s) → upgrade s2 id = None.
Proof.
  intros Hb Hid Hex Hca Hch Hp. unfold upgrade. rewrite alive_unreferenced; [done| |].
  - unfold task_held. rewrite Hca, Hex. cbn [task_id_alloc snd ex_queue ex_cores]. rewrite !bool_decide_eq_false_2; [done|..].
    + intros Hx%(ib_calls _ Hb). lia.
    + intros Hx%(ib_cores _ Hb). lia.
    + intros Hx%(ib_queue _ Hb). lia.
  - intros pid b'. rewrite Hp. intros [[_ <-]|[_ Hb']]%lookup_insert_Some; [rewrite Hch; apply not_elem_of_nil|].
    intros Hx%(ib_children _ Hb _ _ _ Hb'). lia.
Qed.

(** A made and loaded task: only its own entries are new. *)
Lemma make_and_load fuel env dir filename args s id s1 r s2 :
  ids_below s → add_task dir s = Val (id, s1) → exec_new fuel env id dir filename args s1 = Val (r, s2) →
  id = next_id s + 1 ∧ sy_tasks s !! id = None ∧ sy_exec s2 = (task_id_alloc (sy_exec s)).2 ∧ sy_calls s2 = id :: sy_calls s ∧
  ∃ u b, ut_pid u = id ∧ ut_parent u = None ∧ pcb_children b = [] ∧
    sy_tasks s2 = <[id := u]> (sy_tasks s) ∧ sy_pcbs s2 = <[id := b]> (sy_pcbs s).
Proof.
  intros Hb Ha He. destruct (add_task_spec _ _ _ _ Ha) as (Hid & Hex & Hca & root & b & Ht & Hp & Hch & _ & _).
  rewrite wadd_small in Hid by (destruct (ib_next _ Hb); unfold word64; lia).
  assert (sy_tasks s !! id = None) as Hn.
  { apply eq_None_not_Some. intros Hs%(ib_tasks _ Hb). lia. }
  assert (sy_tasks s1 !! id = Some (mkUserTask root id None tcb_new)) as Hu by (rewrite Ht; by simplify_map_eq).
  destruct (on_task_spec id _ s1 r s2 _ (quiet_exec _ _ _ _ _) Hu eq_refl He) as (E1 & E2 & (t & E3) & (b0 & b' & Hb0 & E4 & Hsub)).
  cbn [ut_pid] in Hb0, E4. rewrite Hp in Hb0. simplify_map_eq. rewrite Hch in Hsub. apply sublist_nil_r in Hsub.
  split_and!; [done|done|by rewrite E1|by rewrite E2|]. exists (set_ut_tcb t (mkUserTask root (next_id s + 1) None tcb_new)), b'.
  split_and!; [done..| |]; rewrite ?E3, ?Ht, ?E4, ?Hp; apply insert_insert_eq.
Qed.

(** C20: What a command line does to the tasks of the system.  An empty line
    changes nothing, and one whose program cannot be opened leaves the tasks
    alone.  A program that cannot be loaded costs an id, but its task is gone
    again: nothing is queued, registered or kept.  A started program is a
    process of its own without a parent, with an id no task had before, last
    in the run queue and registered; the kernel's page table is in use again,
    and no other task or process is changed. *)
Theorem command_spec fuel env cmd dir s r s' :
  ids_below s → command fuel env cmd dir s = Val (r, s') →
  match r with
  | EmptyCommand => program_of cmd = None ∧ s' = s
  | UnknownCommand => sy_exec s' = sy_exec s ∧ sy_tasks s' = sy_tasks s ∧ sy_pcbs s' = sy_pcbs s ∧ sy_calls s' = sy_calls s
  | ExecFailed _ =>
      ex_queue (sy_exec s') = ex_queue (sy_exec s) ∧ ex_map (sy_exec s') = ex_map (sy_exec s) ∧
      sy_calls s' = sy_calls s ∧ next_id s' = next_id s + 1 ∧ upgrade s' (next_id s + 1) = None ∧
      (∀ i, i ≠ next_id s + 1 → sy_tasks s' !! i = sy_tasks s !! i ∧ sy_pcbs s' !! i = sy_pcbs s !! i)
  | Started id =>
      id = next_id s + 1 ∧ next_id s' = id ∧ sy_tasks s !! id = None ∧
      (∃ u, tid2task id s' = Some u ∧ ut_pid u = id ∧ ut_parent u = None) ∧
      ex_queue (sy_exec s') = ex_queue (sy_exec s) ++ [(id, tt)] ∧ ex_map (sy_exec s') = {[id]} ∪ ex_map (sy_exec s) ∧
      sy_calls s' = id :: sy_calls s ∧ w_root (sy_world s') = kn_boot_root (sy_kern s') ∧
      (∀ i, i ≠ id → sy_tasks s' !! i = sy_tasks s !! i ∧ sy_pcbs s' !! i = sy_pcbs s !! i)
  end.
Proof.
  intros Hb. unfold command. destruct (program_of cmd) as [[filename args]|] eqn:Ep; [|intros [= <- <-]; done].
  unfold in_kernel. destruct (k_fs _ _) as [[r0 p0]|]; [|done]. cbn [mbind outcome_bind].
  destruct r0 as [f|e]; [|intros [= <- <-]; done]. set (s0 := mkSys _ _ _ _ _ _ _ _).
  assert (ids_below s0) as Hb0 by (destruct Hb; by split).
  destruct (add_task dir s0) as [[id s1]|] eqn:Ea; [|done]. cbn [mbind outcome_bind].
  destruct (exec_new _ _ _ _ _ _ s1) as [[rx s2]|] eqn:Ee; [|done]. cbn [mbind outcome_bind].
  destruct (make_and_load _ _ _ _ _ _ _ _ _ _ Hb0 Ea Ee) as (Hid & Hn & Hex & Hca & u & b & Hpid & Hpar & Hch & Ht & Hp).
  change (next_id s0) with (next_id s) in Hid. change (sy_exec s0) with (sy_exec s) in Hex. change (sy_calls s0) with (sy_calls s) in Hca.
  change (sy_tasks s0) with (sy_tasks s) in Ht, Hn. change (sy_pcbs s0) with (sy_pcbs s) in Hp.
  assert (∀ i, i ≠ id → sy_tasks s2 !! i = sy_tasks s !! i ∧ sy_pcbs s2 !! i = sy_pcbs s !! i) as Ho.
  { intros i Hi. rewrite Ht, Hp. by simplify_map_eq. }
  assert (ex_next (sy_exec s2) = id) as Hnx.
  { rewrite Hex. simpl. rewrite Hid. apply wadd_small. destruct (ib_next _ Hb). unfold word64, next_id in *. lia. }
  destruct rx as [[]|e].
  - destruct (unwrap _) as [v|] eqn:Ev; [|done]. intros [= <- <-]. cbn [sy_exec sy_tasks sy_pcbs sy_calls set_exec blank_before_run use_table] in *.
    split_and!; [done|exact Hnx|done| |by rewrite Hex|by rewrite Hex|done|done|done].
    exists u. split_and!; [|done..]. apply (spawned_task (blank_before_run s2)). simpl. rewrite Ht. by simplify_map_eq.
  - intros [= <- <-]. unfold let_go. cbn [sy_exec sy_tasks sy_pcbs sy_calls set_calls]. rewrite <- Hid.
    assert (filter (λ x, x ≠ id) (sy_calls s2) = sy_calls s) as Hf.
    { rewrite Hca, filter_cons_False by (intros Hx; by apply Hx). apply filter_all.
      intros x Hx%(ib_calls _ Hb) ->. lia. }
    split_and!; [by rewrite Hex|by rewrite Hex|exact Hf|exact Hnx| |done].
    eapply (dropped_task s); [done|lia|done|exact Hf|exact Hch|exact Hp].
Qed.

(** ** What [kill_all_tasks] does *)
Lemma exit_sets_code code p a p' : exit_ ops code p = Val (a, p') → pcb_exit_code (p_pcb p') = Some code.
Proof.
  unfold exit_, leave, cleanup_process, mbind, outcome_bind. destruct (notify_exit p) as [[? p1]|]; [|done]. destruct (_ && _).
  - destruct (clear_memset _ _) as [[? p2]|]; [|done]. intros [= _ <-]. simpl. by destruct (p_pcb p2).
  - intros [= _ <-]. simpl. by destruct (p_pcb p1).
Qed.

(** The tasks stay, processes lose children and gain exit codes. *)
Record winds_down (s s' : Sys) : Prop := {
  wd_exec : sy_exec s' = sy_exec s;
  wd_calls : sy_calls s' = sy_calls s;
  wd_tasks : ut_pid <$> sy_tasks s' = ut_pid <$> sy_tasks s;
  wd_pcbs : ∀ pid b', sy_pcbs s' !! pid = Some b' →
    ∃ b, sy_pcbs s !! pid = Some b ∧ pcb_children b' `sublist_of` pcb_children b;
  wd_codes : ∀ id, is_Some (exit_code_of s id) → is_Some (exit_code_of s' id)
}.

#[local] Instance winds_down_preorder : PreOrder winds_down.
Proof.
  split.
  - intros s. split; eauto.
  - intros s1 s2 s3 [A1 A2 A3 A4 A5] [B1 B2 B3 B4 B5]. split; [congruence..| |eauto].
    intros pid b3 H3. destruct (B4 _ _ H3) as (b2 & H2 & ?). destruct (A4 _ _ H2) as (b1 & H1 & ?).
    exists b1. split; [done|by etrans].
Qed.

Lemma exit_code_of_pids (s : Sys) id :
  exit_code_of s id = (pid ← (ut_pid <$> sy_tasks s) !! id; b ← sy_pcbs s !! pid; pcb_exit_code b).
Proof. unfold exit_code_of. rewrite lookup_fmap. by destruct (sy_tasks s !! id). Qed.

Lemma commit_pids tid p (s : Sys) : ut_pid <$> sy_tasks (commit tid p s) = ut_pid <$> sy_tasks s.
Proof.
  assert (∀ (m : gmap Z UserTask) t i, ut_pid <$> alter (set_ut_tcb t) i m = ut_pid <$> m) as Ha.
  { intros m t i. apply map_eq. intros j. rewrite !lookup_fmap. destruct (decide (j = i)) as [->|]; simplify_map_eq; [|done].
    by destruct (m !! i). }
  unfold commit. cbn [sy_tasks]. destruct (_ ≫= _), (p_parent p); by rewrite ?Ha.
Qed.

Lemma kill_one id code s a s' :
  on_task id (exit_ ops code) s = Val (a, s') → winds_down s s' ∧ is_Some (exit_code_of s' id).
Proof.
  unfold on_task, enter. destruct (sy_tasks s !! id) as [u|] eqn:Hu; [|done]. cbn [mbind option_bind].
  destruct (sy_pcbs s !! ut_pid u) as [b|] eqn:Hb; [|done]. cbn [mbind option_bind unwrap outcome_bind].
  destruct (exit_ ops _ _) as [[a' p']|] eqn:E; [|done]. cbn [mbind outcome_bind]. intros [= <- <-].
  pose proof (exit_sets_code _ _ _ _ E) as Hc. apply quiet_exit in E as [Epid Hch]. cbn [p_pid p_pcb] in Epid, Hch.
  assert (sy_pcbs (commit id p' s) = <[ut_pid u := p_pcb p']> (sy_pcbs s)) as Hp by (unfold commit; cbn [sy_pcbs]; by rewrite Epid).
  split; [split; [done..|apply commit_pids| |]|].
  - intros pid b'. rewrite Hp. intros [[<- <-]|[_ Hb']]%lookup_insert_Some; [|by exists b']. exists b. split; [done|by destruct b].
  - intros i. rewrite !exit_code_of_pids, commit_pids, Hp. destruct (_ !! i) as [pid|]; [|done]. cbn [mbind option_bind].
    destruct (decide (pid = ut_pid u)) as [->|]; simplify_map_eq; [|done]. by rewrite Hc.
  - rewrite exit_code_of_pids, commit_pids, Hp, lookup_fmap, Hu. simpl. simplify_map_eq. by rewrite Hc.
Qed.

(** A task that is gone does not come back. *)
Lemma winds_down_alive s s' n : ∀ id, winds_down s s' → alive n s' id = true → alive n s id = true.
Proof.
  intros id Hw. revert id. assert (∀ i, task_held s' i = task_held s i) as Hh by (intros i; unfold task_held; by rewrite (wd_exec _ _ Hw), (wd_calls _ _ Hw)).
  induction n as [|n IH]; intros id; cbn [alive]; rewrite Hh; [done|]. destruct (task_held s id); [done|]. cbn [orb].
  rewrite !existsb_exists. intros ([pid b'] & Hin & [Hc%bool_decide_eq_true Ht]%andb_prop).
  apply list_elem_of_In, elem_of_map_to_list in Hin. destruct (wd_pcbs _ _ Hw _ _ Hin) as (b & Hb & Hsub).
  apply existsb_exists in Ht as ([i u'] & Hi & [Hpid%Z.eqb_eq Ha]%andb_prop). apply list_elem_of_In, elem_of_map_to_list in Hi.
  assert ((ut_pid <$> sy_tasks s) !! i = Some (ut_pid u')) as Hu by (rewrite <- (wd_tasks _ _ Hw), lookup_fmap, Hi; done).
  rewrite lookup_fmap in Hu. apply fmap_Some in Hu as (u & Hu & Eu).
  exists (pid, b). split; [by apply list_elem_of_In, elem_of_map_to_list|]. simpl.
  rewrite bool_decide_eq_true_2 by (by eapply elem_of_sublist). cbn [andb]. apply existsb_exists.
  exists (i, u). split; [by apply list_elem_of_In, elem_of_map_to_list|]. simpl in *. rewrite (IH _ Ha), andb_true_r. apply Z.eqb_eq. congruence.
Qed.

Lemma winds_down_upgrade s s' id : winds_down s s' → upgrade s id = None → upgrade s' id = None.
Proof.
  intros Hw. unfold upgrade. assert (size (sy_tasks s') = size (sy_tasks s)) as Hsz.
  { rewrite <- (map_size_fmap ut_pid (sy_tasks s')), <- (map_size_fmap ut_pid (sy_tasks s)). by rewrite (wd_tasks _ _ Hw). }
  rewrite Hsz. destruct (alive _ s' id) eqn:Ea; [|done]. rewrite (winds_down_alive _ _ _ _ Hw Ea). intros Hn.
  pose proof (f_equal (λ m : gmap Z Z, m !! id) (wd_tasks _ _ Hw)) as Ht.
  cbv beta in Ht. rewrite !lookup_fmap, Hn in Ht. by destruct (sy_tasks s' !! id).
Qed.

Definition stopped (s : Sys) (id : Z) : Prop := upgrade s id = None ∨ is_Some (exit_code_of s id).

Lemma winds_down_stopped s s' id : winds_down s s' → stopped s id → stopped s' id.
Proof. intros Hw [Hu|Hc]; [left; by eapply winds_down_upgrade|right; by apply (wd_codes _ _ Hw)]. Qed.

Lemma kill_task_spec id s s' : kill_task id s = Val (tt, s') → winds_down s s' ∧ stopped s' id.
Proof.
  unfold kill_task. destruct (upgrade s id) as [u|] eqn:Hu; [|intros [= <-]; split; [done|by left]].
  assert (get_task_type s id = MonolithicTask) as Ht.
  { unfold get_task_type. unfold upgrade in Hu. destruct (alive _ _ _); [|done]. by rewrite Hu. }
  rewrite bool_decide_eq_true_2 by done. intros [Hw Hc]%kill_one. split; [done|by right].
Qed.

(** Killing all tasks leaves no program running: every task that was
    registered is gone or its process has an exit code, whatever the order in
    which the hash map yields the tasks; no task is added and no process
    gains a child. *)
Theorem kill_all_tasks_stops order s s' :
  (∀ X i, i ∈ X → i ∈ order X) → kill_all_tasks order s = Val (tt, s') →
  winds_down s s' ∧ ∀ id, id ∈ ex_map (sy_exec s) → stopped s' id.
Proof.
  intros Ho. unfold kill_all_tasks. assert (∀ l s, st_iter kill_task l s = Val (tt, s') → winds_down s s' ∧ ∀ id, id ∈ l → stopped s' id) as Hl.
  { clear. induction l as [|i l IH]; intros s.
    - intros [= <-]. split; [done|]. by intros id ?%elem_of_nil.
    - cbn [st_iter]. unfold mbind, st_bind. destruct (kill_task i s) as [[[] s1]|] eqn:E; [|done]. intros E2.
      destruct (kill_task_spec _ _ _ E) as [W1 S1]. destruct (IH _ E2) as [W2 S2]. split; [by etrans|].
      intros id [->|Hid]%elem_of_cons; [by eapply winds_down_stopped|by apply S2]. }
  intros E. destruct (Hl _ _ E) as [Hw Hs]. split; [done|]. intros id Hid. by apply Hs, Ho.
Qed.

(** The loop of [command] ends exactly when the program has, and the task is no
    longer registered then. *)
Theorem command_poll_spec id (s : Sys) :
  match command_poll id s with
  | (Ready _, s') => is_Some (exit_code_of s id) ∧ tid2task id (command_return id s') = None ∧
      ex_queue (sy_exec s') = ex_queue (sy_exec s) ∧ ∀ j, j ∈ ex_map (sy_exec s') ↔ j ∈ ex_map (sy_exec s) ∧ j ≠ id
  | (Pending, s') => s' = s ∧ exit_code_of s id = None
  end.
Proof.
  unfold command_poll. destruct (exit_code_of s id) as [c|] eqn:E; [|done]. split; [by eexists|]. split.
  - unfold tid2task. rewrite bool_decide_eq_false_2; [done|]. simpl. set_solver.
  - split; [done|]. simpl. set_solver.
Qed.
End launch.

(** ** A program is started

    A file system in which every name is a program of one byte, and 128 pages
    of memory. *)
Definition prog_ops : INodeOps unit unit :=
  let d := inode_default unit unit in
  let st := mkStat 0 0 0 0 0 0 0 0 1 0 0 0 timespec_default timespec_default timespec_default in
  mkINodeOps _ _ (λ _ _ _, vfs_ok [7]) (io_writeat d) (io_create d) (io_mkdir d) (io_rmdir d) (io_remove d) (io_read_dir d)
    (λ _ _, vfs_ok tt) (io_truncate d) (io_link d) (io_unlink d) (λ _ _, vfs_ok st) (io_utimes d) (io_poll d) (io_ioctl d)
    (io_flush d) (io_resolve_link d) (io_symlink d) (io_mount d) (io_umount d) (io_statfs d).

Definition prog_elf : ElfFile := mkElf [0x7f; 0x45; 0x4c; 0x46] 0x10000 1 56 64 [mkPh (Some PhLoad) 0 0x10000 1 16 None] NoSection NoSection.

(** Only the first process runs. *)
Definition first_sys : Sys (S := unit) (H := unit) :=
  mkSys start_world (mount_fs [] tt "/") ∅ (mkKern ∅ ∅ 0 0 0x80000000) ∅ ∅ (mkExec [] {[ 1 ]} 1 [Some 1]) [].

Lemma first_sys_ids : ids_below first_sys.
Proof.
  split.
  - intros i [? Hx]. exfalso. exact (lookup_empty_Some _ _ Hx).
  - by intros i ?%elem_of_nil.
  - intros i Hi%list_elem_of_singleton. injection Hi as ->. done.
  - by intros i ?%elem_of_nil.
  - intros pid b c Hx. exfalso. exact (lookup_empty_Some _ _ Hx).
  - vm_compute. by split.
Qed.

Local Notation first_command :=
  (command prog_ops (λ _, true) (λ _, prog_elf) (λ _, true) 1 no_env "/bin/busybox sh" (pb_from "/bin") first_sys).

Lemma command_spec_witness :
  ∃ s', first_command = Val (Started 2, s') ∧ ex_queue (sy_exec s') = [(2, tt)] ∧
    w_root (sy_world s') = 0x80000000 ∧ ∃ u, tid2task 2 s' = Some u ∧ ut_pid u = 2 ∧ ut_parent u = None.
Proof.
  assert (match first_command with Val (Started 2, s') => kn_boot_root (sy_kern s') =? 0x80000000 | _ => false end = true) as Hc by (vm_compute; reflexivity).
  destruct first_command as [[r s']|] eqn:E; [|discriminate Hc].
  pose proof (command_spec prog_ops (λ _, true) (λ _, prog_elf) (λ _, true) 1 no_env "/bin/busybox sh" (pb_from "/bin") first_sys r s' first_sys_ids) as Hs.
  specialize (Hs E).
  destruct r as [| | |id]; [discriminate Hc..|]. destruct Hs as (-> & _ & _ & (u & Hu & Hpid & Hpar) & Hq & _ & _ & Hr & _).
  exists s'. split; [reflexivity|]. split; [exact Hq|]. split; [rewrite Hr; apply Z.eqb_eq; exact Hc|]. exists u. split; [exact Hu|]. split; assumption.
Defined.
