(* ===== verification/Script.v ===== *)
(** * What the first process does ([tasks/initproc.rs], [initproc])

    The first process runs a fixed list of command lines one after the other
    (one list for [riscv64] and one for [loongarch64]), each to its end.  The lines are data
    of the program; the process is a state machine that the executor polls and
    that other tasks interleave with. *)

From Stdlib Require Import Ascii.
From S2P Require Import Prelude Bytes Path Vfs File Executor Process Fork Exec Tasks InitProc Launch.
Local Open Scope Z_scope.

(** ** Steps *)
Inductive Step := SetLibc (path : string) | SetDyn (path : string) | Cmd (line dir : string) | Iperf (line dir : string).

Definition dq : string := String double_quote EmptyString.

Local Open Scope string_scope.

Definition run_in (dir : string) (lines : list string) : list Step := (λ l, Cmd l dir) <$> lines.

Definition ltp_tests : list string :=
  [
   "abort01"; "access01"; "access02"; "aio-stress"; "aio01"; "aio02"; "aiocp"; "aiodio_append"; "aiodio_sparse";
   "alarm02"; "alarm03"; "alarm05"; "alarm06"; "alarm07"; "arch_prctl01"; "asapi_01"; "asapi_02"; "asapi_03";
   "aslr01"; "atof01"; "autogroup01"; "bind01"; "bind02"; "bind03"; "bind04"; "bind05"; "bind06"; "block_dev";
   "bpf_map01"; "bpf_prog01"; "bpf_prog02"; "bpf_prog03"; "bpf_prog04"; "bpf_prog05"; "bpf_prog06"; "bpf_prog07";
   "brk01"; "brk02"; "chdir01"; "chmod01"; "chmod03"; "chmod05"; "chown01"; "chown01_16"; "chown02"; "chown02_16";
   "chown03"; "chown03_16"; "chown05"; "chown05_16"; "clock_getres01"; "clock_gettime01"; "clock_gettime02";
   "clock_gettime03"; "clock_gettime04"; "clock_nanosleep01"; "clock_nanosleep02"; "clock_nanosleep03";
   "clock_nanosleep04"; "clock_settime01"; "clock_settime02"; "clock_settime03"; "clone01"; "clone02"; "clone03";
   "clone06"; "clone07"; "clone08"; "clone09"; "clone301"; "clone302"; "clone303"; "close01"; "close02";
   "close_range01"; "close_range02"; "confstr01"; "creat01"; "creat03"; "creat04"; "dup01"; "dup02"; "dup03";
   "dup04"; "dup05"; "dup06"; "dup07"; "dup201"; "dup202"; "dup203"; "dup204"; "dup205"; "dup206"; "dup207";
   "dup3_01"; "dup3_02"; "ebizzy"; "eject_check_tray"; "endian_switch01"; "epoll_create01"; "epoll_create02";
   "epoll_create1_01"; "epoll_create1_02"; "epoll_ctl01"; "epoll_ctl03"; "execvp01_child"; "exit01"; "exit02";
   "exit_group01"; "f00f"; "faccessat01"; "faccessat02"; "flock01"; "flock02"; "flock03"; "flock04"; "flock06";
   "fork01"; "fork03"; "fork04"; "fork05"; "fork07"; "fork08"; "fork09"; "fork10"; "fork_procs"; "fpathconf01";
   "fstat02"; "fstat02_64"; "fstat03"; "fstat03_64"; "fstatat01"; "futex_wait01"; "futex_wait04"; "futex_wait05";
   "futex_wake01"; "futex_wake02"; "getdomainname01"; "getegid02"; "getegid02_16"; "geteuid01_16"; "geteuid02";
   "geteuid02_16"; "getgid01"; "getgid01_16"; "getgid03"; "gethostbyname_r01"; "gethostid01"; "gethostname01";
   "getitimer01"; "getpagesize01"; "getpgid01"; "getpgid02"; "getpgrp01"; "getpid01"; "getpid02"; "getppid01";
   "getppid02"; "getrandom02"; "getrandom03"; "getrandom04"; "getrlimit01"; "getrusage01"; "getuid01"; "getuid03";
   "getuid03_16"; "inode01"; "lftest"; "link02"; "link04"; "llseek01"; "llseek02"; "llseek03"; "lseek01"; "lseek02";
   "lseek07"; "memcmp01"; "memset01"; "memtoy"; "mesgq_nstest"; "mmap09"; "mmap18"; "msgctl01"; "msgctl02";
   "msgctl12"; "msgget01"; "msgget02"; "msgget03"; "msgget04"; "msgget05"; "msgrcv01"; "msgrcv02"; "msgrcv07";
   "msgrcv08"; "nanosleep01"; "netns_netlink"; "netstress"; "newuname01"; "nice04"; "nice05"; "open01"; "open02";
   "open03"; "open04"; "open06"; "openat01"; "openfile"; "overcommit_memory"; "page01"; "page02"; "pathconf01";
   "pathconf02"; "pipe01"; "pipe10"; "pipe11"; "pipe12"; "pipe14"; "pipe15"; "pipe2_01"; "poll01"; "poll02";
   "posix_fadvise01"; "posix_fadvise01_64"; "posix_fadvise02"; "posix_fadvise02_64"; "posix_fadvise03";
   "posix_fadvise03_64"; "prctl01"; "prctl02"; "prctl04"; "prctl05"; "prctl06"; "prctl06_execve"; "prctl07";
   "prctl08"; "prctl09"; "prctl10"; "pread01"; "proc01"; "proc_sched_rt01"; "process_madvise01"; "process_vm01";
   "pselect01"; "pselect01_64"; "pselect03"; "pselect03_64"; "pt_test"; "pth_str01"; "pth_str02"; "pth_str03";
   "ptrace01"; "ptrace03"; "ptrace04"; "pwrite01"; "pwrite01_64"; "pwrite03"; "pwrite03_64"; "pwrite04";
   "pwrite04_64"; "read01"; "read02"; "read04"; "readahead01"; "readahead02"; "readdir01"; "readdir21"; "readlink01";
   "readlink03"; "readlinkat01"; "readlinkat02"; "readv01"; "realpath01"; "sbrk01"; "sbrk02"; "select02"; "sem_comm";
   "sem_nstest"; "semctl01"; "semctl02"; "semctl03"; "semctl07"; "semctl08"; "semget01"; "setgid01"; "setgid01_16";
   "setgid02"; "setgid02_16"; "setgid03"; "setgid03_16"; "setgroups01"; "setgroups01_16"; "setns01"; "setns02";
   "setpgid01"; "setpgid02"; "setpgrp01"; "setregid02"; "setresuid04"; "setreuid03"; "setreuid05"; "setreuid05_16";
   "setreuid06"; "setreuid06_16"; "setreuid07"; "setreuid07_16"; "setrlimit01"; "setrlimit02"; "setrlimit03";
   "setsockopt03"; "setsockopt04"; "setsockopt05"; "settimeofday01"; "settimeofday02"; "shmget06"; "shmnstest";
   "sigaltstack01"; "sigaltstack02"; "sighold02"; "signal01"; "signal02"; "signal03"; "signal04"; "signal05";
   "signal06"; "sigwait01"; "socket01"; "socket02"; "stack_space"; "starvation"; "stat01"; "stat01_64"; "stat02";
   "stat02_64"; "statx01"; "statx02"; "statx03"; "stime02"; "stream01"; "stream02"; "stream03"; "stream04";
   "stream05"; "stress"; "support_numa"; "syscall01"; "sysconf01"; "tgkill01"; "time-schedule"; "times01"; "times03";
   "tkill01"; "uevent01"; "uevent02"; "uevent03"; "ulimit01"; "umask01"; "umip_basic_test"; "umount01"; "umount02";
   "umount03"; "umount2_01"; "umount2_02"; "uname01"; "uname02"; "uname04"; "unlink05"; "unlink07"; "unlink08";
   "unlinkat01"; "unshare01"; "unshare02"; "userfaultfd01"; "wait01"; "wait02"; "wait401"; "wait402"; "wait403";
   "waitid01"; "waitid02"; "waitid03"; "waitid04"; "waitid05"; "waitid06"; "waitpid01"; "waitpid03"; "waitpid04";
   "write01"; "write02"; "write03"; "write04"; "write05"; "write06"; "writetest"].

Definition musl_static_tests : list (string * string * string) :=
  (λ t, ("/musl/runtest.exe", "entry-static.exe", t)) <$> [
   "argv"; "basename"; "clocale_mbfuncs"; "clock_gettime"; "dirname"; "env"; "fdopen"; "fnmatch"; "fscanf";
   "fwscanf"; "iconv_open"; "inet_pton"; "mbc"; "memstream"; "pthread_cancel_points"; "pthread_cancel";
   "pthread_cond"; "pthread_tsd"; "qsort"; "random"; "search_hsearch"; "search_insque"; "search_lsearch";
   "search_tsearch"; "setjmp"; "snprintf"; "socket"; "sscanf"; "sscanf_long"; "stat"; "strftime"; "string";
   "string_memcpy"; "string_memmem"; "string_memset"; "string_strchr"; "string_strcspn"; "string_strstr"; "strptime";
   "strtod"; "strtod_simple"; "strtof"; "strtol"; "strtold"; "swprintf"; "tgmath"; "time"; "tls_align"; "udiv";
   "ungetc"; "utime"; "wcsstr"; "wcstol"; "daemon_failure"; "dn_expand_empty"; "dn_expand_ptr_0"; "fflush_exit";
   "fgets_eof"; "fgetwc_buffering"; "fpclassify_invalid_ld80"; "ftello_unflushed_append"; "getpwnam_r_crash";
   "getpwnam_r_errno"; "iconv_roundtrips"; "inet_ntop_v4mapped"; "inet_pton_empty_last_field"; "iswspace_null";
   "lrand48_signextend"; "lseek_large"; "malloc_0"; "mbsrtowcs_overflow"; "memmem_oob_read"; "memmem_oob";
   "mkdtemp_failure"; "mkstemp_failure"; "printf_1e9_oob"; "printf_fmt_g_round"; "printf_fmt_g_zeros";
   "printf_fmt_n"; "pthread_robust_detach"; "pthread_cancel_sem_wait"; "pthread_cond_smasher";
   "pthread_condattr_setclock"; "pthread_exit_cancel"; "pthread_once_deadlock"; "pthread_rwlock_ebusy";
   "putenv_doublefree"; "regex_backref_0"; "regex_bracket_icase"; "regex_ere_backref"; "regex_escaped_high_byte";
   "regex_negated_range"; "regexec_nosub"; "rewind_clear_error"; "rlimit_open_files"; "scanf_bytes_consumed";
   "scanf_match_literal_eof"; "scanf_nullbyte_char"; "setvbuf_unget"; "sigprocmask_internal"; "sscanf_eof";
   "statvfs"; "strverscmp"; "syscall_sign_extend"; "uselocale_0"; "wcsncpy_read_overflow"; "wcsstr_false_negative"].

Definition musl_dynamic_tests : list (string * string * string) :=
  (λ t, ("/musl/runtest.exe", "entry-dynamic.exe", t)) <$> [
   "argv"; "basename"; "clocale_mbfuncs"; "clock_gettime"; "dirname"; "dlopen"; "env"; "fdopen"; "fnmatch"; "fscanf";
   "fwscanf"; "iconv_open"; "inet_pton"; "mbc"; "memstream"; "pthread_cancel_points"; "pthread_cancel";
   "pthread_cond"; "pthread_tsd"; "qsort"; "random"; "search_hsearch"; "search_insque"; "search_lsearch";
   "search_tsearch"; "sem_init"; "setjmp"; "snprintf"; "socket"; "sscanf"; "sscanf_long"; "stat"; "strftime";
   "string"; "string_memcpy"; "string_memmem"; "string_memset"; "string_strchr"; "string_strcspn"; "string_strstr";
   "strptime"; "strtod"; "strtod_simple"; "strtof"; "strtol"; "strtold"; "swprintf"; "tgmath"; "time"; "tls_init";
   "tls_local_exec"; "udiv"; "ungetc"; "utime"; "wcsstr"; "wcstol"; "daemon_failure"; "dn_expand_empty";
   "dn_expand_ptr_0"; "fflush_exit"; "fgets_eof"; "fgetwc_buffering"; "fpclassify_invalid_ld80";
   "ftello_unflushed_append"; "getpwnam_r_crash"; "getpwnam_r_errno"; "iconv_roundtrips"; "inet_ntop_v4mapped";
   "inet_pton_empty_last_field"; "iswspace_null"; "lrand48_signextend"; "lseek_large"; "malloc_0";
   "mbsrtowcs_overflow"; "memmem_oob_read"; "memmem_oob"; "mkdtemp_failure"; "mkstemp_failure"; "printf_1e9_oob";
   "printf_fmt_g_round"; "printf_fmt_g_zeros"; "printf_fmt_n"; "pthread_robust_detach"; "pthread_cond_smasher";
   "pthread_condattr_setclock"; "pthread_exit_cancel"; "pthread_once_deadlock"; "pthread_rwlock_ebusy";
   "putenv_doublefree"; "regex_backref_0"; "regex_bracket_icase"; "regex_ere_backref"; "regex_escaped_high_byte";
   "regex_negated_range"; "regexec_nosub"; "rewind_clear_error"; "rlimit_open_files"; "scanf_bytes_consumed";
   "scanf_match_literal_eof"; "scanf_nullbyte_char"; "setvbuf_unget"; "sigprocmask_internal"; "sscanf_eof";
   "statvfs"; "strverscmp"; "syscall_sign_extend"; "tls_get_new_dtv"; "uselocale_0"; "wcsncpy_read_overflow";
   "wcsstr_false_negative"].

(** Every test is announced, run and reported. *)
Definition run_ltp_tests (home_dir : string) : list Step :=
  concat ((λ t, run_in home_dir
    ["/musl/busybox echo RUN LTP CASE " ++ t; "/musl/ltp/testcases/bin/" ++ t;
     "/musl/busybox echo FAIL LTP CASE " ++ t ++ " : 0"]) <$> ltp_tests).

(** [exclude] lists tests that are not run in a directory. *)
Definition excluded (exclude : list (string * string * string * string)) (test : string * string * string) (dir : string) : bool :=
  existsb (λ x, bool_decide (x = (test, dir))) exclude.

Definition test_step (home_dir : string) (exclude : list (string * string * string * string)) (test : string * string * string) : list Step :=
  if excluded exclude test home_dir then []
  else let '(runtest, entry, name) := test in [Cmd (runtest ++ " -w " ++ entry ++ " " ++ name) home_dir].

Definition run_musl_tests (home_dir : string) (exclude : list (string * string * string * string)) : list Step :=
  concat (test_step home_dir exclude <$> app musl_static_tests musl_dynamic_tests).

Definition musl_exclude : list (string * string * string * string) :=
  [("/musl/runtest.exe", "entry-static.exe", "pthread_robust_detach", "/musl")].

(** ** The script *)
Local Open Scope list_scope.
(** Links for the basic commands, and the basic tests. *)
Definition prepare_musl : list Step :=
  [SetLibc "/usr/lib"] ++
  [SetDyn "/lib/ld-musl-riscv64.so.1"] ++
  run_in "/bin" [
   "/bin/busybox sh"; "/musl/busybox sh git_testcode.sh"; "/musl/busybox mkdir -p /bin";
   "/musl/busybox cp /musl/busybox /sleep"; "/musl/busybox cp /musl/busybox /bin/sleep";
   "/musl/busybox cp /musl/busybox /bin/cp"; "/musl/busybox cp /musl/busybox /bin/ls";
   "/musl/busybox cp /musl/busybox /bin/mkdir"; "/musl/busybox cp /musl/busybox /bin/mv";
   "/musl/busybox cp /musl/busybox /bin/rm"; "/musl/busybox cp /musl/busybox /bin/cat";
   "/musl/busybox cp /musl/busybox /bin/echo"; "/musl/busybox cp /musl/busybox /bin/chmod";
   "/musl/busybox chmod +x /sleep"; "/musl/busybox chmod +x /bin/sleep"; "/musl/busybox chmod +x /bin/cp";
   "/musl/busybox chmod +x /bin/ls"; "/musl/busybox chmod +x /bin/mkdir"; "/musl/busybox chmod +x /bin/mv";
   "/musl/busybox chmod +x /bin/rm"; "/musl/busybox chmod +x /bin/cat"; "/musl/busybox chmod +x /bin/echo";
   "/musl/busybox chmod +x /bin/chmod"; "/musl/busybox cp /glibc/lib/libm.so /glibc/lib/libm.so.6";
   "/musl/busybox cp /glibc/lib/libc.so /glibc/lib/libc.so.6";
   "/musl/busybox echo #### OS COMP TEST GROUP START basic-musl ####"; "/musl/busybox sh /musl/basic/run-all.sh";
   "/musl/busybox echo #### OS COMP TEST GROUP END basic-musl ####"].

(** The LTP tests and the network benchmark. *)
Definition ltp_musl : list Step :=
  run_in "/musl" [
   "/musl/busybox echo #### OS COMP TEST GROUP START ltp-musl ####"; "/musl/busybox mkdir -p /tmp";
   "/musl/busybox mkdir -p /var/tmp"; "/musl/busybox chmod 1777 /tmp"; "/musl/busybox chmod 1777 /var/tmp";
   "/musl/busybox touch /tmp/.test_marker"; "/musl/busybox rm -f /tmp/.test_marker"] ++
  run_ltp_tests "/musl" ++
  run_in "/musl" [
   "/musl/busybox echo #### OS COMP TEST GROUP END ltp-musl ####"] ++
  [Iperf "/musl/busybox sh iperf_testcode.sh" "/musl"].

(** The latency and bandwidth benchmarks. *)
Definition lmbench_musl : list Step :=
  run_in "/musl" [
   "/musl/busybox echo #### OS COMP TEST GROUP START lmbench-musl ####"; "/musl/busybox echo latency measurements";
   "/musl/lmbench_all lat_syscall -P 1 null"; "/musl/lmbench_all lat_syscall -P 1 read";
   "/musl/lmbench_all lat_syscall -P 1 write"; "/musl/busybox mkdir -p /var/tmp";
   "/musl/busybox touch /var/tmp/lmbench"; "/musl/lmbench_all lat_syscall -P 1 stat /var/tmp/lmbench";
   "/musl/lmbench_all lat_syscall -P 1 fstat /var/tmp/lmbench";
   "/musl/lmbench_all lat_syscall -P 1 open /var/tmp/lmbench"; "/musl/lmbench_all lat_select -n 100 -P 1 file";
   "/musl/lmbench_all lat_sig -P 1 install"; "/musl/lmbench_all lat_sig -P 1 catch";
   "/musl/lmbench_all lat_sig -P 1 prot lat_sig"; "/musl/lmbench_all lat_pipe -P 1";
   "/musl/lmbench_all lat_proc -P 1 fork"; "/musl/busybox cp hello /tmp"; "/musl/busybox mkdir -p /var/tmp";
   ("/musl/lmbench_all lmdd label=" ++ dq ++ "File /var/tmp/XXX write bandwidth:" ++ dq ++ " of=/var/tmp/XXX move=1m fsync=1 print=3")%string;
   "/musl/lmbench_all lat_pagefault -P 1 /var/tmp/XXX"; "/musl/lmbench_all lat_mmap -P 1 512k /var/tmp/XXX";
   "/musl/busybox echo file system latency"; "/musl/lmbench_all lat_fs /var/tmp";
   "/musl/busybox echo Bandwidth measurements"; "/musl/lmbench_all bw_pipe -P 1";
   "/musl/lmbench_all bw_file_rd -P 1 512k io_only /var/tmp/XXX";
   "/musl/lmbench_all bw_file_rd -P 1 512k open2close /var/tmp/XXX";
   "/musl/lmbench_all bw_mmap_rd -P 1 512k mmap_only /var/tmp/XXX";
   "/musl/lmbench_all bw_mmap_rd -P 1 512k open2close /var/tmp/XXX"; "/musl/busybox echo context switch overhead";
   "/musl/lmbench_all lat_ctx -P 1 -s 32 2 4 8 16 24 32 64 96";
   "/musl/busybox echo #### OS COMP TEST GROUP END lmbench-musl ####"].

(** The tests of the C library and of the shell tools. *)
Definition libctest_musl : list Step :=
  run_in "/musl" [
   "/musl/busybox sh /musl/iozone_testcode.sh"; "/musl/busybox sh /musl/libcbench_testcode.sh";
   "/musl/busybox sh busybox_testcode.sh"; "/musl/busybox sh lua_testcode.sh";
   "/musl/busybox echo #### OS COMP TEST GROUP START libctest-musl ####"] ++
  run_musl_tests "/musl" musl_exclude ++
  run_in "/musl" [
   "/musl/busybox echo #### OS COMP TEST GROUP END libctest-musl ####";
   "/musl/busybox echo #### OS COMP TEST GROUP END libctest-musl ####"].

(** The other C library: links and the basic tests. *)
Definition basic_glibc : list Step :=
  [SetLibc "/glibc/lib"] ++
  [SetDyn "/glibc/lib/ld-linux-riscv64-lp64d.so.1"] ++
  run_in "/glibc/basic" [
   "/glibc/busybox mkdir -p /bin"; "/glibc/busybox cp /glibc/busybox /sleep";
   "/glibc/busybox cp /glibc/busybox /bin/sleep"; "/glibc/busybox chmod +x /sleep";
   "/glibc/busybox chmod +x /bin/sleep"; "/glibc/busybox echo #### OS COMP TEST GROUP START basic-glibc ####";
   "/glibc/busybox sh /glibc/basic/run-all.sh"; "/glibc/busybox echo #### OS COMP TEST GROUP END basic-glibc ####"].

(** Its LTP, Lua and shell tests. *)
Definition ltp_glibc : list Step :=
  run_in "/glibc" [
   "/glibc/busybox mkdir -p /bin"; "/glibc/busybox cp /glibc/busybox /sleep";
   "/glibc/busybox cp /glibc/busybox /bin/sleep"; "/glibc/busybox chmod +x /sleep";
   "/glibc/busybox chmod +x /bin/sleep"; "/glibc/busybox echo #### OS COMP TEST GROUP START ltp-glibc ####";
   "/glibc/busybox mkdir -p /tmp"; "/glibc/busybox mkdir -p /var/tmp"; "/glibc/busybox chmod 1777 /tmp";
   "/glibc/busybox chmod 1777 /var/tmp"; "/glibc/busybox touch /tmp/.test_marker";
   "/glibc/busybox rm -f /tmp/.test_marker"; "/glibc/busybox sh ltp_testcode.sh";
   "/glibc/busybox echo #### OS COMP TEST GROUP END ltp-glibc ####"; "/glibc/busybox sh lua_testcode.sh";
   "/glibc/busybox sh /glibc/libcbench_testcode.sh"; "/glibc/busybox sh busybox_testcode.sh"].

(** Its benchmarks. *)
Definition lmbench_glibc : list Step :=
  run_in "/glibc" [
   "/glibc/busybox echo #### OS COMP TEST GROUP START lmbench-glibc ####";
   "/glibc/busybox echo latency measurements"; "/glibc/lmbench_all lat_syscall -P 1 null";
   "/glibc/lmbench_all lat_syscall -P 1 read"; "/glibc/lmbench_all lat_syscall -P 1 write";
   "/glibc/busybox mkdir -p /var/tmp"; "/glibc/busybox touch /var/tmp/lmbench";
   "/glibc/lmbench_all lat_syscall -P 1 stat /var/tmp/lmbench";
   "/glibc/lmbench_all lat_syscall -P 1 fstat /var/tmp/lmbench";
   "/glibc/lmbench_all lat_syscall -P 1 open /var/tmp/lmbench"; "/glibc/lmbench_all lat_select -n 100 -P 1 file";
   "/glibc/lmbench_all lat_pipe -P 1"; "/glibc/lmbench_all lat_proc -P 1 fork";
   "/glibc/busybox echo Bandwidth measurements"; "/glibc/lmbench_all bw_pipe -P 1";
   "/glibc/lmbench_all bw_file_rd -P 1 512k io_only /var/tmp/XXX";
   "/glibc/lmbench_all bw_file_rd -P 1 512k open2close /var/tmp/XXX";
   "/glibc/lmbench_all bw_mmap_rd -P 1 512k mmap_only /var/tmp/XXX";
   "/glibc/lmbench_all bw_mmap_rd -P 1 512k open2close /var/tmp/XXX"; "/glibc/busybox echo context switch overhead";
   "/glibc/lmbench_all lat_ctx -P 1 -s 32 2 4 8 16 24 32 64 96"; "/glibc/busybox cp hello /tmp";
   "/glibc/busybox mkdir -p /var/tmp";
   ("/glibc/lmbench_all lmdd label=" ++ dq ++ "File /var/tmp/XXX write bandwidth:" ++ dq ++ " of=/var/tmp/XXX move=1m fsync=1 print=3")%string;
   "/glibc/lmbench_all lat_pagefault -P 1 /var/tmp/XXX"; "/glibc/lmbench_all lat_mmap -P 1 512k /var/tmp/XXX";
   "/glibc/busybox echo file system latency"; "/glibc/lmbench_all lat_fs /var/tmp";
   "/glibc/busybox echo #### OS COMP TEST GROUP END lmbench-glibc ####"].

(** The dynamic linker and the libraries are put in place. *)
Definition install_libraries : list Step :=
  run_in "/musl" [
   "/musl/busybox mkdir -p /lib"; "/musl/busybox cp /musl/lib/ld-musl-riscv64.so.1 /lib/";
   "/musl/busybox mkdir -p /usr/lib"; "/musl/busybox cp /musl/lib/libc.so /usr/lib/";
   "/musl/busybox cp /musl/lib/libpcre2-8.so.0 /usr/lib/"; "/musl/busybox cp /musl/lib/libz.so.1 /usr/lib/";
   "/musl/busybox cp /musl/lib/libm.so /usr/lib/"; "/musl/busybox cp /musl/lib/libcrypto.so.3 /usr/lib/";
   "/musl/busybox cp /musl/lib/libssl.so.3 /usr/lib/"; "/musl/busybox ln -sf /usr/lib/libc.so /usr/lib/libc.so.6";
   "/musl/busybox ln -sf /usr/lib/libm.so /usr/lib/libm.so.6"; "/musl/busybox chmod 755 /usr/lib/*.so*";
   "/musl/busybox chmod 755 /lib/*.so*"].

(** The tests the other architecture leaves out. *)
Definition musl_exclude_la : list (string * string * string * string) :=
  ((λ t, ("/musl/runtest.exe", "entry-static.exe", t, "/musl")) <$> [
     "pthread_robust_detach"; "setvbuf_unget"; "pthread_cancel_points"; "pthread_cancel"; "pthread_cond";
     "pthread_tsd"; "pthread_cancel_sem_wait"; "pthread_cond_smasher"; "pthread_condattr_setclock";
     "pthread_exit_cancel"; "pthread_once_deadlock"; "pthread_rwlock_ebusy"]) ++
  ((λ t, ("/musl/runtest.exe", "entry-dynamic.exe", t, "/musl")) <$> [
     "pthread_robust_detach"; "setvbuf_unget"; "pthread_cancel_points"; "pthread_cancel"; "pthread_cond";
     "pthread_tsd"; "pthread_cancel_sem_wait"; "pthread_cond_smasher"; "pthread_condattr_setclock";
     "pthread_exit_cancel"; "pthread_once_deadlock"; "pthread_rwlock_ebusy"; "sem_init"; "tls_init";
     "tls_local_exec"; "tls_get_new_dtv"]).

(** Links and the basic tests. *)
Definition basic_musl_la : list Step :=
  [SetLibc "/musl/lib/libc.so"] ++
  [SetDyn "/musl/lib/libc.so"] ++
  run_in "/musl/basic" [
   "/musl/busybox mkdir -p /bin"; "/musl/busybox sh"; "/musl/busybox cp /musl/busybox /sleep";
   "/musl/busybox cp /musl/busybox /bin/sleep"; "/musl/busybox cp /musl/busybox /bin/cp";
   "/musl/busybox cp /musl/busybox /bin/ls"; "/musl/busybox cp /musl/busybox /bin/mkdir";
   "/musl/busybox cp /musl/busybox /bin/mv"; "/musl/busybox cp /musl/busybox /bin/rm";
   "/musl/busybox cp /musl/busybox /bin/cat"; "/musl/busybox cp /musl/busybox /bin/echo";
   "/musl/busybox cp /musl/busybox /bin/chmod"; "/musl/busybox chmod +x /sleep"; "/musl/busybox chmod +x /bin/sleep";
   "/musl/busybox chmod +x /bin/cp"; "/musl/busybox chmod +x /bin/ls"; "/musl/busybox chmod +x /bin/mkdir";
   "/musl/busybox chmod +x /bin/mv"; "/musl/busybox chmod +x /bin/rm"; "/musl/busybox chmod +x /bin/cat";
   "/musl/busybox chmod +x /bin/echo"; "/musl/busybox chmod +x /bin/chmod";
   "/musl/busybox echo #### OS COMP TEST GROUP START basic-musl ####"; "/musl/busybox sh /musl/basic/run-all.sh";
   "/musl/busybox echo #### OS COMP TEST GROUP END basic-musl ####"].

(** The LTP tests and the network benchmark. *)
Definition ltp_musl_la : list Step :=
  run_in "/musl" [
   "/musl/busybox echo #### OS COMP TEST GROUP START ltp-musl ####"; "/musl/busybox mkdir -p /tmp";
   "/musl/busybox mkdir -p /var/tmp"; "/musl/busybox chmod 1777 /tmp"; "/musl/busybox chmod 1777 /var/tmp";
   "/musl/busybox touch /tmp/.test_marker"; "/musl/busybox rm -f /tmp/.test_marker"] ++
  run_ltp_tests "/musl" ++
  run_in "/musl" [
   "/musl/busybox echo #### OS COMP TEST GROUP END ltp-musl ####"] ++
  [Iperf "/musl/busybox sh iperf_testcode.sh" "/musl"].

(** Benchmarks, shell tools and the tests of the C library. *)
Definition tests_musl_la : list Step :=
  run_in "/musl" [
   "/musl/busybox sh lmbench_testcode.sh"; "/musl/busybox sh /musl/iozone_testcode.sh";
   "/musl/busybox sh libcbench_testcode.sh"; "/musl/busybox sh busybox_testcode.sh";
   "/musl/busybox sh lua_testcode.sh"; "/musl/busybox echo #### OS COMP TEST GROUP START libctest-musl ####"] ++
  run_musl_tests "/musl" musl_exclude_la ++
  run_in "/musl" [
   "/musl/busybox echo #### OS COMP TEST GROUP END libctest-musl ####"].

(** The other C library. *)
Definition glibc_la : list Step :=
  [SetLibc "/glibc/lib"] ++
  [SetDyn "/glibc/lib/ld-linux-loongarch-lp64d.so.1"] ++
  run_in "/glibc/basic" [
   "/glibc/busybox mkdir -p /bin"; "/glibc/busybox cp /glibc/busybox /sleep";
   "/glibc/busybox cp /glibc/busybox /bin/sleep"; "/glibc/busybox chmod +x /sleep";
   "/glibc/busybox chmod +x /bin/sleep"; "/glibc/busybox echo #### OS COMP TEST GROUP START basic-glibc ####";
   "/glibc/busybox sh /glibc/basic/run-all.sh"; "/glibc/busybox echo #### OS COMP TEST GROUP END basic-glibc ####"] ++
  run_in "/glibc" [
   "/glibc/busybox mkdir -p /bin"; "/glibc/busybox cp /glibc/busybox /sleep";
   "/glibc/busybox cp /glibc/busybox /bin/sleep"; "/glibc/busybox chmod +x /sleep";
   "/glibc/busybox chmod +x /bin/sleep"; "/glibc/busybox sh lmbench_testcode.sh";
   "/glibc/busybox sh libcbench_testcode.sh"; "/glibc/busybox sh busybox_testcode.sh";
   "/glibc/busybox sh lua_testcode.sh"].

(** The branch of [initproc] the kernel is built with. *)
Inductive Arch := Riscv64 | Loongarch64.

Definition initproc (arch : Arch) : list Step :=
  match arch with
  | Riscv64 =>
      prepare_musl ++ ltp_musl ++ lmbench_musl ++ libctest_musl ++ basic_glibc ++ ltp_glibc ++ lmbench_glibc ++ install_libraries
  | Loongarch64 => basic_musl_la ++ ltp_musl_la ++ tests_musl_la ++ glibc_la
  end.
Local Close Scope string_scope.

Definition step_line (st : Step) : list string :=
  match st with Cmd l _ | Iperf l _ => [l] | _ => [] end.
Definition script_lines (l : list Step) : list string := concat (step_line <$> l).

(** ** The process *)
Section initproc.
Context {S H : Type} (ops : INodeOps S H).
Context (elf_valid : list Z → bool) (elf_at : list Z → ElfFile) (utf8 : list Z → bool).
(** The order of [TASK_MAP], and the depth of programs started for programs. *)
Context (order : gset Z → list Z) (fuel : nat) (arch : Arch).
Notation Sys := (Sys (S := S) (H := H)).

(** Where the process yields: it waits for the program, or lets [n] rounds pass
    after the program's end. *)
Inductive Phase := Starting | Waiting (id : Z) (iperf : bool) | Settling (n : Z) (id : Z) (iperf : bool) | Finished.
Record Init := mkInit { in_env : ExecEnv (H := H); in_steps : list Step; in_phase : Phase }.

Inductive Event := Line (line : string) (r : Launched) | Ended (id : Z).

Definition SETTLE_ROUNDS : Z := 100000.

Definition set_libc_path (path : string) (env : ExecEnv (H := H)) : ExecEnv := mkEnv (ee_caches env) path (ee_dyn_path env).
Definition set_dyn_path (path : string) (env : ExecEnv (H := H)) : ExecEnv := mkEnv (ee_caches env) (ee_libc_path env) path.

Definition after_iperf (iperf : bool) : ST Sys unit := if iperf then kill_all_tasks ops order else mret tt.

Definition start_line (env : ExecEnv) (iperf : bool) (line dir : string) : ST Sys Launched :=
  if iperf then command_iperf ops elf_valid elf_at utf8 order fuel env line (pb_from dir)
  else command ops elf_valid elf_at utf8 fuel env line (pb_from dir).

(** The steps up to the first program that starts. *)
Fixpoint init_run (env : ExecEnv) (steps : list Step) (s : Sys) : outcome (Init * list Event * Sys) :=
  let run_line iperf line dir steps' :=
    '(r, s) ← start_line env iperf line dir s;
    match r with
    | Started id => Val (mkInit env steps' (Waiting id iperf), [Line line r], s)
    | _ =>
        '(_, s) ← after_iperf iperf s;
        '(i, log, s) ← init_run env steps' s;
        Val (i, Line line r :: log, s)
    end in
  match steps with
  | [] => Val (mkInit env [] Finished, [], s)
  | SetLibc path :: steps => init_run (set_libc_path path env) steps s
  | SetDyn path :: steps => init_run (set_dyn_path path env) steps s
  | Cmd line dir :: steps => run_line false line dir steps
  | Iperf line dir :: steps => run_line true line dir steps
  end.

(** A poll of the process; the events of the poll are returned. *)
Definition init_poll (i : Init) (s : Sys) : outcome (Init * list Event * Sys) :=
  match in_phase i with
  | Starting => init_run (in_env i) (in_steps i) s
  | Waiting id iperf =>
      match command_poll id s with
      | (Pending, s) => Val (i, [], s)
      | (Ready _, s) => Val (mkInit (in_env i) (in_steps i) (Settling (SETTLE_ROUNDS - 1) id iperf), [Ended id], s)
      end
  | Settling n id iperf =>
      if 0 <? n then Val (mkInit (in_env i) (in_steps i) (Settling (n - 1) id iperf), [], s)
      else '(_, s) ← after_iperf iperf (command_return id s); init_run (in_env i) (in_steps i) s
  | Finished => Val (i, [], s)
  end.

(** Histories: polls of the process, and anything other tasks do between
    them. *)
Inductive init_reach : Init → Sys → list Event → Prop :=
  | reach_start env s : init_reach (mkInit env (initproc arch) Starting) s []
  | reach_poll i s log i' ev s' : init_reach i s log → init_poll i s = Val (i', ev, s') → init_reach i' s' (app log ev)
  | reach_other i s s' log : init_reach i s log → init_reach i s' log.

Definition event_line (e : Event) : list string := match e with Line l _ => [l] | Ended _ => [] end.
Definition lines_run (log : list Event) : list string := concat (event_line <$> log).

(** The program that runs after the events, [None] when two would. *)
Definition track (st : option (option Z)) (e : Event) : option (option Z) :=
  match st, e with
  | Some None, Line _ (Started id) => Some (Some id)
  | Some None, Line _ _ => Some None
  | Some (Some id), Ended id' => if id =? id' then Some None else None
  | _, _ => None
  end.
Definition running (log : list Event) : option (option Z) := foldl track (Some None) log.
Definition phase_task (ph : Phase) : option Z := match ph with Waiting id _ => Some id | _ => None end.

Lemma lines_run_app l1 l2 : lines_run (app l1 l2) = app (lines_run l1) (lines_run l2).
Proof. unfold lines_run. by rewrite fmap_app, concat_app. Qed.

Lemma init_run_log steps : ∀ env s i log s',
  init_run env steps s = Val (i, log, s') →
  app (lines_run log) (script_lines (in_steps i)) = script_lines steps ∧
  foldl track (Some None) log = Some (phase_task (in_phase i)) ∧ ∀ id, Ended id ∉ log.
Proof.
  assert (∀ id, Ended id ∉ []) as Hnil by (intros id; apply not_elem_of_nil).
  induction steps as [|st steps IH]; intros env s i log s'; cbn [init_run].
  { intros [= <- <- <-]. by split. }
  assert (∀ iperf line dir, (
    '(r, s) ← start_line env iperf line dir s;
    match r with
    | Started id => Val (mkInit env steps (Waiting id iperf), [Line line r], s)
    | _ => '(_, s) ← after_iperf iperf s; '(i, log, s) ← init_run env steps s; Val (i, Line line r :: log, s)
    end) = Val (i, log, s') →
    app (lines_run log) (script_lines (in_steps i)) = line :: script_lines steps ∧
    foldl track (Some None) log = Some (phase_task (in_phase i)) ∧ ∀ id, Ended id ∉ log) as Hline.
  { intros iperf line dir. unfold mbind, outcome_bind. destruct (start_line _ _ _ _ s) as [[r s1]|]; [|done].
    destruct r as [| | |id];
      [destruct (after_iperf iperf s1) as [[? s2]|]; [|done]; destruct (init_run env steps s2) as [[[i2 log2] s3]|] eqn:E; [|done];
       intros [= <- <- <-]; destruct (IH _ _ _ _ _ E) as (H1 & H2 & H3); cbn; rewrite <- H1; split_and!; [done|done|];
       intros j [|]%elem_of_cons; [done|by eapply H3]..|].
    intros [= <- <- <-]. split_and!; [done..|]. by intros j ?%list_elem_of_singleton. }
  destruct st as [p|p|line dir|line dir]; [apply IH|apply IH|apply Hline|apply Hline].
Qed.

Lemma init_poll_log i s i' ev s' st :
  st = Some (phase_task (in_phase i)) → init_poll i s = Val (i', ev, s') →
  app (lines_run ev) (script_lines (in_steps i')) = script_lines (in_steps i) ∧
  foldl track st ev = Some (phase_task (in_phase i')) ∧ ∀ id, Ended id ∈ ev → is_Some (exit_code_of s id).
Proof.
  intros ->. unfold init_poll. destruct i as [env steps [|id iperf|n id iperf|]]; cbn [in_phase in_env in_steps phase_task].
  - intros (H1 & H2 & H3)%init_run_log. split_and!; [done..|]. by intros id ?%H3.
  - unfold command_poll. destruct (exit_code_of s id) as [c|] eqn:Ec; intros [= <- <- <-].
    + cbn. rewrite Z.eqb_refl. split_and!; [done..|]. intros j [= ->]%list_elem_of_singleton. by eexists.
    + split_and!; [done..|]. by intros j ?%elem_of_nil.
  - destruct (0 <? n).
    + intros [= <- <- <-]. split_and!; [done..|]. by intros j ?%elem_of_nil.
    + unfold mbind, outcome_bind. destruct (after_iperf _ _) as [[? s1]|]; [|done].
      intros (H1 & H2 & H3)%init_run_log. split_and!; [done..|]. by intros j ?%H3.
  - intros [= <- <- <-]. split_and!; [done..|]. by intros j ?%elem_of_nil.
Qed.

(** C21: The first process runs its script in order and one program at a time,
    whatever other tasks do in between: in every reachable state the lines
    handled so far, followed by the lines of the steps left, are the lines of
    the script; no program was started before the previous one was seen to have
    ended, and the process waits for exactly the program that was started last;
    and an end is seen only when the program's process has an exit code. *)
Theorem script_in_order i s log :
  init_reach i s log →
  app (lines_run log) (script_lines (in_steps i)) = script_lines (initproc arch) ∧
  running log = Some (phase_task (in_phase i)) ∧
  ∀ i' ev s' id, init_poll i s = Val (i', ev, s') → Ended id ∈ ev → is_Some (exit_code_of s id).
Proof.
  intros Hr. assert (app (lines_run log) (script_lines (in_steps i)) = script_lines (initproc arch) ∧ running log = Some (phase_task (in_phase i))) as [H1 H2].
  { induction Hr as [|i s log i' ev s' Hr [IH1 IH2] E|]; [done| |done].
    destruct (init_poll_log _ _ _ _ _ _ IH2 E) as (H1 & H2 & _). split.
    - by rewrite lines_run_app, <- app_assoc, H1.
    - unfold running. by rewrite foldl_app. }
  split_and!; [done..|]. intros i' ev s' id E. by apply (init_poll_log _ _ _ _ _ _ H2 E).
Qed.
End initproc.

(** The first poll starts the shell of [/bin]. *)
Local Notation first_poll :=
  (init_poll prog_ops (λ _, true) (λ _, prog_elf) (λ _, true) elements 1 (mkInit no_env (initproc Riscv64) Starting) first_sys).

Lemma script_in_order_witness :
  ∃ i s', first_poll = Val (i, [Line "/bin/busybox sh" (Started 2)], s') ∧ phase_task (in_phase i) = Some 2 ∧
    script_lines (initproc Riscv64) = "/bin/busybox sh"%string :: script_lines (in_steps i).
Proof.
  assert (match first_poll with Val (_, [Line l (Started id)], _) => (id =? 2) && bool_decide (l = "/bin/busybox sh"%string) | _ => false end = true) as Hc
    by (vm_compute; reflexivity).
  destruct first_poll as [[[i ev] s']|] eqn:E; [|discriminate Hc].
  destruct (script_in_order prog_ops (λ _, true) (λ _, prog_elf) (λ _, true) elements 1 Riscv64 i s' (app [] ev)
    (reach_poll _ _ _ _ _ _ _ _ _ _ _ _ _ (reach_start _ _ _ _ _ _ _ no_env first_sys) E)) as (Hl & Hw & _).
  destruct ev as [|[l [| | |id]|] [|]]; try discriminate Hc.
  apply andb_prop in Hc as [->%Z.eqb_eq ->%bool_decide_eq_true]. exists i, s'. split; [reflexivity|]. split; [|exact (eq_sym Hl)].
  injection Hw as Hw. exact (eq_sym Hw).
Defined.

(** ** The lines of the script *)
(** A test of the list is run exactly when it is not excluded. *)
Theorem run_musl_tests_spec dir exclude st :
  st ∈ run_musl_tests dir exclude ↔
  ∃ runtest entry name, (runtest, entry, name) ∈ app musl_static_tests musl_dynamic_tests ∧
    (runtest, entry, name, dir) ∉ exclude ∧ st = Cmd (runtest ++ " -w " ++ entry ++ " " ++ name) dir.
Proof.
  assert (∀ t, excluded exclude t dir = true ↔ (t, dir) ∈ exclude) as Hx.
  { intros t. unfold excluded. rewrite existsb_exists. split.
    - intros (x & Hin & ->%bool_decide_eq_true). by apply list_elem_of_In.
    - intros Hin. exists (t, dir). split; [by apply list_elem_of_In|]. by apply bool_decide_eq_true. }
  unfold run_musl_tests. rewrite list_elem_of_In, in_concat. split.
  - intros (l & Hl & Hst). apply list_elem_of_In, list_elem_of_fmap in Hl as ([[r e] n] & -> & Ht). apply list_elem_of_In in Hst.
    unfold test_step in Hst. destruct (excluded _ _ _) eqn:Ex; [by apply elem_of_nil in Hst|]. apply list_elem_of_singleton in Hst as ->.
    exists r, e, n. split_and!; [done| |done]. rewrite <- Hx. by rewrite Ex.
  - intros (r & e & n & Ht & Hn & ->). rewrite <- Hx in Hn. apply not_true_is_false in Hn.
    exists (test_step dir exclude (r, e, n)). split.
    + apply list_elem_of_In, list_elem_of_fmap. by exists (r, e, n).
    + unfold test_step. rewrite Hn. by left.
Qed.

(** The first argument of every line is the absolute path of a program. *)
Definition absolute (line : string) : bool :=
  match program_of line with
  | Some (String c _, args) => bool_decide (c = "/"%char) && negb (bool_decide (args = []))
  | _ => false
  end.

Theorem script_programs_absolute arch : Forall (λ l, absolute l = true) (script_lines (initproc arch)).
Proof.
  apply Forall_forall. intros l Hl. eapply (proj1 (forallb_forall _ _)); [|by apply list_elem_of_In].
  destruct arch; vm_compute; reflexivity.
Qed.

(** Groups of tests are announced and closed by marker lines; the group
    [libctest-musl] is closed twice. *)
Definition marks (word : string) (l : list string) : list string :=
  filter (λ x, String.prefix ("/musl/busybox echo #### OS COMP TEST GROUP " ++ word) x = true ∨
               String.prefix ("/glibc/busybox echo #### OS COMP TEST GROUP " ++ word) x = true) l.

Example libctest_closed_twice :
  length (marks "START" (script_lines (initproc Riscv64))) = 7%nat ∧ length (marks "END" (script_lines (initproc Riscv64))) = 8%nat ∧
  length (marks "START libctest-musl" (script_lines (initproc Riscv64))) = 1%nat ∧ length (marks "END libctest-musl" (script_lines (initproc Riscv64))) = 2%nat.
Proof. vm_compute. auto. Qed.

(** The dynamic tests run with the linker [/lib/ld-musl-riscv64.so.1], which
    the script puts there only after all of them. *)
Definition install_linker : string := "/musl/busybox cp /musl/lib/ld-musl-riscv64.so.1 /lib/".

Theorem linker_installed_last name :
  (("/musl/runtest.exe", "entry-dynamic.exe", name) : string * string * string) ∈ musl_dynamic_tests →
  ∃ before after, script_lines (initproc Riscv64) = app before after ∧ ("/musl/runtest.exe -w entry-dynamic.exe " ++ name)%string ∈ before ∧
    install_linker ∉ before ∧ install_linker ∈ after.
Proof.
  intros Hn. exists (script_lines (prepare_musl ++ ltp_musl ++ lmbench_musl ++ libctest_musl)%list).
  exists (script_lines (basic_glibc ++ ltp_glibc ++ lmbench_glibc ++ install_libraries)%list). split_and!.
  - unfold script_lines, initproc. by rewrite <- concat_app, <- fmap_app, <- !app_assoc.
  - unfold script_lines. rewrite !fmap_app, !concat_app, !elem_of_app. do 3 right. unfold libctest_musl.
    rewrite !fmap_app, !concat_app, !elem_of_app. right. left. apply list_elem_of_In, in_concat.
    exists [("/musl/runtest.exe -w entry-dynamic.exe " ++ name)%string]. split; [|by left]. apply list_elem_of_In, list_elem_of_fmap.
    exists (Cmd ("/musl/runtest.exe -w entry-dynamic.exe " ++ name) "/musl"). split; [done|]. apply run_musl_tests_spec.
    exists "/musl/runtest.exe"%string, "entry-dynamic.exe"%string, name. split_and!; [apply elem_of_app; by right| |done].
    by intros ?%list_elem_of_singleton.
  - apply (bool_decide_unpack _). vm_compute. done.
  - apply (bool_decide_unpack _). vm_compute. done.
Qed.
